(* ===== verification/_CoqProject ===== *)
-Q . S2P
Prelude.v
Errors.v
Primitives.v
BinarySearch.v
StakingTypes.v
Nominations.v
Nominator.v
Candidate.v
NominatorOps.v
Inflation.v
StakingImpls.v
StakingCalls.v
Offences.v
RelayManager.v
Cccp.v
BtcRelay.v
RelayQueue.v
RegistrationPool.v
CoinSelection.v
Blaze.v
SocketQueue.v
OracleRegistry.v
FeePayment.v
FeePrecompile.v
BfcUtility.v
Instances.v
BridgeInstances.v
Logic.v
CandidateInv.v
CandidateOpsProofs.v
CandidateProps.v
CandidateAdd.v
CandidateChange.v
CandidateTheorems.v
NominatorInv.v
NominatorTheorems.v
OffencesTheorems.v
RelayInv.v
RelayTheorems.v
SelectionTheorems.v
LifecycleTheorems.v
RewardTheorems.v
CccpTheorems.v
CoinSelectionTheorems.v
RelayQueueRun.v
RelayQueueInv.v
RelayQueueAdmin.v
RelayQueueTheorems.v
RelayQueueProgress.v
RelayQueueRuns.v
RegistrationPoolInv.v
RegistrationPoolOps.v
RegistrationPoolTheorems.v
RegistrationPoolRuns.v
BlazeInv.v
BlazeTheorems.v
BlazeRuns.v
SocketQueueInv.v
SocketQueueOps.v
SocketQueueSteps.v
SocketQueueTheorems.v
SocketQueueBlocks.v
Bridge.v
SocketQueueRuns.v
FeeInv.v
FeeTheorems.v
FeeRuns.v
