(* ===== verification/Prelude.v ===== *)
(** * Bifrost node: a verification library of its pallets

    Bifrost is a Substrate chain with an EVM and a bridge to Bitcoin. This
    library models the pallets that decide who validates and who relays, the
    pallets of the bridge, and the payment of fees, and proves what the chain
    relies on.

    ** The program

    - [pallets/bfc-staking]: candidates bond funds, nominators back them, and
      each round the strongest candidates become validators. [lib.rs] holds
      the data and its methods, [pallet/mod.rs] the storage and the calls,
      [pallet/impls.rs] selection, rewards, rounds and sessions.
    - [pallets/bfc-offences]: accumulates the offences of a validator and
      slashes it when they exceed a maximum. Called by the staking pallet
      through the trait [OffenceHandler].
    - [pallets/relay-manager]: relayers bonded to the controllers of full
      validators, their selection and heartbeats. Called by the staking pallet
      through the trait [RelayManager].
    - [primitives/cccp]: the socket messages of the cross-chain protocol.
      [pallets/cccp-relay-queue]: relayers vote on transfers in flight and on
      their outcome; caps on what an asset may have in flight.
    - [pallets/btc-registration-pool]: refund and vault addresses of users,
      keys of the executives, system vaults and their migration.
      [pallets/blaze]: UTXOs, broadcasts and fee rates by vote, the outbound
      pool, coin selection. [pallets/btc-socket-queue]: requests to sign
      Bitcoin transactions, broadcast, rollback, replacement, and the
      transactions composed at the start of a block from the outbound pool.
      The queue calls the other two through [PoolManager] and [BlazeManager].
    - [pallets/oracle-registry]: oracles and aggregators of prices, read
      through the EVM. [pallets/bifrost-evm-tx-payment]: fees in ERC20 tokens,
      at the prices of the registry (trait [OracleRegistryManager]), with its
      precompile and the feeless filter of [runtime/common].
    - [pallets/bfc-utility]: proposals, minting, and the blocked accounts that
      the guards of [runtime/common] stop.

    ** The files

    - [Prelude]: machine integers, the monad, record updates, sorting, ordered
      maps, sums. [Logic]: the program logic ([runs], [preserves], [keeps]).
    - [Errors], [Primitives]: the error types; the traits as classes, and the
      classes of the code outside the repository (balances, [Perbill]).
    - [BinarySearch]: the [binary_search_by] of the standard library with its
      specification.
    - [StakingTypes]: [Config], data types, events, storage. [Nominations],
      [Candidate], [Nominator], [NominatorOps]: the methods of [lib.rs].
      [Inflation]: [inflation.rs]. [StakingImpls]: [impls.rs].
      [StakingCalls]: the calls and the genesis of [mod.rs].
    - [Offences], [RelayManager]: the two pallets, each an instance of the
      class the staking pallet calls.
    - [Cccp], [BtcRelay]: the primitives of the bridge, with the ABI codec and
      the Bitcoin libraries as classes. [RelayQueue], [RegistrationPool],
      [CoinSelection], [Blaze], [SocketQueue]: the pallets of the bridge.
    - [OracleRegistry], [FeePayment], [FeePrecompile], [BfcUtility]: the
      registry, the fee pallet with its adapter, the precompile and the
      filter, and the utility pallet with the guards.
    - [Instances], [BridgeInstances]: concrete runtimes for the witnesses.
    - [CandidateInv], [CandidateOpsProofs], [CandidateProps], [CandidateAdd],
      [CandidateChange], [CandidateTheorems]: the invariant of a candidate.
      [NominatorInv], [NominatorTheorems]: the invariant of a nominator.
      [OffencesTheorems]; [RelayInv], [RelayTheorems]; [SelectionTheorems];
      [LifecycleTheorems]; [RewardTheorems]: the theorems of these parts.
    - [CccpTheorems]; [CoinSelectionTheorems]; [RelayQueueRun], [RelayQueueInv],
      [RelayQueueAdmin], [RelayQueueTheorems], [RelayQueueProgress];
      [RegistrationPoolInv], [RegistrationPoolOps],
      [RegistrationPoolTheorems]; [BlazeInv], [BlazeTheorems]: the same for the
      bridge, each with its invariant, the effect of its calls and its
      theorems. [SocketQueueInv], [SocketQueueOps], [SocketQueueSteps] (the
      interfaces as laws, the steps and the invariant),
      [SocketQueueTheorems], [SocketQueueBlocks]. [Bridge] composes the queue,
      the pool and Blaze over one state.
    - [FeeInv], [FeeTheorems]: the steps and the invariant of the fee pallet,
      and the theorems on fees, the registry and the utility pallet.
    - The files whose names end in [Runs]: runs on concrete states, the
      witnesses of the theorems and the runs behind the findings.

    ** How code is written here

    A call is a function of the monad [M S E A]: from the storage it returns
    [Done], [Fail] with the error, or [Trap] for a panic, with the storage
    written so far. [dispatch] is the boundary of an extrinsic: what is not
    [Done] leaves the storage as it was. Methods on [&mut self] take the value
    and return it. Storage items are the fields of one record per pallet, and
    a pallet that calls another runs it with [lift] on the field that holds
    the other's storage; what it only reads of the chain is its view (the
    records named [..View]). A [ValueQuery] map is a finite map read with its
    default. Iteration over a storage map follows the hash order: a parameter
    of the staking pallet, the order of [map_to_list] in the others.

    The release profile sets no overflow checks: the plain operators of [u32]
    and [u128] wrap ([u32_add], [u128_sub], ...), the [saturating_] ones
    saturate, [U256] panics on overflow. Amounts and counts are [Z]; the
    theorems that need a quantity to fit its type say so.

    ** What is assumed

    Code outside the repository is a class, and the behaviour the theorems
    need of it a class of laws, which the instances show can hold:
    [CurrencyLaws] and [PerbillLaws] (balances, [Perbill]); [EthAbiLaws] (an
    encoding is decoded to what was encoded); [PsbtLaws] (a transaction keeps
    its inputs and outputs); [FeeWorldLaws] (an accepted token moves exactly
    what a transfer says, or nothing and it says so; calls of tokens and of
    the balances leave each other alone). [Crypto], [BtcLib], [PsbtLib] and
    [encode_utxo] (hashes, signatures, addresses, transactions, SCALE) need no
    law unless a theorem names one. [annual_rate_to_round] stands for the
    fixed-point power of [substrate_fixed].

    Where a step relation stands for the chain, it says what it leaves out. A
    relayer is replaced by an account that has not voted
    ([SocketQueueInv], [RelayQueueInv], [BlazeInv]). A transaction composed at
    the start of a block has an identifier no request has ([new_txid]); the
    authority does not submit by hand a message that waits in the outbound
    pool ([spares_outbound]) - the run [paid_twice] shows what happens when it
    does. The other pallets leave the outbound pool to messages the queue
    accepts ([others_ok]), which [bridge_refines_queue] proves of Blaze and
    the pool. In the fee pallet a block has fewer than [2^32 - 1] transactions
    and a fee is settled in its block ([label_ok]); the contracts of accepted
    tokens do not call the precompile of the fee pallet. The limits of
    [clear_prefix] and [clear] ([u32::MAX] entries) are not reached, and no
    account holds the key of the address of a precompile.

    ** Fuel and bounds

    Loops run over lists; the binary search recurses on the size of its
    interval. Branch and bound on [n] UTXOs visits at most [2^(n+1) - 1] nodes
    and stops at the 100000 tries of the code, so the theorems that need the
    whole tree ask for at most 15 UTXOs; nothing else has fuel.

    ** The theorems

    - Nominations: the sorted insertion equals the first-come-first-served
      insertion; adding, removing, increasing and decreasing a nomination
      succeed under the invariant and keep it; refusals leave no trace.
    - Nominators: the totals and the pending requests stay in step through any
      calls; scheduling and cancelling is the identity; requests are not
      executed early; what a decrease may leave.
    - Offences: handling an offence refines a specification on the list of the
      offences; the penalty is bounded by the self-bond; expiry.
    - Relay manager: controllers and relayers stay one-to-one (rule
      induction); replacement never fails; selection, kick-out, heartbeats.
    - Selection: the selected candidates are the strongest of each tier; what
      the storage records of a selection; going offline and kick-out.
    - Life of a candidate: bond-less requests under slashes; the exit returns
      every bond.
    - Rewards: no payout exceeds the reward of the round; the payouts of a
      round make progress.
    - Socket messages: encoding and parsing are inverse.
    - Relay queue: the cap in use is the sum of the transfers in flight; a
      transfer lives once and needs a majority; what is in flight can be
      finalized; polls do not panic.
    - Registration pool: addresses, bonds and keys stay consistent; the vault
      is made by the last key; refunds are settled; a migration goes round.
    - Blaze: a UTXO is available by majority, counts are capped, the outbound
      pool has one message per sequence, selected coins lock; coin selection
      equals an exhaustive search for the least waste, and pays.
    - Socket queue: a transaction has one request and a message is paid by one
      transaction; what a submitted, composed or replacing transaction pays;
      execution and rollback by majority; a migration signs migrations only.
      The bridge of the three pallets takes only steps of the queue.
    - Fees: a transaction is charged exactly once and settled exactly; the
      conversion is exact to a unit; payments are numbered apart; what the
      pool admits can be charged; free calls succeed, once per cooldown, and a
      preference holds for it. Answers of the oracle contract are read back.
    - Utility: proposals are numbered in order; a blocked account is stopped.
    The runs that show where the code departs from its intent are theorems
    too, and are listed as findings.

    ** Not modelled

    The precompiles other than that of the fee token decode EVM calls and
    forward them to the calls modelled here, and read storage. Weights,
    benchmarks, migrations of past storage layouts and the hooks that run
    them, the runtimes, the node and the generated code carry no logic of
    their own. Events are kept in order; logs are left out. *)

From Stdlib Require Export ZArith Lia Permutation.
From stdpp Require Export base numbers sorting strings gmap sets list_basics list_relations list_monad list_misc list.

Declare Scope frame_scope.
Delimit Scope frame_scope with frame.

(** ** Machine integers

    The runtime is compiled with the [release] profile, which sets no
    [overflow-checks]: the plain operators of [u32]/[u128] wrap. *)

Definition u32_modulus : Z := 2 ^ 32.
Definition u64_modulus : Z := 2 ^ 64.
Definition u128_modulus : Z := 2 ^ 128.
Definition u32_add (a b : Z) : Z := (a + b) mod u32_modulus.
Definition u32_sub (a b : Z) : Z := (a - b) mod u32_modulus.
Definition u64_add (a b : Z) : Z := (a + b) mod u64_modulus.
Definition u64_mul (a b : Z) : Z := (a * b) mod u64_modulus.
Definition u128_add (a b : Z) : Z := (a + b) mod u128_modulus.
Definition u128_sub (a b : Z) : Z := (a - b) mod u128_modulus.
Definition u32_sat_add (a b : Z) : Z := Z.min (a + b) (u32_modulus - 1).
Definition u64_sat_add (a b : Z) : Z := Z.min (a + b) (u64_modulus - 1).
Definition u128_sat_add (a b : Z) : Z := Z.min (a + b) (u128_modulus - 1).
(** [saturating_sub] of an unsigned type, at any width. *)
Definition sat_sub (a b : Z) : Z := Z.max 0 (a - b).
Definition is_u32 (a : Z) : Prop := (0 <= a < u32_modulus)%Z.
Definition is_u128 (a : Z) : Prop := (0 <= a < u128_modulus)%Z.

Local Open Scope Z_scope.

Lemma u32_add_small a b : 0 <= a + b < u32_modulus -> u32_add a b = a + b.
Proof. apply Z.mod_small. Qed.
Lemma u32_sub_small a b : 0 <= a - b < u32_modulus -> u32_sub a b = a - b.
Proof. apply Z.mod_small. Qed.
Lemma u64_add_small a b : 0 <= a + b < u64_modulus -> u64_add a b = a + b.
Proof. apply Z.mod_small. Qed.
Lemma u128_add_small a b : 0 <= a + b < u128_modulus -> u128_add a b = a + b.
Proof. apply Z.mod_small. Qed.
Lemma u128_sub_small a b : 0 <= a - b < u128_modulus -> u128_sub a b = a - b.
Proof. apply Z.mod_small. Qed.
Lemma u128_sat_add_small a b : a + b < u128_modulus -> u128_sat_add a b = a + b.
Proof. unfold u128_sat_add; lia. Qed.
Lemma sat_sub_small a b : b <= a -> sat_sub a b = a - b.
Proof. unfold sat_sub; lia. Qed.

Create Rewrite HintDb machine.
#[export] Hint Rewrite u32_add_small u32_sub_small u64_add_small u128_add_small u128_sub_small
  u128_sat_add_small sat_sub_small using lia : machine.

(** ** Outcomes and the storage monad

    A FRAME function reads and writes storage and either returns, fails with
    a dispatch error, or panics ([expect], an index out of range). The state
    reached when an error is returned is kept: callers that inspect the error
    and go on see the writes made before it; [dispatch] below gives the
    roll-back of the extrinsic boundary. *)

Inductive outcome (E A : Type) : Type :=
| Done (a : A)
| Fail (e : E)
| Trap.
Arguments Done {E A} a.
Arguments Fail {E A} e.
Arguments Trap {E A}.

Definition M (S E A : Type) : Type := S -> outcome E A * S.

Section Monad.
Context {S E : Type}.

Definition ret {A} (a : A) : M S E A := fun s => (Done a, s).
Definition fail {A} (e : E) : M S E A := fun s => (Fail e, s).
Definition trap {A} : M S E A := fun s => (Trap, s).
Definition bind {A B} (m : M S E A) (k : A -> M S E B) : M S E B :=
  fun s => match m s with
           | (Done a, s') => k a s'
           | (Fail e, s') => (Fail e, s')
           | (Trap, s') => (Trap, s')
           end.
(** [ensure!(b, e)] *)
Definition ensure (b : bool) (e : E) : M S E unit :=
  if b then ret tt else fail e.
(** [o.ok_or(e)?] *)
Definition ok_or {A} (o : option A) (e : E) : M S E A :=
  match o with Some a => ret a | None => fail e end.
(** [o.expect(..)] *)
Definition expect {A} (o : option A) : M S E A :=
  match o with Some a => ret a | None => trap end.
Definition gets {A} (f : S -> A) : M S E A := fun s => (Done (f s), s).
Definition modify (f : S -> S) : M S E unit := fun s => (Done tt, f s).
(** A [Result] inspected by its caller: the writes stay, a panic goes on. *)
Definition attempt {A} (m : M S E A) : M S E (E + A) :=
  fun s => match m s with
           | (Done a, s') => (Done (inr a), s')
           | (Fail e, s') => (Done (inl e), s')
           | (Trap, s') => (Trap, s')
           end.
(** [for x in l { f(x)? }] *)
Fixpoint for_each {A} (l : list A) (f : A -> M S E unit) : M S E unit :=
  match l with
  | [] => ret tt
  | x :: l' => bind (f x) (fun _ => for_each l' f)
  end.
(** [for x in l { acc = f(acc, x)? }] *)
Fixpoint fold_each {A B} (l : list A) (acc : B) (f : B -> A -> M S E B) : M S E B :=
  match l with
  | [] => ret acc
  | x :: l' => bind (f acc x) (fun acc' => fold_each l' acc' f)
  end.
(** The extrinsic boundary: an extrinsic that does not return [Ok] leaves no
    trace in storage. *)
Definition dispatch {A} (m : M S E A) (s : S) : outcome E A * S :=
  match m s with
  | (Done a, s') => (Done a, s')
  | (Fail e, _) => (Fail e, s)
  | (Trap, _) => (Trap, s)
  end.
End Monad.

Notation "'let*' x := m 'in' k" := (bind m (fun x => k))
  (at level 10, x name, m at level 200, k at level 200) : frame_scope.
Notation "'let*' ' p := m 'in' k" := (bind m (fun x => match x with p => k end))
  (at level 10, p pattern, m at level 200, k at level 200) : frame_scope.
Notation "'do*' m 'in' k" := (bind m (fun _ => k))
  (at level 10, m at level 200, k at level 200) : frame_scope.

(** A sub-state operation run inside a larger state. *)
Definition lift {S S' E A} (get : S -> S') (put : S' -> S -> S) (m : M S' E A) : M S E A :=
  fun s => match m (get s) with (r, s') => (r, put s' s) end.

(** Closes an equivalence between a one-step run and its reading. *)
Ltac solve_run :=
  cbv [ensure ok_or expect ret fail trap gets modify];
  split; intros; destruct_and?; simplify_eq; auto.

Section MonadLemmas.
Context {S E : Type}.

Lemma bind_done {A B} (m : M S E A) (k : A -> M S E B) s b s' :
  bind m k s = (Done b, s') <-> exists a s1, m s = (Done a, s1) /\ k a s1 = (Done b, s').
Proof.
  unfold bind; destruct (m s) as [[a|e|] s1]; split;
    first [ by eauto | by intros (a' & s2 & ? & ?); simplify_eq ].
Qed.

Lemma ensure_done b (e : E) (s : S) u s' :
  ensure b e s = (Done u, s') <-> b = true /\ s' = s.
Proof. destruct b, u; solve_run. Qed.

Lemma ok_or_done {A} (o : option A) (e : E) (s : S) a s' :
  ok_or o e s = (Done a, s') <-> o = Some a /\ s' = s.
Proof. destruct o; solve_run. Qed.

Lemma expect_done {A} (o : option A) (s : S) (a : A) s' :
  expect (E:=E) o s = (Done a, s') <-> o = Some a /\ s' = s.
Proof. destruct o; solve_run. Qed.

Lemma ret_done {A} (a b : A) (s s' : S) :
  ret (E:=E) a s = (Done b, s') <-> b = a /\ s' = s.
Proof. solve_run. Qed.

Lemma gets_done {A} (f : S -> A) (s s' : S) b :
  gets (E:=E) f s = (Done b, s') <-> b = f s /\ s' = s.
Proof. solve_run. Qed.

Lemma modify_done (f : S -> S) (s s' : S) u :
  modify (E:=E) f s = (Done u, s') <-> s' = f s.
Proof. destruct u; solve_run. Qed.

Lemma fail_done {A} (e : E) (s s' : S) (a : A) : fail e s = (Done a, s') <-> False.
Proof. done. Qed.
Lemma trap_done {A} (s s' : S) (a : A) : trap (E:=E) s = (Done a, s') <-> False.
Proof. done. Qed.

Lemma lift_done {S' A} (get : S -> S') (put : S' -> S -> S) (m : M S' E A) s a s' :
  lift get put m s = (Done a, s') <-> exists t, m (get s) = (Done a, t) /\ s' = put t s.
Proof.
  unfold lift; destruct (m (get s)) as [r t]; split.
  - intros; simplify_eq; eauto.
  - intros (t' & ? & ->); simplify_eq; done.
Qed.

Lemma dispatch_done {A} (m : M S E A) s a s' :
  dispatch m s = (Done a, s') <-> m s = (Done a, s').
Proof. unfold dispatch; destruct (m s) as [[|?|] ?]; split; congruence. Qed.

Lemma dispatch_not_done {A} (m : M S E A) s :
  (forall a (s' : S), m s <> (Done a, s')) -> (dispatch m s).2 = s.
Proof. unfold dispatch; intros Hn; destruct (m s) as [[a|?|] s']; [by destruct (Hn a s')|done..]. Qed.
End MonadLemmas.

(** [mrun H] inverts a successful monadic run step by step. *)
Ltac mrun_step :=
  match goal with
  | H : bind _ _ _ = (Done _, _) |- _ =>
      apply bind_done in H; destruct H as (? & ? & ? & ?)
  | H : ensure _ _ _ = (Done _, _) |- _ => apply ensure_done in H; destruct H as [? ->]
  | H : ok_or _ _ _ = (Done _, _) |- _ => apply ok_or_done in H; destruct H as [? ->]
  | H : expect _ _ = (Done _, _) |- _ => apply expect_done in H; destruct H as [? ->]
  | H : ret _ _ = (Done _, _) |- _ => apply ret_done in H; destruct H as [? ?]; simplify_eq
  | H : gets _ _ = (Done _, _) |- _ => apply gets_done in H; destruct H as [? ?]; simplify_eq
  | H : modify _ _ = (Done _, _) |- _ => apply modify_done in H; subst
  | H : fail _ _ = (Done _, _) |- _ => apply fail_done in H; destruct H
  | H : trap _ = (Done _, _) |- _ => apply trap_done in H; destruct H
  end.
Ltac mrun := repeat mrun_step.

(** ** Record fields

    [s <| Total := v |>] updates one field of a storage record. The update of
    a field is derived from the record's own rebuilding function
    [fun r => Build_R (f1 r) .. (fn r)]. *)

Class Rebuild (R : Type) := rebuild : R -> R.
Class Field {R A : Type} (get : R -> A) := update_field : (A -> A) -> R -> R.
Arguments update_field {R A} get {_} f r.

Ltac derive_field :=
  match goal with
  | |- @Field ?R _ ?get =>
      let i := constr:(_ : Rebuild R) in
      let b := eval red in i in
      let b := eval unfold rebuild in b in
      let b := (match b with
                | (fun _ => _) => b
                | _ => eval cbv delta [b] in b
                end) in
      match eval pattern get in b with
      | ?F _ => let t := eval cbv beta in (fun (f : _ -> _) r => F (fun r' => f (get r')) r) in
               exact t
      end
  end.

Notation "s <| get := v |>" := (update_field get (fun _ => v) s)
  (at level 1, left associativity, get at next level, v at level 200) : frame_scope.
Notation "s <| get ::= f |>" := (update_field get f s)
  (at level 1, left associativity, get at next level, f at level 200) : frame_scope.

(** ** Stable sorting

    [slice::sort_by] is stable; [stable_sort leb] is the stable sort by the
    total preorder [leb]. *)

Fixpoint insert_by {A} (leb : A -> A -> bool) (x : A) (l : list A) : list A :=
  match l with
  | [] => [x]
  | y :: l' => if leb x y then x :: y :: l' else y :: insert_by leb x l'
  end.
Definition stable_sort {A} (leb : A -> A -> bool) (l : list A) : list A :=
  foldr (insert_by leb) [] l.

Section StableSort.
Context {A : Type} (leb : A -> A -> bool).
Context (leb_total : forall x y, leb x y = true \/ leb y x = true).
Context (leb_trans : forall x y z, leb x y = true -> leb y z = true -> leb x z = true).

Lemma insert_by_perm x l : insert_by leb x l ≡ₚ x :: l.
Proof.
  induction l as [|y l IH]; [done|]. cbn. destruct (leb x y); [done|].
  rewrite IH. apply perm_swap.
Qed.

Lemma stable_sort_perm l : stable_sort leb l ≡ₚ l.
Proof. induction l as [|x l IH]; [done|]. cbn. by rewrite insert_by_perm, IH. Qed.

Lemma stable_sort_length l : length (stable_sort leb l) = length l.
Proof. by rewrite stable_sort_perm. Qed.

Lemma insert_by_sorted x l :
  Sorted (fun a b => leb a b = true) l -> Sorted (fun a b => leb a b = true) (insert_by leb x l).
Proof.
  induction l as [|y l IH]; intros Hs; cbn.
  - repeat constructor.
  - destruct (leb x y) eqn:E.
    + by constructor; [|constructor].
    + apply Sorted_inv in Hs as [Hs Hd].
      constructor; [by apply IH|].
      destruct l as [|z l]; cbn.
      * constructor. by destruct (leb_total x y); [congruence|].
      * inversion_clear Hd. destruct (leb x z); constructor; [|done].
        by destruct (leb_total x y); [congruence|].
Qed.

Lemma stable_sort_sorted l : Sorted (fun a b => leb a b = true) (stable_sort leb l).
Proof. induction l as [|x l IH]; [constructor|]. by apply insert_by_sorted. Qed.

Lemma insert_by_head x l :
  Forall (fun y => leb x y = true) l -> insert_by leb x l = x :: l.
Proof. destruct l; [done|]. intros H. inversion_clear H. cbn. by rewrite H0. Qed.

Lemma stable_sort_id l :
  StronglySorted (fun a b => leb a b = true) l -> stable_sort leb l = l.
Proof.
  induction 1 as [|x l Hs IH Hx]; [done|]. cbn. fold (stable_sort leb l).
  rewrite IH. by apply insert_by_head.
Qed.

Lemma stable_sort_strongly l :
  StronglySorted (fun a b => leb a b = true) (stable_sort leb l).
Proof.
  apply Sorted_StronglySorted; [|apply stable_sort_sorted].
  intros x y z; apply leb_trans.
Qed.
End StableSort.

(** ** Ordered maps and sets

    [BTreeMap] and [BTreeSet] are finite maps and sets iterated in key order;
    accounts and round indices are [N]s and [Z]s with their usual order. *)

Abbreviation AccountId := N (only parsing).

Definition acc_iter {V} (m : gmap N V) : list (N * V) :=
  stable_sort (fun a b => N.leb a.1 b.1) (map_to_list m).
Definition acc_elements (s : gset N) : list N := stable_sort N.leb (elements s).
Definition round_iter {V} (m : gmap Z V) : list (Z * V) :=
  stable_sort (fun a b => Z.leb a.1 b.1) (map_to_list m).
(** [BTreeMap::pop_first] *)
Definition pop_first {V} (m : gmap Z V) : gmap Z V :=
  match round_iter m with
  | [] => m
  | (k, _) :: _ => delete k m
  end.
Definition btree_len {V} (m : gmap Z V) : Z := Z.of_nat (size m).

(** Bounded containers of FRAME: [try_insert]/[try_push] fail when full. *)
Definition try_push {A} (bound : Z) (x : A) (l : list A) : option (list A) :=
  if Z.of_nat (length l) <? bound then Some (l ++ [x]) else None.
Definition try_insert_set (bound : Z) (x : N) (s : gset N) : option (gset N) :=
  if decide (x ∈ s) then Some s
  else if Z.of_nat (size s) <? bound then Some ({[x]} ∪ s) else None.
Definition try_insert_map {V} (bound : Z) (k : N) (v : V) (m : gmap N V) : option (gmap N V) :=
  match m !! k with
  | Some _ => Some (<[k := v]> m)
  | None => if Z.of_nat (size m) <? bound then Some (<[k := v]> m) else None
  end.

Lemma acc_iter_perm {V} (m : gmap N V) : acc_iter m ≡ₚ map_to_list m.
Proof. apply stable_sort_perm. Qed.
Lemma elem_of_acc_iter {V} (m : gmap N V) k v : (k, v) ∈ acc_iter m <-> m !! k = Some v.
Proof. by rewrite acc_iter_perm, elem_of_map_to_list. Qed.
Lemma NoDup_acc_iter {V} (m : gmap N V) : NoDup (acc_iter m).*1.
Proof. rewrite acc_iter_perm. apply NoDup_fst_map_to_list. Qed.
Lemma elem_of_acc_elements (s : gset N) x : x ∈ acc_elements s <-> x ∈ s.
Proof. unfold acc_elements. by rewrite stable_sort_perm, elem_of_elements. Qed.
Lemma NoDup_acc_elements (s : gset N) : NoDup (acc_elements s).
Proof. unfold acc_elements. rewrite stable_sort_perm. apply NoDup_elements. Qed.

Lemma round_iter_perm {V} (m : gmap Z V) : round_iter m ≡ₚ map_to_list m.
Proof. apply stable_sort_perm. Qed.

Lemma pop_first_size {V} (m : gmap Z V) :
  (0 < size m)%nat -> size (pop_first m) = pred (size m).
Proof.
  intros Hm. unfold pop_first. destruct (round_iter m) as [|[k v] l] eqn:E.
  - pose proof (round_iter_perm m) as Hp. rewrite E in Hp.
    apply Permutation_nil_l, symmetry, map_to_list_empty_iff in Hp. subst.
    rewrite map_size_empty in Hm. lia.
  - rewrite map_size_delete. case_match; [done|].
    assert ((k, v) ∈ map_to_list m) as Hin by (rewrite <- round_iter_perm, E; set_solver).
    apply elem_of_map_to_list in Hin. congruence.
Qed.

(** The first key popped is the least one. *)
Lemma pop_first_lookup {V} (m : gmap Z V) k v :
  m !! k = Some v -> pop_first m !! k = None -> forall k', is_Some (m !! k') -> k <= k'.
Proof.
  unfold pop_first. intros Hk Hn k' [v' Hk'].
  pose proof (round_iter_perm m) as Hp.
  pose proof (stable_sort_strongly (fun a b : Z * V => Z.leb a.1 b.1)
    ltac:(cbn; lia) ltac:(cbn; lia) (map_to_list m)) as Hs.
  fold (round_iter m) in Hs.
  destruct (round_iter m) as [|[k0 v0] l] eqn:E; [congruence|].
  apply lookup_delete_None in Hn as [->|]; [|congruence].
  assert ((k', v') ∈ (k, v0) :: l) as Hin by (rewrite Hp; by apply elem_of_map_to_list).
  apply elem_of_cons in Hin as [|Hin]; [simplify_eq; lia|].
  apply StronglySorted_inv in Hs as [_ Hs]. rewrite Forall_forall in Hs.
  specialize (Hs _ Hin). cbn in Hs. lia.
Qed.

(** ** Sums *)

Definition zsum (l : list Z) : Z := foldr Z.add 0 l.

Lemma zsum_app l k : zsum (l ++ k) = zsum l + zsum k.
Proof. unfold zsum. induction l as [|x l IH]; cbn; lia. Qed.
Lemma zsum_cons x l : zsum (x :: l) = x + zsum l.
Proof. done. Qed.
#[export] Instance zsum_perm : Proper ((≡ₚ) ==> eq) zsum.
Proof. unfold zsum. induction 1; cbn; lia. Qed.
Lemma zsum_nonneg l : Forall (fun x => 0 <= x) l -> 0 <= zsum l.
Proof. unfold zsum. induction 1; cbn; lia. Qed.
Lemma zsum_elem_le x l : Forall (fun x => 0 <= x) l -> x ∈ l -> x <= zsum l.
Proof.
  induction 1 as [|y l Hy Hl IH]; intros Hin; [by apply not_elem_of_nil in Hin|].
  rewrite zsum_cons. apply zsum_nonneg in Hl as ?.
  apply elem_of_cons in Hin as [->|Hin]; [lia|]. specialize (IH Hin); lia.
Qed.

(** The sum of [f] over the entries of a map. *)
Definition msum `{Countable K} {V} (f : V -> Z) (m : gmap K V) : Z :=
  zsum ((fun kv => f kv.2) <$> map_to_list m).

Section MapSum.
Context `{Countable K} {V : Type} (f : V -> Z).
Implicit Types m : gmap K V.

Lemma msum_empty : msum f (∅ : gmap K V) = 0.
Proof. unfold msum. by rewrite map_to_list_empty. Qed.
Lemma msum_insert_new m k v : m !! k = None -> msum f (<[k := v]> m) = f v + msum f m.
Proof. intros Hk. unfold msum. by rewrite map_to_list_insert. Qed.
Lemma msum_delete m k v : m !! k = Some v -> msum f (delete k m) = msum f m - f v.
Proof.
  intros Hk. unfold msum at 2. rewrite <- (map_to_list_delete m k v) by done.
  cbn. unfold msum, zsum. lia.
Qed.
Lemma msum_insert_old m k v v' :
  m !! k = Some v -> msum f (<[k := v']> m) = msum f m - f v + f v'.
Proof.
  intros Hk. rewrite <- insert_delete_eq, msum_insert_new by apply lookup_delete_eq.
  rewrite (msum_delete m k v) by done. lia.
Qed.
Lemma msum_nonneg m : (forall k v, m !! k = Some v -> 0 <= f v) -> 0 <= msum f m.
Proof.
  intros Hf. apply zsum_nonneg, Forall_forall. intros x (kv & -> & Hin)%list_elem_of_fmap.
  destruct kv. by eapply Hf, elem_of_map_to_list.
Qed.
Lemma msum_le_of m k v :
  (forall k v, m !! k = Some v -> 0 <= f v) -> m !! k = Some v -> f v <= msum f m.
Proof.
  intros Hf Hk. pose proof (msum_nonneg (delete k m)) as Hd.
  rewrite (msum_delete m k v) in Hd by done.
  cut (0 <= msum f m - f v); [lia|]. apply Hd.
  intros k' v' [_ ?]%lookup_delete_Some. by eapply Hf.
Qed.
Lemma msum_ext (g : V -> Z) m :
  (forall k v, m !! k = Some v -> f v = g v) -> msum f m = msum g m.
Proof.
  intros Hfg. unfold msum. f_equal. apply list_fmap_ext. intros i [k v] Hi.
  eapply Hfg, elem_of_map_to_list, list_elem_of_lookup_2, Hi.
Qed.
Lemma msum_zero m : (forall k v, m !! k = Some v -> f v = 0) -> msum f m = 0.
Proof.
  intros Hz. rewrite (msum_ext (fun _ => 0)) by done. unfold msum.
  induction (map_to_list m) as [|x l IH]; [done|]. by rewrite fmap_cons, zsum_cons, IH.
Qed.
(** The entries that satisfy [P], in the order of any enumeration. *)
Lemma filter_map_to_list (P : K * V -> Prop) `{forall x, Decision (P x)} m :
  filter P (map_to_list m) ≡ₚ map_to_list (filter P m).
Proof.
  rewrite map_filter_alt, map_to_list_to_map; [done|].
  eapply sublist_NoDup; [|apply fmap_sublist, sublist_filter]. apply NoDup_fst_map_to_list.
Qed.
Lemma msum_filter (P : K * V -> Prop) `{forall x, Decision (P x)} m :
  msum f m = zsum ((fun kv => f kv.2) <$> filter P (map_to_list m))
             + msum f (filter (fun kv => ~ P kv) m).
Proof.
  unfold msum. rewrite <- filter_map_to_list. generalize (map_to_list m).
  intros l. induction l as [|x l IH]; [done|].
  rewrite !filter_cons. repeat case_decide; try done; rewrite !fmap_cons, !zsum_cons, IH; lia.
Qed.
End MapSum.

Lemma msum_fmap `{Countable K} {V W} (f : W -> Z) (g : V -> W) (m : gmap K V) :
  msum f (g <$> m) = msum (fun v => f (g v)) m.
Proof.
  unfold msum. rewrite map_to_list_fmap, <- list_fmap_compose. done.
Qed.

(** ** Generic list facts *)

Section Lists.
Context {A B : Type}.

Lemma StronglySorted_insert_mid (R : A -> A -> Prop) (x : A) l1 l2 :
  StronglySorted R (l1 ++ l2) ->
  Forall (fun y => R y x) l1 -> Forall (fun y => R x y) l2 ->
  StronglySorted R (l1 ++ x :: l2).
Proof.
  induction l1 as [|y l1 IH]; cbn; intros Hs H1 H2.
  - by constructor.
  - apply StronglySorted_inv in Hs as [Hs Hy]. inversion_clear H1.
    constructor; [by apply IH|].
    rewrite Forall_app in *. destruct Hy. split; [done|]. by constructor.
Qed.

Lemma StronglySorted_filter (R : A -> A -> Prop) (P : A -> Prop)
    `{forall x, Decision (P x)} l :
  StronglySorted R l -> StronglySorted R (filter P l).
Proof.
  induction 1 as [|x l Hs IH Hx]; [constructor|].
  rewrite filter_cons. case_decide; [|done]. constructor; [done|].
  rewrite Forall_forall in *. intros y [_ Hy]%list_elem_of_filter. by apply Hx.
Qed.
End Lists.
