(* ===== verification/Errors.v ===== *)
(** * Dispatch errors

    The [Error] enums of the modelled pallets and their union, the
    [DispatchError] a call returns. *)

From S2P Require Import Prelude.

(** [pallet_bfc_staking::Error] *)
Inductive StakingError : Type :=
| NominatorDNE
| CandidateDNE
| StashDNE
| NominationDNE
| TopNominationDNE
| BottomNominationDNE
| CommissionSetDNE
| ControllerSetDNE
| NominatorExists
| CandidateExists
| CandidateBondBelowMin
| InsufficientBalance
| NominatorBondBelowMin
| NominationBelowMin
| AlreadyOffline
| AlreadyActive
| AlreadyBonded
| AlreadyPaired
| NominatorAlreadyLeaving
| NominatorNotLeaving
| NominatorCannotLeaveYet
| CannotNominateIfLeaving
| CandidateAlreadyLeaving
| CandidateNotLeaving
| CandidateCannotLeaveYet
| CannotGoOnlineIfLeaving
| CannotLeaveIfOffline
| CannotLeaveIfControllerSetRequested
| CannotLeaveIfCommissionSetRequested
| ExceedMaxNominationsPerNominator
| AlreadyNominatedCandidate
| AlreadyControllerSetRequested
| AlreadyCommissionSetRequested
| InvalidSchedule
| InvalidTierType
| CannotSetBelowMin
| CannotSetBelowOne
| CannotSetAboveMax
| RoundLengthMustBeAtLeastTotalSelectedValidators
| RoundLengthMustBeLongerThanCreatedBlocks
| NoWritingSameValue
| TooManyCandidates
| TooManyDelayedControllers
| TooManyDelayedCommissions
| TooLowCandidateCountWeightHintJoinCandidates
| TooLowCandidateCountWeightHintCancelLeaveCandidates
| TooLowCandidateCountToLeaveCandidates
| TooLowNominationCountToNominate
| TooLowCandidateNominationCountToNominate
| TooLowCandidateNominationCountToLeaveCandidates
| TooLowNominationCountToLeaveNominators
| PendingCandidateRequestsDNE
| PendingCandidateRequestAlreadyExists
| PendingCandidateRequestNotDueYet
| PendingNominationRequestDNE
| PendingNominationRequestAlreadyExists
| PendingNominationRequestNotDueYet
| CannotNominateLessThanLowestBottomWhenBottomIsFull.

(** [pallet_relay_manager::Error] *)
Inductive RelayManagerError : Type :=
| RelayerAlreadyJoined
| RelayerAlreadyBonded
| RelayerInactive
| RelayerDNE
| ControllerDNE
| RelayerSetDNE
| RmNoWritingSameValue
| RmCannotSetBelowOne
| TooManyRelayers
| TooManySelectedRelayers
| AlreadyRelayerSetRequested
| TooManyDelayedRelayers.

(** [pallet_bfc_offences::Error] *)
Inductive OffencesError : Type :=
| OffCannotSetBelowMin
| OffNoWritingSameValue.

(** [pallet_cccp_relay_queue::Error] *)
Inductive RelayQueueError : Type :=
| RqEmptySubmission
| RqInvalidSocketMessage
| RqOnChainExistenceMismatch
| RqMessageHashMismatch
| RqMessageStatusMismatch
| RqInvalidRequestInfo
| RqSocketDNE
| RqTransferAlreadyFinalized
| RqTransferAlreadyOnFlight
| RqTransferNotOnFlight
| RqAlreadyVoted
| RqOutOfRange
| RqNoWritingSameValue
| RqAssetAlreadyExists
| RqAssetIndexAlreadyExists
| RqAssetDNE
| RqAssetIndexDNE
| RqAssetIndexNotBelongToAsset
| RqAssetHasActiveTransfers
| RqCapReductionBelowCurrentUsage
| RqEmptyAssetIndexes
| RqTooManyAssetIndexes
| RqDuplicateAssetIndex
| RqConflictingAssetIndexOperation
| RqPendingTransferCapExceeded
| RqInvalidMaxCap
| RqCapTooLarge.

(** [pallet_btc_registration_pool::Error] *)
Inductive RegistrationPoolError : Type :=
| RpAddressAlreadyRegistered
| RpVaultAlreadyGenerated
| RpVaultAlreadyContainsPubKey
| RpAuthorityAlreadySubmittedPubKey
| RpInvalidBitcoinAddress
| RpInvalidPublicKey
| RpDescriptorGeneration
| RpNoWritingSameValue
| RpUserDNE
| RpVaultDNE
| RpRefundSetDNE
| RpOutOfRange
| RpUnderMaintenance
| RpSocketQueueNotReady
| RpDoNotInterceptMigration
| RpPreSubmissionDNE
| RpPoolRoundOutdated
| RpRefundSetAlreadyRequested.

(** [pallet_blaze::Error] *)
Inductive BlazeError : Type :=
| BlUnknownUtxo
| BlUnknownTransaction
| BlUtxoDNE
| BlAlreadySpent
| BlAlreadyVoted
| BlEmptySubmission
| BlInvalidSubmission
| BlOutOfRange
| BlNoWritingSameValue
| BlInvalidActivationState.

(** [pallet_btc_socket_queue::Error] *)
Inductive SocketQueueError : Type :=
| SqAuthorityAlreadySubmitted
| SqBroadcastAlreadyConfirmed
| SqSignedPsbtAlreadySubmitted
| SqSocketMessageAlreadySubmitted
| SqRequestAlreadyExists
| SqRequestAlreadyApproved
| SqAuthorityDNE
| SqSocketDNE
| SqSocketMessageDNE
| SqU256OverFlowed
| SqUserDNE
| SqSystemVaultDNE
| SqRequestDNE
| SqInvalidPsbt
| SqInvalidUncheckedOutput
| SqInvalidCalldata
| SqInvalidSocketMessage
| SqInvalidRequestInfo
| SqInvalidTxInfo
| SqInvalidBitcoinAddress
| SqCannotFinalizePsbt
| SqOutOfRange
| SqNoWritingSameValue
| SqUnderMaintenance
| SqInvalidFeeRate.

(** [pallet_oracle_registry::Error] *)
Inductive OracleRegistryError : Type :=
| AssetDNE
| NativeCurrencyChainDNE
| OracleManagerContractDNE
| OrNoWritingSameValue.

(** [pallet_bifrost_evm_tx_payment::Error] *)
Inductive FeePaymentError : Type :=
| FpTokenNotAccepted
| FpTokenAlreadyAccepted
| FpOraclePriceFailed
| FpPriceOverflow
| FpERC20TransferFailed
| FpInvalidTokenConfig
| FpTokenDisabled
| FpNativeOracleNotSet
| FpInvalidAccountFormat
| FpRateLimited
| FpOraclePriceStale
| FpOracleNotRegistered.

(** [pallet_bfc_utility::Error] *)
Inductive BfcUtilityError : Type :=
| AmountTooLow
| AccountAlreadyBlocked
| AccountNotBlocked.

(** [frame_support::dispatch::DispatchError]: [BadOrigin] of [frame_system],
    the failures of the balances pallet, and the errors of the pallets. *)
Inductive DispatchError : Type :=
| BadOrigin
| CurrencyError
| Staking (e : StakingError)
| RelayMgr (e : RelayManagerError)
| Offences (e : OffencesError)
| RelayQ (e : RelayQueueError)
| RegPool (e : RegistrationPoolError)
| BlazeErr (e : BlazeError)
| SockQ (e : SocketQueueError)
| OracleRegistryErr (e : OracleRegistryError)
| FeePaymentErr (e : FeePaymentError)
| BfcUtilityErr (e : BfcUtilityError)
(** [pallet_evm::Error::BalanceLow] *)
| EvmBalanceLow.

(** [result == Err(Error::<T>::NominationDNE.into())] *)
Definition is_nomination_dne (e : DispatchError) : bool :=
  match e with Staking NominationDNE => true | _ => false end.
