(* ===== verification/Primitives.v ===== *)
(** * Primitives shared by the staking pallets

    [primitives/bfc-staking]: tiers, offences and the traits through which the
    staking pallet calls the relay manager and the offence handler; and the
    interfaces of the code outside the repository (balances, [Perbill],
    session pallet), which are parameters with their documented behaviour as
    laws. *)

From S2P Require Import Prelude Errors.
Local Open Scope Z_scope.
Local Open Scope frame_scope.

Abbreviation RoundIndex := Z (only parsing).
Abbreviation SessionIndex := Z (only parsing).
Abbreviation Balance := Z (only parsing).
Abbreviation BlockNumber := Z (only parsing).
Abbreviation Perbill := Z (only parsing).

Definition MAX_AUTHORITIES : Z := 1000.

Inductive TierType : Type := Full | Basic | All.
#[export] Instance TierType_eq_dec : EqDecision TierType.
Proof. solve_decision. Defined.

Record Offence : Type := mkOffence {
  o_round_index : RoundIndex;
  o_session_index : SessionIndex;
  o_self_bond : Balance;
  o_total_slash : Balance;
  o_offender_slash : Balance;
  o_nominators_slash : Balance;
  o_slash_fraction : Perbill
}.

(** ** Origins of [frame_system] *)

Inductive Origin : Type :=
| RootOrigin
| SignedOrigin (who : AccountId)
| NoneOrigin.

Definition ensure_signed {S} (o : Origin) : M S DispatchError AccountId :=
  match o with SignedOrigin a => ret a | _ => fail BadOrigin end.
Definition ensure_root {S} (o : Origin) : M S DispatchError unit :=
  match o with RootOrigin => ret tt | _ => fail BadOrigin end.
Definition ensure_none {S} (o : Origin) : M S DispatchError unit :=
  match o with NoneOrigin => ret tt | _ => fail BadOrigin end.

(** What [validate_unsigned] answers for an unsigned call. *)
Inductive InvalidTransaction : Type :=
| InvalidCall
| BadSigner
| BadProof
| Stale
| ExhaustsResources.
Record ValidTransaction {Provides : Type} : Type := mkValidTransaction {
  vt_tag_prefix : string;
  vt_priority : Z;
  vt_provides : Provides;
  vt_propagate : bool
}.
Arguments ValidTransaction Provides : clear implicits.
(** [TransactionPriority::MAX]: a [u64] *)
Definition priority_max : Z := 2 ^ 64 - 1.

(** ** [sp_arithmetic::Perbill]: parts per billion *)

Definition ACCURACY : Z := 1000000000.

Class PerbillOps := {
  (** [Perbill::from_parts], [Perbill::from_percent] *)
  from_parts : Z -> Perbill;
  from_percent : Z -> Perbill;
  (** [Perbill::from_rational(p, q)] *)
  from_rational : Z -> Z -> Perbill;
  (** [p * x] for an unsigned integer [x] *)
  perbill_mul : Perbill -> Z -> Z
}.

(** The documented behaviour: saturation at one, [from_rational] rounds
    down, a product rounds to the nearest integer. *)
Class PerbillLaws `{PerbillOps} : Prop := {
  from_parts_spec n : 0 <= n -> from_parts n = Z.min n ACCURACY;
  from_percent_spec n : 0 <= n -> from_percent n = Z.min n 100 * 10000000;
  from_rational_range p q : 0 <= p -> 0 <= q -> 0 <= from_rational p q <= ACCURACY;
  from_rational_floor p q : 0 <= p -> 0 < q -> from_rational p q * q <= p * ACCURACY;
  perbill_mul_nearest p x : 0 <= p <= ACCURACY -> 0 <= x ->
    2 * p * x - ACCURACY <= 2 * ACCURACY * perbill_mul p x <= 2 * p * x + ACCURACY
}.

(** A product is at most its argument, and monotone to it within rounding. *)
Lemma perbill_mul_bounds `{PerbillLaws} p x :
  0 <= p <= ACCURACY -> 0 <= x -> 0 <= perbill_mul p x <= x.
Proof.
  intros Hp Hx. pose proof (perbill_mul_nearest p x Hp Hx) as [H1 H2].
  unfold ACCURACY in *. nia.
Qed.

(** ** [ReservableCurrency] of the balances pallet *)

Class Currency (C : Type) := {
  free_balance : C -> AccountId -> Balance;
  reserved_balance : C -> AccountId -> Balance;
  total_issuance : C -> Balance;
  can_reserve : C -> AccountId -> Balance -> bool;
  (** [None] is an error *)
  reserve : C -> AccountId -> Balance -> option C;
  unreserve : C -> AccountId -> Balance -> C;
  (** [slash_reserved] with its imbalance handed to [T::Slash] *)
  slash_reserved : C -> AccountId -> Balance -> C;
  (** the amount of the positive imbalance, [None] is an error *)
  deposit_into_existing : C -> AccountId -> Balance -> option (Balance * C)
}.

Class CurrencyLaws (C : Type) `{Currency C} : Prop := {
  reserved_nonneg c a : 0 <= reserved_balance c a;
  can_reserve_spec c a v : can_reserve c a v = true <-> is_Some (reserve c a v);
  reserve_reserved c a v c' b : reserve c a v = Some c' ->
    reserved_balance c' b =
      if decide (a = b) then reserved_balance c b + v else reserved_balance c b;
  unreserve_reserved c a v b : 0 <= v ->
    reserved_balance (unreserve c a v) b =
      if decide (a = b) then Z.max 0 (reserved_balance c b - v) else reserved_balance c b;
  slash_reserved_reserved c a v b : 0 <= v ->
    reserved_balance (slash_reserved c a v) b =
      if decide (a = b) then Z.max 0 (reserved_balance c b - v) else reserved_balance c b;
  deposit_reserved c a v r c' b : deposit_into_existing c a v = Some (r, c') ->
    reserved_balance c' b = reserved_balance c b
}.

(** ** What is read of the session pallet during a call *)

Record SessionView : Type := mkSessionView {
  sv_validators : list AccountId;
  sv_session_index : SessionIndex;
  (** [pallet_session::load_keys(v).is_some()] *)
  sv_has_keys : AccountId -> bool;
  (** [IdentificationOf::convert(v).is_some()] *)
  sv_identified : AccountId -> bool
}.

(** ** [bp_staking::traits] *)

(** [Authorities]: what the bridge pallets read of the relay manager. *)
Class Authorities (R : Type) := {
  au_is_authority : R -> AccountId -> bool;
  au_count : R -> Z;
  au_majority : R -> Z
}.

(** [RelayManager]: what the staking pallet calls of the relay manager. *)
Class RelayManager (R : Type) := {
  join_relayers : AccountId -> AccountId -> M R DispatchError unit;
  refresh_round : RoundIndex -> M R DispatchError unit;
  refresh_selected_relayers : RoundIndex -> list AccountId -> M R DispatchError unit;
  rm_refresh_majority : RoundIndex -> M R DispatchError unit;
  replace_bonded_controller : AccountId -> AccountId -> M R DispatchError unit;
  leave_relayers : AccountId -> M R DispatchError unit;
  kickout_relayer : AccountId -> M R DispatchError unit;
  collect_heartbeats : SessionView -> M R DispatchError unit;
  handle_delayed_relayer_sets : SessionView -> RoundIndex -> M R DispatchError unit
}.

(** [OffenceHandler]: it slashes reserved balances, so it runs on the
    balances as well as on its own storage. *)
Class OffenceHandler (C O : Type) := {
  try_handle_offence : AccountId -> AccountId -> TierType -> Offence ->
    M (C * O) DispatchError (bool * Balance);
  refresh_offences : SessionIndex -> M O DispatchError unit
}.
