(* ===== verification/BinarySearch.v ===== *)
(** * The binary search of the standard library

    [slice::binary_search_by] and [slice::binary_search], written out, with
    their specification on a partitioned slice. *)

From S2P Require Import Prelude.
Local Open Scope Z_scope.

(** ** [slice::binary_search_by]

    [cmp] orders an element against the target. The loop halves the window
    [base, base + size). *)

Section BinarySearch.
Context {A : Type} (cmp : A -> comparison) (l : list A).

Definition cmp_at (i : nat) : comparison :=
  match l !! i with Some x => cmp x | None => Gt end.
Fixpoint bsearch_loop (fuel base size : nat) : nat :=
  match fuel with
  | O => base
  | S fuel' =>
      if (1 <? size)%nat then
        let half := (size / 2)%nat in
        let mid := (base + half)%nat in
        let base' := match cmp_at mid with Gt => base | _ => mid end in
        bsearch_loop fuel' base' (size - half)
      else base
  end.
(** [inl i] is [Ok(i)], [inr i] is [Err(i)]. *)
Definition binary_search_by : nat + nat :=
  match l with
  | [] => inr O
  | _ =>
      let base := bsearch_loop (length l) 0 (length l) in
      match cmp_at base with
      | Eq => inl base
      | Lt => inr (base + 1)%nat
      | Gt => inr base
      end
  end.
End BinarySearch.

(** [slice::binary_search] on accounts. *)
Definition binary_search (l : list N) (x : N) : nat + nat :=
  binary_search_by (fun y => N.compare y x) l.

(** ** Correctness of the binary search *)

Lemma binary_search_by_nonempty {A} (cmp : A -> comparison) l :
  l <> [] ->
  binary_search_by cmp l =
    (let base := bsearch_loop cmp l (length l) 0 (length l) in
     match cmp_at cmp l base with
     | Eq => inl base
     | Lt => inr (base + 1)%nat
     | Gt => inr base
     end).
Proof. by destruct l. Qed.

Section BinarySearchProofs.
Context {A : Type} (cmp : A -> comparison) (l : list A).
(** The slice is partitioned as the documentation asks: the elements below
    the target come first, then the equal ones, then the ones above. *)
Context (lo hi : nat) (lo_hi : (lo <= hi <= length l)%nat).
Context (cmp_lt : forall i, (i < lo)%nat -> cmp_at cmp l i = Lt).
Context (cmp_eq : forall i, (lo <= i < hi)%nat -> cmp_at cmp l i = Eq).
Context (cmp_gt : forall i, (hi <= i)%nat -> cmp_at cmp l i = Gt).

Lemma bsearch_loop_spec fuel base size :
  (size <= fuel)%nat -> (1 <= size)%nat ->
  (base = 0 \/ base < hi)%nat -> (hi <= base + size)%nat ->
  let r := bsearch_loop cmp l fuel base size in
  (r = 0 \/ r < hi)%nat /\ (hi <= r + 1)%nat.
Proof.
  revert base size. induction fuel as [|fuel IH]; intros base size Hf Hs Hb Hh; [lia|].
  cbn [bsearch_loop]. cbv zeta. destruct (Nat.ltb_spec 1 size) as [Hlt|Hge]; [|lia].
  pose proof (Nat.div_lt size 2 ltac:(lia) ltac:(lia)) as Hd.
  assert (1 <= size / 2)%nat as Hd1 by (apply Nat.div_le_lower_bound; lia).
  pose proof (Nat.Div0.mul_div_le size 2) as Hd2.
  set (half := (size / 2)%nat) in *.
  destruct (decide (hi <= base + half)%nat) as [Hc|Hc].
  - rewrite cmp_gt by done. apply IH; lia.
  - assert (cmp_at cmp l (base + half) <> Gt) as Hng.
    { destruct (decide (base + half < lo)%nat).
      - rewrite cmp_lt by done. done.
      - rewrite cmp_eq by lia. done. }
    destruct (cmp_at cmp l (base + half)); [..|done]; apply IH; lia.
Qed.

(** A found index is in the equal run; a missing one is reported where the
    run would be. *)
Lemma binary_search_by_spec :
  match binary_search_by cmp l with
  | inl i => (lo <= i < hi)%nat
  | inr i => lo = hi /\ i = hi
  end.
Proof.
  destruct (decide (l = [])) as [E|Hl].
  { unfold binary_search_by. rewrite E. rewrite E in lo_hi. cbn in lo_hi. lia. }
  rewrite binary_search_by_nonempty by done. cbv zeta.
  assert (1 <= length l)%nat by (destruct l; [done|cbn; lia]).
  pose proof (bsearch_loop_spec (length l) 0 (length l)) as Hr.
  cbn zeta in Hr. set (r := bsearch_loop cmp l (length l) 0 (length l)) in *.
  destruct Hr as [Hr1 Hr2]; [lia..|].
  destruct (decide (r < lo)%nat) as [?|?]; [rewrite cmp_lt by done; lia|].
  destruct (decide (r < hi)%nat) as [?|?]; [rewrite cmp_eq by lia; lia|].
  rewrite cmp_gt by lia. lia.
Qed.
End BinarySearchProofs.
