(* ===== verification/StakingTypes.v ===== *)
(** * Data of the staking pallet

    The configuration trait, the data types of
    [pallets/bfc-staking/src/lib.rs] and [inflation.rs], the events and the
    storage of [pallets/bfc-staking/src/pallet/mod.rs]. *)

From S2P Require Import Prelude Errors Primitives.
Local Open Scope Z_scope.
Local Open Scope frame_scope.

(** ** [Config] *)

(** The associated types and constants of [pallet_bfc_staking::Config]. The
    balances, the relay manager and the offence handler come with the type of
    their storage. *)
Class Config := {
  Cur : Type; cur_currency :: Currency Cur;
  Rm : Type; rm_manager :: RelayManager Rm;
  Oh : Type; oh_handler :: OffenceHandler Cur Oh;
  cfg_perbill :: PerbillOps;
  (** [MonetaryGovernanceOrigin::ensure_origin] *)
  monetary_governance : Origin -> bool;
  (** [floatpow(1 + annual, 1 / rounds_per_year) - 1] in parts per billion, on
      the fixed-point numbers of [substrate_fixed]; [None] is a panic *)
  annual_rate_to_round : Perbill -> Z -> option Perbill;
  (** the hash of the [Twox64Concat] storage hasher, which orders the
      iteration over a storage map *)
  twox64 : AccountId -> N;
  DefaultBlocksPerSession : Z;
  DefaultBlocksPerRound : Z;
  MinBlocksPerRound : Z;
  MaxBlocksPerRound : Z;
  StorageCacheLifetimeInRounds : Z;
  LeaveCandidatesDelay : RoundIndex;
  CandidateBondLessDelay : RoundIndex;
  LeaveNominatorsDelay : RoundIndex;
  RevokeNominationDelay : RoundIndex;
  NominationBondLessDelay : RoundIndex;
  RewardPaymentDelay : RoundIndex;
  DefaultMaxSelectedFullCandidates : Z;
  DefaultMaxSelectedBasicCandidates : Z;
  MaxTopNominationsPerCandidate : Z;
  MaxBottomNominationsPerCandidate : Z;
  MaxNominationsPerNominator : Z;
  DefaultFullValidatorCommission_cfg : Perbill;
  DefaultBasicValidatorCommission_cfg : Perbill;
  MaxFullValidatorCommission_cfg : Perbill;
  MaxBasicValidatorCommission_cfg : Perbill;
  MinFullValidatorStk : Balance;
  MinBasicValidatorStk : Balance;
  MinFullCandidateStk : Balance;
  MinBasicCandidateStk : Balance;
  MinNomination : Balance;
  MinNominatorStk : Balance
}.

(** ** Bonds and snapshots *)

Record Bond : Type := mkBond { b_owner : AccountId; b_amount : Balance }.
#[export] Instance Bond_eq_dec : EqDecision Bond.
Proof. solve_decision. Defined.

Inductive ValidatorStatus : Type :=
| VActive
| VIdle
| VKickedOut
| VLeaving (when : RoundIndex).
#[export] Instance ValidatorStatus_eq_dec : EqDecision ValidatorStatus.
Proof. solve_decision. Defined.

Record ValidatorSnapshot : Type := mkValidatorSnapshot {
  vs_bond : Balance;
  vs_nominations : list Bond;
  vs_total : Balance
}.
Definition default_snapshot : ValidatorSnapshot := mkValidatorSnapshot 0 [] 0.

(** The fields of [TotalSnapshot] in their order of declaration. *)
Record TotalSnapshot : Type := mkTotalSnapshot {
  total_self_bond : Balance;
  active_self_bond : Balance;
  total_nominations : Balance;
  total_top_nominations : Balance;
  total_bottom_nominations : Balance;
  active_nominations : Balance;
  active_top_nominations : Balance;
  active_bottom_nominations : Balance;
  total_nominators : Z;
  total_top_nominators : Z;
  total_bottom_nominators : Z;
  active_nominators : Z;
  active_top_nominators : Z;
  active_bottom_nominators : Z;
  total_stake : Balance;
  active_stake : Balance;
  total_voting_power : Balance;
  active_voting_power : Balance
}.
Definition default_total_snapshot : TotalSnapshot :=
  mkTotalSnapshot 0 0 0 0 0 0 0 0 0 0 0 0 0 0 0 0 0 0.

Inductive RewardDestination : Type := DstStaked | DstAccount.
#[export] Instance RewardDestination_eq_dec : EqDecision RewardDestination.
Proof. solve_decision. Defined.

Record DelayedControllerSet : Type := mkDelayedControllerSet {
  dcs_stash : AccountId; dcs_old : AccountId; dcs_new : AccountId
}.
Record DelayedCommissionSet : Type := mkDelayedCommissionSet {
  dms_who : AccountId; dms_old : Perbill; dms_new : Perbill
}.
Record DelayedPayout : Type := mkDelayedPayout {
  dp_round_issuance : Balance;
  dp_total_staking_reward : Balance;
  dp_validator_commission : Perbill
}.
Record CandidateBondLessRequest : Type := mkCandidateBondLessRequest {
  cr_amount : Balance; cr_when_executable : RoundIndex
}.

(** ** Nominations of a candidate *)

Record Nominations : Type := mkNominations {
  ns_nominations : list Bond;
  ns_total : Balance
}.
Definition empty_nominations : Nominations := mkNominations [] 0.

Inductive CapacityStatus : Type := CapFull | CapEmpty | CapPartial.
#[export] Instance CapacityStatus_eq_dec : EqDecision CapacityStatus.
Proof. solve_decision. Defined.

Inductive ProductivityStatus : Type := ProdActive | ProdIdle | ProdReady.
#[export] Instance ProductivityStatus_eq_dec : EqDecision ProductivityStatus.
Proof. solve_decision. Defined.

(** ** Candidates *)

Record CandidateMetadata : Type := mkCandidateMetadata {
  c_stash : AccountId;
  c_bond : Balance;
  c_initial_bond : Balance;
  c_nomination_count : Z;
  c_voting_power : Balance;
  c_lowest_top_nomination_amount : Balance;
  c_highest_bottom_nomination_amount : Balance;
  c_lowest_bottom_nomination_amount : Balance;
  c_top_capacity : CapacityStatus;
  c_bottom_capacity : CapacityStatus;
  c_request : option CandidateBondLessRequest;
  c_status : ValidatorStatus;
  c_is_selected : bool;
  c_commission : Perbill;
  c_last_block : BlockNumber;
  c_blocks_produced : Z;
  c_productivity : Perbill;
  c_productivity_status : ProductivityStatus;
  c_reward_dst : RewardDestination;
  c_awarded_tokens : Balance;
  c_tier : TierType
}.
#[export] Instance CandidateMetadata_rebuild : Rebuild CandidateMetadata := fun r =>
  mkCandidateMetadata (c_stash r) (c_bond r) (c_initial_bond r) (c_nomination_count r)
    (c_voting_power r) (c_lowest_top_nomination_amount r)
    (c_highest_bottom_nomination_amount r) (c_lowest_bottom_nomination_amount r)
    (c_top_capacity r) (c_bottom_capacity r) (c_request r) (c_status r) (c_is_selected r)
    (c_commission r) (c_last_block r) (c_blocks_produced r) (c_productivity r)
    (c_productivity_status r) (c_reward_dst r) (c_awarded_tokens r) (c_tier r).
#[export] Instance f_c_bond : Field c_bond := ltac:(derive_field).
#[export] Instance f_c_nomination_count : Field c_nomination_count := ltac:(derive_field).
#[export] Instance f_c_voting_power : Field c_voting_power := ltac:(derive_field).
#[export] Instance f_c_lowest_top : Field c_lowest_top_nomination_amount := ltac:(derive_field).
#[export] Instance f_c_highest_bottom : Field c_highest_bottom_nomination_amount := ltac:(derive_field).
#[export] Instance f_c_lowest_bottom : Field c_lowest_bottom_nomination_amount := ltac:(derive_field).
#[export] Instance f_c_top_capacity : Field c_top_capacity := ltac:(derive_field).
#[export] Instance f_c_bottom_capacity : Field c_bottom_capacity := ltac:(derive_field).
#[export] Instance f_c_request : Field c_request := ltac:(derive_field).
#[export] Instance f_c_status : Field c_status := ltac:(derive_field).
#[export] Instance f_c_is_selected : Field c_is_selected := ltac:(derive_field).
#[export] Instance f_c_commission : Field c_commission := ltac:(derive_field).
#[export] Instance f_c_last_block : Field c_last_block := ltac:(derive_field).
#[export] Instance f_c_blocks_produced : Field c_blocks_produced := ltac:(derive_field).
#[export] Instance f_c_productivity : Field c_productivity := ltac:(derive_field).
#[export] Instance f_c_productivity_status : Field c_productivity_status := ltac:(derive_field).
#[export] Instance f_c_reward_dst : Field c_reward_dst := ltac:(derive_field).
#[export] Instance f_c_awarded_tokens : Field c_awarded_tokens := ltac:(derive_field).
#[export] Instance f_c_tier : Field c_tier := ltac:(derive_field).

(** ** Nominators *)

Inductive NominatorAdded : Type := AddedToTop (new_total : Balance) | AddedToBottom.

Inductive NominatorStatus : Type := NActive | NLeaving (when : RoundIndex).
#[export] Instance NominatorStatus_eq_dec : EqDecision NominatorStatus.
Proof. solve_decision. Defined.

Inductive NominationChange : Type := Revoke | Decrease.
#[export] Instance NominationChange_eq_dec : EqDecision NominationChange.
Proof. solve_decision. Defined.

Record NominationRequest : Type := mkNominationRequest {
  r_validator : AccountId;
  r_amount : Balance;
  r_when_executable : RoundIndex;
  r_action : NominationChange
}.

Record PendingNominationRequests : Type := mkPendingNominationRequests {
  p_revocations_count : Z;
  p_requests : gmap N NominationRequest;
  p_less_total : Balance
}.
#[export] Instance PendingNominationRequests_rebuild : Rebuild PendingNominationRequests :=
  fun r => mkPendingNominationRequests (p_revocations_count r) (p_requests r) (p_less_total r).
#[export] Instance f_p_revocations_count : Field p_revocations_count := ltac:(derive_field).
#[export] Instance f_p_requests : Field p_requests := ltac:(derive_field).
#[export] Instance f_p_less_total : Field p_less_total := ltac:(derive_field).

Record Nominator : Type := mkNominator {
  n_id : AccountId;
  n_nominations : gmap N Balance;
  n_initial_nominations : gmap N Balance;
  n_total : Balance;
  n_requests : PendingNominationRequests;
  n_status : NominatorStatus;
  n_reward_dst : RewardDestination;
  n_awarded_tokens : Balance;
  n_awarded_tokens_per_candidate : gmap N Balance
}.
#[export] Instance Nominator_rebuild : Rebuild Nominator := fun r =>
  mkNominator (n_id r) (n_nominations r) (n_initial_nominations r) (n_total r) (n_requests r)
    (n_status r) (n_reward_dst r) (n_awarded_tokens r) (n_awarded_tokens_per_candidate r).
#[export] Instance f_n_nominations : Field n_nominations := ltac:(derive_field).
#[export] Instance f_n_initial_nominations : Field n_initial_nominations := ltac:(derive_field).
#[export] Instance f_n_total : Field n_total := ltac:(derive_field).
#[export] Instance f_n_requests : Field n_requests := ltac:(derive_field).
#[export] Instance f_n_status : Field n_status := ltac:(derive_field).
#[export] Instance f_n_reward_dst : Field n_reward_dst := ltac:(derive_field).
#[export] Instance f_n_awarded_tokens : Field n_awarded_tokens := ltac:(derive_field).
#[export] Instance f_n_awarded_per : Field n_awarded_tokens_per_candidate := ltac:(derive_field).

(** ** Rounds *)

Record RoundInfo : Type := mkRoundInfo {
  current_round_index : RoundIndex;
  first_session_index : SessionIndex;
  current_session_index : SessionIndex;
  first_round_block : BlockNumber;
  first_session_block : BlockNumber;
  current_block : BlockNumber;
  round_length : Z;
  session_length : Z
}.
#[export] Instance RoundInfo_rebuild : Rebuild RoundInfo := fun r =>
  mkRoundInfo (current_round_index r) (first_session_index r) (current_session_index r)
    (first_round_block r) (first_session_block r) (current_block r) (round_length r)
    (session_length r).
#[export] Instance f_current_round_index : Field current_round_index := ltac:(derive_field).
#[export] Instance f_first_session_index : Field first_session_index := ltac:(derive_field).
#[export] Instance f_current_session_index : Field current_session_index := ltac:(derive_field).
#[export] Instance f_first_round_block : Field first_round_block := ltac:(derive_field).
#[export] Instance f_first_session_block : Field first_session_block := ltac:(derive_field).
#[export] Instance f_current_block : Field current_block := ltac:(derive_field).
#[export] Instance f_round_length : Field round_length := ltac:(derive_field).
Definition default_round : RoundInfo := mkRoundInfo 1 1 1 0 0 0 20 200.

(** ** Inflation *)

Record Range : Type := mkRange { rg_min : Z; rg_ideal : Z; rg_max : Z }.
#[export] Instance Range_eq_dec : EqDecision Range.
Proof. solve_decision. Defined.
Record InflationInfo : Type := mkInflationInfo {
  inf_expect : Range;
  inf_annual : Range;
  inf_round : Range
}.

(** ** Events of the pallet *)

Inductive Event : Type :=
| EvNewRound (starting_block : BlockNumber) (round : RoundIndex)
    (selected_validators_number : Z) (total_balance : Balance)
| EvJoinedValidatorCandidates (account : AccountId) (amount_locked new_total_amt_locked : Balance)
| EvValidatorChosen (round : RoundIndex) (validator_account : AccountId)
    (total_exposed_amount : Balance)
| EvCandidateBondLessRequested (candidate : AccountId) (amount_to_decrease : Balance)
    (execute_round : RoundIndex)
| EvCandidateBondedMore (candidate : AccountId) (amount new_total_bond : Balance)
| EvCandidateBondedLess (candidate : AccountId) (amount new_bond : Balance)
| EvCandidateWentOffline (candidate : AccountId)
| EvCandidateBackOnline (candidate : AccountId)
| EvCandidateScheduledExit (exit_allowed_round : RoundIndex) (candidate : AccountId)
    (scheduled_exit : RoundIndex)
| EvCancelledCandidateExit (candidate : AccountId)
| EvCancelledCandidateBondLess (candidate : AccountId) (amount : Balance)
    (execute_round : RoundIndex)
| EvCandidateLeft (ex_candidate : AccountId) (unlocked_amount new_total_amt_locked : Balance)
| EvNominationDecreaseScheduled (nominator candidate : AccountId) (amount_to_decrease : Balance)
    (execute_round : RoundIndex)
| EvNominationIncreased (nominator candidate : AccountId) (amount : Balance) (in_top : bool)
| EvNominationDecreased (nominator candidate : AccountId) (amount : Balance) (in_top : bool)
| EvNominatorExitScheduled (round : RoundIndex) (nominator : AccountId)
    (scheduled_exit : RoundIndex)
| EvNominationRevocationScheduled (round : RoundIndex) (nominator candidate : AccountId)
    (scheduled_exit : RoundIndex)
| EvNominatorLeft (nominator : AccountId) (unstaked_amount : Balance)
| EvNominationRevoked (nominator candidate : AccountId) (unstaked_amount : Balance)
| EvNominationKicked (nominator candidate : AccountId) (unstaked_amount : Balance)
| EvNominatorExitCancelled (nominator : AccountId)
| EvCancelledNominationRequest (nominator : AccountId) (cancelled_request : NominationRequest)
| EvNomination (nominator : AccountId) (locked_amount : Balance) (candidate : AccountId)
    (nominator_position : NominatorAdded)
| EvNominatorLeftCandidate (nominator candidate : AccountId)
    (unstaked_amount total_candidate_staked : Balance)
| EvRewarded (account : AccountId) (rewards : Balance)
| EvInflationSet (annual_min annual_ideal annual_max round_min round_ideal round_max : Perbill)
| EvStakeExpectationsSet (expect_min expect_ideal expect_max : Balance)
| EvMaxFullSelectedSet (old new : Z)
| EvMaxBasicSelectedSet (old new : Z)
| EvDefaultValidatorCommissionSet (old new : Perbill) (tier : TierType)
| EvMaxValidatorCommissionSet (old new : Perbill) (tier : TierType)
| EvValidatorCommissionSet (candidate : AccountId) (old new : Perbill)
| EvValidatorCommissionSetCancelled (candidate : AccountId)
| EvBlocksPerRoundSet (current_round : RoundIndex) (first_block : BlockNumber) (old new : Z)
    (new_per_round_inflation_min new_per_round_inflation_ideal
     new_per_round_inflation_max : Perbill)
| EvStorageCacheLifetimeSet (old new : Z)
| EvControllerSet (old new : AccountId)
| EvControllerSetCancelled (candidate : AccountId)
| EvValidatorRewardDstSet (candidate : AccountId) (old new : RewardDestination)
| EvNominatorRewardDstSet (nominator : AccountId) (old new : RewardDestination)
| EvKickedOut (who : AccountId).

(** ** Storage

    The storage items of the pallet, under their names, with the storage of
    the balances ([Balances]), the relay manager ([Relay]) and the offence
    handler ([Offend]) that the calls reach, and the events deposited.
    [OptionQuery] maps are finite maps; [ValueQuery] maps are read with their
    default. *)
Record Storage `{Config} : Type := mkStorage {
  Session : SessionIndex;
  Round : RoundInfo;
  StorageCacheLifetime : Z;
  DefaultFullValidatorCommission : Perbill;
  DefaultBasicValidatorCommission : Perbill;
  MaxFullValidatorCommission : Perbill;
  MaxBasicValidatorCommission : Perbill;
  MaxTotalSelected : Z;
  MaxFullSelected : Z;
  MaxBasicSelected : Z;
  ProductivityPerBlock : Perbill;
  NominatorState : gmap N Nominator;
  CandidateInfo : gmap N CandidateMetadata;
  BondedStash : gmap N AccountId;
  TopNominations : gmap N Nominations;
  BottomNominations : gmap N Nominations;
  SelectedCandidates : gset N;
  SelectedFullCandidates : gset N;
  SelectedBasicCandidates : gset N;
  CachedSelectedCandidates : gmap Z (gset N);
  Majority : Z;
  CachedMajority : gmap Z Z;
  Total : Balance;
  CandidatePool : gmap N Balance;
  AtStake : gmap (Z * N) ValidatorSnapshot;
  TotalAtStake : gmap Z TotalSnapshot;
  DelayedPayouts : gmap Z DelayedPayout;
  DelayedControllerSets : gmap Z (list DelayedControllerSet);
  DelayedCommissionSets : gmap Z (list DelayedCommissionSet);
  Staked : gmap Z Balance;
  InflationConfig : InflationInfo;
  Points : gmap Z Z;
  AwardedPts : gmap (Z * N) Z;
  AwardedTokens : Balance;
  Balances : Cur;
  Relay : Rm;
  Offend : Oh;
  Events : list Event
}.
#[export] Instance Storage_rebuild `{Config} : Rebuild Storage := fun r =>
  mkStorage _ (Session r) (Round r) (StorageCacheLifetime r) (DefaultFullValidatorCommission r)
    (DefaultBasicValidatorCommission r) (MaxFullValidatorCommission r)
    (MaxBasicValidatorCommission r) (MaxTotalSelected r) (MaxFullSelected r)
    (MaxBasicSelected r) (ProductivityPerBlock r) (NominatorState r) (CandidateInfo r)
    (BondedStash r) (TopNominations r) (BottomNominations r) (SelectedCandidates r)
    (SelectedFullCandidates r) (SelectedBasicCandidates r) (CachedSelectedCandidates r)
    (Majority r) (CachedMajority r) (Total r) (CandidatePool r) (AtStake r) (TotalAtStake r)
    (DelayedPayouts r) (DelayedControllerSets r) (DelayedCommissionSets r) (Staked r)
    (InflationConfig r) (Points r) (AwardedPts r) (AwardedTokens r) (Balances r) (Relay r)
    (Offend r) (Events r).

Section StorageFields.
Context `{Config}.
#[export] Instance f_Session : Field Session := ltac:(derive_field).
#[export] Instance f_Round : Field Round := ltac:(derive_field).
#[export] Instance f_StorageCacheLifetime : Field StorageCacheLifetime := ltac:(derive_field).
#[export] Instance f_DefaultFull : Field DefaultFullValidatorCommission := ltac:(derive_field).
#[export] Instance f_DefaultBasic : Field DefaultBasicValidatorCommission := ltac:(derive_field).
#[export] Instance f_MaxFullComm : Field MaxFullValidatorCommission := ltac:(derive_field).
#[export] Instance f_MaxBasicComm : Field MaxBasicValidatorCommission := ltac:(derive_field).
#[export] Instance f_MaxTotalSelected : Field MaxTotalSelected := ltac:(derive_field).
#[export] Instance f_MaxFullSelected : Field MaxFullSelected := ltac:(derive_field).
#[export] Instance f_MaxBasicSelected : Field MaxBasicSelected := ltac:(derive_field).
#[export] Instance f_ProductivityPerBlock : Field ProductivityPerBlock := ltac:(derive_field).
#[export] Instance f_NominatorState : Field NominatorState := ltac:(derive_field).
#[export] Instance f_CandidateInfo : Field CandidateInfo := ltac:(derive_field).
#[export] Instance f_BondedStash : Field BondedStash := ltac:(derive_field).
#[export] Instance f_TopNominations : Field TopNominations := ltac:(derive_field).
#[export] Instance f_BottomNominations : Field BottomNominations := ltac:(derive_field).
#[export] Instance f_SelectedCandidates : Field SelectedCandidates := ltac:(derive_field).
#[export] Instance f_SelectedFull : Field SelectedFullCandidates := ltac:(derive_field).
#[export] Instance f_SelectedBasic : Field SelectedBasicCandidates := ltac:(derive_field).
#[export] Instance f_CachedSelected : Field CachedSelectedCandidates := ltac:(derive_field).
#[export] Instance f_Majority : Field Majority := ltac:(derive_field).
#[export] Instance f_CachedMajority : Field CachedMajority := ltac:(derive_field).
#[export] Instance f_Total : Field Total := ltac:(derive_field).
#[export] Instance f_CandidatePool : Field CandidatePool := ltac:(derive_field).
#[export] Instance f_AtStake : Field AtStake := ltac:(derive_field).
#[export] Instance f_TotalAtStake : Field TotalAtStake := ltac:(derive_field).
#[export] Instance f_DelayedPayouts : Field DelayedPayouts := ltac:(derive_field).
#[export] Instance f_DelayedControllerSets : Field DelayedControllerSets := ltac:(derive_field).
#[export] Instance f_DelayedCommissionSets : Field DelayedCommissionSets := ltac:(derive_field).
#[export] Instance f_Staked : Field Staked := ltac:(derive_field).
#[export] Instance f_InflationConfig : Field InflationConfig := ltac:(derive_field).
#[export] Instance f_Points : Field Points := ltac:(derive_field).
#[export] Instance f_AwardedPts : Field AwardedPts := ltac:(derive_field).
#[export] Instance f_AwardedTokens : Field AwardedTokens := ltac:(derive_field).
#[export] Instance f_Balances : Field Balances := ltac:(derive_field).
#[export] Instance f_Relay : Field Relay := ltac:(derive_field).
#[export] Instance f_Offend : Field Offend := ltac:(derive_field).
#[export] Instance f_Events : Field Events := ltac:(derive_field).
End StorageFields.

(** The monad of the pallet, and its accesses to the rest of the runtime. *)
Abbreviation P A := (M Storage DispatchError A).

Section Access.
Context `{Config}.

Definition get {A} (f : Storage -> A) : P A := gets f.
Definition put {A} (f : Storage -> A) `{!Field f} (v : A) : P unit :=
  modify (fun s => s <| f := v |>).
Definition mutate {A} (f : Storage -> A) `{!Field f} (g : A -> A) : P unit :=
  modify (fun s => s <| f ::= g |>).
Definition deposit_event (e : Event) : P unit := mutate Events (fun l => l ++ [e]).

(** [T::Currency::reserve(..)?], [T::Currency::unreserve(..)] *)
Definition currency_reserve (who : AccountId) (v : Balance) : P unit :=
  let* c := get Balances in
  match reserve c who v with
  | Some c' => put Balances c'
  | None => fail CurrencyError
  end.
Definition currency_unreserve (who : AccountId) (v : Balance) : P unit :=
  mutate Balances (fun c => unreserve c who v).
Definition currency_can_reserve (who : AccountId) (v : Balance) : P bool :=
  get (fun s => can_reserve (Balances s) who v).

Definition relay {A} (m : M Rm DispatchError A) : P A :=
  lift Relay (fun r s => s <| Relay := r |>) m.
Definition offend {A} (m : M (Cur * Oh) DispatchError A) : P A :=
  lift (fun s => (Balances s, Offend s))
    (fun co s => s <| Balances := co.1 |> <| Offend := co.2 |>) m.
Definition offend_only {A} (m : M Oh DispatchError A) : P A :=
  lift Offend (fun o s => s <| Offend := o |>) m.

(** The entries of a storage map in iteration order. *)
Definition storage_leb {V} (a b : AccountId * V) : bool :=
  (twox64 a.1 <? twox64 b.1)%N || ((twox64 a.1 =? twox64 b.1)%N && (a.1 <=? b.1)%N).
Definition storage_iter {V} (m : gmap N V) : list (AccountId * V) :=
  stable_sort storage_leb (map_to_list m).

(** [Round::<T>::get().current_round_index] *)
Definition round_index (s : Storage) : RoundIndex := current_round_index (Round s).
End Access.
