(* ===== verification/Nominations.v ===== *)
(** * Top and bottom nominations

    The operations of [Nominations] in [pallets/bfc-staking/src/lib.rs]: the
    lists of a candidate's bonds, kept from greatest to least and served first
    come first. The insertion uses the binary search of the standard library
    ([BinarySearch]). *)

From S2P Require Import Prelude Errors Primitives StakingTypes BinarySearch.
Local Open Scope Z_scope.
Local Open Scope frame_scope.

(** ** Operations of [Nominations] *)

Section Operations.
Context `{Config}.

Definition nominators (ns : Nominations) : list AccountId := b_owner <$> ns_nominations ns.
Definition count (ns : Nominations) : Z := Z.of_nat (length (ns_nominations ns)).

Definition sort_greatest_to_least (ns : Nominations) : Nominations :=
  mkNominations (stable_sort (fun a b => b_amount b <=? b_amount a) (ns_nominations ns))
    (ns_total ns).

(** [self.nominations[i..].iter().position(|x| x.amount != amount)
    .map_or(len, |offset| i + offset)] *)
Definition next_distinct (l : list Bond) (i : nat) (amount : Balance) : nat :=
  match list_find (fun x => b_amount x <> amount) (drop i l) with
  | Some (offset, _) => (i + offset)%nat
  | None => length l
  end.

Definition insert_sorted_greatest_to_least (ns : Nominations) (nomination : Bond) : Nominations :=
  let l := ns_nominations ns in
  let total := u128_sat_add (ns_total ns) (b_amount nomination) in
  let insertion_index :=
    match binary_search_by (fun x => Z.compare (b_amount nomination) (b_amount x)) l with
    | inl i => next_distinct l i (b_amount nomination)
    | inr i => i
    end in
  mkNominations (take insertion_index l ++ nomination :: drop insertion_index l) total.

Definition top_capacity (ns : Nominations) : CapacityStatus :=
  if MaxTopNominationsPerCandidate <=? count ns then CapFull
  else if count ns =? 0 then CapEmpty else CapPartial.
Definition bottom_capacity (ns : Nominations) : CapacityStatus :=
  if MaxBottomNominationsPerCandidate <=? count ns then CapFull
  else if count ns =? 0 then CapEmpty else CapPartial.

Definition lowest_nomination_amount (ns : Nominations) : Balance :=
  match last (ns_nominations ns) with Some x => b_amount x | None => 0 end.
Definition highest_nomination_amount (ns : Nominations) : Balance :=
  match head (ns_nominations ns) with Some x => b_amount x | None => 0 end.

(** The slashed bond is the first one of the nominator. *)
Fixpoint slash_first (l : list Bond) (nominator : AccountId) (value : Balance) : option (list Bond) :=
  match l with
  | [] => None
  | x :: l' =>
      if decide (b_owner x = nominator)
      then Some (mkBond (b_owner x) (sat_sub (b_amount x) value) :: l')
      else match slash_first l' nominator value with
           | Some l'' => Some (x :: l'')
           | None => None
           end
  end.
Definition slash_nomination_amount (ns : Nominations) (nominator : AccountId) (value : Balance)
    : Nominations * bool :=
  match slash_first (ns_nominations ns) nominator value with
  | Some l => (mkNominations l (sat_sub (ns_total ns) value), true)
  | None => (ns, false)
  end.

(** [Vec::pop] *)
Definition pop (l : list Bond) : option (Bond * list Bond) :=
  match last l with Some x => Some (x, take (pred (length l)) l) | None => None end.
End Operations.

(** ** The insertion against its specification *)

(** From greatest to least. *)
Definition descending (l : list Bond) : Prop :=
  StronglySorted (fun a b => b_amount b <= b_amount a) l.

(** What "insertion respects first come first serve" means: the new bond goes
    after every bond of at least its amount. *)
Fixpoint insert_fcfs (x : Bond) (l : list Bond) : list Bond :=
  match l with
  | [] => [x]
  | y :: l' => if b_amount x <=? b_amount y then y :: insert_fcfs x l' else x :: y :: l'
  end.

Definition amounts (l : list Bond) : list Z := b_amount <$> l.

Section InsertProofs.
Context `{Config}.

Lemma insert_fcfs_app x l1 l2 :
  Forall (fun y => b_amount x <= b_amount y) l1 ->
  Forall (fun y => b_amount y < b_amount x) l2 ->
  insert_fcfs x (l1 ++ l2) = l1 ++ x :: l2.
Proof.
  intros H1 H2. induction H1 as [|y l1 Hy _ IH]; cbn.
  - destruct H2 as [|y l2 Hy]; [done|]. cbn. by rewrite (proj2 (Z.leb_gt _ _)).
  - rewrite (proj2 (Z.leb_le _ _)) by done. by rewrite IH.
Qed.

Lemma insert_fcfs_perm x l : insert_fcfs x l ≡ₚ x :: l.
Proof.
  induction l as [|y l IH]; [done|]. cbn. case_match; [|done].
  rewrite IH. apply perm_swap.
Qed.

Lemma insert_fcfs_descending x l : descending l -> descending (insert_fcfs x l).
Proof.
  unfold descending. induction 1 as [|y l Hs IH Hy]; cbn; [repeat constructor|].
  destruct (Z.leb_spec (b_amount x) (b_amount y)).
  - constructor; [done|]. rewrite insert_fcfs_perm. by constructor.
  - constructor; [by constructor|]. constructor; [lia|].
    eapply Forall_impl; [done|]. cbn. lia.
Qed.

(** A descending list splits around an amount. *)
Lemma descending_split (a : Z) l :
  descending l -> exists l1 l2 l3, l = l1 ++ l2 ++ l3 /\
    Forall (fun y => a < b_amount y) l1 /\
    Forall (fun y => b_amount y = a) l2 /\
    Forall (fun y => b_amount y < a) l3.
Proof.
  unfold descending. induction 1 as [|y l Hs (l1 & l2 & l3 & -> & H1 & H2 & H3) Hy].
  { exists [], [], []. by repeat split. }
  destruct (Z.lt_trichotomy (b_amount y) a) as [Hlt|[Heq|Hgt]].
  - assert (l1 = [] /\ l2 = []) as [-> ->].
    { rewrite !Forall_app in Hy. destruct Hy as (Hy1 & Hy2 & _).
      destruct H1; [|inversion_clear Hy1; lia]. destruct H2; [done|inversion_clear Hy2; lia]. }
    exists [], [], (y :: l3). repeat split; auto.
  - assert (l1 = []) as ->.
    { rewrite !Forall_app in Hy. destruct Hy as (Hy1 & _).
      destruct H1; [done|inversion_clear Hy1; lia]. }
    exists [], (y :: l2), l3. repeat split; auto.
  - exists (y :: l1), l2, l3. repeat split; auto with lia.
Qed.

Section Split.
Context (a : Z) (l1 l2 l3 : list Bond).
Context (H1 : Forall (fun y => a < b_amount y) l1).
Context (H2 : Forall (fun y => b_amount y = a) l2).
Context (H3 : Forall (fun y => b_amount y < a) l3).
Let cmp (x : Bond) : comparison := Z.compare a (b_amount x).

Lemma split_cmp_lt i : (i < length l1)%nat -> cmp_at cmp (l1 ++ l2 ++ l3) i = Lt.
Proof.
  intros Hi. unfold cmp_at. rewrite lookup_app_l by done.
  destruct (lookup_lt_is_Some_2 l1 i Hi) as [x Hx]. rewrite Hx.
  apply Z.compare_lt_iff. eapply Forall_lookup_1 in H1; done.
Qed.
Lemma split_cmp_eq i :
  (length l1 <= i < length (l1 ++ l2))%nat -> cmp_at cmp (l1 ++ l2 ++ l3) i = Eq.
Proof.
  rewrite length_app. intros Hi. unfold cmp_at.
  rewrite lookup_app_r, lookup_app_l by lia.
  destruct (lookup_lt_is_Some_2 l2 (i - length l1)) as [x Hx]; [lia|]. rewrite Hx.
  apply Z.compare_eq_iff. symmetry. eapply Forall_lookup_1 in H2; done.
Qed.
Lemma split_cmp_gt i : (length (l1 ++ l2) <= i)%nat -> cmp_at cmp (l1 ++ l2 ++ l3) i = Gt.
Proof.
  intros Hi. unfold cmp_at. rewrite app_assoc, lookup_app_r by lia.
  destruct (l3 !! _) as [x|] eqn:Hx; [|done].
  apply Z.compare_gt_iff. eapply Forall_lookup_1 in H3; done.
Qed.

Lemma split_next_distinct i :
  (length l1 <= i < length (l1 ++ l2))%nat ->
  next_distinct (l1 ++ l2 ++ l3) i a = length (l1 ++ l2).
Proof.
  rewrite length_app. intros Hi. unfold next_distinct.
  rewrite drop_app_ge, drop_app_le by lia.
  assert (list_find (fun x => b_amount x <> a) (drop (i - length l1) l2) = None) as Hn.
  { apply list_find_None, Forall_drop. eapply Forall_impl; [done|]. cbn. auto. }
  destruct H3 as [|y l3' Hy _].
  - rewrite app_nil_r, Hn. rewrite !length_app. cbn. lia.
  - rewrite list_find_app_r by done. cbn. rewrite decide_True by lia. cbn.
    rewrite length_drop. lia.
Qed.
End Split.

Lemma insert_sorted_nominations ns x :
  descending (ns_nominations ns) ->
  ns_nominations (insert_sorted_greatest_to_least ns x) = insert_fcfs x (ns_nominations ns).
Proof.
  intros Hd. unfold insert_sorted_greatest_to_least. cbn [ns_nominations].
  destruct (descending_split (b_amount x) _ Hd) as (l1 & l2 & l3 & -> & H1 & H2 & H3).
  set (cmp := fun y => b_amount x ?= b_amount y).
  pose proof (binary_search_by_spec cmp (l1 ++ l2 ++ l3) (length l1) (length (l1 ++ l2))
    ltac:(rewrite !length_app; lia) (split_cmp_lt _ l1 l2 l3 H1) (split_cmp_eq _ l1 l2 l3 H2)
    (split_cmp_gt _ l1 l2 l3 H3)) as Hb.
  assert (match binary_search_by cmp (l1 ++ l2 ++ l3) with
          | inl i => next_distinct (l1 ++ l2 ++ l3) i (b_amount x) | inr i => i end
          = length (l1 ++ l2)) as ->.
  { destruct (binary_search_by _ _); [by apply split_next_distinct|by destruct Hb]. }
  rewrite app_assoc, take_app_length, drop_app_length.
  rewrite insert_fcfs_app; [done| |done].
  apply Forall_app; split; eapply Forall_impl; eauto; cbn; lia.
Qed.
End InsertProofs.
