(* ===== verification/Nominator.v ===== *)
(** * Nominators and their pending requests

    The methods of [Nominator] and [PendingNominationRequests] in
    [pallets/bfc-staking/src/lib.rs] that touch no storage other than reading
    the round, and the invariant they keep. The methods that reach the
    candidates and the balances are in [NominatorOps]. *)

From S2P Require Import Prelude Errors Primitives StakingTypes.
Local Open Scope Z_scope.
Local Open Scope frame_scope.

Section Operations.
Context `{Config}.

Definition new_requests : PendingNominationRequests := mkPendingNominationRequests 0 ∅ 0.

(** [PendingNominationRequests::remove_request] *)
Definition remove_request (p : PendingNominationRequests) (address : AccountId)
    : PendingNominationRequests :=
  match p_requests p !! address with
  | Some request =>
      mkPendingNominationRequests
        (match r_action request with
         | Revoke => sat_sub (p_revocations_count p) 1
         | Decrease => p_revocations_count p
         end)
        (delete address (p_requests p))
        (sat_sub (p_less_total p) (r_amount request))
  | None => p
  end.

(** [PendingNominationRequests::bond_less] *)
Definition requests_bond_less (p : PendingNominationRequests) (validator : AccountId)
    (amount : Balance) (when_executable : RoundIndex) : P PendingNominationRequests :=
  do* ensure (bool_decide (p_requests p !! validator = None))
        (Staking PendingNominationRequestAlreadyExists) in
  ret (p <| p_requests ::= <[validator := mkNominationRequest validator amount when_executable Decrease]> |>
         <| p_less_total ::= fun t => u128_add t amount |>).

(** [PendingNominationRequests::revoke] *)
Definition requests_revoke (p : PendingNominationRequests) (validator : AccountId)
    (amount : Balance) (when_executable : RoundIndex) : P PendingNominationRequests :=
  do* ensure (bool_decide (p_requests p !! validator = None))
        (Staking PendingNominationRequestAlreadyExists) in
  ret (p <| p_requests ::= <[validator := mkNominationRequest validator amount when_executable Revoke]> |>
         <| p_revocations_count ::= fun n => u32_add n 1 |>
         <| p_less_total ::= fun t => u128_add t amount |>).

Definition new_nominator (id validator : AccountId) (amount : Balance) : Nominator :=
  mkNominator id {[validator := amount]} {[validator := amount]} amount new_requests
    NActive DstStaked 0 {[validator := 0]}.

Definition nominator_is_active (n : Nominator) : bool := bool_decide (n_status n = NActive).
Definition is_revoking (n : Nominator) (candidate : AccountId) : bool :=
  match p_requests (n_requests n) !! candidate with
  | Some request => bool_decide (r_action request = Revoke)
  | None => false
  end.
Definition is_decreasing (n : Nominator) (candidate : AccountId) : bool :=
  match p_requests (n_requests n) !! candidate with
  | Some request => bool_decide (r_action request = Decrease)
  | None => false
  end.
Definition nominator_is_leaving (n : Nominator) : bool :=
  match n_status n with NLeaving _ => true | NActive => false end.

Definition rename_key {V} (old new : AccountId) (m : gmap N V) : gmap N V :=
  match m !! old with
  | Some v => <[new := v]> (delete old m)
  | None => m
  end.
Definition replace_nominations (n : Nominator) (old new : AccountId) : Nominator :=
  n <| n_nominations ::= rename_key old new |>
    <| n_initial_nominations ::= rename_key old new |>.
Definition replace_requests (n : Nominator) (old new : AccountId) : Nominator :=
  match p_requests (n_requests n) !! old with
  | Some request =>
      n <| n_requests ::= fun p =>
             p <| p_requests := <[new := mkNominationRequest new (r_amount request)
                                          (r_when_executable request) (r_action request)]>
                                  (delete old (p_requests p)) |> |>
  | None => n
  end.

Definition nominator_increment_awarded_tokens (n : Nominator) (validator : AccountId)
    (tokens : Balance) : Nominator :=
  n <| n_awarded_tokens_per_candidate ::=
         fun m => match m !! validator with
                  | Some x => <[validator := u128_add x tokens]> m
                  | None => m
                  end |>
    <| n_awarded_tokens ::= fun t => u128_add t tokens |>.

Definition can_execute_leave (n : Nominator) (nomination_weight_hint : Z) : P unit :=
  do* ensure (Z.of_nat (size (n_nominations n)) <=? nomination_weight_hint)
        (Staking TooLowNominationCountToLeaveNominators) in
  match n_status n with
  | NLeaving when =>
      let* now := get round_index in
      ensure (when <=? now) (Staking NominatorCannotLeaveYet)
  | NActive => fail (Staking NominatorNotLeaving)
  end.

Definition set_leaving (n : Nominator) (when : RoundIndex) : Nominator :=
  n <| n_status := NLeaving when |>.
Definition nominator_set_reward_dst (n : Nominator) (dst : RewardDestination) : Nominator :=
  n <| n_reward_dst := dst |>.
Definition nominator_schedule_leave (n : Nominator) : P (Nominator * (RoundIndex * RoundIndex)) :=
  let* now := get round_index in
  let when := u32_add now LeaveNominatorsDelay in
  ret (set_leaving n when, (now, when)).
Definition cancel_leave (n : Nominator) : Nominator := n <| n_status := NActive |>.

(** [Nominator::add_nomination] *)
Definition nominator_add_nomination (n : Nominator) (candidate : AccountId) (amount : Balance)
    : P Nominator :=
  match n_nominations n !! candidate with
  | Some _ => fail (Staking AlreadyNominatedCandidate)
  | None =>
      ret (n <| n_nominations ::= <[candidate := amount]> |>
             <| n_total ::= fun t => u128_add t amount |>
             <| n_initial_nominations ::= <[candidate := amount]> |>
             <| n_awarded_tokens_per_candidate ::= <[candidate := 0]> |>)
  end.

(** [Nominator::rm_nomination]: the remaining total, [None] when not found. *)
Definition rm_nomination (n : Nominator) (validator : AccountId) : Nominator * option Balance :=
  match n_nominations n !! validator with
  | Some amount =>
      let n' := n <| n_nominations ::= delete validator |>
                  <| n_initial_nominations ::= delete validator |>
                  <| n_awarded_tokens_per_candidate ::= delete validator |>
                  <| n_total ::= fun t => sat_sub t amount |> in
      (n', Some (n_total n'))
  | None => (n, None)
  end.

(** [Nominator::schedule_decrease_nomination] *)
Definition schedule_decrease_nomination (n : Nominator) (validator : AccountId) (less : Balance)
    : P (Nominator * RoundIndex) :=
  match n_nominations n !! validator with
  | Some amount =>
      do* ensure (less <? amount) (Staking NominatorBondBelowMin) in
      let expected_amt := u128_sub amount less in
      do* ensure (MinNomination <=? expected_amt) (Staking NominationBelowMin) in
      let net_total := u128_sub (n_total n) (p_less_total (n_requests n)) in
      let max_subtracted_amount := u128_sub net_total MinNominatorStk in
      do* ensure (less <=? max_subtracted_amount) (Staking NominatorBondBelowMin) in
      let* now := get round_index in
      let when := u32_add now NominationBondLessDelay in
      let* p := requests_bond_less (n_requests n) validator less when in
      ret (n <| n_requests := p |>, when)
  | None => fail (Staking NominationDNE)
  end.

(** [Nominator::schedule_revoke] *)
Definition schedule_revoke (n : Nominator) (validator : AccountId)
    : P (Nominator * (RoundIndex * RoundIndex)) :=
  match n_nominations n !! validator with
  | Some amount =>
      let* now := get round_index in
      let when := u32_add now RevokeNominationDelay in
      let* p := requests_revoke (n_requests n) validator amount when in
      ret (n <| n_requests := p |>, (now, when))
  | None => fail (Staking NominationDNE)
  end.

(** [Nominator::cancel_pending_request] *)
Definition cancel_pending_request (n : Nominator) (candidate : AccountId)
    : P (Nominator * NominationRequest) :=
  let* order := ok_or (p_requests (n_requests n) !! candidate)
                  (Staking PendingNominationRequestDNE) in
  let p := (n_requests n) <| p_requests ::= delete candidate |> in
  let p' :=
    match r_action order with
    | Revoke => p <| p_revocations_count ::= fun c => sat_sub c 1 |>
                  <| p_less_total ::= fun t => sat_sub t (r_amount order) |>
    | Decrease => p <| p_less_total ::= fun t => sat_sub t (r_amount order) |>
    end in
  ret (n <| n_requests := p' |>, order).
End Operations.
