(* ===== verification/Candidate.v ===== *)
(** * Candidates

    The methods of [CandidateMetadata] in [pallets/bfc-staking/src/lib.rs]. A
    [&mut self] method takes the metadata and returns it with its result;
    storage is written as the method writes it. When such a method returns an
    error its callers drop the metadata, except [rm_nomination_if_exists],
    [increase_nomination] and [decrease_nomination], whose first attempt fails
    with [NominationDNE] only before it changes the metadata. *)

From S2P Require Import Prelude Errors Primitives StakingTypes Nominations Nominator.
Local Open Scope Z_scope.
Local Open Scope frame_scope.

Section Operations.
Context `{Config}.

(** [Pallet::update_active] (impls.rs) *)
Definition update_active (candidate : AccountId) (total : Balance) : P unit :=
  mutate CandidatePool (fun pool =>
    match pool !! candidate with
    | Some _ => <[candidate := total]> pool
    | None => pool
    end).

Definition new_candidate (stash : AccountId) (bond : Balance) (tier : TierType)
    : P CandidateMetadata :=
  let* commission := match tier with
                     | Full => get DefaultFullValidatorCommission
                     | _ => get DefaultBasicValidatorCommission
                     end in
  ret (mkCandidateMetadata stash bond bond 0 bond 0 0 0 CapEmpty CapEmpty None VActive false
         commission 0 0 (from_percent 100) ProdIdle DstStaked 0 tier).

Definition is_active (c : CandidateMetadata) : bool := bool_decide (c_status c = VActive).
Definition is_kicked_out (c : CandidateMetadata) : bool := bool_decide (c_status c = VKickedOut).
Definition is_leaving (c : CandidateMetadata) : bool :=
  match c_status c with VLeaving _ => true | _ => false end.

Definition schedule_leave (c : CandidateMetadata)
    : P (CandidateMetadata * (RoundIndex * RoundIndex)) :=
  do* ensure (negb (is_leaving c)) (Staking CandidateAlreadyLeaving) in
  do* ensure (bool_decide (c_request c = None)) (Staking PendingCandidateRequestAlreadyExists) in
  let* now := get round_index in
  let when := u32_add now LeaveCandidatesDelay in
  ret (c <| c_status := VLeaving when |>, (now, when)).

Definition can_leave (c : CandidateMetadata) : P unit :=
  match c_status c with
  | VLeaving when =>
      let* now := get round_index in
      ensure (when <=? now) (Staking CandidateCannotLeaveYet)
  | _ => fail (Staking CandidateNotLeaving)
  end.

Definition c_go_offline (c : CandidateMetadata) : CandidateMetadata :=
  c <| c_status := VIdle |> <| c_is_selected := false |>.
Definition c_go_online (c : CandidateMetadata) : CandidateMetadata := c <| c_status := VActive |>.
Definition kick_out (c : CandidateMetadata) : CandidateMetadata :=
  c <| c_status := VKickedOut |> <| c_is_selected := false |>.
Definition slash_bond (c : CandidateMetadata) (bond : Balance) : CandidateMetadata :=
  c <| c_bond ::= fun b => sat_sub b bond |>.
Definition slash_voting_power (c : CandidateMetadata) (vp : Balance) : CandidateMetadata :=
  c <| c_voting_power ::= fun b => sat_sub b vp |>.
Definition set_commission (c : CandidateMetadata) (commission : Perbill) : CandidateMetadata :=
  c <| c_commission := commission |>.

Definition reset_commission (c : CandidateMetadata) (who : AccountId) : P CandidateMetadata :=
  let* now := get round_index in
  let* sets := get DelayedCommissionSets in
  let commission_sets := filter (fun d => dms_who d <> who) (default [] (sets !! now)) in
  do* mutate DelayedCommissionSets <[now := commission_sets]> in
  match c_tier c with
  | Full => let* d := get DefaultFullValidatorCommission in ret (c <| c_commission := d |>)
  | _ => let* d := get DefaultBasicValidatorCommission in ret (c <| c_commission := d |>)
  end.

Definition set_reward_dst (c : CandidateMetadata) (dst : RewardDestination) : CandidateMetadata :=
  c <| c_reward_dst := dst |>.
Definition set_is_selected (c : CandidateMetadata) (b : bool) : CandidateMetadata :=
  c <| c_is_selected := b |>.
Definition set_last_block (c : CandidateMetadata) (b : BlockNumber) : CandidateMetadata :=
  c <| c_last_block := b |>.
Definition increment_blocks_produced (c : CandidateMetadata) : CandidateMetadata :=
  c <| c_blocks_produced ::= fun n => u32_add n 1 |>.
Definition decrement_productivity (c : CandidateMetadata) : P CandidateMetadata :=
  let* base := get ProductivityPerBlock in
  let now := c_productivity c in
  ret (c <| c_productivity := if now <=? base then 0 else from_parts (now - base) |>).
Definition increment_awarded_tokens (c : CandidateMetadata) (tokens : Balance) : CandidateMetadata :=
  c <| c_awarded_tokens ::= fun t => u128_add t tokens |>.
Definition reset_blocks_produced (c : CandidateMetadata) : CandidateMetadata :=
  c <| c_blocks_produced := 0 |>.
Definition reset_productivity (c : CandidateMetadata) : CandidateMetadata :=
  c <| c_productivity := from_percent 100 |> <| c_productivity_status := ProdIdle |>.

(** ** Self-bond *)

Definition bond_more (c : CandidateMetadata) (stash controller : AccountId) (more : Balance)
    : P CandidateMetadata :=
  do* currency_reserve stash more in
  let* total := get Total in
  let new_total := u128_sat_add total more in
  let c' := c <| c_bond ::= fun b => u128_sat_add b more |>
              <| c_voting_power ::= fun v => u128_sat_add v more |> in
  do* put Total new_total in
  do* deposit_event (EvCandidateBondedMore controller more (c_bond c')) in
  ret c'.

Definition min_candidate_stk (tier : TierType) : Balance :=
  match tier with Full => MinFullCandidateStk | _ => MinBasicCandidateStk end.

Definition schedule_bond_less (c : CandidateMetadata) (less : Balance)
    : P (CandidateMetadata * RoundIndex) :=
  do* ensure (bool_decide (c_request c = None)) (Staking PendingCandidateRequestAlreadyExists) in
  do* ensure (less <? c_bond c) (Staking CandidateBondBelowMin) in
  do* ensure (min_candidate_stk (c_tier c) <=? u128_sub (c_bond c) less)
        (Staking CandidateBondBelowMin) in
  let* now := get round_index in
  let when_executable := u32_add now CandidateBondLessDelay in
  ret (c <| c_request := Some (mkCandidateBondLessRequest less when_executable) |>,
       when_executable).

Definition execute_bond_less (c : CandidateMetadata) (stash controller : AccountId)
    : P CandidateMetadata :=
  let* request := ok_or (c_request c) (Staking PendingCandidateRequestsDNE) in
  let* now := get round_index in
  do* ensure (cr_when_executable request <=? now) (Staking PendingCandidateRequestNotDueYet) in
  do* currency_unreserve stash (cr_amount request) in
  let* total := get Total in
  let new_total_staked := sat_sub total (cr_amount request) in
  let c' := c <| c_bond ::= fun b => sat_sub b (cr_amount request) |>
              <| c_voting_power ::= fun v => sat_sub v (cr_amount request) |>
              <| c_request := None |> in
  do* put Total new_total_staked in
  do* update_active controller (c_voting_power c') in
  do* deposit_event (EvCandidateBondedLess controller (cr_amount request) (c_bond c')) in
  ret c'.

Definition cancel_bond_less (c : CandidateMetadata) (who : AccountId) : P CandidateMetadata :=
  let* request := ok_or (c_request c) (Staking PendingCandidateRequestsDNE) in
  do* deposit_event
        (EvCancelledCandidateBondLess who (cr_amount request) (cr_when_executable request)) in
  ret (c <| c_request := None |>).

(** ** Nominations metadata *)

Definition reset_top_data (c : CandidateMetadata) (candidate : AccountId) (top : Nominations)
    : P CandidateMetadata :=
  let old_voting_power := c_voting_power c in
  let c' := c <| c_lowest_top_nomination_amount := lowest_nomination_amount top |>
              <| c_top_capacity := top_capacity top |>
              <| c_voting_power := u128_add (c_bond c) (ns_total top) |> in
  do* (if decide (old_voting_power = c_voting_power c') then ret tt
       else update_active candidate (c_voting_power c')) in
  ret c'.

Definition reset_bottom_data (c : CandidateMetadata) (bottom : Nominations) : CandidateMetadata :=
  c <| c_lowest_bottom_nomination_amount := lowest_nomination_amount bottom |>
    <| c_highest_bottom_nomination_amount := highest_nomination_amount bottom |>
    <| c_bottom_capacity := bottom_capacity bottom |>.

(** ** Adding a nomination *)

(** The last part of [add_bottom_nomination] when the bottom is full: the
    lowest bottom bond is returned to its nominator. *)
Definition kick_lowest_bottom (candidate : AccountId) (kicked : Bond) : P unit :=
  do* currency_unreserve (b_owner kicked) (b_amount kicked) in
  let* states := get NominatorState in
  let* nominator_state := ok_or (states !! b_owner kicked) (Staking NominatorDNE) in
  let leaving := (size (n_nominations nominator_state) =? 1)%nat in
  let nominator_state := fst (rm_nomination nominator_state candidate) in
  let nominator_state :=
    nominator_state <| n_requests ::= fun p => remove_request p candidate |> in
  do* deposit_event (EvNominationKicked (b_owner kicked) candidate (b_amount kicked)) in
  if leaving then
    do* mutate NominatorState (delete (b_owner kicked)) in
    deposit_event (EvNominatorLeft (b_owner kicked) (b_amount kicked))
  else mutate NominatorState <[b_owner kicked := nominator_state]>.

Definition add_bottom_nomination (c : CandidateMetadata) (bumped_from_top : bool)
    (candidate : AccountId) (nomination : Bond) : P CandidateMetadata :=
  let* bottoms := get BottomNominations in
  let* bottom := ok_or (bottoms !! candidate) (Staking BottomNominationDNE) in
  let* ' (bottom, increase_nomination_count) :=
    (if count bottom =? MaxBottomNominationsPerCandidate then
       let* ' (kicked, rest) := ok_or (pop (ns_nominations bottom)) (Staking BottomNominationDNE) in
       do* kick_lowest_bottom candidate kicked in
       ret (mkNominations rest (sat_sub (ns_total bottom) (b_amount kicked)), false)
     else ret (bottom, negb bumped_from_top)) in
  let c := if (increase_nomination_count : bool)
           then c <| c_nomination_count ::= fun n => u32_add n 1 |> else c in
  let bottom := insert_sorted_greatest_to_least bottom nomination in
  let c := reset_bottom_data c bottom in
  do* mutate BottomNominations <[candidate := bottom]> in
  ret c.

Definition add_top_nomination (c : CandidateMetadata) (candidate : AccountId) (nomination : Bond)
    : P (CandidateMetadata * option Balance) :=
  let* tops := get TopNominations in
  let* top := ok_or (tops !! candidate) (Staking TopNominationDNE) in
  let* ' (c, top, less_total_staked) :=
    (if count top =? MaxTopNominationsPerCandidate then
       let* ' (new_bottom_nomination, rest) :=
         ok_or (pop (ns_nominations top)) (Staking TopNominationDNE) in
       let top := mkNominations rest (sat_sub (ns_total top) (b_amount new_bottom_nomination)) in
       let less := if decide (c_bottom_capacity c = CapFull)
                   then Some (c_lowest_bottom_nomination_amount c) else None in
       let* c := add_bottom_nomination c true candidate new_bottom_nomination in
       ret (c, top, less)
     else ret (c, top, None)) in
  let top := insert_sorted_greatest_to_least top nomination in
  let* c := reset_top_data c candidate top in
  let c := match less_total_staked with
           | None => c <| c_nomination_count ::= fun n => u32_add n 1 |>
           | Some _ => c
           end in
  do* mutate TopNominations <[candidate := top]> in
  ret (c, less_total_staked).

Definition add_nomination (c : CandidateMetadata) (candidate : AccountId) (nomination : Bond)
    : P (CandidateMetadata * (NominatorAdded * option Balance)) :=
  match c_top_capacity c with
  | CapFull =>
      if c_lowest_top_nomination_amount c <? b_amount nomination then
        let* ' (c, less) := add_top_nomination c candidate nomination in
        ret (c, (AddedToTop (c_voting_power c), less))
      else
        let* less :=
          (if decide (c_bottom_capacity c = CapFull) then
             do* ensure (c_lowest_bottom_nomination_amount c <? b_amount nomination)
                   (Staking CannotNominateLessThanLowestBottomWhenBottomIsFull) in
             ret (Some (c_lowest_bottom_nomination_amount c))
           else ret None) in
        let* c := add_bottom_nomination c false candidate nomination in
        ret (c, (AddedToBottom, less))
  | _ =>
      let* ' (c, _) := add_top_nomination c candidate nomination in
      ret (c, (AddedToTop (c_voting_power c), None))
  end.

(** ** Removing a nomination *)

(** The [filter] closures: the bonds of other owners, and the amounts of the
    bonds taken out. *)
Definition bonds_of_others (who : AccountId) (l : list Bond) : list Bond :=
  filter (fun d => b_owner d <> who) l.
Definition bonds_of (who : AccountId) (l : list Bond) : list Bond :=
  filter (fun d => b_owner d = who) l.
Definition taken_amount (who : AccountId) (l : list Bond) : option Balance :=
  b_amount <$> last (bonds_of who l).
(** The [map] closures: the bonds of [who] changed by [f]. *)
Definition map_bonds_of (who : AccountId) (f : Balance -> Balance) (l : list Bond) : list Bond :=
  (fun d => if decide (b_owner d = who) then mkBond (b_owner d) (f (b_amount d)) else d) <$> l.
Definition has_bond (who : AccountId) (l : list Bond) : bool :=
  existsb (fun d => bool_decide (b_owner d = who)) l.

(** [bottom_nominations.nominations.remove(0)] panics on an empty list. *)
Definition remove_first (l : list Bond) : P (Bond * list Bond) :=
  match l with x :: l' => ret (x, l') | [] => trap end.

Definition rm_top_nomination (c : CandidateMetadata) (candidate nominator : AccountId)
    : P (CandidateMetadata * bool) :=
  let old_voting_power := c_voting_power c in
  let* tops := get TopNominations in
  let* top := ok_or (tops !! candidate) (Staking CandidateDNE) in
  let* actual_amount := ok_or (taken_amount nominator (ns_nominations top))
                          (Staking NominationDNE) in
  let top := mkNominations (bonds_of_others nominator (ns_nominations top))
               (sat_sub (ns_total top) actual_amount) in
  let* ' (c, top) :=
    (if decide (c_bottom_capacity c = CapEmpty) then ret (c, top)
     else
       let* bottoms := get BottomNominations in
       let* bottom := ok_or (bottoms !! candidate) (Staking BottomNominationDNE) in
       let* ' (highest_bottom_nomination, rest) := remove_first (ns_nominations bottom) in
       let bottom :=
         mkNominations rest (sat_sub (ns_total bottom) (b_amount highest_bottom_nomination)) in
       let c := reset_bottom_data c bottom in
       do* mutate BottomNominations <[candidate := bottom]> in
       ret (c, insert_sorted_greatest_to_least top highest_bottom_nomination)) in
  let* c := reset_top_data c candidate top in
  let c := c <| c_nomination_count ::= fun n => sat_sub n 1 |> in
  do* mutate TopNominations <[candidate := top]> in
  ret (c, old_voting_power =? c_voting_power c).

Definition rm_bottom_nomination (c : CandidateMetadata) (candidate nominator : AccountId)
    : P (CandidateMetadata * bool) :=
  let* bottoms := get BottomNominations in
  let* bottom := ok_or (bottoms !! candidate) (Staking BottomNominationDNE) in
  let* actual_amount := ok_or (taken_amount nominator (ns_nominations bottom))
                          (Staking NominationDNE) in
  let bottom := mkNominations (bonds_of_others nominator (ns_nominations bottom))
                  (sat_sub (ns_total bottom) actual_amount) in
  let c := reset_bottom_data c bottom in
  let c := c <| c_nomination_count ::= fun n => sat_sub n 1 |> in
  do* mutate BottomNominations <[candidate := bottom]> in
  ret (c, false).

(** [let result = first; if result == Err(nomination_dne_err) { second } else { result }] *)
Definition or_else_nomination_dne {A} (first second : P A) : P A :=
  let* r := attempt first in
  match r with
  | inr a => ret a
  | inl e => if is_nomination_dne e then second else fail e
  end.

Definition rm_nomination_if_exists (c : CandidateMetadata) (candidate nominator : AccountId)
    (amount : Balance) : P (CandidateMetadata * bool) :=
  let amount_geq_lowest_top := c_lowest_top_nomination_amount c <=? amount in
  let top_is_not_full := negb (bool_decide (c_top_capacity c = CapFull)) in
  let lowest_top_eq_highest_bottom :=
    c_lowest_top_nomination_amount c =? c_highest_bottom_nomination_amount c in
  if top_is_not_full || (amount_geq_lowest_top && negb lowest_top_eq_highest_bottom)
  then rm_top_nomination c candidate nominator
  else if amount_geq_lowest_top && lowest_top_eq_highest_bottom
  then or_else_nomination_dne (rm_top_nomination c candidate nominator)
         (rm_bottom_nomination c candidate nominator)
  else rm_bottom_nomination c candidate nominator.

(** ** Increasing a nomination *)

Definition increase_top_nomination (c : CandidateMetadata) (candidate nominator : AccountId)
    (more : Balance) : P (CandidateMetadata * bool) :=
  let* tops := get TopNominations in
  let* top := ok_or (tops !! candidate) (Staking TopNominationDNE) in
  do* ensure (has_bond nominator (ns_nominations top)) (Staking NominationDNE) in
  let top := mkNominations
               (map_bonds_of nominator (fun a => u128_sat_add a more) (ns_nominations top))
               (u128_sat_add (ns_total top) more) in
  let top := sort_greatest_to_least top in
  let* c := reset_top_data c candidate top in
  do* mutate TopNominations <[candidate := top]> in
  ret (c, true).

Definition increase_bottom_nomination (c : CandidateMetadata) (candidate nominator : AccountId)
    (bond more : Balance) : P (CandidateMetadata * bool) :=
  let* bottoms := get BottomNominations in
  let* bottom := ok_or (bottoms !! candidate) (Staking CandidateDNE) in
  let* ' (c, bottom, in_top_after) :=
    (if c_lowest_top_nomination_amount c <? u128_sat_add bond more then
       let* amount := ok_or (taken_amount nominator (ns_nominations bottom))
                        (Staking NominationDNE) in
       let nomination := mkBond nominator (u128_sat_add amount more) in
       let bottom := mkNominations (bonds_of_others nominator (ns_nominations bottom))
                       (sat_sub (ns_total bottom) bond) in
       let* tops := get TopNominations in
       let* top := ok_or (tops !! candidate) (Staking TopNominationDNE) in
       let* ' (top, bottom) :=
         (if decide (top_capacity top = CapFull) then
            let* ' (new_bottom_nomination, rest) :=
              ok_or (pop (ns_nominations top)) (Staking TopNominationDNE) in
            ret (mkNominations rest (sat_sub (ns_total top) (b_amount new_bottom_nomination)),
                 insert_sorted_greatest_to_least bottom new_bottom_nomination)
          else ret (top, bottom)) in
       let top := insert_sorted_greatest_to_least top nomination in
       let* c := reset_top_data c candidate top in
       do* mutate TopNominations <[candidate := top]> in
       ret (c, bottom, true)
     else
       do* ensure (has_bond nominator (ns_nominations bottom)) (Staking NominationDNE) in
       let bottom := mkNominations
                       (map_bonds_of nominator (fun a => u128_sat_add a more)
                          (ns_nominations bottom))
                       (u128_sat_add (ns_total bottom) more) in
       ret (c, sort_greatest_to_least bottom, false)) in
  let c := reset_bottom_data c bottom in
  do* mutate BottomNominations <[candidate := bottom]> in
  ret (c, in_top_after).

Definition increase_nomination (c : CandidateMetadata) (candidate nominator : AccountId)
    (bond more : Balance) : P (CandidateMetadata * bool) :=
  let lowest_top_eq_highest_bottom :=
    c_lowest_top_nomination_amount c =? c_highest_bottom_nomination_amount c in
  let bond_geq_lowest_top := c_lowest_top_nomination_amount c <=? bond in
  if bond_geq_lowest_top && negb lowest_top_eq_highest_bottom
  then increase_top_nomination c candidate nominator more
  else if bond_geq_lowest_top && lowest_top_eq_highest_bottom
  then or_else_nomination_dne (increase_top_nomination c candidate nominator more)
         (increase_bottom_nomination c candidate nominator bond more)
  else increase_bottom_nomination c candidate nominator bond more.

(** ** Decreasing a nomination *)

Definition decrease_top_nomination (c : CandidateMetadata) (candidate nominator : AccountId)
    (bond less : Balance) : P (CandidateMetadata * bool) :=
  let bond_after_less_than_highest_bottom :=
    sat_sub bond less <? c_highest_bottom_nomination_amount c in
  let full_top_and_nonempty_bottom :=
    bool_decide (c_top_capacity c = CapFull) && negb (bool_decide (c_bottom_capacity c = CapEmpty)) in
  let* tops := get TopNominations in
  let* top := ok_or (tops !! candidate) (Staking CandidateDNE) in
  let* ' (c, top, in_top_after) :=
    (if bond_after_less_than_highest_bottom && full_top_and_nonempty_bottom then
       let taken := bonds_of nominator (ns_nominations top) in
       let top := mkNominations (bonds_of_others nominator (ns_nominations top))
                    (fold_left (fun t d => sat_sub t (b_amount d)) taken (ns_total top)) in
       let* amount := ok_or (b_amount <$> last taken) (Staking NominationDNE) in
       let nomination := mkBond nominator (sat_sub amount less) in
       let* bottoms := get BottomNominations in
       let* bottom := ok_or (bottoms !! candidate) (Staking BottomNominationDNE) in
       let* ' (highest_bottom_nomination, rest) := remove_first (ns_nominations bottom) in
       let bottom :=
         mkNominations rest (sat_sub (ns_total bottom) (b_amount highest_bottom_nomination)) in
       let top := insert_sorted_greatest_to_least top highest_bottom_nomination in
       let bottom := insert_sorted_greatest_to_least bottom nomination in
       let c := reset_bottom_data c bottom in
       do* mutate BottomNominations <[candidate := bottom]> in
       ret (c, top, false)
     else
       do* ensure (has_bond nominator (ns_nominations top)) (Staking NominationDNE) in
       let top := mkNominations
                    (map_bonds_of nominator (fun a => sat_sub a less) (ns_nominations top))
                    (sat_sub (ns_total top) less) in
       ret (c, sort_greatest_to_least top, true)) in
  let* c := reset_top_data c candidate top in
  do* mutate TopNominations <[candidate := top]> in
  ret (c, in_top_after).

(** The total of the bottom nominations is left as it is. *)
Definition decrease_bottom_nomination (c : CandidateMetadata) (candidate nominator : AccountId)
    (less : Balance) : P (CandidateMetadata * bool) :=
  let* bottoms := get BottomNominations in
  let* bottom := ok_or (bottoms !! candidate) (Staking BottomNominationDNE) in
  do* ensure (has_bond nominator (ns_nominations bottom)) (Staking NominationDNE) in
  let bottom := mkNominations
                  (map_bonds_of nominator (fun a => sat_sub a less) (ns_nominations bottom))
                  (ns_total bottom) in
  let bottom := sort_greatest_to_least bottom in
  let c := reset_bottom_data c bottom in
  do* mutate BottomNominations <[candidate := bottom]> in
  ret (c, false).

Definition decrease_nomination (c : CandidateMetadata) (candidate nominator : AccountId)
    (bond less : Balance) : P (CandidateMetadata * bool) :=
  let lowest_top_eq_highest_bottom :=
    c_lowest_top_nomination_amount c =? c_highest_bottom_nomination_amount c in
  let bond_geq_lowest_top := c_lowest_top_nomination_amount c <=? bond in
  if bond_geq_lowest_top && negb lowest_top_eq_highest_bottom
  then decrease_top_nomination c candidate nominator bond less
  else if bond_geq_lowest_top && lowest_top_eq_highest_bottom
  then or_else_nomination_dne (decrease_top_nomination c candidate nominator bond less)
         (decrease_bottom_nomination c candidate nominator less)
  else decrease_bottom_nomination c candidate nominator less.
End Operations.
