(* ===== verification/NominatorOps.v ===== *)
(** * Nominators acting on candidates

    The methods of [Nominator] in [pallets/bfc-staking/src/lib.rs] that reach
    the candidate of a nomination and the balances, and
    [Pallet::nominator_leaves_candidate] of [impls.rs]. *)

From S2P Require Import Prelude Errors Primitives StakingTypes Nominations Nominator Candidate.
Local Open Scope Z_scope.
Local Open Scope frame_scope.

Section Operations.
Context `{Config}.

(** [Pallet::nominator_leaves_candidate] *)
Definition nominator_leaves_candidate (candidate nominator : AccountId) (amount : Balance)
    : P unit :=
  let* infos := get CandidateInfo in
  let* state := ok_or (infos !! candidate) (Staking CandidateDNE) in
  let* ' (state, _) := rm_nomination_if_exists state candidate nominator amount in
  do* currency_unreserve nominator amount in
  let* total := get Total in
  do* put Total (sat_sub total amount) in
  do* mutate CandidateInfo <[candidate := state]> in
  deposit_event (EvNominatorLeftCandidate nominator candidate amount (c_voting_power state)).

(** [Nominator::increase_nomination] *)
Definition nominator_increase_nomination (n : Nominator) (candidate : AccountId)
    (amount : Balance) : P Nominator :=
  match n_nominations n !! candidate with
  | Some before_amount =>
      let n := n <| n_nominations ::= <[candidate := u128_add before_amount amount]> |>
                 <| n_total ::= fun t => u128_add t amount |> in
      let* infos := get CandidateInfo in
      let* validator_state := ok_or (infos !! candidate) (Staking CandidateDNE) in
      do* currency_reserve (n_id n) amount in
      let* ' (validator_state, in_top) :=
        increase_nomination validator_state candidate (n_id n) before_amount amount in
      do* update_active candidate (c_voting_power validator_state) in
      let* total := get Total in
      do* put Total (u128_sat_add total amount) in
      do* mutate CandidateInfo <[candidate := validator_state]> in
      do* mutate NominatorState <[n_id n := n]> in
      do* deposit_event (EvNominationIncreased (n_id n) candidate amount in_top) in
      ret n
  | None => fail (Staking NominationDNE)
  end.

(** The [Revoke] arm of [Nominator::execute_pending_request]. *)
Definition execute_revoke (n : Nominator) (candidate : AccountId) (amount : Balance) : P unit :=
  let* leaving :=
    (if (size (n_nominations n) =? 1)%nat then ret true
     else
       do* ensure (amount <=? u128_sub (n_total n) MinNominatorStk)
             (Staking NominatorBondBelowMin) in
       ret false) in
  let n := n <| n_requests ::= fun p =>
                  p <| p_less_total ::= fun t => sat_sub t amount |>
                    <| p_revocations_count ::= fun c => sat_sub c 1 |> |> in
  let n := fst (rm_nomination n candidate) in
  do* nominator_leaves_candidate candidate (n_id n) amount in
  do* deposit_event (EvNominationRevoked (n_id n) candidate amount) in
  if (leaving : bool) then
    do* mutate NominatorState (delete (n_id n)) in
    deposit_event (EvNominatorLeft (n_id n) amount)
  else mutate NominatorState <[n_id n := n]>.

(** The [Decrease] arm of [Nominator::execute_pending_request]. *)
Definition execute_decrease (n : Nominator) (candidate : AccountId) (amount : Balance) : P unit :=
  let n := n <| n_requests ::= fun p => p <| p_less_total ::= fun t => sat_sub t amount |> |> in
  match n_nominations n !! candidate with
  | Some amount_before =>
      if amount <? amount_before then
        let n := n <| n_nominations ::= <[candidate := sat_sub amount_before amount]> |>
                   <| n_total ::= fun t => sat_sub t amount |> in
        let new_total := n_total n in
        do* ensure (MinNomination <=? new_total) (Staking NominationBelowMin) in
        do* ensure (MinNominatorStk <=? new_total) (Staking NominatorBondBelowMin) in
        let* infos := get CandidateInfo in
        let* validator := ok_or (infos !! candidate) (Staking CandidateDNE) in
        do* currency_unreserve (n_id n) amount in
        let* ' (validator, in_top) :=
          decrease_nomination validator candidate (n_id n) amount_before amount in
        do* mutate CandidateInfo <[candidate := validator]> in
        let* total := get Total in
        do* put Total (sat_sub total amount) in
        do* mutate NominatorState <[n_id n := n]> in
        deposit_event (EvNominationDecreased (n_id n) candidate amount in_top)
      else fail (Staking NominationBelowMin)
  | None => fail (Staking NominationDNE)
  end.

(** [Nominator::execute_pending_request] *)
Definition execute_pending_request (n : Nominator) (candidate : AccountId) : P unit :=
  let* now := get round_index in
  let* request := ok_or (p_requests (n_requests n) !! candidate)
                    (Staking PendingNominationRequestDNE) in
  let n := n <| n_requests ::= fun p => p <| p_requests ::= delete candidate |> |> in
  do* ensure (r_when_executable request <=? now) (Staking PendingNominationRequestNotDueYet) in
  match r_action request with
  | Revoke => execute_revoke n candidate (r_amount request)
  | Decrease => execute_decrease n candidate (r_amount request)
  end.
End Operations.
