(* ===== verification/Inflation.v ===== *)
(** * Inflation

    [pallets/bfc-staking/src/inflation.rs]: the round rates derived from the
    annual ones, and [Pallet::compute_issuance] of [impls.rs]. The fixed-point
    power that turns one annual rate into a round rate is
    [annual_rate_to_round], a parameter; rates are converted in the order of
    the source, and a panic of the conversion is a panic here. *)

From S2P Require Import Prelude Errors Primitives StakingTypes.
Local Open Scope Z_scope.
Local Open Scope frame_scope.

Definition SECONDS_PER_YEAR : Z := 31557600.
Definition SECONDS_PER_BLOCK : Z := 3.
Definition BLOCKS_PER_YEAR : Z := SECONDS_PER_YEAR / SECONDS_PER_BLOCK.

(** [Range::is_valid] *)
Definition range_is_valid (r : Range) : bool :=
  (rg_ideal r <=? rg_max r) && (rg_min r <=? rg_ideal r).

Section Operations.
Context `{Config}.

Definition perbill_annual_to_perbill_round (annual : Range) (rounds_per_year : Z) : P Range :=
  let* rmin := expect (annual_rate_to_round (rg_min annual) rounds_per_year) in
  let* rideal := expect (annual_rate_to_round (rg_ideal annual) rounds_per_year) in
  let* rmax := expect (annual_rate_to_round (rg_max annual) rounds_per_year) in
  ret (mkRange rmin rideal rmax).

(** A division by a zero round length panics. *)
Definition rounds_per_year : P Z :=
  let* round := get Round in
  if round_length round =? 0 then trap else ret (BLOCKS_PER_YEAR / round_length round).
Definition annual_to_round (annual : Range) : P Range :=
  let* periods := rounds_per_year in
  perbill_annual_to_perbill_round annual periods.

Definition set_round_from_annual (i : InflationInfo) (new : Range) : P InflationInfo :=
  let* round := annual_to_round new in
  ret (mkInflationInfo (inf_expect i) (inf_annual i) round).
Definition reset_round (i : InflationInfo) (new_length : Z) : P InflationInfo :=
  if new_length =? 0 then trap
  else
    let* round := perbill_annual_to_perbill_round (inf_annual i) (BLOCKS_PER_YEAR / new_length) in
    ret (mkInflationInfo (inf_expect i) (inf_annual i) round).
Definition set_expectations (i : InflationInfo) (expect : Range) : InflationInfo :=
  mkInflationInfo expect (inf_annual i) (inf_round i).

(** [Pallet::compute_issuance] *)
Definition compute_issuance (config : InflationInfo) (staked : Balance) : Balance :=
  let round_issuance :=
    mkRange (perbill_mul (rg_min (inf_round config)) staked)
      (perbill_mul (rg_ideal (inf_round config)) staked)
      (perbill_mul (rg_max (inf_round config)) staked) in
  if staked <=? rg_min (inf_expect config) then rg_max round_issuance
  else if rg_max (inf_expect config) <=? staked then rg_min round_issuance
  else rg_ideal round_issuance.

(** [inflation::round_issuance_range] *)
Definition round_issuance_range (s : Storage) (round_inflation : Range) : Range :=
  let circulating := total_issuance (Balances s) in
  mkRange (perbill_mul (rg_min round_inflation) circulating)
    (perbill_mul (rg_ideal round_inflation) circulating)
    (perbill_mul (rg_max round_inflation) circulating).
End Operations.
