(* ===== verification/StakingImpls.v ===== *)
(** * The pallet's internal functions

    [pallets/bfc-staking/src/pallet/impls.rs]: candidate selection, rewards,
    the round and session transitions, kick-outs and slashing, and the round
    methods of [lib.rs]. *)

From S2P Require Import Prelude Errors Primitives StakingTypes Nominations Nominator Candidate NominatorOps Inflation.
Local Open Scope Z_scope.
Local Open Scope frame_scope.

Section Queries.
Context `{Config}.
Implicit Types s : Storage.

Definition is_nominator s (acc : AccountId) : bool :=
  bool_decide (is_Some (NominatorState s !! acc)).
Definition is_candidate s (acc : AccountId) (tier : TierType) : bool :=
  match CandidateInfo s !! acc with
  | Some state => match tier with
                  | All => true
                  | _ => bool_decide (c_tier state = tier)
                  end
  | None => false
  end.
Definition is_selected_candidate s (acc : AccountId) (tier : TierType) : bool :=
  if decide (acc ∈ SelectedCandidates s) then is_candidate s acc tier else false.

Definition controller_sets s (r : RoundIndex) : list DelayedControllerSet :=
  default [] (DelayedControllerSets s !! r).
Definition commission_sets s (r : RoundIndex) : list DelayedCommissionSet :=
  default [] (DelayedCommissionSets s !! r).
Definition is_controller_set_requested s (controller : AccountId) : bool :=
  existsb (fun c => bool_decide (dcs_old c = controller)) (controller_sets s (round_index s)).
Definition is_commission_set_requested s (who : AccountId) : bool :=
  existsb (fun c => bool_decide (dms_who c = who)) (commission_sets s (round_index s)).

(** [Pallet::compute_majority] *)
Definition compute_majority s : Z := Z.of_nat (size (SelectedCandidates s)) / 2 + 1.

(** [Pallet::get_sorted_candidates] *)
Definition get_sorted_candidates s : list Bond :=
  stable_sort (fun x y => b_amount y <=? b_amount x)
    ((fun kv => mkBond kv.1 kv.2) <$> acc_iter (CandidatePool s)).
End Queries.

Section DelayedSets.
Context `{Config}.

Definition add_to_controller_sets (stash old new : AccountId) : P unit :=
  let* r := get round_index in
  let* sets := get (fun s => controller_sets s r) in
  do* ensure (negb (existsb (fun c => bool_decide (dcs_old c = old) || bool_decide (dcs_new c = new)) sets))
        (Staking AlreadyControllerSetRequested) in
  let* sets := ok_or (try_push MAX_AUTHORITIES (mkDelayedControllerSet stash old new) sets)
                 (Staking TooManyDelayedControllers) in
  mutate DelayedControllerSets <[r := sets]>.

Definition add_to_commission_sets (who : AccountId) (old new : Perbill) : P unit :=
  let* r := get round_index in
  let* sets := get (fun s => commission_sets s r) in
  let* sets := ok_or (try_push MAX_AUTHORITIES (mkDelayedCommissionSet who old new) sets)
                 (Staking TooManyDelayedCommissions) in
  mutate DelayedCommissionSets <[r := sets]>.

Definition remove_controller_set (who : AccountId) : P unit :=
  let* r := get round_index in
  let* sets := get (fun s => controller_sets s r) in
  mutate DelayedControllerSets <[r := filter (fun c => dcs_old c <> who) sets]>.

Definition remove_commission_set (who : AccountId) : P unit :=
  let* r := get round_index in
  let* sets := get (fun s => commission_sets s r) in
  mutate DelayedCommissionSets <[r := filter (fun c => dms_who c <> who) sets]>.
End DelayedSets.

Section CandidateSets.
Context `{Config}.

Definition remove_from_candidate_pool (candidate : AccountId) : P bool :=
  let* pool := get CandidatePool in
  do* put CandidatePool (delete candidate pool) in
  ret (bool_decide (is_Some (pool !! candidate))).

Definition replace_from_candidate_pool (old new : AccountId) : P unit :=
  let* pool := get CandidatePool in
  match pool !! old with
  | Some balance =>
      let* pool := expect (try_insert_map MAX_AUTHORITIES new balance (delete old pool)) in
      put CandidatePool pool
  | None => ret tt
  end.

Definition add_to_selected_candidates (candidate : AccountId) (tier : TierType) : P unit :=
  let* selected := get SelectedCandidates in
  let* selected := expect (try_insert_set MAX_AUTHORITIES candidate selected) in
  do* put SelectedCandidates selected in
  match tier with
  | Full =>
      let* full := get SelectedFullCandidates in
      let* full := expect (try_insert_set MAX_AUTHORITIES candidate full) in
      put SelectedFullCandidates full
  | _ =>
      let* basic := get SelectedBasicCandidates in
      let* basic := expect (try_insert_set MAX_AUTHORITIES candidate basic) in
      put SelectedBasicCandidates basic
  end.

Definition remove_from_selected_candidates (candidate : AccountId) (tier : TierType) : P unit :=
  do* mutate SelectedCandidates (fun c => c ∖ {[candidate]}) in
  match tier with
  | Full => mutate SelectedFullCandidates (fun c => c ∖ {[candidate]})
  | _ => mutate SelectedBasicCandidates (fun c => c ∖ {[candidate]})
  end.

Definition refresh_cached_selected_candidates (now : RoundIndex) (validators : gset N) : P unit :=
  let* lifetime := get StorageCacheLifetime in
  mutate CachedSelectedCandidates (fun cached =>
    let cached := if lifetime <=? btree_len cached then pop_first cached else cached in
    <[now := validators]> cached).

Definition refresh_latest_cached_selected_candidates : P unit :=
  let* candidates := get SelectedCandidates in
  let* r := get round_index in
  mutate CachedSelectedCandidates <[r := candidates]>.

Definition refresh_latest_cached_majority : P unit :=
  let* majority := get Majority in
  let* r := get round_index in
  mutate CachedMajority <[r := majority]>.

Definition refresh_majority (now : RoundIndex) : P unit :=
  let* cached := get CachedMajority in
  let* lifetime := get StorageCacheLifetime in
  let cached := if lifetime <=? btree_len cached then pop_first cached else cached in
  let* majority := get compute_majority in
  do* put CachedMajority (<[now := majority]> cached) in
  put Majority majority.

Definition replace_from_selected_candidates (old new : AccountId) (tier : TierType) : P unit :=
  do* remove_from_selected_candidates old tier in
  do* add_to_selected_candidates new tier in
  refresh_latest_cached_selected_candidates.
End CandidateSets.

Section Productivity.
Context `{Config}.

Definition compute_productivity (session_validators : list AccountId) : P unit :=
  for_each session_validators (fun validator =>
    let* infos := get CandidateInfo in
    match infos !! validator with
    | Some state =>
        let* state := (if decide (c_productivity_status state = ProdIdle)
                       then decrement_productivity state else ret state) in
        mutate CandidateInfo <[validator := state]>
    | None => ret tt
    end).

Definition calculate_productivity_per_block (validator_count round_length : Z) : Perbill :=
  if validator_count =? 0 then 0
  else
    let blocks_per_validator := u32_add (round_length / validator_count) 1 in
    if blocks_per_validator =? 0 then 0
    else from_percent (u32_add (100 / blocks_per_validator) 1).

Definition refresh_productivity_per_block (validator_count round_length : Z) : P unit :=
  put ProductivityPerBlock (calculate_productivity_per_block validator_count round_length).

(** [Pallet::note_author] and the [EventHandler] of [pallet_authorship]. *)
Definition note_author_points (author : AccountId) : P unit :=
  let* round := get Round in
  let round_idx := current_round_index round in
  let* infos := get CandidateInfo in
  do* match infos !! author with
      | Some state =>
          let state := set_last_block state (u32_add (current_block round) 1) in
          let state := increment_blocks_produced state in
          mutate CandidateInfo <[author := state]>
      | None => ret tt
      end in
  let* pts := get AwardedPts in
  let score_plus_5 := u32_add (default 0 (pts !! (round_idx, author))) 5 in
  do* mutate AwardedPts <[(round_idx, author) := score_plus_5]> in
  mutate Points (fun m => <[round_idx := u32_add (default 0 (m !! round_idx)) 5]> m).

Definition note_author (author : AccountId) : P unit :=
  do* note_author_points author in
  let* infos := get CandidateInfo in
  match infos !! author with
  | Some state => mutate CandidateInfo <[author := state <| c_productivity_status := ProdActive |>]>
  | None => ret tt
  end.

Definition reset_candidate_states : P unit :=
  mutate CandidateInfo (fun infos =>
    (fun state => set_is_selected (reset_productivity (reset_blocks_produced state)) false)
      <$> infos).
End Productivity.

(** ** Rewards *)

Section Rewards.
Context `{Config}.

Definition prepare_staking_payouts (now : RoundIndex) : P unit :=
  let delay := RewardPaymentDelay in
  if now <=? delay then ret tt
  else
    let round_to_payout := u32_sub now delay in
    let* points := get Points in
    let total_points := default 0 (points !! round_to_payout) in
    if total_points =? 0 then ret tt
    else
      let* staked := get Staked in
      let total_staked := default 0 (staked !! round_to_payout) in
      do* mutate Staked (delete round_to_payout) in
      let* config := get InflationConfig in
      let round_issuance := compute_issuance config total_staked in
      let* commission := get DefaultBasicValidatorCommission in
      mutate DelayedPayouts <[round_to_payout := mkDelayedPayout round_issuance round_issuance commission]>.

(** [Pallet::mint_reward] *)
Definition mint_reward (amount : Balance) (to : AccountId) : P unit :=
  let* c := get Balances in
  match deposit_into_existing c to amount with
  | Some (transferred, c') =>
      do* put Balances c' in
      do* mutate AwardedTokens (fun t => u128_add t transferred) in
      deposit_event (EvRewarded to transferred)
  | None => ret tt
  end.

Definition handle_validator_reward_payout (controller stash : AccountId) (reward : Balance)
    : P unit :=
  let* infos := get CandidateInfo in
  match infos !! controller with
  | Some validator_state =>
      do* mint_reward reward stash in
      let validator_state := increment_awarded_tokens validator_state reward in
      let* validator_state :=
        (if decide (c_reward_dst validator_state = DstStaked) then
           let* v := bond_more validator_state (c_stash validator_state) controller reward in
           do* update_active controller (c_voting_power v) in
           ret v
         else ret validator_state) in
      mutate CandidateInfo <[controller := validator_state]>
  | None => ret tt
  end.

Definition handle_nominator_reward_payout (controller nominator : AccountId) (reward : Balance)
    : P unit :=
  let* states := get NominatorState in
  match states !! nominator with
  | Some nominator_state =>
      if nominator_is_active nominator_state && negb (is_revoking nominator_state controller)
         && negb (is_decreasing nominator_state controller)
      then
        do* mint_reward reward nominator in
        let nominator_state :=
          nominator_increment_awarded_tokens nominator_state controller reward in
        match n_reward_dst nominator_state with
        | DstStaked =>
            let* r := attempt (nominator_increase_nomination nominator_state controller reward) in
            match r with
            | inr nominator_state => mutate NominatorState <[nominator := nominator_state]>
            | inl _ => ret tt
            end
        | DstAccount => mutate NominatorState <[nominator := nominator_state]>
        end
      else ret tt
  | None => ret tt
  end.

(** [.expect(..)] on a [Result] *)
Definition expect_ok {A} (m : P A) : P A :=
  let* r := attempt m in
  match r with inr a => ret a | inl _ => trap end.

(** The validators with points in a round, in iteration order. *)
Definition awarded_validators (s : Storage) (round : RoundIndex) : list (AccountId * Z) :=
  storage_iter (list_to_map (M := gmap N Z)
    (omap (fun kv : (Z * N) * Z => if decide (kv.1.1 = round) then Some (kv.1.2, kv.2) else None)
       (map_to_list (AwardedPts s)))).

(** The shares of one round reward: the validator's, and the part its
    nominators divide. *)
Definition validator_shares (commission_rate : Perbill) (pts total_points : Z)
    (payout_info : DelayedPayout) (snapshot : ValidatorSnapshot)
    : Balance * Balance * Balance :=
  let validator_issuance := perbill_mul commission_rate (dp_round_issuance payout_info) in
  let validator_contribution_pct := from_rational pts total_points in
  let total_reward_amount :=
    perbill_mul validator_contribution_pct (dp_total_staking_reward payout_info) in
  let validator_stake_pct := from_rational (vs_bond snapshot) (vs_total snapshot) in
  let commission := perbill_mul validator_contribution_pct validator_issuance in
  let amount_due := u128_sub total_reward_amount commission in
  let validator_reward := u128_add (perbill_mul validator_stake_pct amount_due) commission in
  (total_reward_amount, amount_due, validator_reward).
Definition nominator_share (snapshot : ValidatorSnapshot) (amount_due : Balance) (b : Bond)
    : Balance :=
  perbill_mul (from_rational (b_amount b) (vs_total snapshot)) amount_due.

Definition pay_one_validator_reward (round_to_payout : RoundIndex) (payout_info : DelayedPayout)
    : P (option (AccountId * Balance)) :=
  let* points := get Points in
  let total_points := default 0 (points !! round_to_payout) in
  if total_points =? 0 then ret None
  else
    let* awarded := get (fun s => awarded_validators s round_to_payout) in
    match awarded with
    | (validator, pts) :: _ =>
        do* mutate AwardedPts (delete (round_to_payout, validator)) in
        let* infos := get CandidateInfo in
        match infos !! validator with
        | Some state =>
            let* snapshots := get AtStake in
            let snapshot := default default_snapshot (snapshots !! (round_to_payout, validator)) in
            do* mutate AtStake (delete (round_to_payout, validator)) in
            let '(total_reward_amount, amount_due, validator_reward) :=
              validator_shares (c_commission state) pts total_points payout_info snapshot in
            do* match vs_nominations snapshot with
                | [] =>
                    expect_ok (handle_validator_reward_payout validator (c_stash state)
                                 total_reward_amount)
                | nominations =>
                    do* expect_ok (handle_validator_reward_payout validator (c_stash state)
                                     validator_reward) in
                    for_each nominations (fun b =>
                      let nominator_reward := nominator_share snapshot amount_due b in
                      if nominator_reward =? 0 then ret tt
                      else expect_ok (handle_nominator_reward_payout validator (b_owner b)
                                        nominator_reward))
                end in
            ret (Some (validator, total_reward_amount))
        | None => ret None
        end
    | [] => ret None
    end.

Definition handle_delayed_payouts (now : RoundIndex) : P unit :=
  let delay := RewardPaymentDelay in
  if now <? delay then ret tt
  else
    let round_to_payout := u32_sub now delay in
    let* payouts := get DelayedPayouts in
    match payouts !! round_to_payout with
    | Some payout_info =>
        let* result := pay_one_validator_reward round_to_payout payout_info in
        match result with
        | None =>
            do* mutate DelayedPayouts (delete round_to_payout) in
            mutate Points (delete round_to_payout)
        | Some _ => ret tt
        end
    | None => ret tt
    end.
End Rewards.

(** ** Delayed requests applied at a round change *)

Section DelayedHandlers.
Context `{Config}.

Definition replace_nominator_nominations (noms : list AccountId) (old new : AccountId) : P unit :=
  for_each noms (fun n =>
    let* states := get NominatorState in
    match states !! n with
    | Some nominator =>
        let nominator := replace_requests (replace_nominations nominator old new) old new in
        mutate NominatorState <[n := nominator]>
    | None => ret tt
    end).

Definition handle_delayed_commission_sets (now : RoundIndex) : P unit :=
  let delayed_round := u32_sub now 1 in
  let* sets := get (fun s => commission_sets s delayed_round) in
  do* mutate DelayedCommissionSets (delete delayed_round) in
  for_each sets (fun c =>
    let* infos := get CandidateInfo in
    match infos !! dms_who c with
    | Some candidate =>
        mutate CandidateInfo <[dms_who c := set_commission candidate (dms_new c)]>
    | None => ret tt
    end).

(** [take] of a storage map of nominations, followed by the re-insertion. *)
Definition replace_candidate_nominations (sel : Storage -> gmap N Nominations) `{!Field sel}
    (old new : AccountId) : P unit :=
  let* m := get sel in
  match m !! old with
  | Some ns =>
      do* mutate sel (delete old) in
      do* replace_nominator_nominations (nominators ns) old new in
      mutate sel <[new := ns]>
  | None => ret tt
  end.

Definition apply_controller_set (now delayed_round : RoundIndex) (c : DelayedControllerSet)
    : P unit :=
  let old := dcs_old c in
  let new := dcs_new c in
  let* infos := get CandidateInfo in
  match infos !! old with
  | Some candidate =>
      do* mutate CandidateInfo (fun m => <[new := candidate]> (delete old m)) in
      do* mutate BondedStash <[dcs_stash c := new]> in
      do* replace_from_candidate_pool old new in
      do* (if c_is_selected candidate
           then replace_from_selected_candidates old new (c_tier candidate) else ret tt) in
      do* (if decide (c_tier candidate = Full)
           then relay (replace_bonded_controller old new) else ret tt) in
      do* replace_candidate_nominations TopNominations old new in
      do* replace_candidate_nominations BottomNominations old new in
      do* mutate AwardedPts (fun m =>
            <[(now, new) := default 0 (m !! (now, old))]> (delete (now, old) m)) in
      do* mutate AwardedPts (fun m =>
            <[(delayed_round, new) := default 0 (m !! (delayed_round, old))]>
              (delete (delayed_round, old) m)) in
      mutate AtStake (fun m =>
        <[(now, new) := default default_snapshot (m !! (now, old))]> (delete (now, old) m))
  | None => ret tt
  end.

Definition handle_delayed_controller_sets (now : RoundIndex) : P unit :=
  let delayed_round := u32_sub now 1 in
  let* sets := get (fun s => controller_sets s delayed_round) in
  do* mutate DelayedControllerSets (delete delayed_round) in
  for_each sets (apply_controller_set now delayed_round).
End DelayedHandlers.

(** ** Selection of the validators *)

Section Selection.
Context `{Config}.

(** [Pallet::get_top_n_candidates] *)
Definition get_top_n_candidates (candidates : list Bond) (top_n : nat) (min_stake : Balance)
    : list AccountId :=
  stable_sort N.leb
    (b_owner <$> take top_n (filter (fun x => min_stake <= b_amount x) candidates)).

(** The candidates of one tier with the self-bond of the tier. *)
Definition eligible (s : Storage) (full : bool) (candidate : Bond) : bool :=
  match CandidateInfo s !! b_owner candidate with
  | Some state =>
      match c_tier state with
      | Full => full && (MinFullCandidateStk <=? c_bond state)
      | _ => negb full && (MinBasicCandidateStk <=? c_bond state)
      end
  | None => false
  end.

Definition compute_top_candidates (s : Storage) : list AccountId * list AccountId :=
  let candidates := get_sorted_candidates s in
  let full_candidates := filter (fun c => eligible s true c = true) candidates in
  let basic_candidates := filter (fun c => eligible s false c = true) candidates in
  (get_top_n_candidates full_candidates (Z.to_nat (MaxFullSelected s)) MinFullValidatorStk,
   get_top_n_candidates basic_candidates (Z.to_nat (MaxBasicSelected s)) MinBasicValidatorStk).

Definition snapshot_validator (now : RoundIndex) (acc : Z * Z * Balance) (validator : AccountId)
    : P (Z * Z * Balance) :=
  let '(validator_count, nomination_count, total) := acc in
  let* infos := get CandidateInfo in
  let* state := expect (infos !! validator) in
  let* tops := get TopNominations in
  let* top_nominations := expect (tops !! validator) in
  let snapshot :=
    mkValidatorSnapshot (c_bond state) (ns_nominations top_nominations) (c_voting_power state) in
  do* mutate AtStake <[(now, validator) := snapshot]> in
  do* mutate CandidateInfo <[validator := set_is_selected state true]> in
  do* deposit_event (EvValidatorChosen now validator (c_voting_power state)) in
  ret (u32_add validator_count 1, u32_add nomination_count (c_nomination_count state),
       u128_add total (c_voting_power state)).

Definition collect_validator_snapshot (now : RoundIndex) (validators : list AccountId)
    : P (Z * Z * Balance) :=
  fold_each validators (0, 0, 0) (snapshot_validator now).

(** A [BTreeSet] turned into a [BoundedBTreeSet], or a panic. *)
Definition bounded_set (l : list AccountId) : P (gset N) :=
  let set := list_to_set l : gset N in
  if Z.of_nat (size set) <=? MAX_AUTHORITIES then ret set else trap.

Definition update_top_candidates (now : RoundIndex)
    (full_validators basic_validators : list AccountId) : P (Z * Z * Balance) :=
  let* ' (fv, fn, ft) := collect_validator_snapshot now full_validators in
  let* ' (bv, bn, bt) := collect_validator_snapshot now basic_validators in
  let* validators := bounded_set (full_validators ++ basic_validators) in
  do* put SelectedCandidates validators in
  let* full := bounded_set full_validators in
  do* put SelectedFullCandidates full in
  let* basic := bounded_set basic_validators in
  do* put SelectedBasicCandidates basic in
  do* refresh_cached_selected_candidates now validators in
  do* relay (refresh_selected_relayers now full_validators) in
  ret (u32_add fv bv, u32_add fn bn, u128_add ft bt).

(** The contribution of one candidate to the total snapshot. *)
Definition snapshot_total (t : TotalSnapshot) (active : bool) (state : CandidateMetadata)
    (top bottom : Nominations) : TotalSnapshot :=
  let act (old v : Balance) := if active then u128_sat_add old v else old in
  let act32 (old v : Z) := if active then u32_sat_add old v else old in
  let noms := u128_add (ns_total top) (ns_total bottom) in
  let cnt := u32_add (count top) (count bottom) in
  let stake := u128_add (u128_add (c_bond state) (ns_total top)) (ns_total bottom) in
  {| total_self_bond := u128_sat_add (total_self_bond t) (c_bond state);
     active_self_bond := act (active_self_bond t) (c_bond state);
     total_nominations := u128_sat_add (total_nominations t) noms;
     total_top_nominations := u128_sat_add (total_top_nominations t) (ns_total top);
     total_bottom_nominations := u128_sat_add (total_bottom_nominations t) (ns_total bottom);
     active_nominations := act (active_nominations t) noms;
     active_top_nominations := act (active_top_nominations t) (ns_total top);
     active_bottom_nominations := act (active_bottom_nominations t) (ns_total bottom);
     total_nominators := u32_sat_add (total_nominators t) cnt;
     total_top_nominators := u32_sat_add (total_top_nominators t) (count top);
     total_bottom_nominators := u32_sat_add (total_bottom_nominators t) (count bottom);
     active_nominators := act32 (active_nominators t) cnt;
     active_top_nominators := act32 (active_top_nominators t) (count top);
     active_bottom_nominators := act32 (active_bottom_nominators t) (count bottom);
     total_stake := u128_sat_add (total_stake t) stake;
     active_stake := act (active_stake t) stake;
     total_voting_power := u128_sat_add (total_voting_power t) (c_voting_power state);
     active_voting_power := act (active_voting_power t) (c_voting_power state) |}.

Definition refresh_total_snapshot (now : RoundIndex) : P unit :=
  let* selected_candidates := get SelectedCandidates in
  let* infos := get CandidateInfo in
  let* snapshot :=
    fold_each (storage_iter infos) default_total_snapshot (fun t kv =>
      let* tops := get TopNominations in
      let* top_nominations := expect (tops !! kv.1) in
      let* bottoms := get BottomNominations in
      let* bottom_nominations := expect (bottoms !! kv.1) in
      ret (snapshot_total t (bool_decide (kv.1 ∈ selected_candidates)) kv.2 top_nominations
             bottom_nominations)) in
  mutate TotalAtStake <[now := snapshot]>.
End Selection.

(** ** Kick-out and slash *)

Section KickAndSlash.
Context `{Config}.

Definition kickout_validator (who : AccountId) : P unit :=
  let* _removed := remove_from_candidate_pool who in
  let* infos := get CandidateInfo in
  let* candidate_state := expect (infos !! who) in
  let candidate_state := kick_out candidate_state in
  do* mutate CandidateInfo <[who := candidate_state]> in
  do* remove_from_selected_candidates who (c_tier candidate_state) in
  do* refresh_latest_cached_selected_candidates in
  let* majority := get compute_majority in
  do* put Majority majority in
  do* refresh_latest_cached_majority in
  do* (if decide (c_tier candidate_state = Full) then relay (kickout_relayer who) else ret tt) in
  deposit_event (EvKickedOut who).

(** The pending bond-less request after a slash. *)
Definition request_after_slash (c : CandidateMetadata) : option CandidateBondLessRequest :=
  match c_request c with
  | Some request =>
      if (c_bond c <=? cr_amount request)
         || (sat_sub (c_bond c) (cr_amount request) <? min_candidate_stk (c_tier c))
      then None else Some request
  | None => None
  end.

Definition slash_reserved_bonds (offender : AccountId) (offender_slash : Balance) : P unit :=
  let* infos := get CandidateInfo in
  let* candidate_state := expect (infos !! offender) in
  let candidate_state := slash_bond candidate_state offender_slash in
  let candidate_state := slash_voting_power candidate_state offender_slash in
  let candidate_state :=
    candidate_state <| c_request := request_after_slash candidate_state |> in
  let* total := get Total in
  do* put Total (sat_sub total offender_slash) in
  mutate CandidateInfo <[offender := candidate_state]>.

(** One offender of [OnOffenceHandler::on_offence]. *)
Definition on_one_offence (slash_session : SessionIndex) (controller : AccountId)
    (slash_fraction : Perbill) : P unit :=
  let* r := get round_index in
  let* infos := get CandidateInfo in
  match infos !! controller with
  | Some candidate_state =>
      if is_kicked_out candidate_state then ret tt
      else
        let offender_slash := perbill_mul slash_fraction (c_bond candidate_state) in
        let offence := mkOffence r slash_session (c_bond candidate_state) offender_slash
                         offender_slash 0 slash_fraction in
        let* ' (is_slashed, slash_amount) :=
          offend (try_handle_offence controller (c_stash candidate_state) (c_tier candidate_state)
                    offence) in
        if (is_slashed : bool) then
          do* kickout_validator controller in
          slash_reserved_bonds controller slash_amount
        else ret tt
  | None => ret tt
  end.
Definition on_offence (offenders : list (AccountId * Perbill)) (slash_session : SessionIndex)
    : P unit :=
  for_each offenders (fun o => on_one_offence slash_session o.1 o.2).
End KickAndSlash.

(** ** Rounds and sessions *)

Section Rounds.
Context `{Config}.

(** [RoundInfo]'s methods *)
Definition should_update (r : RoundInfo) (now : BlockNumber) : bool :=
  round_length r <=? u32_sub now (first_round_block r).
Definition update_round (r : RoundInfo) (now : BlockNumber) : P RoundInfo :=
  let* session := get Session in
  ret (r <| current_round_index ::= fun i => u32_add i 1 |>
         <| first_session_index := session |>
         <| current_session_index := session |>
         <| first_round_block := now |>
         <| first_session_block := now |>
         <| current_block := now |>).
Definition update_session (r : RoundInfo) (now : BlockNumber) (new_session : SessionIndex)
    : RoundInfo :=
  r <| current_session_index := new_session |> <| first_session_block := now |>.
Definition update_block (r : RoundInfo) (now : BlockNumber) : RoundInfo :=
  r <| current_block := now |>.

Definition new_round (view : SessionView) (now : BlockNumber)
    (full_validators basic_validators : list AccountId) : P unit :=
  let* round := get Round in
  let* round := update_round round now in
  let now := current_round_index round in
  do* relay (refresh_round now) in
  do* relay (handle_delayed_relayer_sets view now) in
  do* reset_candidate_states in
  do* prepare_staking_payouts now in
  let* ' (validator_count, _, total_staked) :=
    update_top_candidates now full_validators basic_validators in
  do* put Round round in
  do* refresh_majority now in
  do* relay (rm_refresh_majority now) in
  do* refresh_productivity_per_block validator_count (round_length round) in
  let* total := get Total in
  do* mutate Staked <[now := total]> in
  do* mutate TotalAtStake (delete (u32_sub now 1)) in
  do* handle_delayed_commission_sets now in
  do* handle_delayed_controller_sets now in
  deposit_event (EvNewRound (first_round_block round) now validator_count total_staked).

(** [SessionManager::new_session], at block [now]. *)
Definition new_session (view : SessionView) (now : BlockNumber) (new_index : SessionIndex)
    : P (option (list AccountId)) :=
  do* compute_productivity (sv_validators view) in
  let new_session := u32_sub new_index 1 in
  do* put Session new_session in
  let* round := get Round in
  let round := update_session round now new_session in
  do* put Round round in
  do* (if should_update round now then
         let* ' (full_validators, basic_validators) := get compute_top_candidates in
         let with_keys := filter (fun v => sv_has_keys view v = true) in
         new_round view now (with_keys full_validators) (with_keys basic_validators)
       else ret tt) in
  do* offend_only (refresh_offences (u32_sub new_index 1)) in
  let* validators := get SelectedCandidates in
  ret (if decide (validators = ∅)
       then if new_index <=? 1 then None else Some (acc_elements validators)
       else Some (acc_elements validators)).

(** [SessionManager::end_session] *)
Definition end_session (view : SessionView) : P unit := relay (collect_heartbeats view).

(** [ShouldEndSession] and [EstimateNextSessionRotation] *)
Definition should_end_session (s : Storage) (now : BlockNumber) : bool :=
  should_update (Round s) now.
Definition average_session_length : BlockNumber := DefaultBlocksPerSession.
Definition estimate_next_session_rotation (s : Storage) : BlockNumber :=
  u32_add (first_round_block (Round s)) (round_length (Round s)).

(** [Hooks::on_initialize]: the round is written back after the work done
    with the stored one. *)
Definition on_initialize (n : BlockNumber) : P unit :=
  let* round := get Round in
  let round := update_block round n in
  do* refresh_total_snapshot (current_round_index round) in
  do* handle_delayed_payouts (current_round_index round) in
  put Round round.
End Rounds.
