(* ===== verification/StakingCalls.v ===== *)
(** * Extrinsics of the staking pallet

    The calls of [pallets/bfc-staking/src/pallet/mod.rs] in the order of their
    call index, and the genesis build. Each is run by the runtime under
    [dispatch], which rolls a failed call back. *)

From S2P Require Import Prelude Errors Primitives StakingTypes Nominations Nominator Candidate NominatorOps Inflation StakingImpls.
Local Open Scope Z_scope.
Local Open Scope frame_scope.

(** ** Governance *)

Section Governance.
Context `{Config}.

Definition set_staking_expectations (origin : Origin) (expectations : Range) : P unit :=
  do* ensure (monetary_governance origin) BadOrigin in
  do* ensure (range_is_valid expectations) (Staking InvalidSchedule) in
  let* config := get InflationConfig in
  do* ensure (negb (bool_decide (inf_expect config = expectations))) (Staking NoWritingSameValue) in
  let config := set_expectations config expectations in
  do* put InflationConfig config in
  deposit_event (EvStakeExpectationsSet (rg_min (inf_expect config)) (rg_ideal (inf_expect config))
                   (rg_max (inf_expect config))).

Definition set_inflation (origin : Origin) (schedule : Range) : P unit :=
  do* ensure (monetary_governance origin) BadOrigin in
  do* ensure (range_is_valid schedule) (Staking InvalidSchedule) in
  do* ensure (from_percent 1 <=? rg_min schedule) (Staking InvalidSchedule) in
  let* config := get InflationConfig in
  do* ensure (negb (bool_decide (inf_annual config = schedule))) (Staking NoWritingSameValue) in
  let config := mkInflationInfo (inf_expect config) schedule (inf_round config) in
  let* config := set_round_from_annual config schedule in
  do* put InflationConfig config in
  deposit_event
    (EvInflationSet (rg_min (inf_annual config)) (rg_ideal (inf_annual config))
       (rg_max (inf_annual config)) (rg_min (inf_round config)) (rg_ideal (inf_round config))
       (rg_max (inf_round config))).

Definition set_max_full_selected (origin : Origin) (new : Z) : P unit :=
  do* ensure_root origin in
  do* ensure (1 <=? new) (Staking CannotSetBelowMin) in
  let* old := get MaxFullSelected in
  do* ensure (negb (old =? new)) (Staking NoWritingSameValue) in
  let* round := get Round in
  do* ensure (new <=? round_length round)
        (Staking RoundLengthMustBeAtLeastTotalSelectedValidators) in
  do* put MaxFullSelected new in
  let* basic := get MaxBasicSelected in
  do* put MaxTotalSelected (u32_add new basic) in
  deposit_event (EvMaxFullSelectedSet old new).

Definition set_max_basic_selected (origin : Origin) (new : Z) : P unit :=
  do* ensure_root origin in
  do* ensure (1 <=? new) (Staking CannotSetBelowMin) in
  let* old := get MaxBasicSelected in
  do* ensure (negb (old =? new)) (Staking NoWritingSameValue) in
  let* round := get Round in
  do* ensure (new <=? round_length round)
        (Staking RoundLengthMustBeAtLeastTotalSelectedValidators) in
  do* put MaxBasicSelected new in
  let* full := get MaxFullSelected in
  do* put MaxTotalSelected (u32_add new full) in
  deposit_event (EvMaxBasicSelectedSet old new).

Definition set_default_validator_commission (origin : Origin) (new : Perbill) (tier : TierType)
    : P unit :=
  do* ensure_root origin in
  match tier with
  | Full =>
      let* old := get DefaultFullValidatorCommission in
      do* ensure (negb (old =? new)) (Staking NoWritingSameValue) in
      let* max := get MaxFullValidatorCommission in
      do* ensure (new <=? max) (Staking CannotSetAboveMax) in
      do* put DefaultFullValidatorCommission new in
      deposit_event (EvDefaultValidatorCommissionSet old new tier)
  | Basic =>
      let* old := get DefaultBasicValidatorCommission in
      do* ensure (negb (old =? new)) (Staking NoWritingSameValue) in
      let* max := get MaxBasicValidatorCommission in
      do* ensure (new <=? max) (Staking CannotSetAboveMax) in
      do* put DefaultBasicValidatorCommission new in
      deposit_event (EvDefaultValidatorCommissionSet old new tier)
  | All =>
      let* old_full := get DefaultFullValidatorCommission in
      do* ensure (negb (old_full =? new)) (Staking NoWritingSameValue) in
      let* max_full := get MaxFullValidatorCommission in
      do* ensure (new <=? max_full) (Staking CannotSetAboveMax) in
      let* old_basic := get DefaultBasicValidatorCommission in
      do* ensure (negb (old_basic =? new)) (Staking NoWritingSameValue) in
      let* max_basic := get MaxBasicValidatorCommission in
      do* ensure (new <=? max_basic) (Staking CannotSetAboveMax) in
      do* put DefaultFullValidatorCommission new in
      do* put DefaultBasicValidatorCommission new in
      do* deposit_event (EvDefaultValidatorCommissionSet old_full new Full) in
      deposit_event (EvDefaultValidatorCommissionSet old_basic new Basic)
  end.

Definition set_max_validator_commission (origin : Origin) (new : Perbill) (tier : TierType)
    : P unit :=
  do* ensure_root origin in
  match tier with
  | Full =>
      let* old := get MaxFullValidatorCommission in
      do* ensure (negb (old =? new)) (Staking NoWritingSameValue) in
      do* put MaxFullValidatorCommission new in
      deposit_event (EvMaxValidatorCommissionSet old new tier)
  | Basic =>
      let* old := get MaxBasicValidatorCommission in
      do* ensure (negb (old =? new)) (Staking NoWritingSameValue) in
      do* put MaxBasicValidatorCommission new in
      deposit_event (EvMaxValidatorCommissionSet old new tier)
  | All =>
      let* old_full := get MaxFullValidatorCommission in
      do* ensure (negb (old_full =? new)) (Staking NoWritingSameValue) in
      let* old_basic := get MaxBasicValidatorCommission in
      do* ensure (negb (old_basic =? new)) (Staking NoWritingSameValue) in
      do* put MaxFullValidatorCommission new in
      do* put MaxBasicValidatorCommission new in
      do* deposit_event (EvMaxValidatorCommissionSet old_full new tier) in
      deposit_event (EvMaxValidatorCommissionSet old_basic new tier)
  end.

Definition set_blocks_per_round (origin : Origin) (new : Z) : P unit :=
  do* ensure_root origin in
  do* ensure (MinBlocksPerRound <=? new) (Staking CannotSetBelowMin) in
  do* ensure (new <=? MaxBlocksPerRound) (Staking CannotSetAboveMax) in
  let* round := get Round in
  let current_round := current_round_index round in
  let now := current_block round in
  let first := first_round_block round in
  let old := round_length round in
  do* ensure (negb (old =? new)) (Staking NoWritingSameValue) in
  do* ensure (u32_sub now first <? new) (Staking RoundLengthMustBeLongerThanCreatedBlocks) in
  let* max_total := get MaxTotalSelected in
  do* ensure (max_total <=? new) (Staking RoundLengthMustBeAtLeastTotalSelectedValidators) in
  let round := round <| round_length := new |> in
  let* inflation_config := get InflationConfig in
  let* inflation_config := reset_round inflation_config new in
  do* put Round round in
  do* put InflationConfig inflation_config in
  deposit_event
    (EvBlocksPerRoundSet current_round first old new (rg_min (inf_round inflation_config))
       (rg_ideal (inf_round inflation_config)) (rg_max (inf_round inflation_config))).

Definition set_storage_cache_lifetime (origin : Origin) (new : Z) : P unit :=
  do* ensure_root origin in
  do* ensure (1 <=? new) (Staking CannotSetBelowOne) in
  let* old := get StorageCacheLifetime in
  do* ensure (negb (old =? new)) (Staking NoWritingSameValue) in
  do* put StorageCacheLifetime new in
  deposit_event (EvStorageCacheLifetimeSet old new).
End Governance.

(** ** Validator candidates *)

Section Candidates.
Context `{Config}.

(** [<CandidateInfo<T>>::get(&controller).ok_or(Error::<T>::CandidateDNE)?] *)
Definition candidate_of (controller : AccountId) : P CandidateMetadata :=
  let* infos := get CandidateInfo in
  ok_or (infos !! controller) (Staking CandidateDNE).
(** [BondedStash::<T>::get(&stash).ok_or(Error::<T>::StashDNE)?] *)
Definition controller_of (stash : AccountId) : P AccountId :=
  let* m := get BondedStash in
  ok_or (m !! stash) (Staking StashDNE).

Definition set_validator_commission (origin : Origin) (new : Perbill) : P unit :=
  let* controller := ensure_signed origin in
  let* state := candidate_of controller in
  let old := c_commission state in
  do* ensure (negb (old =? new)) (Staking NoWritingSameValue) in
  let* max := match c_tier state with
              | Full => get MaxFullValidatorCommission
              | _ => get MaxBasicValidatorCommission
              end in
  do* ensure (new <=? max) (Staking CannotSetAboveMax) in
  let* requested := get (fun s => is_commission_set_requested s controller) in
  do* ensure (negb requested) (Staking AlreadyCommissionSetRequested) in
  do* ensure (negb (is_leaving state)) (Staking CandidateAlreadyLeaving) in
  do* add_to_commission_sets controller old new in
  deposit_event (EvValidatorCommissionSet controller old new).

Definition cancel_validator_commission_set (origin : Origin) : P unit :=
  let* controller := ensure_signed origin in
  let* b := get (fun s => is_candidate s controller All) in
  do* ensure b (Staking CandidateDNE) in
  let* requested := get (fun s => is_commission_set_requested s controller) in
  do* ensure requested (Staking CommissionSetDNE) in
  do* remove_commission_set controller in
  deposit_event (EvValidatorCommissionSetCancelled controller).

Definition set_validator_tier (origin : Origin) (more : Balance) (new : TierType)
    (relayer : option AccountId) : P unit :=
  let* stash := ensure_signed origin in
  let* controller := controller_of stash in
  let* state := candidate_of controller in
  let old := c_tier state in
  do* ensure (negb (bool_decide (old = new))) (Staking NoWritingSameValue) in
  let* state :=
    match relayer with
    | Some relayer =>
        do* ensure (bool_decide (new = Full)) (Staking InvalidTierType) in
        do* ensure (MinFullCandidateStk <=? u128_add (c_bond state) more)
              (Staking CandidateBondBelowMin) in
        let* can := currency_can_reserve stash more in
        do* ensure can (Staking InsufficientBalance) in
        let* state := bond_more state stash controller more in
        do* relay (join_relayers relayer controller) in
        ret state
    | None =>
        do* ensure (bool_decide (new = Basic)) (Staking InvalidTierType) in
        do* ensure (MinBasicCandidateStk <=? u128_add (c_bond state) more)
              (Staking CandidateBondBelowMin) in
        let* state := bond_more state stash controller more in
        do* relay (leave_relayers controller) in
        ret state
    end in
  let state := state <| c_tier := new |> in
  let* state := reset_commission state controller in
  do* mutate CandidateInfo <[controller := state]> in
  update_active controller (c_voting_power state).

Definition join_candidates (origin : Origin) (controller : AccountId)
    (relayer : option AccountId) (bond : Balance) (candidate_count : Z) : P unit :=
  let* stash := ensure_signed origin in
  let* stashes := get BondedStash in
  do* ensure (bool_decide (stashes !! stash = None)) (Staking AlreadyBonded) in
  let* infos := get CandidateInfo in
  do* ensure (bool_decide (infos !! controller = None)) (Staking AlreadyPaired) in
  let* sets := get (fun s => controller_sets s (round_index s)) in
  do* ensure (negb (existsb (fun c => bool_decide (dcs_new c = controller)) sets))
        (Staking AlreadyControllerSetRequested) in
  let* b := get (fun s => is_nominator s controller) in
  do* ensure (negb b) (Staking NominatorExists) in
  let* candidates := get CandidatePool in
  let old_count := Z.of_nat (size candidates) in
  do* ensure (old_count <=? candidate_count)
        (Staking TooLowCandidateCountWeightHintJoinCandidates) in
  let* can := currency_can_reserve stash bond in
  do* ensure can (Staking InsufficientBalance) in
  let* tier :=
    match relayer with
    | Some relayer =>
        do* ensure (MinFullCandidateStk <=? bond) (Staking CandidateBondBelowMin) in
        do* currency_reserve stash bond in
        do* relay (join_relayers relayer controller) in
        ret Full
    | None =>
        do* ensure (MinBasicCandidateStk <=? bond) (Staking CandidateBondBelowMin) in
        do* currency_reserve stash bond in
        ret Basic
    end in
  let* candidate := new_candidate stash bond tier in
  do* mutate CandidateInfo <[controller := candidate]> in
  do* mutate BondedStash <[stash := controller]> in
  do* mutate TopNominations <[controller := empty_nominations]> in
  do* mutate BottomNominations <[controller := empty_nominations]> in
  let* candidates := ok_or (try_insert_map MAX_AUTHORITIES controller bond candidates)
                       (Staking TooManyCandidates) in
  do* put CandidatePool candidates in
  let* total := get Total in
  let new_total := u128_sat_add total bond in
  do* put Total new_total in
  deposit_event (EvJoinedValidatorCandidates controller bond new_total).

Definition schedule_leave_candidates (origin : Origin) (candidate_count : Z) : P unit :=
  let* controller := ensure_signed origin in
  let* state := candidate_of controller in
  let* b := get (fun s => is_controller_set_requested s controller) in
  do* ensure (negb b) (Staking CannotLeaveIfControllerSetRequested) in
  let* b := get (fun s => is_commission_set_requested s controller) in
  do* ensure (negb b) (Staking CannotLeaveIfCommissionSetRequested) in
  let* candidates := get CandidatePool in
  do* ensure (Z.of_nat (size candidates) <=? candidate_count)
        (Staking TooLowCandidateCountToLeaveCandidates) in
  let* removed := remove_from_candidate_pool controller in
  do* ensure removed (Staking CannotLeaveIfOffline) in
  let* ' (state, (now, when)) := schedule_leave state in
  do* mutate CandidateInfo <[controller := state]> in
  deposit_event (EvCandidateScheduledExit now controller when).

(** The [return_stake] closure of [execute_leave_candidates]. *)
Definition return_stake (controller : AccountId) (bond : Bond) (nominator : Nominator) : P unit :=
  do* currency_unreserve (b_owner bond) (b_amount bond) in
  match rm_nomination nominator controller with
  | (nominator, Some remaining) =>
      if remaining =? 0 then mutate NominatorState (delete (b_owner bond))
      else
        let nominator := nominator <| n_requests ::= fun p => remove_request p controller |> in
        mutate NominatorState <[b_owner bond := nominator]>
  | (_, None) => ret tt
  end.
Definition return_stakes (controller : AccountId) (bonds : list Bond) : P unit :=
  for_each bonds (fun bond =>
    let* states := get NominatorState in
    let* nominator := ok_or (states !! b_owner bond) (Staking NominatorDNE) in
    return_stake controller bond nominator).

Definition execute_leave_candidates (origin : Origin) (candidate_nomination_count : Z) : P unit :=
  let* stash := ensure_signed origin in
  let* controller := controller_of stash in
  let* state := candidate_of controller in
  do* ensure (c_nomination_count state <=? candidate_nomination_count)
        (Staking TooLowCandidateNominationCountToLeaveCandidates) in
  do* can_leave state in
  let* tops := get TopNominations in
  do* mutate TopNominations (delete controller) in
  let* top_nominations := ok_or (tops !! controller) (Staking TopNominationDNE) in
  do* return_stakes controller (ns_nominations top_nominations) in
  let total_backing := u128_add (c_bond state) (ns_total top_nominations) in
  let* bottoms := get BottomNominations in
  do* mutate BottomNominations (delete controller) in
  let* bottom_nominations := ok_or (bottoms !! controller) (Staking BottomNominationDNE) in
  do* return_stakes controller (ns_nominations bottom_nominations) in
  let total_backing := u128_add total_backing (ns_total bottom_nominations) in
  do* currency_unreserve stash (c_bond state) in
  do* mutate CandidateInfo (delete controller) in
  do* mutate BondedStash (delete stash) in
  do* mutate TopNominations (delete controller) in
  do* mutate BottomNominations (delete controller) in
  let* total := get Total in
  let new_total_staked := sat_sub total total_backing in
  do* put Total new_total_staked in
  do* relay (leave_relayers controller) in
  deposit_event (EvCandidateLeft controller total_backing new_total_staked).

Definition cancel_leave_candidates (origin : Origin) (candidate_count : Z) : P unit :=
  let* controller := ensure_signed origin in
  let* state := candidate_of controller in
  do* ensure (is_leaving state) (Staking CandidateNotLeaving) in
  let state := c_go_online state in
  let* candidates := get CandidatePool in
  do* ensure (Z.of_nat (size candidates) <=? candidate_count)
        (Staking TooLowCandidateCountWeightHintCancelLeaveCandidates) in
  let* candidates :=
    ok_or (try_insert_map MAX_AUTHORITIES controller (c_voting_power state) candidates)
      (Staking TooManyCandidates) in
  do* put CandidatePool candidates in
  do* mutate CandidateInfo <[controller := state]> in
  deposit_event (EvCancelledCandidateExit controller).

Definition set_controller (origin : Origin) (new : AccountId) : P unit :=
  let* stash := ensure_signed origin in
  let* old := controller_of stash in
  let* state := candidate_of old in
  do* ensure (negb (bool_decide (new = old))) (Staking NoWritingSameValue) in
  let* b := get (fun s => is_candidate s new All) in
  do* ensure (negb b) (Staking AlreadyPaired) in
  do* ensure (negb (is_leaving state)) (Staking CandidateAlreadyLeaving) in
  let* b := get (fun s => is_controller_set_requested s old) in
  do* ensure (negb b) (Staking AlreadyControllerSetRequested) in
  do* add_to_controller_sets stash old new in
  deposit_event (EvControllerSet old new).

Definition cancel_controller_set (origin : Origin) : P unit :=
  let* controller := ensure_signed origin in
  let* b := get (fun s => is_candidate s controller All) in
  do* ensure b (Staking CandidateDNE) in
  let* b := get (fun s => is_controller_set_requested s controller) in
  do* ensure b (Staking ControllerSetDNE) in
  do* remove_controller_set controller in
  deposit_event (EvControllerSetCancelled controller).

Definition set_candidate_reward_dst (origin : Origin) (new_reward_dst : RewardDestination)
    : P unit :=
  let* controller := ensure_signed origin in
  let* state := candidate_of controller in
  let old_reward_dst := c_reward_dst state in
  do* ensure (negb (bool_decide (old_reward_dst = new_reward_dst))) (Staking NoWritingSameValue) in
  do* mutate CandidateInfo <[controller := set_reward_dst state new_reward_dst]> in
  deposit_event (EvValidatorRewardDstSet controller old_reward_dst new_reward_dst).

Definition go_offline (origin : Origin) : P unit :=
  let* controller := ensure_signed origin in
  let* state := candidate_of controller in
  do* ensure (is_active state) (Staking AlreadyOffline) in
  let* removed := remove_from_candidate_pool controller in
  do* ensure removed (Staking AlreadyOffline) in
  let* selected_candidates := get SelectedCandidates in
  let selected_candidates := selected_candidates ∖ {[controller]} in
  let* round := get round_index in
  do* refresh_cached_selected_candidates round selected_candidates in
  let* majority := get compute_majority in
  do* put Majority majority in
  do* mutate CachedMajority <[round := majority]> in
  do* match c_tier state with
      | Full =>
          do* relay (kickout_relayer controller) in
          mutate SelectedFullCandidates (fun c => c ∖ {[controller]})
      | _ => mutate SelectedBasicCandidates (fun c => c ∖ {[controller]})
      end in
  do* mutate CandidateInfo <[controller := c_go_offline state]> in
  do* put SelectedCandidates selected_candidates in
  deposit_event (EvCandidateWentOffline controller).

Definition go_online (origin : Origin) : P unit :=
  let* controller := ensure_signed origin in
  let* state := candidate_of controller in
  do* ensure (negb (is_active state)) (Staking AlreadyActive) in
  do* ensure (negb (is_leaving state)) (Staking CannotGoOnlineIfLeaving) in
  let state := c_go_online state in
  let* candidates := get CandidatePool in
  let* candidates :=
    ok_or (try_insert_map MAX_AUTHORITIES controller (c_voting_power state) candidates)
      (Staking TooManyCandidates) in
  do* put CandidatePool candidates in
  do* mutate CandidateInfo <[controller := state]> in
  deposit_event (EvCandidateBackOnline controller).

Definition candidate_bond_more (origin : Origin) (more : Balance) : P unit :=
  let* stash := ensure_signed origin in
  let* controller := controller_of stash in
  let* state := candidate_of controller in
  let* can := currency_can_reserve stash more in
  do* ensure can (Staking InsufficientBalance) in
  let* state := bond_more state stash controller more in
  do* mutate CandidateInfo <[controller := state]> in
  update_active controller (c_voting_power state).

Definition schedule_candidate_bond_less (origin : Origin) (less : Balance) : P unit :=
  let* controller := ensure_signed origin in
  let* state := candidate_of controller in
  do* ensure (negb (is_leaving state)) (Staking CandidateAlreadyLeaving) in
  let* ' (state, when) := schedule_bond_less state less in
  do* mutate CandidateInfo <[controller := state]> in
  deposit_event (EvCandidateBondLessRequested controller less when).

Definition execute_candidate_bond_less (origin : Origin) : P unit :=
  let* stash := ensure_signed origin in
  let* controller := controller_of stash in
  let* state := candidate_of controller in
  let* state := execute_bond_less state stash controller in
  mutate CandidateInfo <[controller := state]>.

Definition cancel_candidate_bond_less (origin : Origin) : P unit :=
  let* controller := ensure_signed origin in
  let* state := candidate_of controller in
  let* state := cancel_bond_less state controller in
  mutate CandidateInfo <[controller := state]>.
End Candidates.

(** ** Nominators *)

Section Nominators.
Context `{Config}.

(** [<NominatorState<T>>::get(&nominator).ok_or(Error::<T>::NominatorDNE)?] *)
Definition nominator_of (nominator : AccountId) : P Nominator :=
  let* states := get NominatorState in
  ok_or (states !! nominator) (Staking NominatorDNE).

Definition set_nominator_reward_dst (origin : Origin) (new_reward_dst : RewardDestination)
    : P unit :=
  let* nominator := ensure_signed origin in
  let* state := nominator_of nominator in
  let old_reward_dst := n_reward_dst state in
  do* ensure (negb (bool_decide (old_reward_dst = new_reward_dst))) (Staking NoWritingSameValue) in
  do* mutate NominatorState <[nominator := nominator_set_reward_dst state new_reward_dst]> in
  deposit_event (EvNominatorRewardDstSet nominator old_reward_dst new_reward_dst).

Definition nominate (origin : Origin) (candidate : AccountId) (amount : Balance)
    (candidate_nomination_count nomination_count : Z) : P unit :=
  let* nominator := ensure_signed origin in
  let* can := currency_can_reserve nominator amount in
  do* ensure can (Staking InsufficientBalance) in
  let* states := get NominatorState in
  let* nominator_state :=
    match states !! nominator with
    | Some state =>
        do* ensure (nominator_is_active state) (Staking CannotNominateIfLeaving) in
        do* ensure (MinNomination <=? amount) (Staking NominationBelowMin) in
        do* ensure (Z.of_nat (size (n_nominations state)) <=? nomination_count)
              (Staking TooLowNominationCountToNominate) in
        do* ensure (Z.of_nat (size (n_nominations state)) <? MaxNominationsPerNominator)
              (Staking ExceedMaxNominationsPerNominator) in
        nominator_add_nomination state candidate amount
    | None =>
        do* ensure (MinNominatorStk <=? amount) (Staking NominatorBondBelowMin) in
        let* b := get (fun s => is_candidate s nominator All) in
        do* ensure (negb b) (Staking CandidateExists) in
        ret (new_nominator nominator candidate amount)
    end in
  let* state := candidate_of candidate in
  do* ensure (c_nomination_count state <=? candidate_nomination_count)
        (Staking TooLowCandidateNominationCountToNominate) in
  let* ' (state, (nominator_position, less_total_staked)) :=
    add_nomination state candidate (mkBond nominator amount) in
  do* currency_reserve nominator amount in
  let net_total_increase :=
    match less_total_staked with Some less => u128_sub amount less | None => amount end in
  do* mutate Total (fun t => u128_add t net_total_increase) in
  do* mutate CandidateInfo <[candidate := state]> in
  do* mutate NominatorState <[nominator := nominator_state]> in
  deposit_event (EvNomination nominator amount candidate nominator_position).

Definition schedule_leave_nominators (origin : Origin) : P unit :=
  let* acc := ensure_signed origin in
  let* state := nominator_of acc in
  do* ensure (negb (nominator_is_leaving state)) (Staking NominatorAlreadyLeaving) in
  do* ensure (bool_decide (p_requests (n_requests state) = ∅))
        (Staking PendingNominationRequestAlreadyExists) in
  let* ' (state, (now, when)) := nominator_schedule_leave state in
  do* mutate NominatorState <[acc := state]> in
  deposit_event (EvNominatorExitScheduled now acc when).

(** An error of [nominator_leaves_candidate] is logged and the loop goes on. *)
Definition execute_leave_nominators (origin : Origin) (nomination_count : Z) : P unit :=
  let* nominator := ensure_signed origin in
  let* state := nominator_of nominator in
  do* can_execute_leave state nomination_count in
  do* for_each (acc_iter (n_nominations state)) (fun bond =>
        let* _result := attempt (nominator_leaves_candidate bond.1 nominator bond.2) in
        ret tt) in
  do* mutate NominatorState (delete nominator) in
  deposit_event (EvNominatorLeft nominator (n_total state)).

Definition cancel_leave_nominators (origin : Origin) : P unit :=
  let* nominator := ensure_signed origin in
  let* state := nominator_of nominator in
  do* ensure (nominator_is_leaving state) (Staking NominatorDNE) in
  do* mutate NominatorState <[nominator := cancel_leave state]> in
  deposit_event (EvNominatorExitCancelled nominator).

Definition schedule_revoke_nomination (origin : Origin) (validator : AccountId) : P unit :=
  let* nominator := ensure_signed origin in
  let* state := nominator_of nominator in
  do* ensure (negb (nominator_is_leaving state)) (Staking NominatorAlreadyLeaving) in
  let* ' (state, (now, when)) := schedule_revoke state validator in
  do* mutate NominatorState <[nominator := state]> in
  deposit_event (EvNominationRevocationScheduled now nominator validator when).

Definition nominator_bond_more (origin : Origin) (candidate : AccountId) (more : Balance)
    : P unit :=
  let* nominator := ensure_signed origin in
  let* state := nominator_of nominator in
  let* _state := nominator_increase_nomination state candidate more in
  ret tt.

Definition schedule_nominator_bond_less (origin : Origin) (candidate : AccountId) (less : Balance)
    : P unit :=
  let* caller := ensure_signed origin in
  let* state := nominator_of caller in
  do* ensure (negb (nominator_is_leaving state)) (Staking NominatorAlreadyLeaving) in
  let* ' (state, when) := schedule_decrease_nomination state candidate less in
  do* mutate NominatorState <[caller := state]> in
  deposit_event (EvNominationDecreaseScheduled caller candidate less when).

Definition execute_nomination_request (origin : Origin) (candidate : AccountId) : P unit :=
  let* nominator := ensure_signed origin in
  let* state := nominator_of nominator in
  execute_pending_request state candidate.

Definition cancel_nomination_request (origin : Origin) (candidate : AccountId) : P unit :=
  let* nominator := ensure_signed origin in
  let* state := nominator_of nominator in
  let* ' (state, request) := cancel_pending_request state candidate in
  do* mutate NominatorState <[nominator := state]> in
  deposit_event (EvCancelledNominationRequest nominator request).
End Nominators.

(** ** Genesis *)

Section Genesis.
Context `{Config}.

Record GenesisConfig : Type := mkGenesisConfig {
  g_candidates : list (AccountId * AccountId * AccountId * Balance);
  g_nominations : list (AccountId * AccountId * Balance);
  g_inflation_config : InflationInfo
}.

(** [assert!] *)
Definition assert (b : bool) : P unit := if b then ret tt else trap.

Definition genesis_candidate (candidate_count : Z)
    (g : AccountId * AccountId * AccountId * Balance) : P Z :=
  let '(stash, controller, relayer, balance) := g in
  let* c := get Balances in
  do* assert (balance <=? free_balance c stash) in
  let candidate_count := u32_add candidate_count 1 in
  let* r := attempt (join_candidates (SignedOrigin stash) controller (Some relayer) balance
                       candidate_count) in
  match r with
  | inl _ => ret candidate_count
  | inr _ => ret (u32_add candidate_count 1)
  end.

Definition genesis_nomination (counts : gmap N Z * gmap N Z)
    (g : AccountId * AccountId * Balance) : P (gmap N Z * gmap N Z) :=
  let '(validator_nominator_count, nominator_nomination_count) := counts in
  let '(nominator, target, balance) := g in
  let* c := get Balances in
  do* assert (balance <=? free_balance c nominator) in
  let vn_count := default 0 (validator_nominator_count !! target) in
  let nn_count := default 0 (nominator_nomination_count !! nominator) in
  let* r := attempt (nominate (SignedOrigin nominator) target balance vn_count nn_count) in
  match r with
  | inl _ => ret counts
  | inr _ => ret (<[target := u32_add vn_count 1]> validator_nominator_count,
                  <[nominator := u32_add nn_count 1]> nominator_nomination_count)
  end.

Definition genesis_build (g : GenesisConfig) : P unit :=
  do* put InflationConfig (g_inflation_config g) in
  do* put DefaultFullValidatorCommission DefaultFullValidatorCommission_cfg in
  do* put DefaultBasicValidatorCommission DefaultBasicValidatorCommission_cfg in
  do* put MaxFullValidatorCommission MaxFullValidatorCommission_cfg in
  do* put MaxBasicValidatorCommission MaxBasicValidatorCommission_cfg in
  let* _count := fold_each (g_candidates g) 0 genesis_candidate in
  let* _counts := fold_each (g_nominations g) (∅, ∅) genesis_nomination in
  do* put MaxTotalSelected
        (u32_add DefaultMaxSelectedFullCandidates DefaultMaxSelectedBasicCandidates) in
  do* put MaxFullSelected DefaultMaxSelectedFullCandidates in
  do* put MaxBasicSelected DefaultMaxSelectedBasicCandidates in
  do* put StorageCacheLifetime StorageCacheLifetimeInRounds in
  let* ' (full_validators, basic_validators) := get compute_top_candidates in
  let* ' (v_count, _, total_staked) := update_top_candidates 1 full_validators basic_validators in
  let* initial_majority := get compute_majority in
  do* put Majority initial_majority in
  do* put CachedMajority {[1 := initial_majority]} in
  do* relay (rm_refresh_majority 1) in
  let round := mkRoundInfo 1 0 0 0 0 0 DefaultBlocksPerRound DefaultBlocksPerSession in
  do* put Round round in
  do* relay (refresh_round 1) in
  do* refresh_productivity_per_block v_count (round_length round) in
  let* total := get Total in
  do* mutate Staked <[1 := total]> in
  do* mutate TotalAtStake <[1 := default_total_snapshot]> in
  deposit_event (EvNewRound 0 1 v_count total_staked).
End Genesis.
