(* ===== verification/Offences.v ===== *)
(** * Offences

    [pallets/bfc-offences]: the offence counts of the validators, the slash
    when a count exceeds the maximum of the tier, and the expiry of offences.
    The pallet is the [OffenceHandler] of the staking pallet. *)

From S2P Require Import Prelude Errors Primitives.
Local Open Scope Z_scope.
Local Open Scope frame_scope.

(** ** Data and storage *)

Record ValidatorOffenceInfo : Type := mkValidatorOffenceInfo {
  latest_offence_round_index : RoundIndex;
  latest_offence_session_index : SessionIndex;
  offence_count : Z;
  aggregated_slash_fraction : Perbill;
  offences : list Offence
}.

Inductive OffencesEvent : Type :=
| EvOffenceExpirationSet (old new : SessionIndex)
| EvMaximumOffenceCountSet (old new : Z) (tier : TierType)
| EvOffenceActivationSet (is_active : bool)
| EvSlashActivationSet (is_active : bool)
| EvSlashed (who : AccountId) (amount : Balance).

Record OffencesStorage : Type := mkOffencesStorage {
  ValidatorOffences : gmap N ValidatorOffenceInfo;
  OffenceExpirationInSessions : SessionIndex;
  FullMaximumOffenceCount : Z;
  BasicMaximumOffenceCount : Z;
  IsOffenceActive : bool;
  IsSlashActive : bool;
  OffencesEvents : list OffencesEvent
}.
#[export] Instance OffencesStorage_rebuild : Rebuild OffencesStorage := fun r =>
  mkOffencesStorage (ValidatorOffences r) (OffenceExpirationInSessions r)
    (FullMaximumOffenceCount r) (BasicMaximumOffenceCount r) (IsOffenceActive r)
    (IsSlashActive r) (OffencesEvents r).
#[export] Instance f_ValidatorOffences : Field ValidatorOffences := ltac:(derive_field).
#[export] Instance f_OffenceExpiration : Field OffenceExpirationInSessions := ltac:(derive_field).
#[export] Instance f_FullMaximum : Field FullMaximumOffenceCount := ltac:(derive_field).
#[export] Instance f_BasicMaximum : Field BasicMaximumOffenceCount := ltac:(derive_field).
#[export] Instance f_IsOffenceActive : Field IsOffenceActive := ltac:(derive_field).
#[export] Instance f_IsSlashActive : Field IsSlashActive := ltac:(derive_field).
#[export] Instance f_OffencesEvents : Field OffencesEvents := ltac:(derive_field).

Abbreviation OP A := (M OffencesStorage DispatchError A).
Definition oput {A} (f : OffencesStorage -> A) `{!Field f} (v : A) : OP unit :=
  modify (fun s => s <| f := v |>).
Definition omutate {A} (f : OffencesStorage -> A) `{!Field f} (g : A -> A) : OP unit :=
  modify (fun s => s <| f ::= g |>).
Definition off_deposit (e : OffencesEvent) : OP unit := omutate OffencesEvents (fun l => l ++ [e]).

(** ** [ValidatorOffenceInfo] *)

Section Info.
Context `{PerbillOps}.

Definition new_offence_info (o : Offence) : ValidatorOffenceInfo :=
  mkValidatorOffenceInfo (o_round_index o) (o_session_index o) 1 (o_slash_fraction o) [o].

(** [increase_slash_fraction] *)
Definition increased_slash_fraction (old slash_fraction : Perbill) : Perbill :=
  from_parts (u32_add old slash_fraction).

Definition add_offence (i : ValidatorOffenceInfo) (o : Offence) : ValidatorOffenceInfo :=
  mkValidatorOffenceInfo (o_round_index o) (o_session_index o) (u32_add (offence_count i) 1)
    (increased_slash_fraction (aggregated_slash_fraction i) (o_slash_fraction o))
    (offences i ++ [o]).
End Info.

(** ** [OffenceHandler] *)

Section Handler.
Context `{PerbillOps} {C : Type} `{Currency C}.

Definition is_offence_count_exceeds (s : OffencesStorage) (count : Z) (tier : TierType) : bool :=
  match tier with
  | Full => FullMaximumOffenceCount s <? count
  | _ => BasicMaximumOffenceCount s <? count
  end.

(** On the balances and the pallet's storage. *)
Abbreviation HP A := (M (C * OffencesStorage) DispatchError A).
Definition own {A} (m : OP A) : HP A := lift snd (fun o cs => (cs.1, o)) m.

Definition try_slash (who stash : AccountId) (slash_fraction : Perbill) (bond : Balance)
    : HP Balance :=
  let* active := gets (fun cs => IsSlashActive cs.2) in
  if (active : bool) then
    let slash_amount := perbill_mul slash_fraction bond in
    do* modify (fun cs => (slash_reserved cs.1 stash slash_amount, cs.2)) in
    do* own (off_deposit (EvSlashed who slash_amount)) in
    ret slash_amount
  else ret 0.

Definition handle_offence (who stash : AccountId) (tier : TierType) (offence : Offence)
    : HP (bool * Balance) :=
  let* s := gets snd in
  match ValidatorOffences s !! who with
  | Some info =>
      if is_offence_count_exceeds s (u32_add (offence_count info) 1) tier then
        let* slash_amount :=
          try_slash who stash (aggregated_slash_fraction info) (o_self_bond offence) in
        do* own (omutate ValidatorOffences (delete who)) in
        ret (true, slash_amount)
      else
        do* own (omutate ValidatorOffences <[who := add_offence info offence]>) in
        ret (false, 0)
  | None =>
      do* own (omutate ValidatorOffences <[who := new_offence_info offence]>) in
      ret (false, 0)
  end.

Definition off_try_handle_offence (who stash : AccountId) (tier : TierType) (offence : Offence)
    : HP (bool * Balance) :=
  let* active := gets (fun cs => IsOffenceActive cs.2) in
  if (active : bool) then handle_offence who stash tier offence else ret (false, 0).

(** [refresh_offences]: the entries past their expiry are removed. *)
Definition off_refresh_offences (session_index : SessionIndex) : OP unit :=
  let* expiration := gets OffenceExpirationInSessions in
  omutate ValidatorOffences
    (filter (fun kv : N * ValidatorOffenceInfo =>
       ~ expiration < u32_sub session_index (latest_offence_session_index kv.2))).

#[export] Instance Offences_handler : OffenceHandler C OffencesStorage := {
  try_handle_offence := off_try_handle_offence;
  refresh_offences := off_refresh_offences
}.
End Handler.

(** ** Genesis and extrinsics *)

Section Calls.

Definition off_genesis_build (expiration_in_sessions : SessionIndex)
    (full_maximum_offence_count basic_maximum_offence_count : Z)
    (is_offence_active is_slash_active : bool) : OP unit :=
  do* oput OffenceExpirationInSessions expiration_in_sessions in
  do* oput FullMaximumOffenceCount full_maximum_offence_count in
  do* oput BasicMaximumOffenceCount basic_maximum_offence_count in
  do* oput IsOffenceActive is_offence_active in
  oput IsSlashActive is_slash_active.

Definition set_offence_expiration (origin : Origin) (new : SessionIndex) : OP unit :=
  do* ensure_root origin in
  do* ensure (0 <? new) (Offences OffCannotSetBelowMin) in
  let* old := gets OffenceExpirationInSessions in
  do* ensure (negb (old =? new)) (Offences OffNoWritingSameValue) in
  do* oput OffenceExpirationInSessions new in
  off_deposit (EvOffenceExpirationSet old new).

Definition set_max_offence_count (origin : Origin) (new : Z) (tier : TierType) : OP unit :=
  do* ensure_root origin in
  do* ensure (0 <? new) (Offences OffCannotSetBelowMin) in
  match tier with
  | Full =>
      let* old := gets FullMaximumOffenceCount in
      do* ensure (negb (old =? new)) (Offences OffNoWritingSameValue) in
      do* oput FullMaximumOffenceCount new in
      off_deposit (EvMaximumOffenceCountSet old new tier)
  | Basic =>
      let* old := gets BasicMaximumOffenceCount in
      do* ensure (negb (old =? new)) (Offences OffNoWritingSameValue) in
      do* oput BasicMaximumOffenceCount new in
      off_deposit (EvMaximumOffenceCountSet old new tier)
  | All =>
      let* old_full := gets FullMaximumOffenceCount in
      do* ensure (negb (old_full =? new)) (Offences OffNoWritingSameValue) in
      let* old_basic := gets BasicMaximumOffenceCount in
      do* ensure (negb (old_basic =? new)) (Offences OffNoWritingSameValue) in
      do* oput FullMaximumOffenceCount new in
      do* oput BasicMaximumOffenceCount new in
      do* off_deposit (EvMaximumOffenceCountSet old_full new Full) in
      off_deposit (EvMaximumOffenceCountSet old_basic new Basic)
  end.

Definition set_offence_activation (origin : Origin) (is_active : bool) : OP unit :=
  do* ensure_root origin in
  let* old := gets IsOffenceActive in
  do* ensure (negb (eqb is_active old)) (Offences OffNoWritingSameValue) in
  do* oput IsOffenceActive is_active in
  off_deposit (EvOffenceActivationSet is_active).

Definition set_slash_activation (origin : Origin) (is_active : bool) : OP unit :=
  do* ensure_root origin in
  let* old := gets IsSlashActive in
  do* ensure (negb (eqb is_active old)) (Offences OffNoWritingSameValue) in
  do* oput IsSlashActive is_active in
  off_deposit (EvSlashActivationSet is_active).
End Calls.
