(* ===== verification/RelayManager.v ===== *)
(** * The relay manager

    [pallets/relay-manager]: relayers bonded to validator controllers, the
    relayers selected for a round, their heartbeats, and the delayed
    replacement of relayer accounts. The pallet is the [RelayManager] of the
    staking pallet. The bridge pallets whose authorities it replaces, the
    membership pallet and the offence reports are reached through
    [RelayEnv]. *)

From S2P Require Import Prelude Errors Primitives BinarySearch.
Local Open Scope Z_scope.
Local Open Scope frame_scope.

(** ** Data and storage *)

Inductive RelayerStatus : Type := RActive | RIdle | RKickedOut.
#[export] Instance RelayerStatus_eq_dec : EqDecision RelayerStatus.
Proof. solve_decision. Defined.

Record Relayer : Type := mkRelayer { rl_relayer : AccountId; rl_controller : AccountId }.
#[export] Instance Relayer_eq_dec : EqDecision Relayer.
Proof. solve_decision. Defined.

Record RelayerMetadata : Type := mkRelayerMetadata {
  rm_controller : AccountId;
  rm_status : RelayerStatus;
  rm_impl_version : option Z;
  rm_spec_version : option N
}.
#[export] Instance RelayerMetadata_rebuild : Rebuild RelayerMetadata := fun r =>
  mkRelayerMetadata (rm_controller r) (rm_status r) (rm_impl_version r) (rm_spec_version r).
#[export] Instance f_rm_controller : Field rm_controller := ltac:(derive_field).
#[export] Instance f_rm_status : Field rm_status := ltac:(derive_field).
#[export] Instance f_rm_impl_version : Field rm_impl_version := ltac:(derive_field).
#[export] Instance f_rm_spec_version : Field rm_spec_version := ltac:(derive_field).

Definition new_relayer (controller : AccountId) : RelayerMetadata :=
  mkRelayerMetadata controller RIdle None None.
Definition rl_go_offline (r : RelayerMetadata) : RelayerMetadata := r <| rm_status := RIdle |>.
Definition rl_go_online (r : RelayerMetadata) : RelayerMetadata := r <| rm_status := RActive |>.
Definition rl_kick_out (r : RelayerMetadata) : RelayerMetadata := r <| rm_status := RKickedOut |>.
Definition rl_set_controller (r : RelayerMetadata) (c : AccountId) : RelayerMetadata :=
  r <| rm_controller := c |>.
Definition rl_set_impl_version (r : RelayerMetadata) (v : option Z) : RelayerMetadata :=
  r <| rm_impl_version := v |>.
Definition rl_set_spec_version (r : RelayerMetadata) (v : option N) : RelayerMetadata :=
  r <| rm_spec_version := v |>.
Definition rl_is_kicked_out (r : RelayerMetadata) : bool := bool_decide (rm_status r = RKickedOut).

Record UnresponsivenessOffence : Type := mkUnresponsivenessOffence {
  uo_session_index : SessionIndex;
  uo_validator_set_count : Z;
  uo_offenders : list AccountId;
  (** [slash_fraction]: the stored heartbeat slash fraction *)
  uo_slash_fraction : Perbill
}.

Record DelayedRelayerSet : Type := mkDelayedRelayerSet {
  drs_old : AccountId; drs_new : AccountId
}.

Inductive RelayManagerEvent : Type :=
| EvJoinedRelayers (relayer controller : AccountId)
| EvRelayerChosen (round : RoundIndex) (relayer controller : AccountId)
| EvRelayerSet (old new : AccountId)
| EvRmStorageCacheLifetimeSet (old new : Z)
| EvHeartbeatReceived (relayer : AccountId)
| EvAllGood
| EvSomeOffline (offline : list AccountId)
| EvHeartbeatOffenceActivationSet (is_active : bool)
| EvHeartbeatSlashFractionSet (old new : Perbill)
| EvRelayerSetCancelled (relayer : AccountId).

(** What the pallet reaches outside its storage: [replace_authority] of the
    four bridge pallets, the membership of the relay executives and its
    [MembershipChanged], and the reports of unresponsiveness. *)
Class RelayEnv (Q : Type) := {
  relay_queue_replace_authority : AccountId -> AccountId -> Q -> Q;
  socket_queue_replace_authority : AccountId -> AccountId -> Q -> Q;
  registration_pool_replace_authority : AccountId -> AccountId -> Q -> Q;
  blaze_replace_authority : AccountId -> AccountId -> Q -> Q;
  members : Q -> list AccountId;
  put_members : list AccountId -> Q -> Q;
  prime : Q -> option AccountId;
  put_prime : AccountId -> Q -> Q;
  (** [change_members_sorted(incoming, outgoing, new)] *)
  change_members_sorted : list AccountId -> list AccountId -> list AccountId -> Q -> Q;
  set_prime : option AccountId -> Q -> Q;
  report_offence : UnresponsivenessOffence -> Q -> Q
}.

Record RmStorage {Q : Type} : Type := mkRmStorage {
  RmStorageCacheLifetime : Z;
  RmRound : RoundIndex;
  BondedController : gmap N AccountId;
  RelayerPool : list Relayer;
  RelayerState : gmap N RelayerMetadata;
  SelectedRelayers : gset N;
  InitialSelectedRelayers : gset N;
  CachedSelectedRelayers : gmap Z (gset N);
  CachedInitialSelectedRelayers : gmap Z (gset N);
  RmMajority : Z;
  InitialMajority : Z;
  RmCachedMajority : gmap Z Z;
  CachedInitialMajority : gmap Z Z;
  ReceivedHeartbeats : gmap (Z * N) bool;
  IsHeartbeatOffenceActive : bool;
  HeartbeatSlashFraction : Perbill;
  DelayedRelayerSets : gmap Z (list DelayedRelayerSet);
  Env : Q;
  RmEvents : list RelayManagerEvent
}.
Arguments RmStorage Q : clear implicits.
#[export] Instance RmStorage_rebuild {Q} : Rebuild (RmStorage Q) := fun r =>
  mkRmStorage Q (RmStorageCacheLifetime r) (RmRound r) (BondedController r) (RelayerPool r)
    (RelayerState r) (SelectedRelayers r) (InitialSelectedRelayers r)
    (CachedSelectedRelayers r) (CachedInitialSelectedRelayers r) (RmMajority r)
    (InitialMajority r) (RmCachedMajority r) (CachedInitialMajority r) (ReceivedHeartbeats r)
    (IsHeartbeatOffenceActive r) (HeartbeatSlashFraction r) (DelayedRelayerSets r) (Env r)
    (RmEvents r).

Section RmFields.
Context {Q : Type}.
#[export] Instance f_RmStorageCacheLifetime : Field (@RmStorageCacheLifetime Q) := ltac:(derive_field).
#[export] Instance f_RmRound : Field (@RmRound Q) := ltac:(derive_field).
#[export] Instance f_BondedController : Field (@BondedController Q) := ltac:(derive_field).
#[export] Instance f_RelayerPool : Field (@RelayerPool Q) := ltac:(derive_field).
#[export] Instance f_RelayerState : Field (@RelayerState Q) := ltac:(derive_field).
#[export] Instance f_SelectedRelayers : Field (@SelectedRelayers Q) := ltac:(derive_field).
#[export] Instance f_InitialSelected : Field (@InitialSelectedRelayers Q) := ltac:(derive_field).
#[export] Instance f_CachedSelectedRelayers : Field (@CachedSelectedRelayers Q) := ltac:(derive_field).
#[export] Instance f_CachedInitialSelected : Field (@CachedInitialSelectedRelayers Q) := ltac:(derive_field).
#[export] Instance f_RmMajority : Field (@RmMajority Q) := ltac:(derive_field).
#[export] Instance f_InitialMajority : Field (@InitialMajority Q) := ltac:(derive_field).
#[export] Instance f_RmCachedMajority : Field (@RmCachedMajority Q) := ltac:(derive_field).
#[export] Instance f_CachedInitialMajority : Field (@CachedInitialMajority Q) := ltac:(derive_field).
#[export] Instance f_ReceivedHeartbeats : Field (@ReceivedHeartbeats Q) := ltac:(derive_field).
#[export] Instance f_IsHeartbeatOffence : Field (@IsHeartbeatOffenceActive Q) := ltac:(derive_field).
#[export] Instance f_HeartbeatSlash : Field (@HeartbeatSlashFraction Q) := ltac:(derive_field).
#[export] Instance f_DelayedRelayerSets : Field (@DelayedRelayerSets Q) := ltac:(derive_field).
#[export] Instance f_Env : Field (@Env Q) := ltac:(derive_field).
#[export] Instance f_RmEvents : Field (@RmEvents Q) := ltac:(derive_field).
End RmFields.

(** The monad of the pallet and its writes. *)
Abbreviation RP A := (M (RmStorage _) DispatchError A).

Section Pallet.
Context {Q : Type} `{!RelayEnv Q}.

Definition rput {A} (f : RmStorage Q -> A) `{!Field f} (v : A) : RP unit :=
  modify (fun s => s <| f := v |>).
Definition rmutate {A} (f : RmStorage Q -> A) `{!Field f} (g : A -> A) : RP unit :=
  modify (fun s => s <| f ::= g |>).
Definition rm_deposit (e : RelayManagerEvent) : RP unit := rmutate RmEvents (fun l => l ++ [e]).

(** [DelayedRelayerSets::<T>::get(round)]: a [ValueQuery] map *)
Definition delayed_relayer_sets (s : RmStorage Q) (round : RoundIndex) : list DelayedRelayerSet :=
  default [] (DelayedRelayerSets s !! round).
Definition received_heartbeat (s : RmStorage Q) (session : SessionIndex) (who : AccountId) : bool :=
  default false (ReceivedHeartbeats s !! (session, who)).

(** ** [Authorities] *)

Definition is_authority (s : RmStorage Q) (who : AccountId) : bool :=
  bool_decide (who ∈ SelectedRelayers s).
Definition authority_count (s : RmStorage Q) : Z := Z.of_nat (size (SelectedRelayers s)).
Definition majority (s : RmStorage Q) : Z := RmMajority s.
#[export] Instance RelayManager_authorities : Authorities (RmStorage Q) := {
  au_is_authority := is_authority;
  au_count := authority_count;
  au_majority := majority
}.

(** ** The pallet's queries *)

Definition is_relayer (s : RmStorage Q) (relayer : AccountId) : bool :=
  bool_decide (is_Some (RelayerState s !! relayer)).

Definition is_selected_relayer (s : RmStorage Q) (relayer : AccountId) (is_initial : bool) : bool :=
  if is_initial then bool_decide (relayer ∈ InitialSelectedRelayers s)
  else bool_decide (relayer ∈ SelectedRelayers s).

Definition is_relayer_set_requested (s : RmStorage Q) (relayer : AccountId) : bool :=
  existsb (fun r => N.eqb (drs_old r) relayer) (delayed_relayer_sets s (RmRound s)).

Definition rm_compute_majority (s : RmStorage Q) : Z :=
  u32_add ((Z.of_nat (size (SelectedRelayers s)) mod u32_modulus) / 2) 1.

Definition is_heartbeat_pulsed (sv : SessionView) (s : RmStorage Q) (relayer : AccountId) : bool :=
  received_heartbeat s (sv_session_index sv) relayer.

Definition verify_relayer_existence (relayer controller : AccountId) : RP unit :=
  let* s := gets id in
  do* ensure (negb (is_relayer s relayer)) (RelayMgr RelayerAlreadyJoined) in
  do* ensure (negb (bool_decide (is_Some (BondedController s !! controller))))
        (RelayMgr RelayerAlreadyBonded) in
  ensure (negb (existsb (fun r => N.eqb (drs_new r) relayer)
            (delayed_relayer_sets s (RmRound s))))
    (RelayMgr AlreadyRelayerSetRequested).

(** ** The pallet's updates *)

Definition pulse_heartbeat (sv : SessionView) (relayer : AccountId) : RP bool :=
  let* s := gets id in
  if negb (received_heartbeat s (sv_session_index sv) relayer) then
    do* rmutate ReceivedHeartbeats <[(sv_session_index sv, relayer) := true]> in
    ret true
  else ret false.

Definition remove_from_selected_relayers (relayer : AccountId) : RP bool :=
  let* selected := gets SelectedRelayers in
  do* rput SelectedRelayers (selected ∖ {[relayer]}) in
  ret (bool_decide (relayer ∈ selected)).

Definition add_to_selected_relayers (relayer : AccountId) : RP bool :=
  let* selected := gets SelectedRelayers in
  match try_insert_set MAX_AUTHORITIES relayer selected with
  | Some selected' =>
      do* rput SelectedRelayers selected' in
      ret (negb (bool_decide (relayer ∈ selected)))
  | None => fail (RelayMgr TooManyRelayers)
  end.

Definition add_to_relayer_sets (old new : AccountId) : RP unit :=
  let* s := gets id in
  let sets := delayed_relayer_sets s (RmRound s) in
  do* ensure (negb (existsb (fun r => N.eqb (drs_old r) old || N.eqb (drs_new r) new) sets))
        (RelayMgr AlreadyRelayerSetRequested) in
  let* sets' := ok_or (try_push MAX_AUTHORITIES (mkDelayedRelayerSet old new) sets)
                  (RelayMgr TooManyDelayedRelayers) in
  rmutate DelayedRelayerSets <[RmRound s := sets']>.

Definition remove_relayer_set (who : AccountId) : RP unit :=
  let* s := gets id in
  rmutate DelayedRelayerSets
    <[RmRound s := filter (fun r => drs_old r <> who) (delayed_relayer_sets s (RmRound s))]>.

Definition refresh_latest_cached_relayers : RP unit :=
  let* s := gets id in
  rmutate CachedSelectedRelayers <[RmRound s := SelectedRelayers s]>.

Definition refresh_latest_cached_majority : RP unit :=
  let* s := gets id in
  rmutate RmCachedMajority <[RmRound s := majority s]>.

Definition remove_from_relayer_pool (acc : AccountId) (by_relayer : bool) : RP bool :=
  let* pool := gets RelayerPool in
  let pool' := filter (fun r => (if by_relayer then rl_relayer r else rl_controller r) <> acc) pool in
  do* rput RelayerPool pool' in
  ret (Nat.ltb (length pool') (length pool)).

Definition add_to_relayer_pool (relayer controller : AccountId) : RP unit :=
  let* pool := gets RelayerPool in
  let* pool' := ok_or (try_push MAX_AUTHORITIES (mkRelayer relayer controller) pool)
                  (RelayMgr TooManyRelayers) in
  rput RelayerPool pool'.

Definition replace_heartbeats (sv : SessionView) (old new : AccountId) : RP unit :=
  let* s := gets id in
  let is_pulsed := received_heartbeat s (sv_session_index sv) old in
  do* rmutate ReceivedHeartbeats (delete (sv_session_index sv, old)) in
  rmutate ReceivedHeartbeats <[(sv_session_index sv, new) := is_pulsed]>.

Definition replace_selected_relayers (sv : SessionView) (old new : AccountId) : RP unit :=
  let* removed := remove_from_selected_relayers old in
  if (removed : bool) then
    let* _ := add_to_selected_relayers new in
    do* refresh_latest_cached_relayers in
    replace_heartbeats sv old new
  else ret tt.

Definition replace_relayer_pool (old new controller : AccountId) : RP unit :=
  let* removed := remove_from_relayer_pool old true in
  if (removed : bool) then add_to_relayer_pool new controller else ret tt.

Definition replace_bonded_relayer (sv : SessionView) (old new : AccountId) : RP bool :=
  let* s := gets id in
  match RelayerState s !! old with
  | Some old_state =>
      do* rmutate RelayerState (delete old) in
      let controller := rm_controller old_state in
      do* rmutate BondedController <[controller := new]> in
      do* rmutate RelayerState <[new := old_state]> in
      do* replace_relayer_pool old new controller in
      do* replace_selected_relayers sv old new in
      ret true
  | None => ret false
  end.

(** ** [RelayManager] *)

(** The state of a relayer read with [expect], changed and written back. *)
Definition update_relayer (relayer : AccountId) (f : RelayerMetadata -> RelayerMetadata)
    : RP unit :=
  let* s := gets id in
  let* st := expect (RelayerState s !! relayer) in
  rmutate RelayerState <[relayer := f st]>.

Definition rm_join_relayers (relayer controller : AccountId) : RP unit :=
  do* verify_relayer_existence relayer controller in
  do* add_to_relayer_pool relayer controller in
  do* rmutate RelayerState <[relayer := new_relayer controller]> in
  do* rmutate BondedController <[controller := relayer]> in
  rm_deposit (EvJoinedRelayers relayer controller).

Definition rm_refresh_round (now : RoundIndex) : RP unit := rput RmRound now.

Definition refresh_relayer_pool : RP unit :=
  let* pool := gets RelayerPool in
  for_each pool (fun r =>
    update_relayer (rl_relayer r) (fun st =>
      if negb (rl_is_kicked_out st) then rl_go_offline st else st)).

Definition refresh_cached_selected_relayers (round : RoundIndex) (relayers : gset N) : RP unit :=
  let* s := gets id in
  let evict (m : gmap Z (gset N)) :=
    if RmStorageCacheLifetime s <=? btree_len m then pop_first m else m in
  do* rput CachedSelectedRelayers (<[round := relayers]> (evict (CachedSelectedRelayers s))) in
  rput CachedInitialSelectedRelayers
    (<[round := relayers]> (evict (CachedInitialSelectedRelayers s))).

Definition rm_refresh_selected_relayers (round : RoundIndex)
    (selected_candidates : list AccountId) : RP unit :=
  do* refresh_relayer_pool in
  let* selected_relayers :=
    fold_each selected_candidates (∅ : gset N) (fun selected controller =>
      let* s := gets id in
      match BondedController s !! controller with
      | Some relayer =>
          let* selected' := expect (try_insert_set MAX_AUTHORITIES relayer selected) in
          do* update_relayer relayer rl_go_online in
          do* rm_deposit (EvRelayerChosen round relayer controller) in
          ret selected'
      | None => ret selected
      end) in
  do* rput SelectedRelayers selected_relayers in
  do* rput InitialSelectedRelayers selected_relayers in
  refresh_cached_selected_relayers round selected_relayers.

Definition refresh_majority (round : RoundIndex) : RP unit :=
  let* s := gets id in
  let evict (m : gmap Z Z) :=
    if RmStorageCacheLifetime s <=? btree_len m then pop_first m else m in
  let majority := rm_compute_majority s in
  do* rput RmMajority majority in
  do* rput InitialMajority majority in
  do* rput RmCachedMajority (<[round := majority]> (evict (RmCachedMajority s))) in
  rput CachedInitialMajority (<[round := majority]> (evict (CachedInitialMajority s))).

Definition rm_replace_bonded_controller (old new : AccountId) : RP unit :=
  let* s := gets id in
  match BondedController s !! old with
  | Some relayer =>
      do* rmutate BondedController (delete old) in
      do* rmutate BondedController <[new := relayer]> in
      do* update_relayer relayer (fun st => rl_set_controller st new) in
      do* remove_from_relayer_pool old false in
      let* s' := gets id in
      let* pool' := expect (try_push MAX_AUTHORITIES (mkRelayer relayer new) (RelayerPool s')) in
      rput RelayerPool pool'
  | None => ret tt
  end.

Definition rm_leave_relayers (controller : AccountId) : RP unit :=
  let* s := gets id in
  match BondedController s !! controller with
  | Some relayer =>
      do* rmutate BondedController (delete controller) in
      do* remove_from_relayer_pool relayer true in
      rmutate RelayerState (delete relayer)
  | None => ret tt
  end.

Definition rm_kickout_relayer (controller : AccountId) : RP unit :=
  let* s := gets id in
  match BondedController s !! controller with
  | Some relayer =>
      do* update_relayer relayer rl_kick_out in
      let* removed := remove_from_selected_relayers relayer in
      if (removed : bool) then
        do* refresh_latest_cached_relayers in
        let* s' := gets id in
        do* rput RmMajority (rm_compute_majority s') in
        refresh_latest_cached_majority
      else ret tt
  | None => ret tt
  end.

(** The validators whose relayer sent no heartbeat, put offline one by one;
    those with an identification are reported. *)
Definition collect_offenders (sv : SessionView) : RP (list AccountId) :=
  fold_each (sv_validators sv) [] (fun offenders v =>
    let* s := gets id in
    match BondedController s !! v with
    | Some relayer =>
        if negb (is_heartbeat_pulsed sv s relayer) then
          do* update_relayer relayer rl_go_offline in
          ret (if sv_identified sv v then offenders ++ [v] else offenders)
        else ret offenders
    | None => ret offenders
    end).

Definition rm_collect_heartbeats (sv : SessionView) : RP unit :=
  let session_index := sv_session_index sv in
  let* offenders := collect_offenders sv in
  do* rmutate ReceivedHeartbeats
        (filter (fun kv : (Z * N) * bool => kv.1.1 <> session_index)) in
  match offenders with
  | [] => rm_deposit EvAllGood
  | _ =>
      let* s := gets id in
      do* (if IsHeartbeatOffenceActive s then
             rmutate Env (report_offence (mkUnresponsivenessOffence session_index
               (Z.of_nat (length (sv_validators sv)) mod u32_modulus) offenders
               (HeartbeatSlashFraction s)))
           else ret tt) in
      rm_deposit (EvSomeOffline offenders)
  end.

(** The replacement of a member of the relay executives. *)
Definition replace_member (old new : AccountId) (env : Q) : Q :=
  match binary_search (members env) old with
  | inl location =>
      match binary_search (members env) new with
      | inr _ =>
          let ms := stable_sort N.leb (<[location := new]> (members env)) in
          let env1 := change_members_sorted [new] [old] ms (put_members ms env) in
          if decide (prime env1 = Some old) then set_prime (Some new) (put_prime new env1)
          else env1
      | inl _ => env
      end
  | inr _ => env
  end.

Definition rm_handle_delayed_relayer_sets (sv : SessionView) (now : RoundIndex) : RP unit :=
  let delayed_round := u32_sub now 1 in
  let* s := gets id in
  do* rmutate DelayedRelayerSets (delete delayed_round) in
  for_each (delayed_relayer_sets s delayed_round) (fun r =>
    let* res := attempt (replace_bonded_relayer sv (drs_old r) (drs_new r)) in
    match res with
    | inr true =>
        do* rmutate Env (relay_queue_replace_authority (drs_old r) (drs_new r)) in
        do* rmutate Env (socket_queue_replace_authority (drs_old r) (drs_new r)) in
        do* rmutate Env (registration_pool_replace_authority (drs_old r) (drs_new r)) in
        do* rmutate Env (blaze_replace_authority (drs_old r) (drs_new r)) in
        rmutate Env (replace_member (drs_old r) (drs_new r))
    | inr false => ret tt
    | inl _ => trap
    end).

#[export] Instance RelayManager_pallet : RelayManager (RmStorage Q) := {
  join_relayers := rm_join_relayers;
  refresh_round := rm_refresh_round;
  refresh_selected_relayers := rm_refresh_selected_relayers;
  rm_refresh_majority := refresh_majority;
  replace_bonded_controller := rm_replace_bonded_controller;
  leave_relayers := rm_leave_relayers;
  kickout_relayer := rm_kickout_relayer;
  collect_heartbeats := rm_collect_heartbeats;
  handle_delayed_relayer_sets := rm_handle_delayed_relayer_sets
}.

(** ** Genesis and extrinsics *)

Definition rm_genesis_build (storage_cache_lifetime : Z) (is_heartbeat_offence_active : bool)
    (heartbeat_slash_fraction : Perbill) : RP unit :=
  do* rput RmStorageCacheLifetime storage_cache_lifetime in
  do* rput IsHeartbeatOffenceActive is_heartbeat_offence_active in
  rput HeartbeatSlashFraction heartbeat_slash_fraction.

Definition rm_set_storage_cache_lifetime (origin : Origin) (new : Z) : RP unit :=
  do* ensure_root origin in
  do* ensure (1 <=? new) (RelayMgr RmCannotSetBelowOne) in
  let* old := gets RmStorageCacheLifetime in
  do* ensure (negb (old =? new)) (RelayMgr RmNoWritingSameValue) in
  do* rput RmStorageCacheLifetime new in
  rm_deposit (EvRmStorageCacheLifetimeSet old new).

Definition set_heartbeat_offence_activation (origin : Origin) (is_active : bool) : RP unit :=
  do* ensure_root origin in
  let* old := gets IsHeartbeatOffenceActive in
  do* ensure (negb (eqb is_active old)) (RelayMgr RmNoWritingSameValue) in
  do* rput IsHeartbeatOffenceActive is_active in
  rm_deposit (EvHeartbeatOffenceActivationSet is_active).

Definition set_heartbeat_slash_fraction (origin : Origin) (new : Perbill) : RP unit :=
  do* ensure_root origin in
  let* old := gets HeartbeatSlashFraction in
  do* ensure (negb (old =? new)) (RelayMgr RmNoWritingSameValue) in
  do* rput HeartbeatSlashFraction new in
  rm_deposit (EvHeartbeatSlashFractionSet old new).

Definition set_relayer (origin : Origin) (new : AccountId) : RP unit :=
  let* controller := ensure_signed origin in
  let* s := gets id in
  let* old := ok_or (BondedController s !! controller) (RelayMgr ControllerDNE) in
  do* ensure (negb (N.eqb old new)) (RelayMgr RmNoWritingSameValue) in
  do* ensure (is_relayer s old) (RelayMgr RelayerDNE) in
  do* ensure (negb (is_relayer s new)) (RelayMgr RelayerAlreadyJoined) in
  do* ensure (negb (is_relayer_set_requested s old)) (RelayMgr AlreadyRelayerSetRequested) in
  do* add_to_relayer_sets old new in
  rm_deposit (EvRelayerSet old new).

Definition cancel_relayer_set (origin : Origin) : RP unit :=
  let* controller := ensure_signed origin in
  let* s := gets id in
  let* relayer := ok_or (BondedController s !! controller) (RelayMgr ControllerDNE) in
  do* ensure (is_relayer_set_requested s relayer) (RelayMgr RelayerSetDNE) in
  do* remove_relayer_set relayer in
  rm_deposit (EvRelayerSetCancelled relayer).

Definition heartbeat (sv : SessionView) (origin : Origin) : RP unit :=
  let* relayer := ensure_signed origin in
  let* s := gets id in
  do* ensure (is_relayer s relayer) (RelayMgr RelayerDNE) in
  do* ensure (is_selected_relayer s relayer false) (RelayMgr RelayerInactive) in
  let* is_pulsed := pulse_heartbeat sv relayer in
  if (is_pulsed : bool) then
    do* update_relayer relayer rl_go_online in
    rm_deposit (EvHeartbeatReceived relayer)
  else ret tt.

Definition heartbeat_v2 (sv : SessionView) (origin : Origin) (impl_version : Z)
    (spec_version : N) : RP unit :=
  let* relayer := ensure_signed origin in
  let* s := gets id in
  do* ensure (is_relayer s relayer) (RelayMgr RelayerDNE) in
  do* ensure (is_selected_relayer s relayer false) (RelayMgr RelayerInactive) in
  let* is_pulsed := pulse_heartbeat sv relayer in
  if (is_pulsed : bool) then
    do* update_relayer relayer (fun st =>
          rl_set_spec_version (rl_set_impl_version (rl_go_online st) (Some impl_version))
            (Some spec_version)) in
    rm_deposit (EvHeartbeatReceived relayer)
  else ret tt.
End Pallet.
