(* ===== verification/Cccp.v ===== *)
(** * Socket messages of the cross-chain protocol

    [primitives/cccp]: the messages relayers submit, their ABI encoding and
    their parsing, the answers of the Socket contract. The ABI codec
    ([ethabi_decode]) is not in the repository: it is the class [EthAbi], with
    the documented behaviour of the codec as laws. *)

From S2P Require Import Prelude.
From Stdlib Require Export Strings.Byte.
Local Open Scope Z_scope.

(** ** Bytes *)

Abbreviation UnboundedBytes := (list byte) (only parsing).
Abbreviation H160 := N (only parsing).
Abbreviation H256 := N (only parsing).
Abbreviation U256 := Z (only parsing).

#[export] Instance byte_eq_dec : EqDecision byte := Byte.byte_eq_dec.

Definition byte_of (v : Z) : byte := default x00 (Byte.of_N (Z.to_N (v mod 256))).
Definition byte_val (b : byte) : Z := Z.of_N (Byte.to_N b).

(** [from_be_bytes] and [to_be_bytes] of an integer of [n] bytes *)
Definition from_be_bytes (l : UnboundedBytes) : Z :=
  foldl (fun acc b => acc * 256 + byte_val b) 0 l.
Fixpoint to_be_bytes (n : nat) (v : Z) : UnboundedBytes :=
  match n with
  | O => []
  | S n' => to_be_bytes n' (v / 256) ++ [byte_of v]
  end.

(** [checked_add] and [checked_sub] of [U256] *)
Definition u256_checked_add (a b : U256) : option U256 := if a + b <? 2 ^ 256 then Some (a + b) else None.
Definition u256_checked_sub (a b : U256) : option U256 := if b <=? a then Some (a - b) else None.

(** [H256::from_slice]: panics on a slice of another length. *)
Definition H256_from_slice (l : UnboundedBytes) : option H256 :=
  if Nat.eqb (length l) 32 then Some (Z.to_N (from_be_bytes l)) else None.
(** [u32::from_be_bytes(l.try_into()?)] *)
Definition u32_try_from_be_bytes (l : UnboundedBytes) : option Z :=
  if Nat.eqb (length l) 4 then Some (from_be_bytes l) else None.

Lemma byte_val_range b : 0 <= byte_val b < 256.
Proof. pose proof (Byte.to_N_bounded b). unfold byte_val. lia. Qed.
Lemma byte_val_of v : 0 <= v < 256 -> byte_val (byte_of v) = v.
Proof.
  intros Hv. unfold byte_of, byte_val. rewrite Z.mod_small by done.
  destruct (Byte.of_N (Z.to_N v)) as [b|] eqn:E.
  - apply Byte.to_of_N in E. cbn. rewrite E. lia.
  - apply Byte.of_N_None_iff in E. lia.
Qed.
Lemma byte_of_val b : byte_of (byte_val b) = b.
Proof.
  unfold byte_of. rewrite Z.mod_small by apply byte_val_range.
  unfold byte_val. by rewrite N2Z.id, Byte.of_to_N.
Qed.
Lemma from_be_bytes_snoc l b : from_be_bytes (l ++ [b]) = from_be_bytes l * 256 + byte_val b.
Proof. unfold from_be_bytes. by rewrite foldl_app. Qed.
Lemma from_be_bytes_range l : 0 <= from_be_bytes l < 256 ^ Z.of_nat (length l).
Proof.
  induction l as [|b l IH] using rev_ind; [done|].
  rewrite from_be_bytes_snoc, length_app, Nat.add_1_r, Nat2Z.inj_succ, Z.pow_succ_r by lia.
  pose proof (byte_val_range b). lia.
Qed.
Lemma to_be_bytes_length n v : length (to_be_bytes n v) = n.
Proof. revert v. induction n as [|n IH]; intros v; cbn; [done|]. rewrite length_app, IH. cbn. lia. Qed.
Lemma byte_of_mod v : byte_of (v mod 256) = byte_of v.
Proof. unfold byte_of. by rewrite Zmod_mod. Qed.
Lemma from_to_be_bytes n v : 0 <= v < 256 ^ Z.of_nat n -> from_be_bytes (to_be_bytes n v) = v.
Proof.
  revert v. induction n as [|n IH]; intros v Hv; [cbn in *; lia|]. cbn [to_be_bytes].
  rewrite Nat2Z.inj_succ, Z.pow_succ_r in Hv by lia.
  rewrite from_be_bytes_snoc, IH by (split; [apply Z.div_pos|apply Z.div_lt_upper_bound]; lia).
  rewrite <- byte_of_mod, byte_val_of by (apply Z.mod_pos_bound; lia).
  pose proof (Z.div_mod v 256). lia.
Qed.
Lemma to_from_be_bytes l : to_be_bytes (length l) (from_be_bytes l) = l.
Proof.
  induction l as [|b l IH] using rev_ind; [done|].
  rewrite length_app, Nat.add_1_r, from_be_bytes_snoc. cbn [to_be_bytes].
  pose proof (byte_val_range b).
  rewrite Z.div_add_l, Z.div_small, Z.add_0_r, IH by lia. do 2 f_equal.
  rewrite <- byte_of_mod, Z.add_comm, Z_mod_plus_full, byte_of_mod. apply byte_of_val.
Qed.

#[export] Instance byte_countable : Countable byte :=
  inj_countable Byte.to_N Byte.of_N Byte.of_to_N.

(** Keccak, hexadecimal (of [array_bytes] and of [hex]) and signatures: code
    outside the repository. *)
Class Crypto := {
  keccak_256 : UnboundedBytes -> H256;
  bytes2hex : string -> UnboundedBytes -> string;
  hex2bytes : string -> option UnboundedBytes;
  hex_encode : UnboundedBytes -> string;
  Signature : Type;
  verify : Signature -> UnboundedBytes -> AccountId -> bool
}.

(** ** The ABI codec *)

(** The tokens and kinds of [ethabi_decode] the source uses. *)
Inductive Token : Type :=
| TAddress (a : H160)
| TFixedBytes (b : UnboundedBytes)
| TBytes (b : UnboundedBytes)
| TUint (v : U256)
| TFixedArray (l : list Token)
| TTuple (l : list Token).

Inductive ParamKind : Type :=
| KAddress
| KBytes
| KUint (bits : Z)
| KFixedBytes (n : nat)
| KFixedArray (k : ParamKind) (n : nat)
| KTuple (ks : list ParamKind).

Definition to_address (t : Token) : option H160 := match t with TAddress a => Some a | _ => None end.
Definition to_fixed_bytes (t : Token) : option UnboundedBytes :=
  match t with TFixedBytes b => Some b | _ => None end.
Definition to_bytes (t : Token) : option UnboundedBytes :=
  match t with TBytes b => Some b | _ => None end.
Definition to_uint (t : Token) : option U256 := match t with TUint v => Some v | _ => None end.
Definition to_fixed_array (t : Token) : option (list Token) :=
  match t with TFixedArray l => Some l | _ => None end.
Definition to_tuple (t : Token) : option (list Token) :=
  match t with TTuple l => Some l | _ => None end.

(** [token_is w k t]: [t] is a value of kind [k], where an unsigned integer
    declared with [n] bits has at most [w n] bits. *)
Section TokenIs.
Context (w : Z -> Z).
Fixpoint token_is (k : ParamKind) (t : Token) {struct k} : bool :=
  match k, t with
  | KAddress, TAddress a => N.ltb a (2 ^ 160)
  | KBytes, TBytes _ => true
  | KUint n, TUint v => (0 <=? v) && (v <? 2 ^ w n)
  | KFixedBytes n, TFixedBytes b => Nat.eqb (length b) n
  | KFixedArray k' n, TFixedArray l => Nat.eqb (length l) n && forallb (token_is k') l
  | KTuple ks, TTuple l =>
      (fix tokens (ks : list ParamKind) (l : list Token) {struct ks} : bool :=
         match ks, l with
         | [], [] => true
         | k' :: ks', t' :: l' => token_is k' t' && tokens ks' l'
         | _, _ => false
         end) ks l
  | _, _ => false
  end.
Definition tokens_are (ks : list ParamKind) (l : list Token) : bool := token_is (KTuple ks) (TTuple l).
End TokenIs.
(** A value of its kind, and a value of its kind up to the declared width of
    integers, which a decoder may leave unchecked. *)
Definition exact (n : Z) : Z := Z.min n 256.
Definition word (_ : Z) : Z := 256.

Class EthAbi := {
  abi_encode : list Token -> UnboundedBytes;
  abi_decode : list ParamKind -> UnboundedBytes -> option (list Token)
}.

(** Values are read back as they were written; what is read has the kinds
    asked for; two lists of values of the same kinds are not written alike. *)
Class EthAbiLaws `{EthAbi} : Prop := {
  abi_decode_encode ks ts : tokens_are exact ks ts = true -> abi_decode ks (abi_encode ts) = Some ts;
  abi_decode_kinds ks b ts : abi_decode ks b = Some ts -> tokens_are word ks ts = true;
  abi_encode_inj ks ts ts' : tokens_are word ks ts = true -> tokens_are word ks ts' = true ->
    abi_encode ts = abi_encode ts' -> ts = ts'
}.

(** "8dac2204" *)
Definition SOCKET_GET_REQUEST_FUNCTION_SELECTOR : string := "8dac2204".

(** ** The parts of a message *)

Record RequestID : Type := mkRequestID {
  rid_chain : UnboundedBytes; rid_round_id : U256; rid_sequence : U256
}.
Definition RequestID_try_from (token : list Token) : option RequestID :=
  match token with
  | [t0; t1; t2] =>
      chain ← to_fixed_bytes t0; round_id ← to_uint t1; sequence ← to_uint t2;
      Some (mkRequestID chain round_id sequence)
  | _ => None
  end.

Record Instruction : Type := mkInstruction {
  ins_chain : UnboundedBytes; ins_method : UnboundedBytes
}.
Definition Instruction_try_from (token : list Token) : option Instruction :=
  match token with
  | [t0; t1] =>
      chain ← to_fixed_bytes t0; method ← to_fixed_bytes t1; Some (mkInstruction chain method)
  | _ => None
  end.

Record TaskParams : Type := mkTaskParams {
  tp_token_idx0 : UnboundedBytes;
  tp_token_idx1 : UnboundedBytes;
  tp_refund : H160;
  tp_to : H160;
  tp_amount : U256;
  tp_variants : UnboundedBytes
}.
Definition TaskParams_try_from (token : list Token) : option TaskParams :=
  match token with
  | [t0; t1; t2; t3; t4; t5] =>
      idx0 ← to_fixed_bytes t0; idx1 ← to_fixed_bytes t1; refund ← to_address t2;
      to ← to_address t3; amount ← to_uint t4; variants ← to_bytes t5;
      Some (mkTaskParams idx0 idx1 refund to amount variants)
  | _ => None
  end.

Definition RequestID_tokens (r : RequestID) : list Token :=
  [TFixedBytes (rid_chain r); TUint (rid_round_id r); TUint (rid_sequence r)].
Definition Instruction_tokens (i : Instruction) : list Token :=
  [TFixedBytes (ins_chain i); TFixedBytes (ins_method i)].
Definition TaskParams_tokens (p : TaskParams) : list Token :=
  [TFixedBytes (tp_token_idx0 p); TFixedBytes (tp_token_idx1 p); TAddress (tp_refund p);
   TAddress (tp_to p); TUint (tp_amount p); TBytes (tp_variants p)].

Record UserRequest : Type := mkUserRequest { ur_ins_code : Instruction; ur_params : TaskParams }.

Record SocketMessage : Type := mkSocketMessage {
  sm_req_id : RequestID;
  sm_status : U256;
  sm_ins_code : Instruction;
  sm_params : TaskParams
}.

Definition UserRequest_tokens (u : UserRequest) : list Token :=
  [TTuple [TTuple (Instruction_tokens (ur_ins_code u)); TTuple (TaskParams_tokens (ur_params u))]].
Definition SocketMessage_tokens (m : SocketMessage) : list Token :=
  [TTuple [TTuple (RequestID_tokens (sm_req_id m)); TUint (sm_status m);
           TTuple (Instruction_tokens (sm_ins_code m)); TTuple (TaskParams_tokens (sm_params m))]].

Definition is_requested (m : SocketMessage) : bool := sm_status m =? 1.
Definition is_accepted (m : SocketMessage) : bool := sm_status m =? 5.
Definition is_rejected (m : SocketMessage) : bool := sm_status m =? 6.
Definition is_committed (m : SocketMessage) : bool := sm_status m =? 7.
Definition is_rollbacked (m : SocketMessage) : bool := sm_status m =? 8.
Definition is_outbound (m : SocketMessage) (bifrost_chain_id : Z) : bool :=
  bool_decide (rid_chain (sm_req_id m) = to_be_bytes 4 bifrost_chain_id).
Definition is_bitcoin_outbound (m : SocketMessage) (bifrost_chain_id bitcoin_chain_id : Z) : bool :=
  if negb (bool_decide (rid_chain (sm_req_id m) = to_be_bytes 4 bifrost_chain_id)) then false
  else if negb (bool_decide (ins_chain (sm_ins_code m) = to_be_bytes 4 bitcoin_chain_id)) then false
  else true.

Definition SocketMessage_kinds : list ParamKind :=
  [KTuple [KTuple [KFixedBytes 4; KUint 64; KUint 128];
           KUint 8;
           KTuple [KFixedBytes 4; KFixedBytes 16];
           KTuple [KFixedBytes 32; KFixedBytes 32; KAddress; KAddress; KUint 256; KBytes]]].

(** [TryFrom<Vec<Token>>] *)
Definition SocketMessage_try_from_tokens (token : list Token) : option SocketMessage :=
  match token with
  | [t0; t1; t2; t3] =>
      req_id ← to_tuple t0 ≫= RequestID_try_from; status ← to_uint t1;
      ins_code ← to_tuple t2 ≫= Instruction_try_from;
      params ← to_tuple t3 ≫= TaskParams_try_from;
      Some (mkSocketMessage req_id status ins_code params)
  | _ => None
  end.

(** The answer of [get_request()] *)
Record RequestInfo : Type := mkRequestInfo {
  ri_field : list U256; ri_msg_hash : H256; ri_registered_time : U256
}.
Definition RequestInfo_kinds : list ParamKind :=
  [KFixedArray (KUint 8) 32; KFixedBytes 32; KUint 256].

Definition is_msg_hash (r : RequestInfo) (hash : H256) : bool := N.eqb (ri_msg_hash r) hash.
(** The methods read [self.field[0]]: [None] is the panic of an index out of
    range. *)
Definition status_is (r : RequestInfo) (status : U256) : option bool :=
  (fun v => v =? status) <$> head (ri_field r).
Definition ri_is_requested (r : RequestInfo) : option bool := status_is r 1.
Definition ri_is_accepted (r : RequestInfo) : option bool := status_is r 5.
Definition ri_is_rejected (r : RequestInfo) : option bool := status_is r 6.
Definition ri_is_committed (r : RequestInfo) : option bool := status_is r 7.
Definition ri_is_rollbacked (r : RequestInfo) : option bool := status_is r 8.

(** The conversion of the three tokens of an answer: [Trap] where
    [H256::from_slice] panics. *)
Definition RequestInfo_try_from_tokens (token : list Token) : outcome unit RequestInfo :=
  match token with
  | [t0; t1; t2] =>
      match to_fixed_array t0 ≫= mapM to_uint, to_fixed_bytes t1 with
      | Some field, Some bytes =>
          match H256_from_slice bytes, to_uint t2 with
          | Some hash, Some time => Done (mkRequestInfo field hash time)
          | Some _, None => Fail tt
          | None, _ => Trap
          end
      | _, _ => Fail tt
      end
  | _ => Fail tt
  end.

(** ** Encoding and parsing *)

Section Codec.
Context `{EthAbi}.

Definition UserRequest_encode (u : UserRequest) : UnboundedBytes := abi_encode (UserRequest_tokens u).
Definition SocketMessage_encode (m : SocketMessage) : UnboundedBytes :=
  abi_encode (SocketMessage_tokens m).
Definition encode_req_id (m : SocketMessage) : UnboundedBytes :=
  abi_encode (RequestID_tokens (sm_req_id m)).

(** [TryFrom<UnboundedBytes>]; [socket[0]] of an empty list panics. *)
Definition SocketMessage_try_from (bytes : UnboundedBytes) : outcome unit SocketMessage :=
  match abi_decode SocketMessage_kinds bytes with
  | Some (TTuple msg :: _) =>
      match SocketMessage_try_from_tokens msg with Some m => Done m | None => Fail tt end
  | Some (_ :: _) => Fail tt
  | Some [] => Trap
  | None => Fail tt
  end.
Definition RequestInfo_try_from (bytes : UnboundedBytes) : outcome unit RequestInfo :=
  match abi_decode RequestInfo_kinds bytes with
  | Some token => RequestInfo_try_from_tokens token
  | None => Fail tt
  end.
End Codec.
