(* ===== verification/BtcRelay.v ===== *)
(** * Primitives of the Bitcoin relay

    [primitives/btc-relay]: multi-signature vaults, UTXOs, the estimated size
    of an input, and the traits through which the registration pool, the
    socket queue and Blaze call each other. The Bitcoin libraries
    ([rust-bitcoin], [miniscript]) are the class [BtcLib]. *)

From S2P Require Import Prelude Errors Primitives Cccp.
From Stdlib Require Import DecimalString.
Local Open Scope Z_scope.
Local Open Scope frame_scope.

(** ** Text *)

(** [format!("{}", n)] of an unsigned integer *)
Definition display (n : Z) : string := NilZero.string_of_uint (N.to_uint (Z.to_N n)).
(** [as_bytes] of a string *)
Definition as_bytes (s : string) : UnboundedBytes := String.list_byte_of_string s.
(** [concat] of strings *)
Definition concat_strings (l : list string) : string := foldr String.append EmptyString l.

(** [str::from_utf8(b).is_ok()]: the byte sequences of the Unicode standard,
    without surrogates and overlong forms. *)
Definition between (lo hi : Z) (b : byte) : bool := (lo <=? byte_val b) && (byte_val b <=? hi).
Definition continuation : byte -> bool := between 128 191.
Fixpoint utf8_valid (b : UnboundedBytes) : bool :=
  match b with
  | [] => true
  | c :: r =>
      if between 0 127 c then utf8_valid r
      else
        match r with
        | [] => false
        | c1 :: r1 =>
            if between 194 223 c then continuation c1 && utf8_valid r1
            else
              match r1 with
              | [] => false
              | c2 :: r2 =>
                  if between 224 239 c then
                    between (if byte_val c =? 224 then 160 else 128)
                            (if byte_val c =? 237 then 159 else 191) c1
                    && continuation c2 && utf8_valid r2
                  else
                    match r2 with
                    | [] => false
                    | c3 :: r3 =>
                        between 240 244 c
                        && between (if byte_val c =? 240 then 144 else 128)
                                   (if byte_val c =? 244 then 143 else 191) c1
                        && continuation c2 && continuation c3 && utf8_valid r3
                    end
              end
        end
  end.
(** [str::from_utf8]: the text is kept as its bytes. *)
Definition from_utf8 (b : UnboundedBytes) : option UnboundedBytes :=
  if utf8_valid b then Some b else None.

(** ** The Bitcoin libraries *)

Definition MULTI_SIG_MAX_ACCOUNTS : Z := 20.
Definition ADDRESS_MAX_LENGTH : Z := 90.
Definition DUST_LIMIT : Z := 546.

(** A bounded vector of bytes *)
Abbreviation BoundedBitcoinAddress := (list byte) (only parsing).
(** A key of 33 bytes, as a number: the bytes are ordered like numbers. *)
Abbreviation Public := N (only parsing).

(** [BoundedVec::try_from] at the length of an address *)
Definition bounded_address (b : UnboundedBytes) : option BoundedBitcoinAddress :=
  if Z.of_nat (length b) <=? ADDRESS_MAX_LENGTH then Some b else None.

(** [script::Instruction]: an opcode or pushed bytes *)
Inductive Instruction : Type := Op (code : Z) | PushBytes (b : UnboundedBytes).

Class BtcLib := {
  Network : Type;
  PublicKey : Type;
  PublicKey_from_slice : Public -> option PublicKey;
  PublicKey_leb : PublicKey -> PublicKey -> bool;
  Descriptor : Type;
  new_wsh_sortedmulti : Z -> list PublicKey -> option Descriptor;
  sanity_check : Descriptor -> bool;
  (** [address(network)], as text *)
  descriptor_address : Descriptor -> Network -> option UnboundedBytes;
  descriptor_to_string : Descriptor -> UnboundedBytes;
  descriptor_from_str : UnboundedBytes -> option Descriptor;
  Address : Type;
  address_from_str : UnboundedBytes -> option Address;
  require_network : Address -> Network -> option Address;
  address_to_string : Address -> UnboundedBytes;
  ScriptBuf : Type;
  script_code : Descriptor -> option ScriptBuf;
  script_len : ScriptBuf -> Z;
  (** [instructions()]: [None] is an error *)
  instructions : ScriptBuf -> list (option Instruction);
  TxIn : Type;
  base_size : TxIn -> Z;
  Weight : Type;
  from_witness_data_size : Z -> Weight;
  from_non_witness_data_size : Z -> Weight;
  weight_add : Weight -> Weight -> Weight;
  to_vbytes_ceil : Weight -> Z
}.

(** [TxOut]: a value in satoshi and the script that locks it *)
Record TxOut `{!BtcLib} : Type := mkTxOut { txo_value : Z; txo_script_pubkey : ScriptBuf }.
Arguments mkTxOut {_} _ _.

(** Transactions, partially signed transactions and the scripts of addresses:
    what the source calls of the library and reads of its values. *)
Class PsbtLib `{!BtcLib} := {
  #[global] ScriptBuf_eq_dec :: EqDecision ScriptBuf;
  #[global] Address_eq_dec :: EqDecision Address;
  #[global] TxIn_eq_dec :: EqDecision TxIn;
  (** the order of scripts, by their bytes *)
  ScriptBuf_leb : ScriptBuf -> ScriptBuf -> bool;
  script_pubkey : Address -> ScriptBuf;
  address_from_script : ScriptBuf -> Network -> option Address;
  descriptor_script_pubkey : Descriptor -> ScriptBuf;
  (** the keys of [for_each_key] *)
  descriptor_keys : Descriptor -> list PublicKey;
  (** a [TxIn] of a previous output (the bytes of its txid and its index),
      without signature, that signals replaceability *)
  new_txin : UnboundedBytes -> Z -> TxIn;
  (** [size()] and [weight().to_vbytes_ceil()] of an output *)
  txout_size : TxOut -> Z;
  txout_vbytes : TxOut -> Z;
  Psbt : Type;
  PsbtInput : Type;
  psbt_inputs : Psbt -> list PsbtInput;
  (** [unsigned_tx.input], [unsigned_tx.output] *)
  unsigned_inputs : Psbt -> list TxIn;
  unsigned_outputs : Psbt -> list TxOut;
  (** [unsigned_tx.compute_txid().to_byte_array()] *)
  compute_txid : Psbt -> UnboundedBytes;
  (** [previous_output.txid.as_byte_array()] *)
  previous_txid : TxIn -> UnboundedBytes;
  previous_vout : TxIn -> Z;
  (** the value of [witness_utxo], and those of the outputs of
      [non_witness_utxo] *)
  witness_utxo : PsbtInput -> option Z;
  non_witness_utxo : PsbtInput -> option (list Z);
  witness_script : PsbtInput -> option ScriptBuf;
  (** an [Input] with a spent output, a witness script and the keys of the
      derivation map *)
  new_psbt_input : TxOut -> ScriptBuf -> list PublicKey -> PsbtInput;
  (** [Psbt::from_unsigned_tx] of a transaction of version 2 without lock
      time, and the assignment of [inputs] and of default [outputs] *)
  from_unsigned_tx : list TxIn -> list TxOut -> option Psbt;
  with_inputs : list PsbtInput -> nat -> Psbt -> Psbt;
  psbt_fee : Psbt -> option Z;
  psbt_serialize : Psbt -> UnboundedBytes;
  psbt_deserialize : UnboundedBytes -> option Psbt;
  (** [combined.combine(signed)]; [finalize(&secp)] *)
  psbt_combine : Psbt -> Psbt -> option Psbt;
  psbt_finalize : Psbt -> option Psbt
}.

(** ** Vaults *)

Inductive AddressState : Type := Pending | Generated (address : BoundedBitcoinAddress).
#[export] Instance AddressState_eq_dec : EqDecision AddressState.
Proof. solve_decision. Defined.

Record MultiSigAccount : Type := mkMultiSigAccount {
  msa_address : AddressState;
  msa_descriptor : UnboundedBytes;
  msa_pub_keys : gmap N Public;
  msa_m : Z;
  msa_n : Z
}.
#[export] Instance MultiSigAccount_rebuild : Rebuild MultiSigAccount := fun r =>
  mkMultiSigAccount (msa_address r) (msa_descriptor r) (msa_pub_keys r) (msa_m r) (msa_n r).
#[export] Instance f_msa_address : Field msa_address := ltac:(derive_field).
#[export] Instance f_msa_descriptor : Field msa_descriptor := ltac:(derive_field).
#[export] Instance f_msa_pub_keys : Field msa_pub_keys := ltac:(derive_field).

Definition new_multi_sig (m n : Z) : MultiSigAccount := mkMultiSigAccount Pending [] ∅ m n.
Definition is_pending (v : MultiSigAccount) : bool := bool_decide (msa_address v = Pending).
Definition is_address (v : MultiSigAccount) (address : BoundedBitcoinAddress) : bool :=
  match msa_address v with Pending => false | Generated a => bool_decide (a = address) end.
Definition is_key_generation_ready (v : MultiSigAccount) : bool :=
  msa_n v =? Z.of_nat (size (msa_pub_keys v)).
Definition is_key_submitted (v : MultiSigAccount) (pub_key : Public) : bool :=
  existsb (N.eqb pub_key) (acc_iter (msa_pub_keys v)).*2.
Definition is_authority_submitted (v : MultiSigAccount) (authority_id : AccountId) : bool :=
  bool_decide (is_Some (msa_pub_keys v !! authority_id)).
Definition set_address (address : BoundedBitcoinAddress) (v : MultiSigAccount) : MultiSigAccount :=
  v <| msa_address := Generated address |>.
Definition set_descriptor (descriptor : UnboundedBytes) (v : MultiSigAccount) : MultiSigAccount :=
  v <| msa_descriptor := descriptor |>.
(** [pub_keys()]: in the order of the authorities *)
Definition pub_keys (v : MultiSigAccount) : list Public := (acc_iter (msa_pub_keys v)).*2.
Definition clear_pub_keys (v : MultiSigAccount) : MultiSigAccount := v <| msa_pub_keys := ∅ |>.

(** [remove] and [try_insert(..).expect(..)] on a bounded map: the vote or key
    of [old] becomes that of [new]. [None] is the panic. *)
Definition replace_key {V} (bound : Z) (old new : AccountId) (m : gmap N V) : option (gmap N V) :=
  match m !! old with
  | Some v => try_insert_map bound new v (delete old m)
  | None => Some m
  end.
Definition msa_replace_authority (old new : AccountId) (v : MultiSigAccount) : option MultiSigAccount :=
  keys ← replace_key MULTI_SIG_MAX_ACCOUNTS old new (msa_pub_keys v);
  Some (v <| msa_pub_keys := keys |>).

Inductive MigrationSequence : Type :=
| Normal
| SetExecutiveMembers
| PrepareNextSystemVault
| UTXOTransfer.
#[export] Instance MigrationSequence_eq_dec : EqDecision MigrationSequence.
Proof. solve_decision. Defined.

(** ** [blaze.rs]: UTXOs *)

Record UtxoInfo : Type := mkUtxoInfo {
  ui_txid : H256; ui_vout : Z; ui_amount : Z; ui_address : BoundedBitcoinAddress
}.
Record UtxoInfoWithSize : Type := mkUtxoInfoWithSize {
  us_hash : H256;
  us_txid : H256;
  us_vout : Z;
  us_amount : Z;
  us_descriptor : UnboundedBytes;
  us_input_vbytes : Z
}.
#[export] Instance UtxoInfoWithSize_eq_dec : EqDecision UtxoInfoWithSize.
Proof. solve_decision. Defined.
Record ScoredUtxo : Type := mkScoredUtxo {
  su_utxo : UtxoInfoWithSize; su_fee : Z; su_long_term_fee : Z; su_effective_value : Z
}.
Inductive SelectionStrategy : Type := Bnb | Knapsack.
#[export] Instance SelectionStrategy_eq_dec : EqDecision SelectionStrategy.
Proof. solve_decision. Defined.

(** ** [utils.rs]: the size of an input *)

Section Sizes.
Context `{!BtcLib}.

(** [opcodes::all::OP_CHECKMULTISIG] *)
Definition OP_CHECKMULTISIG : Z := 174.

(** [Ok(Instruction::Op(op))] with an opcode that pushes a number of 1 to 16 *)
Definition small_number (i : option Instruction) : option Z :=
  match i with
  | Some (Op op) => if (81 <=? op) && (op <=? 96) then Some (op - 81 + 1) else None
  | _ => None
  end.

Definition parse_multisig_script (script : ScriptBuf) : option (Z * Z) :=
  let ins := instructions script in
  if Nat.ltb (length ins) 3 then None
  else
    m ← (head ins ≫= small_number);
    match last ins with
    | Some (Some (Op op)) =>
        if op =? OP_CHECKMULTISIG then
          n ← ((ins !! (length ins - 2)%nat) ≫= small_number); Some (m, n)
        else None
    | _ => None
    end.

Definition estimate_finalized_input_size (witness_script : ScriptBuf) (txin : option TxIn)
    : option Z :=
  '(m, _) ← parse_multisig_script witness_script;
  let script_len := script_len witness_script + 1 in
  let estimated_witness_size := 1 + 73 * m + script_len in
  let non_witness_data_size :=
    match txin with
    | Some txin => from_non_witness_data_size (base_size txin)
    | None => from_non_witness_data_size 41
    end in
  Some (to_vbytes_ceil
    (weight_add (from_witness_data_size estimated_witness_size) non_witness_data_size)).

(** ** [traits.rs] *)

(** [PoolManager]: what the other pallets call of the registration pool. *)
Class PoolManager (P : Type) := {
  get_refund_address : P -> AccountId -> option BoundedBitcoinAddress;
  get_vault_address : P -> AccountId -> option BoundedBitcoinAddress;
  get_bonded_descriptor : P -> BoundedBitcoinAddress -> option Descriptor;
  get_system_vault : P -> Z -> option BoundedBitcoinAddress;
  get_bitcoin_network : P -> Network;
  get_bitcoin_chain_id : P -> Z;
  get_service_state : P -> MigrationSequence;
  get_current_round : P -> Z;
  get_relay_executives : P -> Z -> list AccountId;
  add_migration_tx : H256 -> P -> P;
  remove_migration_tx : H256 -> P -> P;
  execute_migration_tx : H256 -> P -> P;
  process_set_refunds : P -> P;
  pool_replace_authority : AccountId -> AccountId -> M P DispatchError unit
}.
End Sizes.

(** [BlazeManager]: what the socket queue calls of Blaze. *)
Class BlazeManager `{!BtcLib, !PsbtLib} (B : Type) := {
  is_activated : B -> bool;
  bl_get_utxos : B -> list UtxoInfoWithSize;
  bl_clear_utxos : M B DispatchError unit;
  bl_lock_utxos : H256 -> list UtxoInfoWithSize -> M B DispatchError unit;
  bl_unlock_utxos : H256 -> M B DispatchError unit;
  bl_extract_utxos_from_psbt : Psbt -> M B DispatchError (list UtxoInfoWithSize);
  get_outbound_pool : B -> list UnboundedBytes;
  bl_clear_outbound_pool : list UnboundedBytes -> M B DispatchError unit;
  bl_try_fee_rate_finalization : BlockNumber -> M B DispatchError (option (Z * Z));
  bl_clear_fee_rates : M B DispatchError unit;
  bl_select_coins : list ScoredUtxo -> Z -> Z -> Z -> Z -> Z ->
    option (list UtxoInfoWithSize * SelectionStrategy);
  bl_handle_tolerance_counter : bool -> M B DispatchError unit;
  bl_ensure_activation : bool -> M B DispatchError unit;
  bl_replace_authority : AccountId -> AccountId -> M B DispatchError unit
}.

(** [SocketQueueManager] and [SocketVerifier]: what the registration pool and
    Blaze read of the socket queue. *)
Class SocketQueueManager (Q : Type) := {
  is_ready_for_migrate : Q -> bool;
  sq_verify_authority : Q -> AccountId -> InvalidTransaction + unit;
  sq_verify_legacy_authority : Q -> AccountId -> InvalidTransaction + unit;
  get_max_fee_rate : Q -> Z;
  (** [verify_socket_message(..).is_ok()] *)
  verify_socket_message : Q -> UnboundedBytes -> bool;
  get_max_socket_message_bytes : Q -> Z
}.
