(* ===== verification/RelayQueue.v ===== *)
(** * The relay queue of the cross-chain protocol

    [pallets/cccp-relay-queue]: relayers vote on transfers. A transfer is
    pending until a majority of the relayers voted for it, on flight until its
    outcome is known, and finalized for ever. Transfers of a registered asset
    are fast while the total in flight stays under the cap of the asset. *)

From S2P Require Import Prelude Errors Primitives Cccp.
Local Open Scope Z_scope.
Local Open Scope frame_scope.

(** ** Data and storage *)

Definition MAX_PENDING_TRANSFERS_PER_RELAYER : Z := 100.
Definition MAX_ON_FLIGHT_CAP : Z := 100000000 * 10 ^ 18.
Definition MAX_ASSET_INDEXES_PER_CALL : Z := 100.

Abbreviation ChainId := Z (only parsing).
Abbreviation AssetId := N (only parsing).
Abbreviation AssetIndexHash := N (only parsing).
Abbreviation SocketMessageHash := N (only parsing).
Abbreviation SourceTransactionId := N (only parsing).

Inductive TransferOption : Type := Fast | Standard.
#[export] Instance TransferOption_eq_dec : EqDecision TransferOption.
Proof. solve_decision. Defined.

Record AssetIndexInfo : Type := mkAssetIndexInfo { aii_hash : AssetIndexHash; aii_is_hookable : bool }.

Record AssetCapInfo : Type := mkAssetCapInfo { max_on_flight_cap : Balance; on_flight_cap : Balance }.
#[export] Instance AssetCapInfo_rebuild : Rebuild AssetCapInfo := fun r =>
  mkAssetCapInfo (max_on_flight_cap r) (on_flight_cap r).
#[export] Instance f_max_on_flight_cap : Field max_on_flight_cap := ltac:(derive_field).
#[export] Instance f_on_flight_cap : Field on_flight_cap := ltac:(derive_field).

Record TransferInfo : Type := mkTransferInfo {
  ti_amount : Balance;
  ti_sequence_id : U256;
  ti_src_chain_id : ChainId;
  ti_dst_chain_id : ChainId;
  ti_asset_index_hash : AssetIndexHash;
  ti_option : TransferOption;
  ti_socket_message : UnboundedBytes;
  ti_on_flight_voters : list AccountId
}.
#[export] Instance TransferInfo_rebuild : Rebuild TransferInfo := fun r =>
  mkTransferInfo (ti_amount r) (ti_sequence_id r) (ti_src_chain_id r) (ti_dst_chain_id r)
    (ti_asset_index_hash r) (ti_option r) (ti_socket_message r) (ti_on_flight_voters r).
#[export] Instance f_ti_option : Field ti_option := ltac:(derive_field).
#[export] Instance f_ti_on_flight_voters : Field ti_on_flight_voters := ltac:(derive_field).

Record TransferInfoWithTxId : Type := mkTransferInfoWithTxId {
  tx_amount : Balance;
  tx_sequence_id : U256;
  tx_src_chain_id : ChainId;
  tx_dst_chain_id : ChainId;
  tx_asset_index_hash : AssetIndexHash;
  tx_option : TransferOption;
  tx_socket_message : UnboundedBytes;
  tx_on_flight_voters : list AccountId;
  tx_finalization_voters : list AccountId;
  tx_src_tx_id : SourceTransactionId
}.
#[export] Instance TransferInfoWithTxId_rebuild : Rebuild TransferInfoWithTxId := fun r =>
  mkTransferInfoWithTxId (tx_amount r) (tx_sequence_id r) (tx_src_chain_id r) (tx_dst_chain_id r)
    (tx_asset_index_hash r) (tx_option r) (tx_socket_message r) (tx_on_flight_voters r)
    (tx_finalization_voters r) (tx_src_tx_id r).
#[export] Instance f_tx_finalization_voters : Field tx_finalization_voters := ltac:(derive_field).

Definition from_transfer_info (info : TransferInfo) (src_tx_id : SourceTransactionId)
    : TransferInfoWithTxId :=
  mkTransferInfoWithTxId (ti_amount info) (ti_sequence_id info) (ti_src_chain_id info)
    (ti_dst_chain_id info) (ti_asset_index_hash info) (ti_option info) (ti_socket_message info)
    (ti_on_flight_voters info) [] src_tx_id.

Record OnFlightPollSubmission : Type := mkOnFlightPollSubmission {
  ofs_authority_id : AccountId; ofs_msg : UnboundedBytes; ofs_msg_hash : H256; ofs_src_tx_id : H256
}.
Record FinalizePollSubmission : Type := mkFinalizePollSubmission {
  fps_authority_id : AccountId; fps_msg : UnboundedBytes
}.

Inductive RelayQueueEvent : Type :=
| EvTransferPolled (asset_index_hash : AssetIndexHash) (sequence_id : U256)
    (src_chain_id dst_chain_id : ChainId) (authority_id : AccountId) (option : TransferOption)
    (amount : Balance) (is_approved : bool)
| EvFinalizationPolled (asset_index_hash : AssetIndexHash) (sequence_id : U256)
    (src_chain_id dst_chain_id : ChainId) (authority_id : AccountId) (option : TransferOption)
    (amount : Balance) (is_finalized : bool)
| EvAssetAdded (asset_id : AssetId) (max_cap : Balance) (asset_indexes : list AssetIndexHash)
| EvAssetRemoved (asset_id : AssetId) (asset_indexes : list AssetIndexHash)
| EvAssetUpdated (asset_id : AssetId) (new_max_on_flight_cap : option Balance)
    (add_asset_indexes update_asset_indexes remove_asset_indexes : option (list AssetIndexHash))
| EvSocketSet (new : AccountId).

Record RqStorage : Type := mkRqStorage {
  Socket : option AccountId;
  AssetIndexesHookState : gmap N bool;
  AssetIndexes : gmap N AssetId;
  AssetCaps : gmap N AssetCapInfo;
  PendingTransfers : gmap (N * N) TransferInfo;
  PendingTransferCount : gmap N Z;
  OnFlightTransfers : gmap N TransferInfoWithTxId;
  FinalizedTransfers : gmap N TransferInfoWithTxId;
  RqEvents : list RelayQueueEvent
}.
#[export] Instance RqStorage_rebuild : Rebuild RqStorage := fun r =>
  mkRqStorage (Socket r) (AssetIndexesHookState r) (AssetIndexes r) (AssetCaps r)
    (PendingTransfers r) (PendingTransferCount r) (OnFlightTransfers r) (FinalizedTransfers r)
    (RqEvents r).
#[export] Instance f_Socket : Field Socket := ltac:(derive_field).
#[export] Instance f_AssetIndexesHookState : Field AssetIndexesHookState := ltac:(derive_field).
#[export] Instance f_AssetIndexes : Field AssetIndexes := ltac:(derive_field).
#[export] Instance f_AssetCaps : Field AssetCaps := ltac:(derive_field).
#[export] Instance f_PendingTransfers : Field PendingTransfers := ltac:(derive_field).
#[export] Instance f_PendingTransferCount : Field PendingTransferCount := ltac:(derive_field).
#[export] Instance f_OnFlightTransfers : Field OnFlightTransfers := ltac:(derive_field).
#[export] Instance f_FinalizedTransfers : Field FinalizedTransfers := ltac:(derive_field).
#[export] Instance f_RqEvents : Field RqEvents := ltac:(derive_field).

(** The libraries under the pallet: the ABI codec, cryptography, the codec of
    the signed tuple; and the chain id of the EVM. *)
Class RqConfig := {
  #[global] rq_abi :: EthAbi;
  #[global] rq_crypto :: Crypto;
  scale_encode : UnboundedBytes * H256 * H256 -> UnboundedBytes;
  evm_chain_id : Z
}.

(** The result of [Runner::view_call] *)
Record CallInfo : Type := mkCallInfo { ci_succeed : bool; ci_value : UnboundedBytes }.

(** What a call reads of the other pallets: the relay manager, the EVM (a call
    of a contract that changes no state) and the socket queue. *)
Record RqView {R : Type} : Type := mkRqView {
  rv_relayers : R;
  rv_view_call : AccountId -> UnboundedBytes -> option CallInfo;
  rv_max_socket_message_bytes : Z
}.
Arguments RqView R : clear implicits.

(** The monad of the pallet and its writes. *)
Abbreviation RQ A := (M RqStorage DispatchError A).
Definition qput {A} (f : RqStorage -> A) `{!Field f} (v : A) : RQ unit :=
  modify (fun s => s <| f := v |>).
Definition qmutate {A} (f : RqStorage -> A) `{!Field f} (g : A -> A) : RQ unit :=
  modify (fun s => s <| f ::= g |>).
Definition rq_deposit (e : RelayQueueEvent) : RQ unit := qmutate RqEvents (fun l => l ++ [e]).
(** [PendingTransferCount::<T>::get(who)]: a [ValueQuery] map *)
Definition pending_transfer_count (s : RqStorage) (who : AccountId) : Z :=
  default 0 (PendingTransferCount s !! who).
(** [PendingTransfers::<T>::iter_prefix(msg_hash)] *)
Definition pending_prefix (s : RqStorage) (msg_hash : SocketMessageHash)
    : list (N * N * TransferInfo) :=
  filter (fun kv => kv.1.1 = msg_hash) (map_to_list (PendingTransfers s)).
(** A parser's result, its error replaced by [e]. *)
Definition map_err {A} (o : outcome unit A) (e : RelayQueueError) : RQ A :=
  match o with Done a => ret a | Fail _ => fail (RelayQ e) | Trap => trap end.
(** [u128::try_from] of a [U256] *)
Definition u128_try_from (v : U256) : option Z := if v <? u128_modulus then Some v else None.

Section Pallet.
Context {R : Type} `{!Authorities R, !RqConfig}.
Implicit Types v : RqView R.

(** ** [impls.rs] *)

Definition hash_bytes (bytes : UnboundedBytes) : H256 := keccak_256 bytes.

Definition verify_authority v (authority_id : AccountId) : InvalidTransaction + unit :=
  if negb (au_is_authority (rv_relayers v) authority_id) then inl BadSigner else inr tt.

Definition try_get_request v (req_id : UnboundedBytes) : RQ RequestInfo :=
  let* s := gets id in
  let* socket := ok_or (Socket s) (RelayQ RqSocketDNE) in
  let calldata_hex := String.append SOCKET_GET_REQUEST_FUNCTION_SELECTOR (bytes2hex "" req_id) in
  let* calldata := ok_or (hex2bytes calldata_hex) (RelayQ RqInvalidRequestInfo) in
  match rv_view_call v socket calldata with
  | None => fail (RelayQ RqInvalidRequestInfo)
  | Some result =>
      if ci_succeed result then
        let return_data := ci_value result in
        if Z.of_nat (length return_data) <? 1088 then fail (RelayQ RqInvalidRequestInfo)
        else map_err (RequestInfo_try_from return_data) RqInvalidRequestInfo
      else fail (RelayQ RqInvalidRequestInfo)
  end.

Definition validate_and_parse_socket_message (message : UnboundedBytes)
    (expected_status_check : SocketMessage -> bool) : RQ SocketMessage :=
  do* ensure (negb (bool_decide (message = []))) (RelayQ RqEmptySubmission) in
  let* msg := map_err (SocketMessage_try_from message) RqInvalidSocketMessage in
  do* ensure (expected_status_check msg) (RelayQ RqMessageStatusMismatch) in
  ret msg.

Definition get_asset_info (s : RqStorage) (asset_index_hash : AssetIndexHash)
    : option (AssetId * AssetCapInfo) :=
  asset_id ← AssetIndexes s !! asset_index_hash;
  asset_cap ← AssetCaps s !! asset_id;
  Some (asset_id, asset_cap).

Definition validate_on_chain_existence v (msg : SocketMessage) : RQ RequestInfo :=
  let msg_hash := hash_bytes (UserRequest_encode (mkUserRequest (sm_ins_code msg) (sm_params msg))) in
  let* request_info := try_get_request v (encode_req_id msg) in
  do* ensure (is_msg_hash request_info msg_hash) (RelayQ RqOnChainExistenceMismatch) in
  ret request_info.

Definition add_voter_to_list (voters : list AccountId) (authority_id : AccountId)
    : RQ (list AccountId) :=
  do* ensure (negb (bool_decide (authority_id ∈ voters))) (RelayQ RqAlreadyVoted) in
  ok_or (try_push MAX_AUTHORITIES authority_id voters) (RelayQ RqOutOfRange).

Definition determine_transfer_option (asset_cap : AssetCapInfo) (amount : U256) : RQ TransferOption :=
  let* cap_after := ok_or (u256_checked_add (on_flight_cap asset_cap) amount) (RelayQ RqOutOfRange) in
  if max_on_flight_cap asset_cap <? cap_after then ret Standard else ret Fast.

Definition update_fast_transfer_cap (asset_id : AssetId) (asset_cap : AssetCapInfo) (amount : U256)
    (is_addition : bool) : RQ AssetCapInfo :=
  let current_cap := on_flight_cap asset_cap in
  let* new_cap :=
    ok_or (if is_addition then u256_checked_add current_cap amount
           else u256_checked_sub current_cap amount) (RelayQ RqOutOfRange) in
  let* new_cap := ok_or (u128_try_from new_cap) (RelayQ RqOutOfRange) in
  let asset_cap := asset_cap <| on_flight_cap := new_cap |> in
  do* qmutate AssetCaps <[asset_id := asset_cap]> in
  ret asset_cap.

(** [position], [remove(pos)] and [try_insert(pos, new)] on a list of voters *)
Definition replace_voter (old new : AccountId) (voters : list AccountId) : list AccountId :=
  match list_find (fun voter => voter = old) voters with
  | Some (pos, _) =>
      let voters' := delete pos voters in
      if Z.of_nat (length voters') <? MAX_AUTHORITIES
      then take pos voters' ++ new :: drop pos voters'
      else voters'
  | None => voters
  end.

Definition replace_authority (old new : AccountId) (s : RqStorage) : RqStorage :=
  let old_count := pending_transfer_count s old in
  let s := s <| PendingTransferCount ::= delete old |> in
  let s := if 0 <? old_count then s <| PendingTransferCount ::= <[new := old_count]> |> else s in
  let s := s <| PendingTransfers ::=
             fmap (fun info => info <| ti_on_flight_voters ::= replace_voter old new |>) |> in
  s <| OnFlightTransfers ::=
    fmap (fun info => info <| tx_finalization_voters ::= replace_voter old new |>) |>.

(** ** The polls *)

(** The transfer is approved: the counts of the relayers that opened the
    entries of this message, which are cleared, and the transfer on flight. *)
Definition decrease_pending_count (info : TransferInfo) : RQ unit :=
  match head (ti_on_flight_voters info) with
  | Some submitter =>
      let* s := gets id in
      qmutate PendingTransferCount <[submitter := sat_sub (pending_transfer_count s submitter) 1]>
  | None => ret tt
  end.
Definition approve_transfer (msg_hash src_tx_id : H256) (transfer_info : TransferInfo)
    (asset_info : option (AssetId * AssetCapInfo)) (option : TransferOption) (amount : Balance)
    : RQ unit :=
  do* match asset_info with
      | Some (asset_id, asset_cap) =>
          if bool_decide (option = Fast) then
            do* update_fast_transfer_cap asset_id asset_cap amount true in ret tt
          else ret tt
      | None => ret tt
      end in
  let* s := gets id in
  do* for_each (pending_prefix s msg_hash) (fun kv => decrease_pending_count kv.2) in
  do* qmutate PendingTransfers (filter (fun kv => kv.1.1 <> msg_hash)) in
  qmutate OnFlightTransfers <[msg_hash := from_transfer_info transfer_info src_tx_id]>.

(** The vote is kept and the transfer stays pending. *)
Definition keep_pending (authority_id : AccountId) (msg_hash src_tx_id : H256)
    (transfer_info : TransferInfo) (is_new_entry : bool) : RQ unit :=
  do* (if is_new_entry then
         let* s := gets id in
         let count := pending_transfer_count s authority_id in
         qmutate PendingTransferCount <[authority_id := u32_add count 1]>
       else ret tt) in
  qmutate PendingTransfers <[(msg_hash, src_tx_id) := transfer_info]>.

(** The direction of a message decides what the Socket contract has to
    answer. *)
Definition validate_requested v (parsed_msg : SocketMessage) : RQ unit :=
  if is_outbound parsed_msg (evm_chain_id mod u32_modulus) then
    let* request_info := validate_on_chain_existence v parsed_msg in
    let* requested := expect (ri_is_requested request_info) in
    ensure requested (RelayQ RqMessageStatusMismatch)
  else
    let* request_info := try_get_request v (encode_req_id parsed_msg) in
    let* unregistered := expect (status_is request_info 0) in
    ensure unregistered (RelayQ RqMessageStatusMismatch).

Definition on_flight_poll v (origin : Origin) (submission : OnFlightPollSubmission) : RQ unit :=
  do* ensure_none origin in
  let '(mkOnFlightPollSubmission authority_id msg msg_hash src_tx_id) := submission in
  let* parsed_msg := validate_and_parse_socket_message msg is_requested in
  do* ensure (N.eqb msg_hash (hash_bytes msg)) (RelayQ RqMessageHashMismatch) in
  do* ensure (N.eqb msg_hash (hash_bytes (SocketMessage_encode parsed_msg)))
        (RelayQ RqMessageHashMismatch) in
  let sequence_id := rid_sequence (sm_req_id parsed_msg) in
  let* amount := ok_or (u128_try_from (tp_amount (sm_params parsed_msg))) (RelayQ RqOutOfRange) in
  let* src_chain_id :=
    ok_or (u32_try_from_be_bytes (rid_chain (sm_req_id parsed_msg))) (RelayQ RqOutOfRange) in
  let* dst_chain_id :=
    ok_or (u32_try_from_be_bytes (ins_chain (sm_ins_code parsed_msg))) (RelayQ RqOutOfRange) in
  let* asset_index_hash := expect (H256_from_slice (tp_token_idx0 (sm_params parsed_msg))) in
  let* s := gets id in
  let asset_info := get_asset_info s asset_index_hash in
  do* ensure (negb (bool_decide (is_Some (OnFlightTransfers s !! msg_hash))))
        (RelayQ RqTransferAlreadyOnFlight) in
  do* ensure (negb (bool_decide (is_Some (FinalizedTransfers s !! msg_hash))))
        (RelayQ RqTransferAlreadyFinalized) in
  let is_new_entry := negb (bool_decide (is_Some (PendingTransfers s !! (msg_hash, src_tx_id)))) in
  do* (if is_new_entry then
         ensure (pending_transfer_count s authority_id <? MAX_PENDING_TRANSFERS_PER_RELAYER)
           (RelayQ RqPendingTransferCapExceeded)
       else ret tt) in
  let* option :=
    match asset_info with
    | Some (_, asset_cap) => determine_transfer_option asset_cap (tp_amount (sm_params parsed_msg))
    | None => ret Standard
    end in
  do* validate_requested v parsed_msg in
  let* transfer_info :=
    match PendingTransfers s !! (msg_hash, src_tx_id) with
    | Some pending =>
        let* voters := add_voter_to_list (ti_on_flight_voters pending) authority_id in
        ret (pending <| ti_on_flight_voters := voters |> <| ti_option := option |>)
    | None =>
        let* voters := ok_or (try_push MAX_AUTHORITIES authority_id []) (RelayQ RqOutOfRange) in
        ret (mkTransferInfo amount sequence_id src_chain_id dst_chain_id asset_index_hash option msg
               voters)
    end in
  let is_approved :=
    au_majority (rv_relayers v) <=? Z.of_nat (length (ti_on_flight_voters transfer_info)) in
  do* (if is_approved then
         approve_transfer msg_hash src_tx_id transfer_info asset_info option amount
       else keep_pending authority_id msg_hash src_tx_id transfer_info is_new_entry) in
  rq_deposit (EvTransferPolled asset_index_hash sequence_id src_chain_id dst_chain_id authority_id
    option amount is_approved).

(** The transfer moves to the finalized ones and frees its part of the cap. *)
Definition finalize_transfer (msg_hash : H256) (transfer : TransferInfoWithTxId)
    (asset_info : option (AssetId * AssetCapInfo)) (amount : U256) : RQ unit :=
  let is_fast_transfer := bool_decide (tx_option transfer = Fast) in
  do* qmutate OnFlightTransfers (delete msg_hash) in
  do* qmutate FinalizedTransfers <[msg_hash := transfer]> in
  if is_fast_transfer then
    match asset_info with
    | Some (asset_id, asset_cap) =>
        do* update_fast_transfer_cap asset_id asset_cap amount false in ret tt
    | None => ret tt
    end
  else ret tt.

(** [msg_cloned.status = U256::from(1)] *)
Definition as_requested (m : SocketMessage) : SocketMessage :=
  mkSocketMessage (sm_req_id m) 1 (sm_ins_code m) (sm_params m).

Definition finalize_poll v (origin : Origin) (submission : FinalizePollSubmission) : RQ unit :=
  do* ensure_none origin in
  let '(mkFinalizePollSubmission authority_id msg) := submission in
  let* parsed_msg :=
    validate_and_parse_socket_message msg (fun msg =>
      is_committed msg || is_rollbacked msg || is_accepted msg || is_rejected msg) in
  let sequence_id := rid_sequence (sm_req_id parsed_msg) in
  let* src_chain_id :=
    ok_or (u32_try_from_be_bytes (rid_chain (sm_req_id parsed_msg))) (RelayQ RqOutOfRange) in
  let* dst_chain_id :=
    ok_or (u32_try_from_be_bytes (ins_chain (sm_ins_code parsed_msg))) (RelayQ RqOutOfRange) in
  let* asset_index_hash := expect (H256_from_slice (tp_token_idx0 (sm_params parsed_msg))) in
  let* s := gets id in
  let asset_info := get_asset_info s asset_index_hash in
  let msg_hash := hash_bytes (SocketMessage_encode (as_requested parsed_msg)) in
  do* ensure (negb (bool_decide (is_Some (FinalizedTransfers s !! msg_hash))))
        (RelayQ RqTransferAlreadyFinalized) in
  let* on_flight_transfer := ok_or (OnFlightTransfers s !! msg_hash) (RelayQ RqTransferNotOnFlight) in
  let* request_info := validate_on_chain_existence v parsed_msg in
  let* voters := add_voter_to_list (tx_finalization_voters on_flight_transfer) authority_id in
  let transfer := on_flight_transfer <| tx_finalization_voters := voters |> in
  let amount := tp_amount (sm_params parsed_msg) in
  let polled is_finalized :=
    rq_deposit (EvFinalizationPolled asset_index_hash sequence_id src_chain_id dst_chain_id
      authority_id (tx_option transfer) (tx_amount transfer) is_finalized) in
  if is_outbound parsed_msg (evm_chain_id mod u32_modulus) then
    let* committed := expect (ri_is_committed request_info) in
    let* rollbacked := expect (ri_is_rollbacked request_info) in
    do* ensure ((committed && is_committed parsed_msg) || (rollbacked && is_rollbacked parsed_msg))
          (RelayQ RqMessageStatusMismatch) in
    do* finalize_transfer msg_hash transfer asset_info amount in
    polled true
  else
    let* accepted := expect (ri_is_accepted request_info) in
    let* rejected := expect (ri_is_rejected request_info) in
    do* ensure ((accepted && (is_accepted parsed_msg || is_committed parsed_msg))
                || (rejected && (is_rejected parsed_msg || is_rollbacked parsed_msg)))
          (RelayQ RqMessageStatusMismatch) in
    if au_majority (rv_relayers v) <=? Z.of_nat (length (tx_finalization_voters transfer)) then
      do* finalize_transfer msg_hash transfer asset_info amount in
      polled true
    else
      do* qmutate OnFlightTransfers <[msg_hash := transfer]> in
      polled false.

(** ** The administration of assets *)

Definition set_socket (origin : Origin) (new : AccountId) : RQ unit :=
  do* ensure_root origin in
  let* s := gets id in
  do* match Socket s with
      | Some old => ensure (negb (N.eqb old new)) (RelayQ RqNoWritingSameValue)
      | None => ret tt
      end in
  do* qput Socket (Some new) in
  rq_deposit (EvSocketSet new).

(** [for x in l { ensure!(seen.insert(x), DuplicateAssetIndex) }] *)
Definition ensure_no_duplicates (l : list AssetIndexHash) : RQ unit :=
  do* fold_each l (∅ : gset N) (fun seen x =>
        do* ensure (negb (bool_decide (x ∈ seen))) (RelayQ RqDuplicateAssetIndex) in
        ret ({[x]} ∪ seen)) in
  ret tt.
Definition ensure_few (n : nat) : RQ unit :=
  ensure (Z.of_nat n <=? MAX_ASSET_INDEXES_PER_CALL) (RelayQ RqTooManyAssetIndexes).

Definition add_asset (origin : Origin) (asset_id : AssetId) (max_cap : Balance)
    (asset_indexes : list AssetIndexInfo) : RQ unit :=
  do* ensure_root origin in
  do* ensure (negb (bool_decide (length asset_indexes = O))) (RelayQ RqEmptyAssetIndexes) in
  do* ensure_few (length asset_indexes) in
  let* max_cap_u128 := ok_or (u128_try_from max_cap) (RelayQ RqOutOfRange) in
  do* ensure (max_cap_u128 <=? MAX_ON_FLIGHT_CAP) (RelayQ RqCapTooLarge) in
  do* ensure_no_duplicates (aii_hash <$> asset_indexes) in
  let* s := gets id in
  do* ensure (negb (bool_decide (is_Some (AssetCaps s !! asset_id)))) (RelayQ RqAssetAlreadyExists) in
  do* for_each asset_indexes (fun i =>
        ensure (negb (bool_decide (is_Some (AssetIndexes s !! aii_hash i))))
          (RelayQ RqAssetIndexAlreadyExists)) in
  do* qmutate AssetCaps <[asset_id := mkAssetCapInfo max_cap 0]> in
  do* for_each asset_indexes (fun i => qmutate AssetIndexes <[aii_hash i := asset_id]>) in
  do* for_each asset_indexes (fun i =>
        qmutate AssetIndexesHookState <[aii_hash i := aii_is_hookable i]>) in
  rq_deposit (EvAssetAdded asset_id max_cap (aii_hash <$> asset_indexes)).

(** [OnFlightTransfers::iter().any(|(_, t)| set.contains(&t.asset_index_hash))] *)
Definition has_active_transfers (s : RqStorage) (indexes : list AssetIndexHash) : bool :=
  existsb (fun kv => bool_decide (tx_asset_index_hash kv.2 ∈ indexes))
    (map_to_list (OnFlightTransfers s)).
Definition remove_index (i : AssetIndexHash) : RQ unit :=
  do* qmutate AssetIndexes (delete i) in
  qmutate AssetIndexesHookState (delete i).

Definition remove_asset (origin : Origin) (asset_id : AssetId) : RQ unit :=
  do* ensure_root origin in
  let* s := gets id in
  do* ensure (bool_decide (is_Some (AssetCaps s !! asset_id))) (RelayQ RqAssetDNE) in
  let asset_indexes := (filter (fun kv => kv.2 = asset_id) (map_to_list (AssetIndexes s))).*1 in
  do* ensure (negb (has_active_transfers s asset_indexes)) (RelayQ RqAssetHasActiveTransfers) in
  do* qmutate AssetCaps (delete asset_id) in
  do* for_each asset_indexes remove_index in
  rq_deposit (EvAssetRemoved asset_id asset_indexes).

(** [if let Some(ref x) = o { f(x)? }] *)
Definition if_some {A} (o : option A) (f : A -> RQ unit) : RQ unit :=
  match o with Some x => f x | None => ret tt end.

(** The new cap of [update_asset] *)
Definition update_max_cap (asset_id : AssetId) (asset_cap : AssetCapInfo) (new_cap : Balance)
    : RQ unit :=
  if max_on_flight_cap asset_cap =? new_cap then fail (RelayQ RqNoWritingSameValue)
  else
    do* ensure (0 <? new_cap) (RelayQ RqInvalidMaxCap) in
    let* max_cap_u128 := ok_or (u128_try_from new_cap) (RelayQ RqOutOfRange) in
    do* ensure (max_cap_u128 <=? MAX_ON_FLIGHT_CAP) (RelayQ RqCapTooLarge) in
    do* ensure (on_flight_cap asset_cap <=? new_cap) (RelayQ RqCapReductionBelowCurrentUsage) in
    qmutate AssetCaps <[asset_id := asset_cap <| max_on_flight_cap := new_cap |>]>.

Definition add_index (asset_id : AssetId) (i : AssetIndexInfo) : RQ unit :=
  let* s := gets id in
  do* ensure (negb (bool_decide (is_Some (AssetIndexes s !! aii_hash i))))
        (RelayQ RqAssetIndexAlreadyExists) in
  do* ensure (negb (bool_decide (is_Some (AssetIndexesHookState s !! aii_hash i))))
        (RelayQ RqAssetIndexAlreadyExists) in
  do* qmutate AssetIndexes <[aii_hash i := asset_id]> in
  qmutate AssetIndexesHookState <[aii_hash i := aii_is_hookable i]>.

Definition update_index (i : AssetIndexInfo) : RQ unit :=
  let* s := gets id in
  do* ensure (bool_decide (is_Some (AssetIndexes s !! aii_hash i))) (RelayQ RqAssetIndexDNE) in
  do* ensure (bool_decide (is_Some (AssetIndexesHookState s !! aii_hash i)))
        (RelayQ RqAssetIndexDNE) in
  qmutate AssetIndexesHookState <[aii_hash i := aii_is_hookable i]>.

Definition remove_indexes (asset_id : AssetId) (indexes : list AssetIndexHash) : RQ unit :=
  do* for_each indexes (fun i =>
        let* s := gets id in
        let* found_asset_id := ok_or (AssetIndexes s !! i) (RelayQ RqAssetIndexDNE) in
        ensure (N.eqb found_asset_id asset_id) (RelayQ RqAssetIndexNotBelongToAsset)) in
  let* s := gets id in
  do* ensure (negb (has_active_transfers s indexes)) (RelayQ RqAssetHasActiveTransfers) in
  for_each indexes remove_index.

(** No index is both added or updated and removed. *)
Definition ensure_no_conflict (kept : list AssetIndexInfo) (removed : list AssetIndexHash) : RQ unit :=
  for_each kept (fun i =>
    ensure (negb (bool_decide (aii_hash i ∈ removed))) (RelayQ RqConflictingAssetIndexOperation)).

Definition update_asset (origin : Origin) (asset_id : AssetId) (new_max_on_flight_cap : option Balance)
    (add_asset_indexes update_asset_indexes : option (list AssetIndexInfo))
    (remove_asset_indexes : option (list AssetIndexHash)) : RQ unit :=
  do* ensure_root origin in
  do* ensure (bool_decide (is_Some new_max_on_flight_cap)
              || bool_decide (is_Some add_asset_indexes)
              || bool_decide (is_Some update_asset_indexes)
              || bool_decide (is_Some remove_asset_indexes)) (RelayQ RqEmptySubmission) in
  do* if_some add_asset_indexes (fun l => ensure_few (length l)) in
  do* if_some update_asset_indexes (fun l => ensure_few (length l)) in
  do* if_some remove_asset_indexes (fun l => ensure_few (length l)) in
  do* if_some add_asset_indexes (fun l => ensure_no_duplicates (aii_hash <$> l)) in
  do* if_some update_asset_indexes (fun l => ensure_no_duplicates (aii_hash <$> l)) in
  do* if_some remove_asset_indexes ensure_no_duplicates in
  do* if_some add_asset_indexes (fun add => if_some remove_asset_indexes (ensure_no_conflict add)) in
  do* if_some update_asset_indexes (fun upd => if_some remove_asset_indexes (ensure_no_conflict upd)) in
  let* s := gets id in
  let* asset_cap := ok_or (AssetCaps s !! asset_id) (RelayQ RqAssetDNE) in
  do* if_some new_max_on_flight_cap (update_max_cap asset_id asset_cap) in
  do* if_some add_asset_indexes (fun l => for_each l (add_index asset_id)) in
  do* if_some update_asset_indexes (fun l => for_each l update_index) in
  do* if_some remove_asset_indexes (remove_indexes asset_id) in
  rq_deposit (EvAssetUpdated asset_id new_max_on_flight_cap (fmap (M:=list) aii_hash <$> add_asset_indexes)
    (fmap (M:=list) aii_hash <$> update_asset_indexes) remove_asset_indexes).

(** ** Unsigned calls *)

Inductive RqCall : Type :=
| CallOnFlightPoll (submission : OnFlightPollSubmission) (signature : Signature)
| CallFinalizePoll (submission : FinalizePollSubmission) (signature : Signature)
| CallOther.

(** [keccak_256(prefix.as_bytes()).as_slice()] followed by the payload *)
Definition signed_message (prefix : string) (payload : UnboundedBytes) : UnboundedBytes :=
  to_be_bytes 32 (Z.of_N (keccak_256 (String.list_byte_of_string prefix))) ++ payload.

Definition validate_unsigned v (call : RqCall) : InvalidTransaction + ValidTransaction (AccountId * Signature) :=
  match call with
  | CallOnFlightPoll (mkOnFlightPollSubmission authority_id msg msg_hash src_tx_id) signature =>
      if rv_max_socket_message_bytes v <? Z.of_nat (length msg) then inl ExhaustsResources
      else match verify_authority v authority_id with
           | inl e => inl e
           | inr _ =>
               let message := signed_message "OnFlightPoll" (scale_encode (msg, msg_hash, src_tx_id)) in
               if negb (verify signature message authority_id) then inl BadProof
               else inr (mkValidTransaction _ "OnFlightPoll" priority_max (authority_id, signature) true)
           end
  | CallFinalizePoll (mkFinalizePollSubmission authority_id msg) signature =>
      match verify_authority v authority_id with
      | inl e => inl e
      | inr _ =>
          let message := signed_message "FinalizePoll" msg in
          if negb (verify signature message authority_id) then inl BadProof
          else inr (mkValidTransaction _ "FinalizePoll" priority_max (authority_id, signature) true)
      end
  | CallOther => inl InvalidCall
  end.

(** An unsigned extrinsic: the call runs when it is valid. *)
Definition apply_unsigned v (call : RqCall) (s : RqStorage) : option (outcome DispatchError unit * RqStorage) :=
  match validate_unsigned v call with
  | inl _ => None
  | inr _ =>
      match call with
      | CallOnFlightPoll submission _ => Some (dispatch (on_flight_poll v NoneOrigin submission) s)
      | CallFinalizePoll submission _ => Some (dispatch (finalize_poll v NoneOrigin submission) s)
      | CallOther => None
      end
  end.
End Pallet.
