(* ===== verification/RegistrationPool.v ===== *)
(** * The Bitcoin registration pool

    [pallets/btc-registration-pool]: users register a refund address and get a
    vault address, a multi-signature address whose keys the relay executives
    submit; the chain has a system vault per round, and a migration moves it
    from one round to the next. *)

From S2P Require Import Prelude Errors Primitives Cccp BtcRelay.
Local Open Scope Z_scope.
Local Open Scope frame_scope.

(** ** Data and storage *)

Definition ADDRESS_U64 : N := 256.
Abbreviation PoolRound := Z (only parsing).

Record BitcoinRelayTarget : Type := mkBitcoinRelayTarget {
  rt_refund_address : BoundedBitcoinAddress; rt_vault : MultiSigAccount
}.
#[export] Instance BitcoinRelayTarget_rebuild : Rebuild BitcoinRelayTarget := fun r =>
  mkBitcoinRelayTarget (rt_refund_address r) (rt_vault r).
#[export] Instance f_rt_refund_address : Field rt_refund_address := ltac:(derive_field).
#[export] Instance f_rt_vault : Field rt_vault := ltac:(derive_field).

Definition new_relay_target (refund_address : BoundedBitcoinAddress) (m n : Z) : BitcoinRelayTarget :=
  mkBitcoinRelayTarget refund_address (new_multi_sig m n).
Definition set_vault_address (address : BoundedBitcoinAddress) (t : BitcoinRelayTarget)
    : BitcoinRelayTarget := t <| rt_vault ::= set_address address |>.
Definition set_refund_address (address : BoundedBitcoinAddress) (t : BitcoinRelayTarget)
    : BitcoinRelayTarget := t <| rt_refund_address := address |>.

Record VaultKeySubmission : Type := mkVaultKeySubmission {
  vks_authority_id : AccountId; vks_who : AccountId; vks_pub_key : Public; vks_pool_round : PoolRound
}.
Record VaultKeyPreSubmission : Type := mkVaultKeyPreSubmission {
  vkp_authority_id : AccountId; vkp_pub_keys : list Public; vkp_pool_round : PoolRound
}.
Record SetRefundsApproval : Type := mkSetRefundsApproval {
  sra_authority_id : AccountId;
  sra_refund_sets : list (AccountId * BoundedBitcoinAddress);
  sra_pool_round : PoolRound;
  sra_deadline : BlockNumber
}.
Record SetRefundState : Type := mkSetRefundState {
  srs_old : BoundedBitcoinAddress; srs_new : BoundedBitcoinAddress
}.

Inductive RegistrationPoolEvent : Type :=
| EvSystemVaultPending
| EvVaultPending (who : AccountId) (refund_address : BoundedBitcoinAddress)
| EvVaultGenerated (who : AccountId) (refund_address vault_address : BoundedBitcoinAddress)
| EvRefundSetRequested (who : AccountId) (old new : BoundedBitcoinAddress)
| EvRefundSetApproved (who : AccountId) (old new : BoundedBitcoinAddress)
| EvRefundSetDenied (who : AccountId) (old new : BoundedBitcoinAddress)
| EvRoundDropped (round : PoolRound)
| EvMigrationStarted
| EvMigrationCompleted
| EvMultiSigRatioSet (old new : Z)
| EvVaultKeySubmitted (who : AccountId) (pub_key : Public)
| EvVaultKeyPresubmitted (authority_id : AccountId) (len : Z).

Record RpStorage : Type := mkRpStorage {
  CurrentRound : PoolRound;
  RelayExecutives : gmap Z (list AccountId);
  ServiceState : MigrationSequence;
  SystemVault : gmap Z MultiSigAccount;
  RegistrationPool : gmap (Z * N) BitcoinRelayTarget;
  BondedVault : gmap (Z * list byte) AccountId;
  BondedRefund : gmap (Z * list byte) (list AccountId);
  BondedPubKey : gmap (Z * N) AccountId;
  BondedDescriptor : gmap (Z * list byte) UnboundedBytes;
  MultiSigRatio : Z;
  PreSubmittedPubKeys : gmap (Z * N) (gset N);
  MaxPreSubmission : Z;
  OngoingVaultMigration : gmap N bool;
  PendingSetRefunds : gmap (Z * N) SetRefundState;
  RpEvents : list RegistrationPoolEvent
}.
#[export] Instance RpStorage_rebuild : Rebuild RpStorage := fun r =>
  mkRpStorage (CurrentRound r) (RelayExecutives r) (ServiceState r) (SystemVault r)
    (RegistrationPool r) (BondedVault r) (BondedRefund r) (BondedPubKey r) (BondedDescriptor r)
    (MultiSigRatio r) (PreSubmittedPubKeys r) (MaxPreSubmission r) (OngoingVaultMigration r)
    (PendingSetRefunds r) (RpEvents r).
#[export] Instance f_CurrentRound : Field CurrentRound := ltac:(derive_field).
#[export] Instance f_RelayExecutives : Field RelayExecutives := ltac:(derive_field).
#[export] Instance f_ServiceState : Field ServiceState := ltac:(derive_field).
#[export] Instance f_SystemVault : Field SystemVault := ltac:(derive_field).
#[export] Instance f_RegistrationPool : Field RegistrationPool := ltac:(derive_field).
#[export] Instance f_BondedVault : Field BondedVault := ltac:(derive_field).
#[export] Instance f_BondedRefund : Field BondedRefund := ltac:(derive_field).
#[export] Instance f_BondedPubKey : Field BondedPubKey := ltac:(derive_field).
#[export] Instance f_BondedDescriptor : Field BondedDescriptor := ltac:(derive_field).
#[export] Instance f_MultiSigRatio : Field MultiSigRatio := ltac:(derive_field).
#[export] Instance f_PreSubmittedPubKeys : Field PreSubmittedPubKeys := ltac:(derive_field).
#[export] Instance f_MaxPreSubmission : Field MaxPreSubmission := ltac:(derive_field).
#[export] Instance f_OngoingVaultMigration : Field OngoingVaultMigration := ltac:(derive_field).
#[export] Instance f_PendingSetRefunds : Field PendingSetRefunds := ltac:(derive_field).
#[export] Instance f_RpEvents : Field RpEvents := ltac:(derive_field).

(** The [Config] of the pallet: libraries and constants. A [Percent] is its
    number of hundredths; [mul_ceil] is of [sp_arithmetic]. *)
Class RpConfig := {
  #[global] rp_lib :: BtcLib;
  #[global] rp_crypto :: Crypto;
  percent_mul_ceil : Z -> Z -> Z;
  default_multi_sig_ratio : Z;
  bitcoin_network : Network;
  bitcoin_chain_id : Z
}.

(** What a call reads of the other pallets and of the chain: the relay
    executives (the members of a membership pallet, sorted), the socket queue
    and the number of the block. *)
Record RpView {Q : Type} : Type := mkRpView {
  pv_executives : list AccountId; pv_socket_queue : Q; pv_now : BlockNumber
}.
Arguments RpView Q : clear implicits.

(** The monad of the pallet and its writes. *)
Abbreviation RPool A := (M RpStorage DispatchError A).
Definition pput {A} (f : RpStorage -> A) `{!Field f} (v : A) : RPool unit :=
  modify (fun s => s <| f := v |>).
Definition pmutate {A} (f : RpStorage -> A) `{!Field f} (g : A -> A) : RPool unit :=
  modify (fun s => s <| f ::= g |>).
Definition rp_deposit (e : RegistrationPoolEvent) : RPool unit := pmutate RpEvents (fun l => l ++ [e]).
(** The [ValueQuery] maps *)
Definition bonded_refund (s : RpStorage) (k : Z * list byte) : list AccountId :=
  default [] (BondedRefund s !! k).
Definition presubmitted (s : RpStorage) (k : Z * N) : gset N := default ∅ (PreSubmittedPubKeys s !! k).
(** [BondedRefund::<T>::mutate(round, address, g)] *)
Definition mutate_refund (k : Z * list byte) (g : list AccountId -> list AccountId) : RPool unit :=
  let* s := gets id in pmutate BondedRefund <[k := g (bonded_refund s k)]>.
(** [contains_key] *)
Definition has `{Countable K} {V} (m : gmap K V) (k : K) : bool := bool_decide (is_Some (m !! k)).
(** [iter_prefix(round)] and [clear_prefix(round)] of a double map *)
Definition iter_prefix `{Countable K} {V} (m : gmap (Z * K) V) (round : Z) : list (K * V) :=
  (fun kv => (kv.1.2, kv.2)) <$> filter (fun kv => kv.1.1 = round) (map_to_list m).
Definition clear_prefix `{Countable K} {V} (round : Z) (m : gmap (Z * K) V) : gmap (Z * K) V :=
  filter (fun kv => kv.1.1 <> round) m.
(** [BTreeSet::pop_first] *)
Definition set_pop_first (s : gset N) : option N * gset N :=
  match acc_elements s with
  | [] => (None, s)
  | k :: _ => (Some k, s ∖ {[k]})
  end.

Section Pallet.
Context {Q : Type} `{!SocketQueueManager Q, !RpConfig}.
Implicit Types v : RpView Q.

(** ** [impls.rs]: vaults *)

Definition is_executive v (a : AccountId) : bool := bool_decide (a ∈ pv_executives v).
Definition get_n v : Z := Z.of_nat (length (pv_executives v)) mod u32_modulus.
Definition get_m v (s : RpStorage) : Z := percent_mul_ceil (MultiSigRatio s) (get_n v).

Definition sort_pub_keys (raw_pub_keys : list Public) : option (list PublicKey) :=
  pub_keys ← mapM PublicKey_from_slice raw_pub_keys;
  Some (stable_sort PublicKey_leb pub_keys).

Definition generate_descriptor (m : Z) (raw_pub_keys : list Public) : option Descriptor :=
  keys ← sort_pub_keys raw_pub_keys;
  desc ← new_wsh_sortedmulti m keys;
  if sanity_check desc then Some desc else None.

Definition generate_vault_address v (raw_pub_keys : list Public)
    : RPool (BoundedBitcoinAddress * UnboundedBytes) :=
  let* s := gets id in
  let* desc := ok_or (generate_descriptor (get_m v s) raw_pub_keys) (RegPool RpDescriptorGeneration) in
  let* text := ok_or (descriptor_address desc bitcoin_network) (RegPool RpDescriptorGeneration) in
  let* address := ok_or (bounded_address text) (RegPool RpInvalidBitcoinAddress) in
  ret (address, descriptor_to_string desc).

Definition try_bond_vault_address v (vault : MultiSigAccount) (refund_address : BoundedBitcoinAddress)
    (who : AccountId) (current_round : PoolRound) : RPool MultiSigAccount :=
  let* '(vault_address, descriptor) := generate_vault_address v (pub_keys vault) in
  if bool_decide (vault_address = refund_address) then fail (RegPool RpAddressAlreadyRegistered)
  else
    let* s := gets id in
    if has (BondedRefund s) (current_round, vault_address) then
      fail (RegPool RpAddressAlreadyRegistered)
    else
      let vault := set_address vault_address vault in
      let vault := set_descriptor descriptor vault in
      do* pmutate BondedVault <[(current_round, vault_address) := who]> in
      do* pmutate BondedDescriptor <[(current_round, vault_address) := descriptor]> in
      do* rp_deposit (EvVaultGenerated who refund_address vault_address) in
      ret vault.

Definition get_checked_bitcoin_address (address : UnboundedBytes) : RPool BoundedBitcoinAddress :=
  let* raw_address := ok_or (from_utf8 address) (RegPool RpInvalidBitcoinAddress) in
  let* unchecked_address := ok_or (address_from_str raw_address) (RegPool RpInvalidBitcoinAddress) in
  let* checked_address :=
    ok_or (require_network unchecked_address bitcoin_network) (RegPool RpInvalidBitcoinAddress) in
  ok_or (bounded_address (address_to_string checked_address)) (RegPool RpInvalidBitcoinAddress).

(** [ensure!(ServiceState::<T>::get() == MigrationSequence::Normal, ..)] *)
Definition ensure_normal : RPool unit :=
  let* s := gets id in
  ensure (bool_decide (ServiceState s = Normal)) (RegPool RpUnderMaintenance).

(** The address of the precompile stands for the system vault. *)
Definition precompile : AccountId := ADDRESS_U64.

(** ** The calls of users *)

Definition request_set_refund (origin : Origin) (new : UnboundedBytes) : RPool unit :=
  do* ensure_normal in
  let* who := ensure_signed origin in
  let* new := get_checked_bitcoin_address new in
  let* s := gets id in
  let current_round := CurrentRound s in
  let* relay_target := ok_or (RegistrationPool s !! (current_round, who)) (RegPool RpUserDNE) in
  let old := rt_refund_address relay_target in
  do* ensure (negb (bool_decide (old = new))) (RegPool RpNoWritingSameValue) in
  do* ensure (negb (has (BondedVault s) (current_round, new))) (RegPool RpAddressAlreadyRegistered) in
  do* ensure (negb (has (PendingSetRefunds s) (current_round, who)))
        (RegPool RpRefundSetAlreadyRequested) in
  do* pmutate PendingSetRefunds <[(current_round, who) := mkSetRefundState old new]> in
  rp_deposit (EvRefundSetRequested who old new).

(** The next key an executive pre-submitted, unless it is in use, goes into
    the vault. *)
Definition take_presubmitted (current_round : PoolRound) (relay_target : BitcoinRelayTarget)
    (executive : AccountId) : RPool BitcoinRelayTarget :=
  let* s := gets id in
  let '(popped, keys) := set_pop_first (presubmitted s (current_round, executive)) in
  do* pmutate PreSubmittedPubKeys <[(current_round, executive) := keys]> in
  match popped with
  | Some pub_key =>
      let* s := gets id in
      if has (BondedPubKey s) (current_round, pub_key) then ret relay_target
      else
        let* keys := ok_or (try_insert_map MULTI_SIG_MAX_ACCOUNTS executive pub_key
                              (msa_pub_keys (rt_vault relay_target))) (RegPool RpOutOfRange) in
        ret (relay_target <| rt_vault ::= fun vault => vault <| msa_pub_keys := keys |> |>)
  | None => ret relay_target
  end.

Definition request_vault v (origin : Origin) (refund_address : UnboundedBytes) : RPool unit :=
  do* ensure_normal in
  let* who := ensure_signed origin in
  let* refund_address := get_checked_bitcoin_address refund_address in
  let* s := gets id in
  let current_round := CurrentRound s in
  do* ensure (negb (has (BondedVault s) (current_round, refund_address)))
        (RegPool RpAddressAlreadyRegistered) in
  do* ensure (negb (has (RegistrationPool s) (current_round, who)))
        (RegPool RpAddressAlreadyRegistered) in
  let relay_target := new_relay_target refund_address (get_m v s) (get_n v) in
  let* relay_target := fold_each (pv_executives v) relay_target (take_presubmitted current_round) in
  let* relay_target :=
    if is_key_generation_ready (rt_vault relay_target) then
      let* result := attempt (try_bond_vault_address v (rt_vault relay_target)
                                (rt_refund_address relay_target) who current_round) in
      match result with
      | inr vault =>
          do* for_each (pub_keys vault) (fun pub_key =>
                pmutate BondedPubKey <[(current_round, pub_key) := who]>) in
          ret (relay_target <| rt_vault := vault |>)
      | inl _ =>
          do* rp_deposit (EvVaultPending who refund_address) in
          ret (relay_target <| rt_vault ::= clear_pub_keys |>)
      end
    else ret relay_target in
  do* mutate_refund (current_round, refund_address) (fun users => users ++ [who]) in
  pmutate RegistrationPool <[(current_round, who) := relay_target]>.

(** ** The system vault and its keys *)

Definition request_system_vault v (origin : Origin) (migration_prepare : bool) : RPool unit :=
  do* ensure_root origin in
  let* s := gets id in
  do* ensure (match ServiceState s with Normal | PrepareNextSystemVault => true | _ => false end)
        (RegPool RpUnderMaintenance) in
  let current_round := CurrentRound s in
  let target_round := if migration_prepare then u32_add current_round 1 else current_round in
  do* ensure (negb (has (SystemVault s) target_round)) (RegPool RpVaultAlreadyGenerated) in
  do* pmutate SystemVault <[target_round := new_multi_sig (get_m v s) (get_n v)]> in
  rp_deposit EvSystemVaultPending.

(** The checks and the insertion of a submitted key that the two calls
    share. *)
Definition insert_key (round : PoolRound) (vault : MultiSigAccount) (who authority_id : AccountId)
    (pub_key : Public) : RPool MultiSigAccount :=
  do* ensure (is_pending vault) (RegPool RpVaultAlreadyGenerated) in
  do* ensure (negb (is_authority_submitted vault authority_id))
        (RegPool RpAuthorityAlreadySubmittedPubKey) in
  do* ensure (negb (is_key_submitted vault pub_key)) (RegPool RpVaultAlreadyContainsPubKey) in
  do* ensure (bool_decide (is_Some (PublicKey_from_slice pub_key))) (RegPool RpInvalidPublicKey) in
  let* s := gets id in
  do* ensure (negb (has (BondedPubKey s) (round, pub_key))) (RegPool RpVaultAlreadyContainsPubKey) in
  let* keys := ok_or (try_insert_map MULTI_SIG_MAX_ACCOUNTS authority_id pub_key (msa_pub_keys vault))
                 (RegPool RpOutOfRange) in
  do* rp_deposit (EvVaultKeySubmitted who pub_key) in
  ret (vault <| msa_pub_keys := keys |>).

Definition submit_vault_key v (origin : Origin) (key_submission : VaultKeySubmission) : RPool unit :=
  do* ensure_none origin in
  do* ensure_normal in
  let '(mkVaultKeySubmission authority_id who pub_key pool_round) := key_submission in
  let* s := gets id in
  let current_round := CurrentRound s in
  do* ensure (current_round =? pool_round) (RegPool RpPoolRoundOutdated) in
  let* relay_target := ok_or (RegistrationPool s !! (current_round, who)) (RegPool RpUserDNE) in
  let* vault := insert_key current_round (rt_vault relay_target) who authority_id pub_key in
  let* vault :=
    if is_key_generation_ready vault then
      try_bond_vault_address v vault (rt_refund_address relay_target) who current_round
    else ret vault in
  do* pmutate BondedPubKey <[(current_round, pub_key) := who]> in
  pmutate RegistrationPool <[(current_round, who) := relay_target <| rt_vault := vault |>]>.

Definition submit_system_vault_key v (origin : Origin) (key_submission : VaultKeySubmission)
    : RPool unit :=
  do* ensure_none origin in
  let* s := gets id in
  let service_state := ServiceState s in
  let current_round := CurrentRound s in
  let* target_round :=
    match service_state with
    | Normal => ret current_round
    | PrepareNextSystemVault => ret (u32_add current_round 1)
    | SetExecutiveMembers | UTXOTransfer => fail (RegPool RpUnderMaintenance)
    end in
  let '(mkVaultKeySubmission authority_id who pub_key pool_round) := key_submission in
  do* ensure (target_round =? pool_round) (RegPool RpPoolRoundOutdated) in
  do* ensure (N.eqb precompile who) (RegPool RpVaultDNE) in
  match SystemVault s !! target_round with
  | Some system_vault =>
      let* system_vault := insert_key target_round system_vault who authority_id pub_key in
      let* system_vault :=
        if is_key_generation_ready system_vault then
          let* system_vault := try_bond_vault_address v system_vault [] precompile target_round in
          do* (if bool_decide (service_state = PrepareNextSystemVault) then pput ServiceState UTXOTransfer
               else ret tt) in
          ret system_vault
        else ret system_vault in
      do* pmutate BondedPubKey <[(target_round, pub_key) := precompile]> in
      pmutate SystemVault <[target_round := system_vault]>
  | None => fail (RegPool RpVaultDNE)
  end.

Definition vault_key_presubmission (origin : Origin) (key_submission : VaultKeyPreSubmission)
    : RPool unit :=
  do* ensure_none origin in
  do* ensure_normal in
  let '(mkVaultKeyPreSubmission authority_id pub_keys pool_round) := key_submission in
  let* s := gets id in
  let current_round := CurrentRound s in
  do* ensure (current_round =? pool_round) (RegPool RpPoolRoundOutdated) in
  do* for_each pub_keys (fun pub_key =>
        ensure (bool_decide (is_Some (PublicKey_from_slice pub_key))) (RegPool RpInvalidPublicKey)) in
  let keys := presubmitted s (current_round, authority_id) in
  do* ensure (Z.of_nat (size keys) + Z.of_nat (length pub_keys) <=? MaxPreSubmission s)
        (RegPool RpOutOfRange) in
  do* ensure (negb (existsb (fun x => bool_decide (x ∈ keys)) pub_keys))
        (RegPool RpAuthorityAlreadySubmittedPubKey) in
  do* pmutate PreSubmittedPubKeys <[(current_round, authority_id) := keys ∪ list_to_set pub_keys]> in
  rp_deposit (EvVaultKeyPresubmitted authority_id (Z.of_nat (length pub_keys) mod u32_modulus)).

Definition unbond_keys (round : PoolRound) (vault : MultiSigAccount) : RPool unit :=
  for_each (pub_keys vault) (fun pubkey => pmutate BondedPubKey (delete (round, pubkey))).

Definition clear_vault (origin : Origin) (vault_address : UnboundedBytes) : RPool unit :=
  do* ensure_root origin in
  do* ensure_normal in
  let* s := gets id in
  let current_round := CurrentRound s in
  let* vault_address := get_checked_bitcoin_address vault_address in
  let* who := ok_or (BondedVault s !! (current_round, vault_address)) (RegPool RpVaultDNE) in
  do* (if N.eqb who precompile then
         let* system_vault := ok_or (SystemVault s !! current_round) (RegPool RpVaultDNE) in
         do* unbond_keys current_round system_vault in
         pmutate SystemVault (delete current_round)
       else
         let* target := ok_or (RegistrationPool s !! (current_round, who)) (RegPool RpUserDNE) in
         do* unbond_keys current_round (rt_vault target) in
         do* pmutate RegistrationPool (delete (current_round, who)) in
         pmutate BondedRefund (delete (current_round, rt_refund_address target))) in
  do* pmutate BondedVault (delete (current_round, vault_address)) in
  pmutate BondedDescriptor (delete (current_round, vault_address)).

(** ** Migration and administration *)

Definition migration_control v (origin : Origin) : RPool unit :=
  do* ensure_root origin in
  let* s := gets id in
  match ServiceState s with
  | Normal =>
      do* ensure (is_ready_for_migrate (pv_socket_queue v)) (RegPool RpSocketQueueNotReady) in
      do* rp_deposit EvMigrationStarted in
      pput ServiceState SetExecutiveMembers
  | SetExecutiveMembers =>
      do* pput ServiceState PrepareNextSystemVault in
      request_system_vault v origin true
  | PrepareNextSystemVault => fail (RegPool RpDoNotInterceptMigration)
  | UTXOTransfer =>
      let state := OngoingVaultMigration s in
      if bool_decide (state = ∅) || negb (forallb id (map_to_list state).*2) then
        fail (RegPool RpDoNotInterceptMigration)
      else
        do* rp_deposit EvMigrationCompleted in
        do* pmutate CurrentRound (fun r => u32_add r 1) in
        do* pput ServiceState Normal in
        pput OngoingVaultMigration ∅
  end.

Definition drop_previous_round (origin : Origin) (round : PoolRound) : RPool unit :=
  do* ensure_root origin in
  do* ensure_normal in
  let* s := gets id in
  do* ensure (round <? CurrentRound s) (RegPool RpOutOfRange) in
  do* pmutate SystemVault (delete round) in
  do* pmutate RegistrationPool (clear_prefix round) in
  do* pmutate BondedVault (clear_prefix round) in
  do* pmutate BondedRefund (clear_prefix round) in
  do* pmutate BondedPubKey (clear_prefix round) in
  do* pmutate BondedDescriptor (clear_prefix round) in
  do* pmutate PreSubmittedPubKeys (clear_prefix round) in
  rp_deposit (EvRoundDropped round).

Definition set_max_presubmission (origin : Origin) (max : Z) : RPool unit :=
  do* ensure_root origin in
  do* ensure (0 <? max) (RegPool RpOutOfRange) in
  pput MaxPreSubmission max.

Definition set_multi_sig_ratio (origin : Origin) (new : Z) : RPool unit :=
  do* ensure_root origin in
  do* ensure (50 <=? new) (RegPool RpOutOfRange) in
  let* s := gets id in
  let old := MultiSigRatio s in
  do* ensure (negb (new =? old)) (RegPool RpNoWritingSameValue) in
  do* pput MultiSigRatio new in
  rp_deposit (EvMultiSigRatioSet old new).

(** ** Refund addresses *)

(** A user moves from the bond of its refund address to that of the new. *)
Definition move_refund (round : PoolRound) (who : AccountId) (relay_target : BitcoinRelayTarget)
    (new : BoundedBitcoinAddress) : RPool unit :=
  do* mutate_refund (round, rt_refund_address relay_target) (filter (fun u => u <> who)) in
  do* mutate_refund (round, new) (fun users => users ++ [who]) in
  pmutate RegistrationPool <[(round, who) := set_refund_address new relay_target]>.

Definition approve_set_refund (current_round : PoolRound)
    (refund_set : AccountId * BoundedBitcoinAddress) : RPool unit :=
  let who := refund_set.1 in
  let* s := gets id in
  let* pending := ok_or (PendingSetRefunds s !! (current_round, who)) (RegPool RpRefundSetDNE) in
  do* ensure (bool_decide (srs_new pending = refund_set.2)) (RegPool RpRefundSetDNE) in
  do* (if has (BondedVault s) (current_round, srs_new pending) then ret tt
       else
         let* relay_target := ok_or (RegistrationPool s !! (current_round, who)) (RegPool RpUserDNE) in
         do* move_refund current_round who relay_target (srs_new pending) in
         rp_deposit (EvRefundSetApproved who (rt_refund_address relay_target) (srs_new pending))) in
  pmutate PendingSetRefunds (delete (current_round, who)).

Definition approve_set_refunds (origin : Origin) (approval : SetRefundsApproval) : RPool unit :=
  do* ensure_none origin in
  do* ensure_normal in
  let* s := gets id in
  let current_round := CurrentRound s in
  do* ensure (current_round =? sra_pool_round approval) (RegPool RpPoolRoundOutdated) in
  for_each (sra_refund_sets approval) (approve_set_refund current_round).

Definition process_set_refund (round : PoolRound) (who : AccountId) (state : SetRefundState)
    : RPool unit :=
  let new := srs_new state in
  let* s := gets id in
  if has (BondedVault s) (round, new) then rp_deposit (EvRefundSetDenied who (srs_old state) new)
  else
    match RegistrationPool s !! (round, who) with
    | Some relay_target =>
        do* move_refund round who relay_target new in
        rp_deposit (EvRefundSetApproved who (srs_old state) new)
    | None => rp_deposit (EvRefundSetDenied who (srs_old state) new)
    end.
Definition rp_process_set_refunds : RPool unit :=
  let* s := gets id in
  let round := CurrentRound s in
  do* for_each (iter_prefix (PendingSetRefunds s) round) (fun kv => process_set_refund round kv.1 kv.2) in
  pmutate PendingSetRefunds (clear_prefix round).

(** ** [PoolManager] *)

Definition generated (vault : MultiSigAccount) : option BoundedBitcoinAddress :=
  match msa_address vault with Pending => None | Generated address => Some address end.

Definition rp_get_refund_address (s : RpStorage) (who : AccountId) : option BoundedBitcoinAddress :=
  relay_target ← RegistrationPool s !! (CurrentRound s, who); Some (rt_refund_address relay_target).
Definition rp_get_vault_address (s : RpStorage) (who : AccountId) : option BoundedBitcoinAddress :=
  relay_target ← RegistrationPool s !! (CurrentRound s, who); generated (rt_vault relay_target).
Definition rp_get_bonded_descriptor (s : RpStorage) (who : BoundedBitcoinAddress) : option Descriptor :=
  let round := if bool_decide (ServiceState s = UTXOTransfer) then u32_add (CurrentRound s) 1
               else CurrentRound s in
  descriptor ← BondedDescriptor s !! (round, who);
  descriptor_str ← from_utf8 descriptor;
  descriptor_from_str descriptor_str.
Definition rp_get_system_vault (s : RpStorage) (round : PoolRound) : option BoundedBitcoinAddress :=
  vault ← SystemVault s !! round; generated vault.

Definition rp_add_migration_tx (txid : H256) (s : RpStorage) : RpStorage :=
  s <| OngoingVaultMigration ::= fun states =>
         match states !! txid with None => <[txid := false]> states | Some _ => states end |>.
Definition rp_remove_migration_tx (txid : H256) (s : RpStorage) : RpStorage :=
  s <| OngoingVaultMigration ::= delete txid |>.
Definition rp_execute_migration_tx (txid : H256) (s : RpStorage) : RpStorage :=
  s <| OngoingVaultMigration ::= fun states =>
         match states !! txid with Some _ => <[txid := true]> states | None => states end |>.

(** A pending vault, its authority [old] replaced; [expect] may panic. *)
Definition replace_in_vault (old new : AccountId) (vault : MultiSigAccount) : RPool MultiSigAccount :=
  if is_pending vault then expect (msa_replace_authority old new vault) else ret vault.
Definition rp_replace_authority (old new : AccountId) : RPool unit :=
  let* s := gets id in
  let round := CurrentRound s in
  let keys := presubmitted s (round, old) in
  do* pmutate PreSubmittedPubKeys (delete (round, old)) in
  do* (if bool_decide (keys = ∅) then ret tt
       else pmutate PreSubmittedPubKeys <[(round, new) := keys]>) in
  do* match SystemVault s !! round with
      | Some vault =>
          let* vault := replace_in_vault old new vault in
          pmutate SystemVault <[round := vault]>
      | None => ret tt
      end in
  for_each (iter_prefix (RegistrationPool s) round) (fun kv =>
    let* vault := replace_in_vault old new (rt_vault kv.2) in
    pmutate RegistrationPool <[(round, kv.1) := kv.2 <| rt_vault := vault |>]>).

(** [ChangeMembers] and [InitializeMembers] *)
Definition rp_change_members_sorted (new : list AccountId) (s : RpStorage) : RpStorage :=
  let round := match ServiceState s with
               | Normal => CurrentRound s
               | _ => u32_add (CurrentRound s) 1
               end in
  s <| RelayExecutives ::= <[round := new]> |>.
Definition rp_initialize_members (members : list AccountId) (s : RpStorage) : RpStorage :=
  s <| RelayExecutives ::= <[1 := members]> |>.

Definition rp_genesis_build (s : RpStorage) : RpStorage :=
  s <| MultiSigRatio := default_multi_sig_ratio |> <| CurrentRound := 1 |>
    <| ServiceState := Normal |> <| MaxPreSubmission := 100 |>.

(** ** Unsigned calls *)

Inductive RpCall : Type :=
| CallSubmitVaultKey (key_submission : VaultKeySubmission) (signature : Signature)
| CallSubmitSystemVaultKey (key_submission : VaultKeySubmission) (signature : Signature)
| CallVaultKeyPresubmission (key_submission : VaultKeyPreSubmission) (signature : Signature)
| CallApproveSetRefunds (approval : SetRefundsApproval) (signature : Signature)
| CallRpOther.

(** The tags of the valid transactions *)
Inductive RpProvides : Type :=
| ProvidesKey (authority_id who : AccountId) (signature : Signature)
| ProvidesKeys (authority_id : AccountId) (pub_keys : list Public) (signature : Signature)
| ProvidesRefunds (authority_id : AccountId) (refund_sets : list (AccountId * BoundedBitcoinAddress)).
Abbreviation Validity := (InvalidTransaction + ValidTransaction RpProvides)%type (only parsing).

(** A key as text *)
Definition key_hex (pub_key : Public) : string := bytes2hex "0x" (to_be_bytes 33 (Z.of_N pub_key)).
Definition key_message (pool_round : PoolRound) (keys : string) : UnboundedBytes :=
  as_bytes (concat_strings [display pool_round; ":"; keys]).

Definition verify_key_submission v (key_submission : VaultKeySubmission) (signature : Signature)
    (tag_prefix : string) : Validity :=
  let '(mkVaultKeySubmission authority_id who pub_key pool_round) := key_submission in
  if negb (is_executive v authority_id) then inl BadSigner
  else
    let message := key_message pool_round (key_hex pub_key) in
    if negb (verify signature message authority_id) then inl BadProof
    else inr (mkValidTransaction _ tag_prefix priority_max (ProvidesKey authority_id who signature) true).

Definition verify_key_presubmission v (key_submission : VaultKeyPreSubmission) (signature : Signature)
    : Validity :=
  let '(mkVaultKeyPreSubmission authority_id pub_keys pool_round) := key_submission in
  if negb (is_executive v authority_id) then inl BadSigner
  else
    let message := key_message pool_round (concat_strings (fmap (M:=list) key_hex pub_keys)) in
    if negb (verify signature message authority_id) then inl BadProof
    else inr (mkValidTransaction _ "KeyPreSubmission" priority_max
                (ProvidesKeys authority_id pub_keys signature) true).

(** What the authority signs to approve refunds *)
Definition approval_message (approval : SetRefundsApproval) : UnboundedBytes :=
  to_be_bytes 32 (Z.of_N (keccak_256 (as_bytes "SetRefundsApproval"))) ++
  as_bytes (concat_strings
    [display (sra_pool_round approval); ":"; display (sra_deadline approval); ":";
     concat_strings (fmap (M:=list) (fun x => hex_encode (to_be_bytes 20 (Z.of_N x.1)))
                       (sra_refund_sets approval))]).
Definition verify_set_refunds_approval v (approval : SetRefundsApproval) (signature : Signature)
    : Validity :=
  match sq_verify_legacy_authority (pv_socket_queue v) (sra_authority_id approval) with
  | inl e => inl e
  | inr _ =>
      if sra_deadline approval <? pv_now v then inl Stale
      else if negb (verify signature (approval_message approval) (sra_authority_id approval))
      then inl BadProof
      else inr (mkValidTransaction _ "SetRefundsApproval" priority_max
                  (ProvidesRefunds (sra_authority_id approval) (sra_refund_sets approval)) true)
  end.

Definition rp_validate_unsigned v (call : RpCall) : Validity :=
  match call with
  | CallSubmitVaultKey key_submission signature =>
      verify_key_submission v key_submission signature "RegPoolKeySubmission"
  | CallSubmitSystemVaultKey key_submission signature =>
      verify_key_submission v key_submission signature "SystemKeySubmission"
  | CallVaultKeyPresubmission key_submission signature =>
      verify_key_presubmission v key_submission signature
  | CallApproveSetRefunds approval signature => verify_set_refunds_approval v approval signature
  | CallRpOther => inl InvalidCall
  end.

(** An unsigned extrinsic: the call runs when it is valid. *)
Definition rp_apply_unsigned v (call : RpCall) (s : RpStorage)
    : option (outcome DispatchError unit * RpStorage) :=
  match rp_validate_unsigned v call with
  | inl _ => None
  | inr _ =>
      match call with
      | CallSubmitVaultKey submission _ => Some (dispatch (submit_vault_key v NoneOrigin submission) s)
      | CallSubmitSystemVaultKey submission _ =>
          Some (dispatch (submit_system_vault_key v NoneOrigin submission) s)
      | CallVaultKeyPresubmission submission _ =>
          Some (dispatch (vault_key_presubmission NoneOrigin submission) s)
      | CallApproveSetRefunds approval _ => Some (dispatch (approve_set_refunds NoneOrigin approval) s)
      | CallRpOther => None
      end
  end.
End Pallet.

(** The registration pool is the pool of the other pallets. *)
#[export] Instance RegistrationPool_manager `{!RpConfig} : PoolManager RpStorage := {
  get_refund_address := rp_get_refund_address;
  get_vault_address := rp_get_vault_address;
  get_bonded_descriptor := rp_get_bonded_descriptor;
  get_system_vault := rp_get_system_vault;
  get_bitcoin_network _ := bitcoin_network;
  get_bitcoin_chain_id _ := bitcoin_chain_id;
  get_service_state := ServiceState;
  get_current_round := CurrentRound;
  get_relay_executives s round := default [] (RelayExecutives s !! round);
  add_migration_tx := rp_add_migration_tx;
  remove_migration_tx := rp_remove_migration_tx;
  execute_migration_tx := rp_execute_migration_tx;
  process_set_refunds s := (rp_process_set_refunds s).2;
  pool_replace_authority := rp_replace_authority
}.
