(* ===== verification/CoinSelection.v ===== *)
(** * Coin selection

    [pallets/blaze], [impls.rs]: the UTXOs that pay for an amount, by branch
    and bound, and when that finds none by a search of subsets modelled after
    the knapsack solver of Bitcoin Core. The searches go down the pool: where
    the code has an index and the sums of the suffixes of the pool, a call here
    has the rest of the pool and the rest of the sums. *)

From S2P Require Import Prelude Errors Primitives Cccp BtcRelay.
Local Open Scope Z_scope.

(** [v.iter().map(f).sum::<u64>()] *)
Definition u64_sum (l : list Z) : Z := foldl u64_add 0 l.
Definition excess_fee (x : ScoredUtxo) : Z := sat_sub (su_fee x) (su_long_term_fee x).
Definition u64_max : Z := u64_modulus - 1.

(** [suffix_sums] of a pool: one more element than the pool *)
Fixpoint suffix_sums (pool : list ScoredUtxo) : list Z :=
  match pool with
  | [] => [0]
  | x :: rest =>
      let sums := suffix_sums rest in u64_sat_add (hd 0 sums) (su_effective_value x) :: sums
  end.

(** ** Branch and bound *)

(** [a] is not after [b] in the order of [sort_by] *)
Definition bnb_leb (a b : ScoredUtxo) : bool :=
  (su_effective_value b <? su_effective_value a)
  || ((su_effective_value b =? su_effective_value a) && (excess_fee a <=? excess_fee b)).

Record Search : Type := mkSearch {
  tries : Z; best_selection : list UtxoInfoWithSize; best : Z
}.

Section Bnb.
Context (target cost_of_change max_selection_weight max_tries : Z).

(** [dfs]: [best] is [best_waste] *)
Fixpoint bnb_dfs (pool : list ScoredUtxo) (sums : list Z) (curr_selection : list ScoredUtxo)
    (curr_value curr_weight : Z) (st : Search) : Search :=
  let '(mkSearch tries best_selection best_waste) := st in
  if max_tries <=? tries then st
  else
    let st := mkSearch (tries + 1) best_selection best_waste in
    if u64_add curr_value (hd 0 sums) <? target then st
    else if u64_add target cost_of_change <? curr_value then st
    else if max_selection_weight <? curr_weight then st
    else if target <=? curr_value then
      let waste := u64_add (curr_value - target) (u64_sum (fmap (M:=list) excess_fee curr_selection)) in
      if waste <? best_waste then mkSearch (tries + 1) (fmap (M:=list) su_utxo curr_selection) waste
      else st
    else if best_waste =? 0 then st
    else
      match pool with
      | [] => st
      | x :: rest =>
          let st := bnb_dfs rest (tail sums) (curr_selection ++ [x])
                      (u64_add curr_value (su_effective_value x))
                      (u64_add curr_weight (us_input_vbytes (su_utxo x))) st in
          bnb_dfs rest (tail sums) curr_selection curr_value curr_weight st
      end.

Definition select_coins_bnb (pool : list ScoredUtxo)
    : option (list UtxoInfoWithSize * SelectionStrategy) :=
  let pool := stable_sort bnb_leb pool in
  let found := bnb_dfs pool (suffix_sums pool) [] 0 0 (mkSearch 0 [] u64_max) in
  match best_selection found with
  | [] => None
  | selected => Some (selected, Bnb)
  end.
End Bnb.

(** ** Knapsack *)

(** The UTXOs by phase 1: those that alone pay about the target, those that
    pay less, and the least of those that pay more *)
Record Categories : Type := mkCategories {
  applicable : list ScoredUtxo;
  lowest_larger : option ScoredUtxo;
  best_exact : option ScoredUtxo
}.
(** [o.as_ref().map_or(true, |x| scored.effective_value < x.effective_value)] *)
Definition is_less (scored : ScoredUtxo) (o : option ScoredUtxo) : bool :=
  match o with Some x => su_effective_value scored <? su_effective_value x | None => true end.

Section Knapsack.
Context (target change_target max_weight : Z).

Definition categorize (c : Categories) (scored : ScoredUtxo) : Categories :=
  let '(mkCategories applicable lowest_larger best_exact) := c in
  let limit := u64_add target change_target in
  if (target <=? su_effective_value scored) && (su_effective_value scored <=? limit)
     && (us_input_vbytes (su_utxo scored) <=? max_weight)
  then
    if is_less scored best_exact then mkCategories applicable lowest_larger (Some scored) else c
  else if su_effective_value scored <? limit then
    mkCategories (applicable ++ [scored]) lowest_larger best_exact
  else if is_less scored lowest_larger then mkCategories applicable (Some scored) best_exact
  else c.

(** [lowest_larger.filter(|x| x.utxo.input_vbytes <= max_weight).map(..)] *)
Definition single_larger (o : option ScoredUtxo) : option (list UtxoInfoWithSize * SelectionStrategy) :=
  match o with
  | Some x =>
      if us_input_vbytes (su_utxo x) <=? max_weight then Some ([su_utxo x], Knapsack) else None
  | None => None
  end.

Definition knapsack_leb (a b : ScoredUtxo) : bool := su_effective_value b <=? su_effective_value a.

(** [dfs]: [best] is [best_total] *)
Fixpoint knapsack_dfs (max_tries : Z) (pool : list ScoredUtxo) (sums : list Z)
    (curr_selection : list ScoredUtxo) (curr_value curr_weight : Z) (st : Search) : Search :=
  let '(mkSearch tries best_selection best_total) := st in
  if max_tries <=? tries then st
  else
    let st := mkSearch (tries + 1) best_selection best_total in
    if u64_add curr_value (hd 0 sums) <? target then st
    else if max_weight <? curr_weight then st
    else if target <=? curr_value then
      if curr_value <? best_total then
        mkSearch (tries + 1) (fmap (M:=list) su_utxo curr_selection) curr_value
      else st
    else if best_total =? target then st
    else
      match pool with
      | [] => st
      | x :: rest =>
          let st := knapsack_dfs max_tries rest (tail sums) (curr_selection ++ [x])
                      (u64_add curr_value (su_effective_value x))
                      (u64_add curr_weight (us_input_vbytes (su_utxo x))) st in
          knapsack_dfs max_tries rest (tail sums) curr_selection curr_value curr_weight st
      end.

Definition select_coins_knapsack (pool : list ScoredUtxo)
    : option (list UtxoInfoWithSize * SelectionStrategy) :=
  let '(mkCategories applicable lowest_larger best_exact) :=
    foldl categorize (mkCategories [] None None) pool in
  match best_exact with
  | Some exact => Some ([su_utxo exact], Knapsack)
  | None =>
      let total_lower := u64_sum (fmap (M:=list) su_effective_value applicable) in
      if total_lower <? target then single_larger lowest_larger
      else
        let applicable := stable_sort knapsack_leb applicable in
        let found := knapsack_dfs 100000 applicable (suffix_sums applicable) [] 0 0
                       (mkSearch 0 [] u64_max) in
        match best_selection found with
        | [] => single_larger lowest_larger
        | selected =>
            match lowest_larger with
            | Some larger =>
                if (us_input_vbytes (su_utxo larger) <=? max_weight)
                   && (su_effective_value larger <=? best found)
                then Some ([su_utxo larger], Knapsack)
                else Some (selected, Knapsack)
            | None => Some (selected, Knapsack)
            end
        end
  end.
End Knapsack.

Definition select_coins (pool : list ScoredUtxo)
    (target cost_of_change max_selection_weight max_tries change_target : Z)
    : option (list UtxoInfoWithSize * SelectionStrategy) :=
  match select_coins_bnb target cost_of_change max_selection_weight max_tries pool with
  | Some selected => Some selected
  | None => select_coins_knapsack target change_target max_selection_weight pool
  end.
