(* ===== verification/Blaze.v ===== *)
(** * Blaze

    [pallets/blaze]: the relayers vote on the UTXOs of the vaults, on the
    broadcast of the transactions that spend them and on the fee rate, and
    submit the outbound messages that wait for a transaction. The socket queue
    locks and unlocks UTXOs and asks for coins ([CoinSelection]). *)

From S2P Require Import Prelude Errors Primitives Cccp BtcRelay CoinSelection.
Local Open Scope Z_scope.
Local Open Scope frame_scope.

(** ** Data and storage *)

Definition MAX_SOCKET_MESSAGES_PER_SUBMISSION : Z := 10.
Definition MAX_UTXOS_PER_SUBMISSION : Z := 50.
Definition MAX_UNCONFIRMED_UTXOS_PER_RELAYER : Z := 100.

Inductive UtxoStatus : Type := Unconfirmed | Available | Locked | Used.
#[export] Instance UtxoStatus_eq_dec : EqDecision UtxoStatus.
Proof. solve_decision. Defined.

Record Utxo : Type := mkUtxo {
  u_inner : UtxoInfoWithSize; u_status : UtxoStatus; u_voters : list AccountId
}.
#[export] Instance Utxo_rebuild : Rebuild Utxo := fun r => mkUtxo (u_inner r) (u_status r) (u_voters r).
#[export] Instance f_u_status : Field u_status := ltac:(derive_field).
#[export] Instance f_u_voters : Field u_voters := ltac:(derive_field).

Record BTCTransaction : Type := mkBTCTransaction {
  bt_inputs : list UtxoInfoWithSize; bt_voters : list AccountId
}.
#[export] Instance BTCTransaction_rebuild : Rebuild BTCTransaction := fun r =>
  mkBTCTransaction (bt_inputs r) (bt_voters r).
#[export] Instance f_bt_voters : Field bt_voters := ltac:(derive_field).

(** [retain] and [try_push(..).expect(..)]: [None] is the panic. *)
Definition push_instead (old new : AccountId) (voters : list AccountId) : option (list AccountId) :=
  try_push MAX_AUTHORITIES new (filter (fun v => v <> old) voters).
Definition utxo_replace_authority (old new : AccountId) (u : Utxo) : option Utxo :=
  voters ← push_instead old new (u_voters u); Some (u <| u_voters := voters |>).
Definition tx_replace_authority (old new : AccountId) (t : BTCTransaction) : option BTCTransaction :=
  voters ← push_instead old new (bt_voters t); Some (t <| bt_voters := voters |>).

Record UtxoSubmission : Type := mkUtxoSubmission {
  us_authority_id : AccountId; us_utxos : list UtxoInfo
}.
Record BroadcastSubmission : Type := mkBroadcastSubmission {
  bs_authority_id : AccountId; bs_txid : H256
}.
Record FeeRateSubmission : Type := mkFeeRateSubmission {
  fs_authority_id : AccountId; fs_lt_fee_rate : Z; fs_fee_rate : Z; fs_deadline : BlockNumber
}.
Record SocketMessagesSubmission : Type := mkSocketMessagesSubmission {
  ss_authority_id : AccountId; ss_messages : list UnboundedBytes
}.

Inductive BlazeEvent : Type :=
| EvActivationSet (is_activated : bool)
| EvToleranceCounterUpdated (new : Z)
| EvFeeRateSubmitted (authority_id : AccountId) (lt_fee_rate fee_rate : Z)
| EvUtxoSubmitted (authority_id : AccountId) (utxo_hash : H256) (status : UtxoStatus)
| EvUtxoForcePushed (utxo_hash : H256)
| EvBroadcastPolled (authority_id : AccountId) (txid : H256) (is_confirmed : bool)
| EvSocketMessageSubmitted (authority_id : AccountId) (message : UnboundedBytes).

Record BzStorage : Type := mkBzStorage {
  IsActivated : bool;
  ToleranceCounter : Z;
  Utxos : gmap N Utxo;
  UnconfirmedUtxoCount : gmap N Z;
  PendingTxs : gmap N BTCTransaction;
  ConfirmedTxs : gmap N BTCTransaction;
  OutboundPool : list UnboundedBytes;
  FeeRates : gmap N (Z * Z * BlockNumber);
  BzEvents : list BlazeEvent
}.
#[export] Instance BzStorage_rebuild : Rebuild BzStorage := fun r =>
  mkBzStorage (IsActivated r) (ToleranceCounter r) (Utxos r) (UnconfirmedUtxoCount r) (PendingTxs r)
    (ConfirmedTxs r) (OutboundPool r) (FeeRates r) (BzEvents r).
#[export] Instance f_IsActivated : Field IsActivated := ltac:(derive_field).
#[export] Instance f_ToleranceCounter : Field ToleranceCounter := ltac:(derive_field).
#[export] Instance f_Utxos : Field Utxos := ltac:(derive_field).
#[export] Instance f_UnconfirmedUtxoCount : Field UnconfirmedUtxoCount := ltac:(derive_field).
#[export] Instance f_PendingTxs : Field PendingTxs := ltac:(derive_field).
#[export] Instance f_ConfirmedTxs : Field ConfirmedTxs := ltac:(derive_field).
#[export] Instance f_OutboundPool : Field OutboundPool := ltac:(derive_field).
#[export] Instance f_FeeRates : Field FeeRates := ltac:(derive_field).
#[export] Instance f_BzEvents : Field BzEvents := ltac:(derive_field).

(** The [Config] of the pallet: libraries and constants. *)
Class BzConfig := {
  #[global] bz_lib :: BtcLib;
  #[global] bz_psbt :: PsbtLib;
  #[global] bz_crypto :: Crypto;
  #[global] bz_abi :: EthAbi;
  (** the SCALE encoding of [(txid, vout, amount, address)] *)
  encode_utxo : H256 * Z * Z * BoundedBitcoinAddress -> UnboundedBytes;
  FeeRateExpiration : Z;
  ToleranceThreshold : Z
}.

(** What a call reads of the other pallets and of the chain: the relayers, the
    registration pool, the socket queue and the number of the block. *)
Record BzView {R P Q : Type} : Type := mkBzView {
  bv_relayers : R; bv_pool : P; bv_socket_queue : Q; bv_now : BlockNumber
}.
Arguments BzView R P Q : clear implicits.

(** The monad of the pallet and its writes. *)
Abbreviation Blz A := (M BzStorage DispatchError A).
Definition bput {A} (f : BzStorage -> A) `{!Field f} (v : A) : Blz unit := modify (fun s => s <| f := v |>).
Definition bmutate {A} (f : BzStorage -> A) `{!Field f} (g : A -> A) : Blz unit :=
  modify (fun s => s <| f ::= g |>).
Definition bz_deposit (e : BlazeEvent) : Blz unit := bmutate BzEvents (fun l => l ++ [e]).
(** A [ValueQuery] map *)
Definition unconfirmed_count (s : BzStorage) (a : AccountId) : Z := default 0 (UnconfirmedUtxoCount s !! a).
Definition drop_unconfirmed (voters : list AccountId) : Blz unit :=
  match head voters with
  | Some submitter =>
      let* s := gets id in
      bmutate UnconfirmedUtxoCount <[submitter := sat_sub (unconfirmed_count s submitter) 1]>
  | None => ret tt
  end.
Definition ensure_activation (is_activated : bool) : Blz unit :=
  let* s := gets id in
  ensure (Bool.eqb (IsActivated s) is_activated) (BlazeErr BlInvalidActivationState).

Section Pallet.
Context `{!BzConfig} {R P Q : Type} `{!Authorities R, !PoolManager P, !SocketQueueManager Q}.
Implicit Types v : BzView R P Q.

(** ** [BlazeManager] *)

(** [<Utxos<T>>::insert(hash, utxo)] for each UTXO whose voters hold [old] *)
Definition replace_in_utxo (old new : AccountId) (kv : H256 * Utxo) : Blz unit :=
  if bool_decide (u_status kv.2 = Unconfirmed) && bool_decide (old ∈ u_voters kv.2) then
    let* utxo := expect (utxo_replace_authority old new kv.2) in
    bmutate Utxos <[kv.1 := utxo]>
  else ret tt.
Definition replace_in_tx (old new : AccountId) (kv : H256 * BTCTransaction) : Blz unit :=
  if bool_decide (old ∈ bt_voters kv.2) then
    let* tx := expect (tx_replace_authority old new kv.2) in
    bmutate PendingTxs <[kv.1 := tx]>
  else ret tt.

Definition bz_replace_authority (old new : AccountId) : Blz unit :=
  let* s := gets id in
  let old_count := unconfirmed_count s old in
  do* bmutate UnconfirmedUtxoCount (delete old) in
  do* (if 0 <? old_count then bmutate UnconfirmedUtxoCount <[new := old_count]> else ret tt) in
  do* for_each (map_to_list (Utxos s)) (replace_in_utxo old new) in
  do* for_each (map_to_list (PendingTxs s)) (replace_in_tx old new) in
  match FeeRates s !! old with
  | Some val =>
      let* fee_rates := expect (try_insert_map MAX_AUTHORITIES new val (delete old (FeeRates s))) in
      bput FeeRates fee_rates
  | None => ret tt
  end.

Definition get_utxos (s : BzStorage) : list UtxoInfoWithSize :=
  omap (fun kv => if bool_decide (u_status kv.2 = Available) then Some (u_inner kv.2) else None)
    (map_to_list (Utxos s)).

Definition clear_utxo (kv : H256 * Utxo) : Blz unit :=
  if bool_decide (u_status kv.2 = Used) then ret tt
  else
    do* (if bool_decide (u_status kv.2 = Unconfirmed) then drop_unconfirmed (u_voters kv.2) else ret tt) in
    bmutate Utxos (delete kv.1).
Definition clear_utxos : Blz unit :=
  let* s := gets id in for_each (map_to_list (Utxos s)) clear_utxo.

(** The status of the UTXO of an input *)
Definition set_utxo_status (status : UtxoStatus) (input : UtxoInfoWithSize) : Blz unit :=
  let* s := gets id in
  match Utxos s !! us_hash input with
  | Some utxo => bmutate Utxos <[us_hash input := utxo <| u_status := status |>]>
  | None => fail (BlazeErr BlUtxoDNE)
  end.

Definition lock_utxos (txid : H256) (inputs : list UtxoInfoWithSize) : Blz unit :=
  do* for_each inputs (set_utxo_status Locked) in
  bmutate PendingTxs <[txid := mkBTCTransaction inputs []]>.

(** [<PendingTxs<T>>::take(txid)] and the new status of its inputs *)
Definition take_pending (txid : H256) (status : UtxoStatus) : Blz unit :=
  let* s := gets id in
  match PendingTxs s !! txid with
  | Some tx =>
      do* bmutate PendingTxs (delete txid) in
      for_each (bt_inputs tx) (set_utxo_status status)
  | None => fail (BlazeErr BlUnknownTransaction)
  end.
Definition unlock_utxos (txid : H256) : Blz unit := take_pending txid Available.

(** The UTXO of an input of a transaction, found by what the transaction
    holds of it. *)
Definition extract_utxo (i : PsbtInput * TxIn) : Blz UtxoInfoWithSize :=
  let txid := Z.to_N (from_be_bytes (rev (previous_txid i.2))) in
  let vout := previous_vout i.2 in
  let* amount :=
    match witness_utxo i.1, non_witness_utxo i.1 with
    | Some value, _ => ret value
    | None, Some outputs => expect (outputs !! Z.to_nat vout)
    | None, None => trap
    end in
  let* s := gets id in
  ok_or (snd <$> list_find (fun u => us_txid u = txid /\ us_vout u = vout /\ us_amount u = amount)
                  (fmap (M:=list) (fun kv => u_inner kv.2) (map_to_list (Utxos s))))
    (BlazeErr BlUtxoDNE).
(** [psbt.unsigned_tx.input[i]] is out of range where the second list is
    shorter. *)
Definition extract_utxos_from_psbt (psbt : Psbt) : Blz (list UtxoInfoWithSize) :=
  fold_each (imap (fun i input => (i, input)) (psbt_inputs psbt)) [] (fun inputs i =>
    let* txin := expect (unsigned_inputs psbt !! i.1) in
    let* utxo := extract_utxo (i.2, txin) in
    ret (inputs ++ [utxo])).

Definition clear_outbound_pool (targets : list UnboundedBytes) : Blz unit :=
  bmutate OutboundPool (filter (fun x => x ∉ targets)).

Definition try_fee_rate_finalization v (n : BlockNumber) : Blz (option (Z * Z)) :=
  do* bmutate FeeRates (filter (fun kv => n <= kv.2.2)) in
  let* s := gets id in
  let submitted_fee_rates := acc_iter (FeeRates s) in
  if au_majority (bv_relayers v) <=? Z.of_nat (length submitted_fee_rates) then
    let fee_rates := stable_sort Z.leb (fmap (M:=list) (fun kv => kv.2.1.2) submitted_fee_rates) in
    let lt_fee_rates := stable_sort Z.leb (fmap (M:=list) (fun kv => kv.2.1.1) submitted_fee_rates) in
    let median_index := (length fee_rates / 2)%nat in
    let* median_fee_rate := expect (fee_rates !! median_index) in
    let* median_lt_fee_rate := expect (lt_fee_rates !! median_index) in
    if median_lt_fee_rate <=? median_fee_rate then ret (Some (median_lt_fee_rate, median_fee_rate))
    else ret None
  else ret None.

Definition clear_fee_rates : Blz unit := bput FeeRates ∅.

Definition handle_tolerance_counter (is_increase : bool) : Blz unit :=
  let* s := gets id in
  let current_counter := ToleranceCounter s in
  let next_counter := if is_increase then u32_sat_add current_counter 1 else sat_sub current_counter 1 in
  if ToleranceThreshold <? next_counter then
    do* bput IsActivated false in
    do* bput ToleranceCounter 0 in
    bz_deposit (EvActivationSet false)
  else if current_counter =? next_counter then ret tt
  else
    do* bput ToleranceCounter next_counter in
    bz_deposit (EvToleranceCounterUpdated next_counter).

(** ** The calls *)

Definition set_activation (origin : Origin) (is_activated : bool) : Blz unit :=
  do* ensure_root origin in
  let* s := gets id in
  do* ensure (negb (Bool.eqb (IsActivated s) is_activated)) (BlazeErr BlNoWritingSameValue) in
  do* (if is_activated then bput PendingTxs ∅ else ret tt) in
  do* bput IsActivated is_activated in
  bz_deposit (EvActivationSet is_activated).

Definition utxo_hash (utxo : UtxoInfo) : H256 :=
  keccak_256 (encode_utxo (ui_txid utxo, ui_vout utxo, ui_amount utxo, ui_address utxo)).
Definition utxo_info (utxo : UtxoInfo) (descriptor : Descriptor) (input_vbytes : Z) : UtxoInfoWithSize :=
  mkUtxoInfoWithSize (utxo_hash utxo) (ui_txid utxo) (ui_vout utxo) (ui_amount utxo)
    (descriptor_to_string descriptor) input_vbytes.
(** [descriptor.script_code().unwrap()] *)
Definition input_size (descriptor : Descriptor) : Blz (option Z) :=
  let* script := expect (script_code descriptor) in
  ret (estimate_finalized_input_size script None).

(** The vote for a UTXO that is there *)
Definition vote_utxo v (authority_id : AccountId) (hash : H256) (u : Utxo) : Blz unit :=
  if negb (bool_decide (u_status u = Unconfirmed)) then ret tt
  else if bool_decide (authority_id ∈ u_voters u) then ret tt
  else
    let* voters := ok_or (try_push MAX_AUTHORITIES authority_id (u_voters u)) (BlazeErr BlOutOfRange) in
    let u := u <| u_voters := voters |> in
    let reached := au_majority (bv_relayers v) <=? Z.of_nat (length voters) in
    let u := if reached then u <| u_status := Available |> else u in
    do* (if reached then drop_unconfirmed voters else ret tt) in
    do* bmutate Utxos <[hash := u]> in
    bz_deposit (EvUtxoSubmitted authority_id hash (u_status u)).

(** A UTXO that is new *)
Definition open_utxo (authority_id : AccountId) (utxo : UtxoInfo) (descriptor : Descriptor) : Blz unit :=
  let* s := gets id in
  let count := unconfirmed_count s authority_id in
  if MAX_UNCONFIRMED_UTXOS_PER_RELAYER <=? count then ret tt
  else
    let* size := input_size descriptor in
    match size with
    | None => ret tt
    | Some input_vbytes =>
        let hash := utxo_hash utxo in
        do* bmutate Utxos <[hash := mkUtxo (utxo_info utxo descriptor input_vbytes) Unconfirmed
                                       [authority_id]]> in
        do* bmutate UnconfirmedUtxoCount <[authority_id := u32_add count 1]> in
        bz_deposit (EvUtxoSubmitted authority_id hash Unconfirmed)
    end.

Definition submit_utxo v (authority_id : AccountId) (utxo : UtxoInfo) : Blz unit :=
  match get_bonded_descriptor (bv_pool v) (ui_address utxo) with
  | None => ret tt
  | Some descriptor =>
      let* s := gets id in
      match Utxos s !! utxo_hash utxo with
      | Some u => vote_utxo v authority_id (utxo_hash utxo) u
      | None => open_utxo authority_id utxo descriptor
      end
  end.

Definition submit_utxos v (origin : Origin) (utxo_submission : UtxoSubmission) : Blz unit :=
  do* ensure_none origin in
  do* ensure_activation true in
  let '(mkUtxoSubmission authority_id utxos) := utxo_submission in
  do* ensure (negb (bool_decide (utxos = []))) (BlazeErr BlEmptySubmission) in
  for_each utxos (submit_utxo v authority_id).

Definition broadcast_poll v (origin : Origin) (broadcast_submission : BroadcastSubmission) : Blz unit :=
  do* ensure_none origin in
  do* ensure_activation true in
  let '(mkBroadcastSubmission authority_id txid) := broadcast_submission in
  let* s := gets id in
  do* ensure (negb (bool_decide (is_Some (ConfirmedTxs s !! txid)))) (BlazeErr BlAlreadySpent) in
  let* pending_txs := ok_or (PendingTxs s !! txid) (BlazeErr BlUnknownTransaction) in
  do* ensure (negb (bool_decide (authority_id ∈ bt_voters pending_txs))) (BlazeErr BlAlreadyVoted) in
  let* voters := ok_or (try_push MAX_AUTHORITIES authority_id (bt_voters pending_txs))
                   (BlazeErr BlOutOfRange) in
  let pending_txs := pending_txs <| bt_voters := voters |> in
  let is_confirmed := au_majority (bv_relayers v) <=? Z.of_nat (length voters) in
  do* (if is_confirmed then
         do* bmutate ConfirmedTxs <[txid := pending_txs]> in
         take_pending txid Used
       else bmutate PendingTxs <[txid := pending_txs]>) in
  bz_deposit (EvBroadcastPolled authority_id txid is_confirmed).

Definition submit_fee_rate v (origin : Origin) (fee_rate_submission : FeeRateSubmission) : Blz unit :=
  do* ensure_none origin in
  do* ensure_activation true in
  let '(mkFeeRateSubmission authority_id lt_fee_rate fee_rate _) := fee_rate_submission in
  let min_fee_rate := 1 in
  let max_fee_rate := get_max_fee_rate (bv_socket_queue v) in
  do* ensure ((min_fee_rate <=? lt_fee_rate) && (lt_fee_rate <=? max_fee_rate)) (BlazeErr BlOutOfRange) in
  do* ensure ((min_fee_rate <=? fee_rate) && (fee_rate <=? max_fee_rate)) (BlazeErr BlOutOfRange) in
  let* s := gets id in
  let expires_at := u32_add (bv_now v) FeeRateExpiration in
  let* fee_rates := ok_or (try_insert_map MAX_AUTHORITIES authority_id (lt_fee_rate, fee_rate, expires_at)
                             (FeeRates s)) (BlazeErr BlOutOfRange) in
  do* bput FeeRates fee_rates in
  bz_deposit (EvFeeRateSubmitted authority_id lt_fee_rate fee_rate).

(** [SocketMessage::try_from(..).ok()] *)
Definition parse_message (message : UnboundedBytes) : Blz (option SocketMessage) :=
  match SocketMessage_try_from message with
  | Done m => ret (Some m)
  | Fail _ => ret None
  | Trap => trap
  end.
Definition sequence_of (m : SocketMessage) : U256 := rid_sequence (sm_req_id m).

(** The pool and its sequences, with a message when it is new *)
Definition push_message v (authority_id : AccountId) (acc : list UnboundedBytes * list U256)
    (message : UnboundedBytes) : Blz (list UnboundedBytes * list U256) :=
  let '(pool, pool_sequences) := acc in
  if bool_decide (message ∈ pool) then ret acc
  else
    let* parsed := parse_message message in
    match parsed with
    | None => ret acc
    | Some msg =>
        if bool_decide (sequence_of msg ∈ pool_sequences) then ret acc
        else if negb (verify_socket_message (bv_socket_queue v) message) then ret acc
        else
          do* bz_deposit (EvSocketMessageSubmitted authority_id message) in
          ret (pool ++ [message], pool_sequences ++ [sequence_of msg])
    end.

Definition submit_outbound_requests v (origin : Origin)
    (outbound_request_submission : SocketMessagesSubmission) : Blz unit :=
  do* ensure_none origin in
  let '(mkSocketMessagesSubmission authority_id messages) := outbound_request_submission in
  do* ensure (negb (bool_decide (messages = []))) (BlazeErr BlEmptySubmission) in
  let* s := gets id in
  let* pool_sequences := fold_each (OutboundPool s) [] (fun sequences m =>
    let* parsed := parse_message m in
    ret (match parsed with Some msg => sequences ++ [sequence_of msg] | None => sequences end)) in
  let* '(pool, _) := fold_each messages (OutboundPool s, pool_sequences) (push_message v authority_id) in
  bput OutboundPool pool.

Definition force_push_utxo v (utxo : UtxoInfo) : Blz unit :=
  match get_bonded_descriptor (bv_pool v) (ui_address utxo) with
  | None => ret tt
  | Some descriptor =>
      let hash := utxo_hash utxo in
      let* s := gets id in
      if bool_decide (is_Some (Utxos s !! hash)) then ret tt
      else
        let* size := input_size descriptor in
        match size with
        | None => ret tt
        | Some input_vbytes =>
            do* bmutate Utxos <[hash := mkUtxo (utxo_info utxo descriptor input_vbytes) Available []]> in
            bz_deposit (EvUtxoForcePushed hash)
        end
  end.
Definition force_push_utxos v (origin : Origin) (utxos : list UtxoInfo) : Blz unit :=
  do* ensure_root origin in
  do* ensure_activation false in
  do* ensure (negb (bool_decide (utxos = []))) (BlazeErr BlEmptySubmission) in
  do* clear_utxos in
  for_each utxos (force_push_utxo v).

Definition remove_outbound_messages (origin : Origin) (remove_submission : SocketMessagesSubmission)
    : Blz unit :=
  do* ensure_none origin in
  do* ensure_activation false in
  do* ensure (negb (bool_decide (ss_messages remove_submission = []))) (BlazeErr BlEmptySubmission) in
  clear_outbound_pool (ss_messages remove_submission).

(** ** Unsigned calls *)

Inductive BzCall : Type :=
| CallSubmitUtxos (utxo_submission : UtxoSubmission) (signature : Signature)
| CallBroadcastPoll (broadcast_submission : BroadcastSubmission) (signature : Signature)
| CallSubmitFeeRate (fee_rate_submission : FeeRateSubmission) (signature : Signature)
| CallSubmitOutboundRequests (submission : SocketMessagesSubmission) (signature : Signature)
| CallRemoveOutboundMessages (submission : SocketMessagesSubmission) (signature : Signature)
| CallBzOther.

(** The tags of the valid transactions *)
Inductive BzProvides : Type :=
| ProvidesSignature (authority_id : AccountId) (signature : Signature)
| ProvidesBroadcast (authority_id : AccountId) (txid : H256) (signature : Signature)
| ProvidesFeeRate (authority_id : AccountId) (lt_fee_rate fee_rate : Z) (signature : Signature).
Abbreviation BzValidity := (InvalidTransaction + ValidTransaction BzProvides)%type (only parsing).

Definition bz_valid (tag_prefix : string) (provides : BzProvides) : BzValidity :=
  inr (mkValidTransaction _ tag_prefix priority_max provides true).
Definition bz_verify_authority v (authority_id : AccountId) : InvalidTransaction + unit :=
  if negb (au_is_authority (bv_relayers v) authority_id) then inl BadSigner else inr tt.
Definition bz_verify_signature (message : UnboundedBytes) (signature : Signature) (authority_id : AccountId)
    : InvalidTransaction + unit :=
  if negb (verify signature message authority_id) then inl BadProof else inr tt.
(** The [?] of a check *)
Definition and_then (check : InvalidTransaction + unit) (k : BzValidity) : BzValidity :=
  match check with inl e => inl e | inr _ => k end.

Definition utxos_message (utxos : list UtxoInfo) : UnboundedBytes :=
  to_be_bytes 32 (Z.of_N (keccak_256 (as_bytes "UtxosSubmission"))) ++
  as_bytes (concat_strings
    (fmap (M:=list) (fun x => hex_encode (to_be_bytes 32 (Z.of_N (utxo_hash x)))) utxos)).
Definition verify_utxo_submission v (utxo_submission : UtxoSubmission) (signature : Signature)
    : BzValidity :=
  let '(mkUtxoSubmission authority_id utxos) := utxo_submission in
  if MAX_UTXOS_PER_SUBMISSION <? Z.of_nat (length utxos) then inl ExhaustsResources
  else
    and_then (bz_verify_authority v authority_id)
    (and_then (bz_verify_signature (utxos_message utxos) signature authority_id)
    (bz_valid "UtxosSubmission" (ProvidesSignature authority_id signature))).

Definition broadcast_message (txid : H256) : UnboundedBytes :=
  to_be_bytes 32 (Z.of_N (keccak_256 (as_bytes "BroadcastPoll"))) ++ to_be_bytes 32 (Z.of_N txid).
Definition verify_broadcast_submission v (broadcast_submission : BroadcastSubmission)
    (signature : Signature) : BzValidity :=
  let '(mkBroadcastSubmission authority_id txid) := broadcast_submission in
  and_then (bz_verify_authority v authority_id)
  (and_then (bz_verify_signature (broadcast_message txid) signature authority_id)
  (bz_valid "BroadcastPoll" (ProvidesBroadcast authority_id txid signature))).

Definition fee_rate_message (deadline lt_fee_rate fee_rate : Z) : UnboundedBytes :=
  as_bytes (concat_strings [display deadline; ":"; display lt_fee_rate; ":"; display fee_rate]).
Definition verify_submit_fee_rate v (fee_rate_submission : FeeRateSubmission) (signature : Signature)
    : BzValidity :=
  let '(mkFeeRateSubmission authority_id lt_fee_rate fee_rate deadline) := fee_rate_submission in
  and_then (bz_verify_authority v authority_id)
  (if deadline <? bv_now v then inl Stale
   else
     and_then (bz_verify_signature (fee_rate_message deadline lt_fee_rate fee_rate) signature authority_id)
     (bz_valid "FeeRateSubmission" (ProvidesFeeRate authority_id lt_fee_rate fee_rate signature))).

Definition messages_message (messages : list UnboundedBytes) : UnboundedBytes :=
  as_bytes (concat_strings (fmap (M:=list) (bytes2hex "0x") messages)).
Definition verify_submit_outbound_requests v (submission : SocketMessagesSubmission)
    (signature : Signature) : BzValidity :=
  let '(mkSocketMessagesSubmission authority_id messages) := submission in
  let max_bytes := get_max_socket_message_bytes (bv_socket_queue v) in
  if MAX_SOCKET_MESSAGES_PER_SUBMISSION <? Z.of_nat (length messages) then inl ExhaustsResources
  else if existsb (fun m => max_bytes <? Z.of_nat (length m)) messages then inl ExhaustsResources
  else
    and_then (bz_verify_authority v authority_id)
    (and_then (bz_verify_signature (messages_message messages) signature authority_id)
    (bz_valid "OutboundRequestSubmission" (ProvidesSignature authority_id signature))).
Definition verify_remove_outbound_messages v (submission : SocketMessagesSubmission)
    (signature : Signature) : BzValidity :=
  let '(mkSocketMessagesSubmission authority_id messages) := submission in
  and_then (sq_verify_authority (bv_socket_queue v) authority_id)
  (and_then (bz_verify_signature (messages_message messages) signature authority_id)
  (bz_valid "RemoveOutboundMessagesSubmission" (ProvidesSignature authority_id signature))).

Definition bz_validate_unsigned v (call : BzCall) : BzValidity :=
  match call with
  | CallSubmitUtxos submission signature => verify_utxo_submission v submission signature
  | CallBroadcastPoll submission signature => verify_broadcast_submission v submission signature
  | CallSubmitFeeRate submission signature => verify_submit_fee_rate v submission signature
  | CallSubmitOutboundRequests submission signature =>
      verify_submit_outbound_requests v submission signature
  | CallRemoveOutboundMessages submission signature =>
      verify_remove_outbound_messages v submission signature
  | CallBzOther => inl InvalidCall
  end.

(** The unsigned calls, and an unsigned extrinsic: the call runs when it is
    valid. *)
Definition bz_unsigned_call v (call : BzCall) : Blz unit :=
  match call with
  | CallSubmitUtxos submission _ => submit_utxos v NoneOrigin submission
  | CallBroadcastPoll submission _ => broadcast_poll v NoneOrigin submission
  | CallSubmitFeeRate submission _ => submit_fee_rate v NoneOrigin submission
  | CallSubmitOutboundRequests submission _ => submit_outbound_requests v NoneOrigin submission
  | CallRemoveOutboundMessages submission _ => remove_outbound_messages NoneOrigin submission
  | CallBzOther => ret tt
  end.
Definition bz_apply_unsigned v (call : BzCall) (s : BzStorage)
    : option (outcome DispatchError unit * BzStorage) :=
  match bz_validate_unsigned v call with
  | inl _ => None
  | inr _ => Some (dispatch (bz_unsigned_call v call) s)
  end.
End Pallet.

(** Blaze, with the relayers it reads, is the Blaze of the socket queue. *)
Definition with_relayers {R A} (m : Blz A) : M (R * BzStorage) DispatchError A :=
  lift snd (fun s b => (b.1, s)) m.
#[export] Instance Blaze_manager `{!BzConfig} {R : Type} `{!Authorities R} : BlazeManager (R * BzStorage) := {
  is_activated b := IsActivated b.2;
  bl_get_utxos b := get_utxos b.2;
  bl_clear_utxos := with_relayers clear_utxos;
  bl_lock_utxos txid inputs := with_relayers (lock_utxos txid inputs);
  bl_unlock_utxos txid := with_relayers (unlock_utxos txid);
  bl_extract_utxos_from_psbt psbt := with_relayers (extract_utxos_from_psbt psbt);
  get_outbound_pool b := OutboundPool b.2;
  bl_clear_outbound_pool targets := with_relayers (clear_outbound_pool targets);
  bl_try_fee_rate_finalization n := fun b =>
    with_relayers (try_fee_rate_finalization (mkBzView R unit unit b.1 tt tt n) n) b;
  bl_clear_fee_rates := with_relayers clear_fee_rates;
  bl_select_coins := select_coins;
  bl_handle_tolerance_counter is_increase := with_relayers (handle_tolerance_counter is_increase);
  bl_ensure_activation b := with_relayers (ensure_activation b);
  bl_replace_authority old new := with_relayers (bz_replace_authority old new)
}.
