(* ===== verification/SocketQueue.v ===== *)
(** * The Bitcoin socket queue

    [pallets/btc-socket-queue]: requests to sign a Bitcoin transaction (a
    PSBT), from their submission over the signatures of the relay executives
    to their broadcast. A request pays outbound messages, rolls an inbound
    transfer back or moves the funds to the next vault. While Blaze is active
    the pallet composes the transactions itself at the start of a block. *)

From S2P Require Import Prelude Errors Primitives Cccp BtcRelay.
Local Open Scope Z_scope.
Local Open Scope frame_scope.

(** ** Data *)

Definition CALL_GAS_LIMIT : Z := 1000000.
(** "986ba392" *)
Definition BITCOIN_SOCKET_TXS_FUNCTION_SELECTOR : string := "986ba392".

Record RollbackRequest : Type := mkRollbackRequest {
  rr_unsigned_psbt : UnboundedBytes;
  rr_who : AccountId;
  rr_txid : H256;
  rr_vout : U256;
  rr_to : BoundedBitcoinAddress;
  rr_amount : U256;
  rr_votes : gmap N bool;
  rr_is_approved : bool
}.
#[export] Instance RollbackRequest_rebuild : Rebuild RollbackRequest := fun r =>
  mkRollbackRequest (rr_unsigned_psbt r) (rr_who r) (rr_txid r) (rr_vout r) (rr_to r) (rr_amount r)
    (rr_votes r) (rr_is_approved r).
#[export] Instance f_rr_unsigned_psbt : Field rr_unsigned_psbt := ltac:(derive_field).
#[export] Instance f_rr_votes : Field rr_votes := ltac:(derive_field).
#[export] Instance f_rr_is_approved : Field rr_is_approved := ltac:(derive_field).

Definition new_rollback_request (unsigned_psbt : UnboundedBytes) (who : AccountId) (txid : H256)
    (vout : U256) (to : BoundedBitcoinAddress) (amount : U256) : RollbackRequest :=
  mkRollbackRequest unsigned_psbt who txid vout to amount ∅ false.
Definition rr_replace_authority (old new : AccountId) (r : RollbackRequest) : option RollbackRequest :=
  votes ← replace_key MAX_AUTHORITIES old new (rr_votes r); Some (r <| rr_votes := votes |>).

(** [RequestType::Normal], [Rollback] and [Migration] *)
Inductive RequestType : Type := NormalRequest | RollbackOf | Migration.
#[export] Instance RequestType_eq_dec : EqDecision RequestType.
Proof. solve_decision. Defined.

Record PsbtRequest : Type := mkPsbtRequest {
  pr_unsigned_psbt : UnboundedBytes;
  pr_combined_psbt : UnboundedBytes;
  pr_finalized_psbt : UnboundedBytes;
  pr_signed_psbts : gmap N UnboundedBytes;
  pr_socket_messages : list UnboundedBytes;
  pr_request_type : RequestType
}.
#[export] Instance PsbtRequest_rebuild : Rebuild PsbtRequest := fun r =>
  mkPsbtRequest (pr_unsigned_psbt r) (pr_combined_psbt r) (pr_finalized_psbt r) (pr_signed_psbts r)
    (pr_socket_messages r) (pr_request_type r).
#[export] Instance f_pr_combined_psbt : Field pr_combined_psbt := ltac:(derive_field).
#[export] Instance f_pr_finalized_psbt : Field pr_finalized_psbt := ltac:(derive_field).
#[export] Instance f_pr_signed_psbts : Field pr_signed_psbts := ltac:(derive_field).

Definition new_psbt_request (unsigned_psbt : UnboundedBytes) (socket_messages : list UnboundedBytes)
    (request_type : RequestType) : PsbtRequest :=
  mkPsbtRequest unsigned_psbt unsigned_psbt [] ∅ socket_messages request_type.
Definition is_signed_psbt_submitted (r : PsbtRequest) (psbt : UnboundedBytes) : bool :=
  existsb (fun kv => bool_decide (kv.2 = psbt)) (acc_iter (pr_signed_psbts r)).
Definition is_unsigned_psbt (r : PsbtRequest) (psbt : UnboundedBytes) : bool :=
  bool_decide (pr_unsigned_psbt r = psbt).
Definition set_combined_psbt (psbt : UnboundedBytes) (r : PsbtRequest) : PsbtRequest :=
  r <| pr_combined_psbt := psbt |>.
Definition set_finalized_psbt (psbt : UnboundedBytes) (r : PsbtRequest) : PsbtRequest :=
  r <| pr_finalized_psbt := psbt |>.
Definition pr_replace_authority (old new : AccountId) (r : PsbtRequest) : option PsbtRequest :=
  psbts ← replace_key MULTI_SIG_MAX_ACCOUNTS old new (pr_signed_psbts r);
  Some (r <| pr_signed_psbts := psbts |>).

Record UnsignedPsbtMessage : Type := mkUnsignedPsbtMessage {
  um_authority_id : AccountId;
  um_outputs : list (BoundedBitcoinAddress * list UnboundedBytes);
  um_psbt : UnboundedBytes
}.
Record SignedPsbtMessage : Type := mkSignedPsbtMessage {
  sp_authority_id : AccountId; sp_unsigned_psbt : UnboundedBytes; sp_signed_psbt : UnboundedBytes
}.
Record ExecutedPsbtMessage : Type := mkExecutedPsbtMessage {
  ep_authority_id : AccountId; ep_txid : H256
}.
Record RollbackPsbtMessage : Type := mkRollbackPsbtMessage {
  rm_who : AccountId; rm_txid : H256; rm_vout : U256; rm_amount : U256; rm_unsigned_psbt : UnboundedBytes
}.
Record RollbackPollMessage : Type := mkRollbackPollMessage {
  po_authority_id : AccountId; po_txid : H256; po_is_approved : bool
}.

Record HashKeyRequest : Type := mkHashKeyRequest {
  hk_tx_hash : UnboundedBytes; hk_index : U256; hk_to : H160; hk_amount : U256
}.
Definition HashKeyRequest_encode `{EthAbi} (r : HashKeyRequest) : UnboundedBytes :=
  abi_encode [TFixedBytes (hk_tx_hash r); TUint (hk_index r); TAddress (hk_to r); TUint (hk_amount r)].

Record TxInfo : Type := mkTxInfo {
  ti_to : H160; ti_amount : U256; ti_vote_count : U256; ti_request_id : RequestID
}.
Definition TxInfo_try_from (token : list Token) : option TxInfo :=
  match token with
  | [t0; t1; t2; t3] =>
      to ← to_address t0; amount ← to_uint t1; vote_count ← to_uint t2;
      request_id ← (to_tuple t3 ≫= RequestID_try_from);
      Some (mkTxInfo to amount vote_count request_id)
  | _ => None
  end.
Definition TxInfo_kinds : list ParamKind :=
  [KAddress; KUint 256; KUint 256; KTuple [KFixedBytes 4; KUint 64; KUint 128]].

Inductive SocketQueueEvent : Type :=
| EvUnsignedPsbtSubmitted (txid : H256)
| EvSignedPsbtSubmitted (txid : H256) (authority_id : AccountId)
| EvBumpFeePsbtSubmitted (old_txid new_txid : H256)
| EvMigrationPsbtSubmitted (txid : H256)
| EvRollbackPsbtSubmitted (txid : H256)
| EvRollbackPollSubmitted (txid : H256) (authority_id : AccountId) (is_approved : bool)
| EvRollbackApproved (txid : H256)
| EvRequestFinalized (txid : H256)
| EvRequestExecuted (txid : H256)
| EvAuthoritySet (new : AccountId)
| EvSocketSet (new : AccountId) (is_bitcoin : bool)
| EvMaxFeeRateSet (new : Z)
| EvMaxSocketMessageBytesSet (new : Z)
| EvBroadcastConfirmed (txid : H256) (authority_id : AccountId).

(** ** Storage *)

Record SqStorage : Type := mkSqStorage {
  Socket : option AccountId;
  BitcoinSocket : option AccountId;
  Authority : option AccountId;
  SocketMessages : gmap Z (H256 * SocketMessage);
  PendingRequests : gmap N PsbtRequest;
  FinalizedRequests : gmap N PsbtRequest;
  ExecutedRequests : gmap N PsbtRequest;
  RollbackRequests : gmap N RollbackRequest;
  BondedOutboundTx : gmap N (list UnboundedBytes);
  BondedRollbackOutputs : gmap (N * Z) H256;
  MaxFeeRate : Z;
  MaxSocketMessageBytes : Z;
  BroadcastConfirmations : gmap N (gmap N bool);
  SqEvents : list SocketQueueEvent
}.
#[export] Instance SqStorage_rebuild : Rebuild SqStorage := fun r =>
  mkSqStorage (Socket r) (BitcoinSocket r) (Authority r) (SocketMessages r) (PendingRequests r)
    (FinalizedRequests r) (ExecutedRequests r) (RollbackRequests r) (BondedOutboundTx r)
    (BondedRollbackOutputs r) (MaxFeeRate r) (MaxSocketMessageBytes r) (BroadcastConfirmations r)
    (SqEvents r).
#[export] Instance f_Socket : Field Socket := ltac:(derive_field).
#[export] Instance f_BitcoinSocket : Field BitcoinSocket := ltac:(derive_field).
#[export] Instance f_Authority : Field Authority := ltac:(derive_field).
#[export] Instance f_SocketMessages : Field SocketMessages := ltac:(derive_field).
#[export] Instance f_PendingRequests : Field PendingRequests := ltac:(derive_field).
#[export] Instance f_FinalizedRequests : Field FinalizedRequests := ltac:(derive_field).
#[export] Instance f_ExecutedRequests : Field ExecutedRequests := ltac:(derive_field).
#[export] Instance f_RollbackRequests : Field RollbackRequests := ltac:(derive_field).
#[export] Instance f_BondedOutboundTx : Field BondedOutboundTx := ltac:(derive_field).
#[export] Instance f_BondedRollbackOutputs : Field BondedRollbackOutputs := ltac:(derive_field).
#[export] Instance f_MaxFeeRate : Field MaxFeeRate := ltac:(derive_field).
#[export] Instance f_MaxSocketMessageBytes : Field MaxSocketMessageBytes := ltac:(derive_field).
#[export] Instance f_BroadcastConfirmations : Field BroadcastConfirmations := ltac:(derive_field).
#[export] Instance f_SqEvents : Field SqEvents := ltac:(derive_field).

(** The [Config] of the pallet: libraries and constants. *)
Class SqConfig := {
  #[global] sq_lib :: BtcLib;
  #[global] sq_psbt :: PsbtLib;
  #[global] sq_crypto :: Crypto;
  #[global] sq_abi :: EthAbi;
  (** [FeeRate::from_sat_per_vb(rate).is_some()] *)
  from_sat_per_vb : Z -> bool;
  DefaultMaxFeeRate : Z;
  DefaultMaxSocketMessageBytes : Z;
  (** [ChainId::get()], a [u64] *)
  ChainId : Z
}.

(** What a call reads of the chain: the relayers, the relay executives and the
    contracts of the EVM ([Runner::call] of a source, a target and the data of
    the call). *)
Record SqView {R : Type} : Type := mkSqView {
  qv_relayers : R;
  qv_executives : list AccountId;
  qv_evm_call : AccountId -> AccountId -> UnboundedBytes -> option UnboundedBytes
}.
Arguments SqView R : clear implicits.

(** The pallets a call of the queue writes: its own, the registration pool and
    Blaze. *)
Record SqWorld {P B : Type} : Type := mkSqWorld { sw_queue : SqStorage; sw_pool : P; sw_blaze : B }.
Arguments SqWorld P B : clear implicits.

(** A parser's result, its error replaced by [e]. *)
Definition sq_map_err {S A} (o : outcome unit A) (e : SocketQueueError) : M S DispatchError A :=
  match o with Done a => ret a | Fail _ => fail (SockQ e) | Trap => trap end.
(** [unwrap()] of a result *)
Definition unwrap {S A} (m : M S DispatchError A) : M S DispatchError A :=
  let* r := attempt m in match r with inr a => ret a | inl _ => trap end.
(** [U256::as_u64]: panics on a larger number *)
Definition as_u64 (v : U256) : option Z := if v <? u64_modulus then Some v else None.
(** [checked_add] and [checked_sub] of [u64] and of [Amount] *)
Definition u64_checked_add (a b : Z) : option Z := if a + b <? u64_modulus then Some (a + b) else None.
Definition u64_checked_sub (a b : Z) : option Z := if b <=? a then Some (a - b) else None.
Definition u64_sat_mul (a b : Z) : Z := Z.min (a * b) (u64_modulus - 1).
(** [v.iter().sum::<u64>()] *)
Definition u64_total (l : list Z) : Z := foldl u64_add 0 l.
Definition convert_txid (txid : UnboundedBytes) : H256 := Z.to_N (from_be_bytes (rev txid)).

Section Pallet.
Context `{!SqConfig} {R P B : Type} `{!Authorities R, !PoolManager P, !BlazeManager B}.
Implicit Types v : SqView R.

(** ** The monad of the pallet *)

Abbreviation Sq A := (M (SqWorld P B) DispatchError A).
(** An operation of the queue itself, and one of Blaze *)
Definition own {A} (m : M SqStorage DispatchError A) : Sq A :=
  lift sw_queue (fun q w => mkSqWorld _ _ q (sw_pool w) (sw_blaze w)) m.
Definition in_blaze {A} (m : M B DispatchError A) : Sq A :=
  lift sw_blaze (fun b w => mkSqWorld _ _ (sw_queue w) (sw_pool w) b) m.
Definition in_pool (f : P -> P) : Sq unit :=
  modify (fun w => mkSqWorld _ _ (sw_queue w) (f (sw_pool w)) (sw_blaze w)).
Definition skput {A} (f : SqStorage -> A) `{!Field f} (x : A) : Sq unit := own (modify (fun s => s <| f := x |>)).
Definition skmutate {A} (f : SqStorage -> A) `{!Field f} (g : A -> A) : Sq unit :=
  own (modify (fun s => s <| f ::= g |>)).
Definition sq_deposit (e : SocketQueueEvent) : Sq unit := skmutate SqEvents (fun l => l ++ [e]).
(** [contains_key] *)
Definition absent {V} (m : gmap N V) (k : N) : bool := bool_decide (m !! k = None).

(** ** [impls.rs]: conversions *)

Definition try_psbt_finalization (combined : Psbt) : Sq Psbt :=
  ok_or (psbt_finalize combined) (SockQ SqCannotFinalizePsbt).
Definition try_psbt_combination (combined signed : Psbt) : Sq Psbt :=
  ok_or (psbt_combine combined signed) (SockQ SqInvalidPsbt).
Definition try_get_checked_psbt (psbt : UnboundedBytes) : Sq Psbt :=
  ok_or (psbt_deserialize psbt) (SockQ SqInvalidPsbt).

Definition try_convert_to_address_from_script (script : ScriptBuf) : Sq Address :=
  let* w := gets id in
  ok_or (address_from_script script (get_bitcoin_network (sw_pool w))) (SockQ SqInvalidBitcoinAddress).
Definition address_from_vec (addr : BoundedBitcoinAddress) : option Address :=
  from_utf8 addr ≫= address_from_str.
Definition try_convert_to_address_from_vec (addr : BoundedBitcoinAddress) : Sq Address :=
  ok_or (address_from_vec addr) (SockQ SqInvalidBitcoinAddress).
(** The address of an output, as a bounded vector *)
Definition output_address (output : TxOut) : Sq BoundedBitcoinAddress :=
  let* a := try_convert_to_address_from_script (txo_script_pubkey output) in
  ok_or (bounded_address (address_to_string a)) (SockQ SqInvalidBitcoinAddress).
(** The system vault of the current round *)
Definition current_system_vault : Sq BoundedBitcoinAddress :=
  let* w := gets id in
  ok_or (get_system_vault (sw_pool w) (get_current_round (sw_pool w))) (SockQ SqSystemVaultDNE).

Definition sq_hash_bytes (bytes : UnboundedBytes) : H256 := keccak_256 bytes.

(** ** [impls.rs]: calls of contracts *)

Definition try_evm_call v (source target : AccountId) (calldata : string) : Sq UnboundedBytes :=
  let* data := ok_or (hex2bytes calldata) (SockQ SqInvalidCalldata) in
  ok_or (qv_evm_call v source target data) (SockQ SqInvalidCalldata).

Definition sq_try_get_request v (req_id : UnboundedBytes) : Sq RequestInfo :=
  let* w := gets id in
  let* caller := ok_or (Authority (sw_queue w)) (SockQ SqAuthorityDNE) in
  let* socket := ok_or (Socket (sw_queue w)) (SockQ SqSocketDNE) in
  let calldata := String.append SOCKET_GET_REQUEST_FUNCTION_SELECTOR (bytes2hex "" req_id) in
  let* info := try_evm_call v caller socket calldata in
  sq_map_err (RequestInfo_try_from info) SqInvalidRequestInfo.

Definition generate_hash_key (txid : H256) (vout : U256) (who : AccountId) (amount : U256) : H256 :=
  sq_hash_bytes (HashKeyRequest_encode
    (mkHashKeyRequest (to_be_bytes 32 (Z.of_N txid)) vout who amount)).

Definition try_decode_tx_info (info : UnboundedBytes) : option TxInfo :=
  abi_decode TxInfo_kinds info ≫= TxInfo_try_from.
Definition try_get_tx_info v (hash_key : H256) : Sq TxInfo :=
  let* w := gets id in
  let* caller := ok_or (Authority (sw_queue w)) (SockQ SqAuthorityDNE) in
  let* bitcoin_socket := ok_or (BitcoinSocket (sw_queue w)) (SockQ SqSocketDNE) in
  let calldata := String.append BITCOIN_SOCKET_TXS_FUNCTION_SELECTOR
                    (bytes2hex "" (to_be_bytes 32 (Z.of_N hash_key))) in
  let* info := try_evm_call v caller bitcoin_socket calldata in
  ok_or (try_decode_tx_info info) (SockQ SqInvalidTxInfo).

(** The index of the only token that goes to Bitcoin, on the two chains *)
Definition expected_token_idx0 (chain_id : Z) : option UnboundedBytes :=
  if chain_id =? 3068 then
    Some (fmap (M:=list) byte_of
      [0; 0; 0; 3; 0; 0; 0; 3; 0; 0; 11; 252; 203; 78; 79; 103; 179; 62; 235;
       252; 23; 200; 44; 246; 232; 192; 181; 109; 38; 154; 235; 121])
  else if chain_id =? 49088 then
    Some (fmap (M:=list) byte_of
      [0; 0; 0; 3; 0; 0; 0; 3; 0; 0; 191; 192; 224; 2; 48; 107; 143; 223; 150;
       4; 78; 239; 135; 12; 197; 0; 241; 94; 17; 239; 78; 170])
  else None.

Definition sq_verify_socket_message v (original_msg : UnboundedBytes) : Sq unit :=
  let* msg := sq_map_err (SocketMessage_try_from original_msg) SqInvalidSocketMessage in
  do* ensure (bool_decide (SocketMessage_encode msg = original_msg)) (SockQ SqInvalidSocketMessage) in
  let msg_hash := sq_hash_bytes (UserRequest_encode (mkUserRequest (sm_ins_code msg) (sm_params msg))) in
  let* request_info := sq_try_get_request v (encode_req_id msg) in
  do* ensure (is_msg_hash request_info msg_hash) (SockQ SqInvalidSocketMessage) in
  let* accepted := expect (ri_is_accepted request_info) in
  do* ensure (accepted && is_accepted msg) (SockQ SqInvalidSocketMessage) in
  let chain_id := ChainId mod u32_modulus in
  let* w := gets id in
  do* ensure (is_bitcoin_outbound msg chain_id (get_bitcoin_chain_id (sw_pool w)))
        (SockQ SqInvalidSocketMessage) in
  let* expected := ok_or (expected_token_idx0 chain_id) (SockQ SqInvalidSocketMessage) in
  do* ensure (bool_decide (tp_token_idx0 (sm_params msg) = expected)) (SockQ SqInvalidSocketMessage) in
  ensure (bool_decide (SocketMessages (sw_queue w) !! rid_sequence (sm_req_id msg) = None))
    (SockQ SqSocketMessageAlreadySubmitted).

(** ** [impls.rs]: checks of transactions *)

Definition estimate_finalized_vb (psbt : Psbt) : Sq Z :=
  let* total_vb :=
    fold_each (imap (fun i input => (i, input)) (psbt_inputs psbt)) 10 (fun total_vb i =>
      let* txin := ok_or (unsigned_inputs psbt !! i.1) (SockQ SqInvalidPsbt) in
      let* script := ok_or (witness_script i.2) (SockQ SqInvalidPsbt) in
      let* input_vb := ok_or (estimate_finalized_input_size script (Some txin)) (SockQ SqInvalidPsbt) in
      ret (u64_add total_vb input_vb)) in
  ret (u64_add total_vb (u64_total (fmap (M:=list) txout_vbytes (unsigned_outputs psbt)))).

(** [fee / estimated_vb] panics on zero. *)
Definition try_psbt_fee_verification (psbt : Psbt) : Sq unit :=
  let* fee := ok_or (psbt_fee psbt) (SockQ SqInvalidPsbt) in
  let* estimated_vb := estimate_finalized_vb psbt in
  let* fee_rate := expect (if estimated_vb =? 0 then None else Some (fee / estimated_vb)) in
  let* w := gets id in
  ensure (fee_rate <=? MaxFeeRate (sw_queue w)) (SockQ SqInvalidFeeRate).

(** The amounts of a transaction by address *)
Definition outputs_map (outputs : list TxOut) : Sq (gmap (list byte) Z) :=
  fold_each outputs ∅ (fun m output =>
    let* to := output_address output in ret (<[to := txo_value output]> m)).

(** An output of a replacing transaction, [None] where the old one has no
    output for its address *)
Definition bump_output_ok (request_type : RequestType) (system_vault to : BoundedBitcoinAddress)
    (old_amount : option Z) (new_amount fee_diff : Z) : bool :=
  match old_amount with
  | Some old_amount =>
      (new_amount <=? old_amount) &&
      let amount_diff := old_amount - new_amount in
      match request_type with
      | Migration => negb (bool_decide (to = system_vault) && negb (fee_diff =? amount_diff))
      | RollbackOf => negb (negb (bool_decide (to = system_vault)) && negb (fee_diff =? amount_diff))
      | NormalRequest => negb (negb (bool_decide (to = system_vault)) && negb (new_amount =? old_amount))
      end
  | None => negb (bool_decide (request_type = Migration)) && bool_decide (to = system_vault)
  end.

Definition try_bump_fee_psbt_verification (old_psbt new_psbt : Psbt) (request_type : RequestType)
    : Sq unit :=
  let* system_vault := current_system_vault in
  do* ensure (Z.abs (Z.of_nat (length (unsigned_outputs new_psbt))
                     - Z.of_nat (length (unsigned_outputs old_psbt))) <=? 1) (SockQ SqInvalidPsbt) in
  do* for_each (unsigned_inputs old_psbt) (fun input =>
        ensure (bool_decide (input ∈ unsigned_inputs new_psbt)) (SockQ SqInvalidPsbt)) in
  let* old_fee := ok_or (psbt_fee old_psbt) (SockQ SqInvalidPsbt) in
  let* new_fee := ok_or (psbt_fee new_psbt) (SockQ SqInvalidPsbt) in
  do* ensure (old_fee <? new_fee) (SockQ SqInvalidPsbt) in
  let* old_outputs_map := outputs_map (unsigned_outputs old_psbt) in
  for_each (unsigned_outputs new_psbt) (fun output =>
    let* to := output_address output in
    ensure (bump_output_ok request_type system_vault to (old_outputs_map !! to) (txo_value output)
              (new_fee - old_fee)) (SockQ SqInvalidPsbt)).

(** The messages read so far: parsed, as bytes, and their sequences *)
Record Msgs : Type := mkMsgs {
  ms_deserialized : list SocketMessage; ms_serialized : list UnboundedBytes; ms_sequences : list U256
}.

(** A message of an output to the address [to], and the amount with it *)
Definition verify_output_message v (to : BoundedBitcoinAddress) (acc : Msgs * U256)
    (serialized_msg : UnboundedBytes) : Sq (Msgs * U256) :=
  let '(mkMsgs deserialized serialized sequences, amount) := acc in
  let* msg := sq_map_err (SocketMessage_try_from serialized_msg) SqInvalidSocketMessage in
  let sequence := rid_sequence (sm_req_id msg) in
  do* ensure (negb (bool_decide (sequence ∈ sequences))) (SockQ SqInvalidSocketMessage) in
  do* sq_verify_socket_message v serialized_msg in
  let* w := gets id in
  let* refund := ok_or (get_refund_address (sw_pool w) (tp_to (sm_params msg))) (SockQ SqUserDNE) in
  do* ensure (bool_decide (to = refund)) (SockQ SqInvalidSocketMessage) in
  let* amount := ok_or (u256_checked_add amount (tp_amount (sm_params msg))) (SockQ SqU256OverFlowed) in
  ret (mkMsgs (deserialized ++ [msg]) (serialized ++ [serialized_msg]) (sequences ++ [sequence]), amount).

Definition verify_output v (system_vault : BoundedBitcoinAddress) (n_outputs : nat)
    (unchecked_outputs_map : gmap (list byte) (list UnboundedBytes)) (acc : Msgs) (output : TxOut)
    : Sq Msgs :=
  let* to := output_address output in
  let* socket_messages := ok_or (unchecked_outputs_map !! to) (SockQ SqInvalidUncheckedOutput) in
  if bool_decide (to = system_vault) then
    do* ensure (negb (Nat.eqb n_outputs 1)) (SockQ SqInvalidPsbt) in
    do* ensure (bool_decide (socket_messages = [])) (SockQ SqInvalidUncheckedOutput) in
    ret acc
  else
    let* '(acc, amount) := fold_each socket_messages (acc, 0) (verify_output_message v to) in
    do* ensure (txo_value output =? amount) (SockQ SqInvalidPsbt) in
    ret acc.

Definition try_psbt_output_verification v (psbt : Psbt)
    (unchecked_outputs : list (BoundedBitcoinAddress * list UnboundedBytes))
    : Sq (list SocketMessage * list UnboundedBytes) :=
  let psbt_outputs := unsigned_outputs psbt in
  do* ensure (Nat.eqb (length psbt_outputs) (length unchecked_outputs)) (SockQ SqInvalidPsbt) in
  do* ensure (negb (Nat.ltb (length psbt_outputs) 1)) (SockQ SqInvalidPsbt) in
  let* system_vault := current_system_vault in
  let unchecked_outputs_map := list_to_map (rev unchecked_outputs) in
  let* msgs := fold_each psbt_outputs (mkMsgs [] [] [])
                 (verify_output v system_vault (length psbt_outputs) unchecked_outputs_map) in
  ret (ms_deserialized msgs, ms_serialized msgs).

(** ** [impls.rs]: the transactions of Blaze *)

(** The messages of users that are not registered any more, and the others
    with the script of their refund address, with one more message *)
Definition filter_outbound (acc : list UnboundedBytes * list (SocketMessage * ScriptBuf))
    (x : UnboundedBytes) : Sq (list UnboundedBytes * list (SocketMessage * ScriptBuf)) :=
  let '(unregistered, outbound_requests) := acc in
  match SocketMessage_try_from x with
  | Done msg =>
      let* w := gets id in
      match get_refund_address (sw_pool w) (tp_to (sm_params msg)) with
      | Some refund =>
          let* a := unwrap (try_convert_to_address_from_vec refund) in
          ret (unregistered, outbound_requests ++ [(msg, script_pubkey a)])
      | None => ret (unregistered ++ [x], outbound_requests)
      end
  | Fail _ => ret (unregistered ++ [x], outbound_requests)
  | Trap => trap
  end.
Definition filter_unregistered_outbounds (outbound_pool : list UnboundedBytes)
    : Sq (list UnboundedBytes * list (SocketMessage * ScriptBuf)) :=
  let* '(unregistered, outbound_requests) := fold_each outbound_pool ([], []) filter_outbound in
  ret (filter (fun x => x ∉ unregistered) outbound_pool, outbound_requests).

(** [*merged_output.entry(script).or_insert(0) += value], the map as the list
    of its entries; the sum of amounts panics when it overflows. *)
Fixpoint merge_entry (script : ScriptBuf) (value : Z) (merged_output : list (ScriptBuf * Z))
    : option (list (ScriptBuf * Z)) :=
  match merged_output with
  | [] => Some [(script, value)]
  | (s, old) :: rest =>
      if bool_decide (s = script) then sum ← u64_checked_add old value; Some ((s, sum) :: rest)
      else rest ← merge_entry script value rest; Some ((s, old) :: rest)
  end.
(** The entries in the order of the map *)
Definition merge_outputs (outbound_requests : list (SocketMessage * ScriptBuf))
    : Sq (list (ScriptBuf * Z)) :=
  let* merged_output :=
    fold_each outbound_requests [] (fun merged_output x =>
      let* value := expect (as_u64 (tp_amount (sm_params x.1))) in
      expect (merge_entry x.2 value merged_output)) in
  ret (stable_sort (fun a b => ScriptBuf_leb a.1 b.1) merged_output).

Definition composed_input (x : UtxoInfoWithSize) : TxIn :=
  new_txin (rev (to_be_bytes 32 (Z.of_N (us_txid x)))) (us_vout x).
Definition composed_psbt_input (x : UtxoInfoWithSize) : Sq PsbtInput :=
  let* descriptor := expect (descriptor_from_str (us_descriptor x)) in
  let* script := expect (script_code descriptor) in
  ret (new_psbt_input (mkTxOut (us_amount x) (descriptor_script_pubkey descriptor)) script
         (descriptor_keys descriptor)).

(** The change of a selection by the knapsack, [None] where the code returns
    without a transaction *)
Definition with_change (selected_utxos : list UtxoInfoWithSize) (target fee_rate : Z)
    (output : list TxOut) : Sq (option (list TxOut)) :=
  let input_sum := u64_total (fmap (M:=list) us_amount selected_utxos) in
  let input_size_sum := u64_total (fmap (M:=list) us_input_vbytes selected_utxos) in
  let output_size_sum := u64_add (u64_total (fmap (M:=list) txout_size output)) 43 in
  let estimated_size := u64_add (u64_add 11 input_size_sum) output_size_sum in
  let fee := u64_sat_mul fee_rate estimated_size in
  match v ← u64_checked_sub input_sum target; u64_checked_sub v fee with
  | Some change_amount =>
      if DUST_LIMIT <? change_amount then
        let* w := gets id in
        let p := sw_pool w in
        ret (vault ← get_system_vault p (get_current_round p);
             a ← address_from_vec vault;
             Some (output ++ [mkTxOut change_amount (script_pubkey a)]))
      else ret (Some output)
  | None => ret (Some output)
  end.

Definition composite_psbt (selected_utxos : list UtxoInfoWithSize)
    (outbound_requests : list (SocketMessage * ScriptBuf)) (target fee_rate : Z)
    (selection_strategy : SelectionStrategy) : Sq (option Psbt) :=
  let input := fmap (M:=list) composed_input selected_utxos in
  let* merged_output := merge_outputs outbound_requests in
  let output := fmap (M:=list) (fun e => mkTxOut e.2 e.1)
                  (filter (fun e => DUST_LIMIT < e.2) merged_output) in
  if bool_decide (length output = 0%nat) then ret None
  else
    let* output :=
      if bool_decide (selection_strategy = Knapsack) then
        with_change selected_utxos target fee_rate output
      else ret (Some output) in
    match output with
    | None => ret None
    | Some output =>
        match from_unsigned_tx input output with
        | Some psbt =>
            let* psbt_inputs :=
              fold_each selected_utxos [] (fun l x => let* i := composed_psbt_input x in ret (l ++ [i])) in
            ret (Some (with_inputs psbt_inputs (length output) psbt))
        | None => ret None
        end
    end.

(** ** [on_initialize] *)

(** The sum of the amounts of the messages *)
Definition outbound_amount_sum (outbound_requests : list (SocketMessage * ScriptBuf)) : Sq Z :=
  fold_each outbound_requests 0 (fun sum x =>
    let* amount := expect (as_u64 (tp_amount (sm_params x.1))) in ret (u64_add sum amount)).
(** The size of an output for each script *)
Definition output_vbytes (outbound_requests : list (SocketMessage * ScriptBuf)) : Z :=
  u64_total (fmap (M:=list) (fun s => u64_add 9 (script_len s)) (remove_dups outbound_requests.*2)).
Definition score_utxo (long_term_fee_rate fee_rate : Z) (x : UtxoInfoWithSize) : option ScoredUtxo :=
  let fee := u64_mul (us_input_vbytes x) fee_rate in
  if us_amount x <? fee then None
  else Some (mkScoredUtxo x fee (u64_mul (us_input_vbytes x) long_term_fee_rate) (us_amount x - fee)).

(** The composed transaction is recorded, its messages are bonded to it, its
    coins are locked. *)
Definition record_composed (psbt : Psbt) (filtered_outbound_pool : list UnboundedBytes)
    (selected_utxos : list UtxoInfoWithSize) : Sq unit :=
  let txid := convert_txid (compute_txid psbt) in
  do* skmutate PendingRequests
        <[txid := new_psbt_request (psbt_serialize psbt) filtered_outbound_pool NormalRequest]> in
  do* sq_deposit (EvUnsignedPsbtSubmitted txid) in
  do* for_each filtered_outbound_pool (fun msg =>
        let* msg := unwrap (sq_map_err (SocketMessage_try_from msg) SqInvalidSocketMessage) in
        skmutate SocketMessages <[rid_sequence (sm_req_id msg) := (txid, msg)]>) in
  do* in_blaze bl_clear_fee_rates in
  do* in_blaze (bl_clear_outbound_pool filtered_outbound_pool) in
  do* unwrap (in_blaze (bl_lock_utxos txid selected_utxos)) in
  in_blaze (bl_handle_tolerance_counter false).

(** The outbound pool is paid at the rates [(long_term_fee_rate, fee_rate)]. *)
Definition pay_outbound_pool (long_term_fee_rate fee_rate : Z) : Sq unit :=
  let* w := gets id in
  let outbound_pool := get_outbound_pool (sw_blaze w) in
  if bool_decide (outbound_pool = []) then ret tt
  else
    let* '(filtered_outbound_pool, outbound_requests) := filter_unregistered_outbounds outbound_pool in
    if bool_decide (filtered_outbound_pool = []) then ret tt
    else
      let utxos := bl_get_utxos (sw_blaze w) in
      let* outbound_amount_sum := outbound_amount_sum outbound_requests in
      let blaze_vault_sum := u64_total (fmap (M:=list) us_amount utxos) in
      if blaze_vault_sum <=? outbound_amount_sum then in_blaze (bl_handle_tolerance_counter true)
      else
        let base_fee := u64_mul fee_rate (u64_add 11 (output_vbytes outbound_requests)) in
        let target := u64_sat_add outbound_amount_sum base_fee in
        let scored_utxos := omap (score_utxo long_term_fee_rate fee_rate) utxos in
        match bl_select_coins scored_utxos target (u64_mul 43 fee_rate) 200000 100000 DUST_LIMIT with
        | None => in_blaze (bl_handle_tolerance_counter true)
        | Some (selected_utxos, strategy) =>
            let* psbt := composite_psbt selected_utxos outbound_requests outbound_amount_sum fee_rate
                           strategy in
            match psbt with
            | None => in_blaze (bl_handle_tolerance_counter true)
            | Some psbt => record_composed psbt filtered_outbound_pool selected_utxos
            end
        end.

Definition sq_on_initialize (n : BlockNumber) : Sq unit :=
  let* w := gets id in
  if is_activated (sw_blaze w) && bool_decide (get_service_state (sw_pool w) = Normal) then
    do* in_pool process_set_refunds in
    let* rates := in_blaze (bl_try_fee_rate_finalization n) in
    match rates with
    | Some (long_term_fee_rate, fee_rate) => pay_outbound_pool long_term_fee_rate fee_rate
    | None => ret tt
    end
  else ret tt.

Definition sq_genesis_build (authority : option AccountId) (s : SqStorage) : SqStorage :=
  let s := match authority with Some a => s <| Authority := Some a |> | None => s end in
  s <| MaxFeeRate := DefaultMaxFeeRate |> <| MaxSocketMessageBytes := DefaultMaxSocketMessageBytes |>.

(** ** The calls *)

Definition set_authority (origin : Origin) (new : AccountId) : Sq unit :=
  do* ensure_root origin in
  let* w := gets id in
  do* ensure (negb (bool_decide (Authority (sw_queue w) = Some new))) (SockQ SqNoWritingSameValue) in
  do* skput Authority (Some new) in
  sq_deposit (EvAuthoritySet new).

Definition sq_set_socket (origin : Origin) (new : AccountId) (is_bitcoin : bool) : Sq unit :=
  do* ensure_root origin in
  let* w := gets id in
  if is_bitcoin then
    do* ensure (negb (bool_decide (BitcoinSocket (sw_queue w) = Some new))) (SockQ SqNoWritingSameValue) in
    do* skput BitcoinSocket (Some new) in
    sq_deposit (EvSocketSet new is_bitcoin)
  else
    do* ensure (negb (bool_decide (Socket (sw_queue w) = Some new))) (SockQ SqNoWritingSameValue) in
    do* skput Socket (Some new) in
    sq_deposit (EvSocketSet new is_bitcoin).

(** [ensure!(state, UnderMaintenance)] *)
Definition ensure_service_state (state : MigrationSequence) : Sq unit :=
  let* w := gets id in
  ensure (bool_decide (get_service_state (sw_pool w) = state)) (SockQ SqUnderMaintenance).
(** No request of the transaction is pending, finalized or executed. *)
Definition ensure_no_request (txid : H256) : Sq unit :=
  let* w := gets id in
  do* ensure (absent (PendingRequests (sw_queue w)) txid) (SockQ SqRequestAlreadyExists) in
  do* ensure (absent (FinalizedRequests (sw_queue w)) txid) (SockQ SqRequestAlreadyExists) in
  ensure (absent (ExecutedRequests (sw_queue w)) txid) (SockQ SqRequestAlreadyExists).
Definition ensure_no_rollback (txid : H256) : Sq unit :=
  let* w := gets id in
  ensure (absent (RollbackRequests (sw_queue w)) txid) (SockQ SqRequestAlreadyExists).

Definition submit_unsigned_psbt v (origin : Origin) (msg : UnsignedPsbtMessage) : Sq unit :=
  do* ensure_none origin in
  do* in_blaze (bl_ensure_activation false) in
  let '(mkUnsignedPsbtMessage _ outputs psbt) := msg in
  do* ensure_service_state Normal in
  let* psbt_obj := try_get_checked_psbt psbt in
  let txid := convert_txid (compute_txid psbt_obj) in
  do* try_psbt_fee_verification psbt_obj in
  do* ensure_no_request txid in
  do* ensure_no_rollback txid in
  let* '(deserialized_msgs, serialized_msgs) := try_psbt_output_verification v psbt_obj outputs in
  do* for_each deserialized_msgs (fun msg =>
        skmutate SocketMessages <[rid_sequence (sm_req_id msg) := (txid, msg)]>) in
  do* skmutate PendingRequests <[txid := new_psbt_request psbt serialized_msgs NormalRequest]> in
  sq_deposit (EvUnsignedPsbtSubmitted txid).

Definition submit_signed_psbt (origin : Origin) (msg : SignedPsbtMessage) : Sq unit :=
  do* ensure_none origin in
  let '(mkSignedPsbtMessage authority_id unsigned_psbt signed_psbt) := msg in
  let* unsigned_psbt_obj := try_get_checked_psbt unsigned_psbt in
  let* signed_psbt_obj := try_get_checked_psbt signed_psbt in
  let txid := convert_txid (compute_txid unsigned_psbt_obj) in
  let* w := gets id in
  let* pending_request := ok_or (PendingRequests (sw_queue w) !! txid) (SockQ SqRequestDNE) in
  do* ensure (negb (is_signed_psbt_submitted pending_request signed_psbt))
        (SockQ SqSignedPsbtAlreadySubmitted) in
  do* ensure (negb (is_unsigned_psbt pending_request signed_psbt)) (SockQ SqInvalidPsbt) in
  let* combined := try_get_checked_psbt (pr_combined_psbt pending_request) in
  let* combined_psbt_obj := try_psbt_combination combined signed_psbt_obj in
  let pending_request := set_combined_psbt (psbt_serialize combined_psbt_obj) pending_request in
  let* signed_psbts := ok_or (try_insert_map MULTI_SIG_MAX_ACCOUNTS authority_id signed_psbt
                                (pr_signed_psbts pending_request)) (SockQ SqOutOfRange) in
  let pending_request := pending_request <| pr_signed_psbts := signed_psbts |> in
  let* finalized := attempt (try_psbt_finalization combined_psbt_obj) in
  match finalized with
  | inr finalized_psbt_obj =>
      let pending_request := set_finalized_psbt (psbt_serialize finalized_psbt_obj) pending_request in
      do* skmutate FinalizedRequests <[txid := pending_request]> in
      do* skmutate PendingRequests (delete txid) in
      do* (if bool_decide (pr_request_type pending_request = NormalRequest) then
             skmutate BondedOutboundTx <[txid := pr_socket_messages pending_request]>
           else ret tt) in
      do* sq_deposit (EvSignedPsbtSubmitted txid authority_id) in
      sq_deposit (EvRequestFinalized txid)
  | inl _ =>
      do* skmutate PendingRequests <[txid := pending_request]> in
      sq_deposit (EvSignedPsbtSubmitted txid authority_id)
  end.

(** A confirmation of a broadcast, and whether it completes a majority *)
Definition confirm_broadcast v (authority_id : AccountId) (txid : H256) : Sq bool :=
  let* w := gets id in
  let confirmations := default ∅ (BroadcastConfirmations (sw_queue w) !! txid) in
  do* ensure (negb (bool_decide (is_Some (confirmations !! authority_id))))
        (SockQ SqBroadcastAlreadyConfirmed) in
  let* confirmations := ok_or (try_insert_map MAX_AUTHORITIES authority_id true confirmations)
                          (SockQ SqOutOfRange) in
  do* sq_deposit (EvBroadcastConfirmed txid authority_id) in
  if au_majority (qv_relayers v) <=? Z.of_nat (size confirmations) then
    do* skmutate BroadcastConfirmations (delete txid) in ret true
  else
    do* skmutate BroadcastConfirmations <[txid := confirmations]> in ret false.

Definition submit_executed_request v (origin : Origin) (msg : ExecutedPsbtMessage) : Sq unit :=
  do* ensure_none origin in
  let '(mkExecutedPsbtMessage authority_id txid) := msg in
  let* w := gets id in
  let* request := ok_or (FinalizedRequests (sw_queue w) !! txid) (SockQ SqRequestDNE) in
  let* should_execute :=
    if is_activated (sw_blaze w) then confirm_broadcast v authority_id txid
    else do* skmutate BroadcastConfirmations (delete txid) in ret true in
  if should_execute : bool then
    do* (if bool_decide (pr_request_type request = Migration) then in_pool (execute_migration_tx txid)
         else ret tt) in
    do* skmutate FinalizedRequests (delete txid) in
    do* skmutate ExecutedRequests <[txid := request]> in
    sq_deposit (EvRequestExecuted txid)
  else ret tt.

(** An output of a rollback: change, or at most the amount to the user *)
Definition verify_rollback_output (system_vault refund : Address) (n_outputs : nat) (amount : U256)
    (output : TxOut) : Sq unit :=
  let* to := try_convert_to_address_from_script (txo_script_pubkey output) in
  if bool_decide (to = system_vault) then ensure (Nat.eqb n_outputs 2) (SockQ SqInvalidPsbt)
  else if bool_decide (to = refund) then
    let* amount := expect (as_u64 amount) in
    ensure (bool_decide (is_Some (u64_checked_sub amount (txo_value output)))) (SockQ SqInvalidPsbt)
  else fail (SockQ SqInvalidPsbt).

(** While Blaze is active the coins of a transaction are locked. *)
Definition lock_inputs (txid : H256) (psbt : Psbt) : Sq unit :=
  let* inputs := in_blaze (bl_extract_utxos_from_psbt psbt) in
  in_blaze (bl_lock_utxos txid inputs).

Definition submit_rollback_request v (origin : Origin) (msg : RollbackPsbtMessage) : Sq unit :=
  do* ensure_root origin in
  let '(mkRollbackPsbtMessage who rollback_txid vout amount unsigned_psbt) := msg in
  do* ensure_service_state Normal in
  let* psbt_obj := try_get_checked_psbt unsigned_psbt in
  let psbt_txid := convert_txid (compute_txid psbt_obj) in
  do* try_psbt_fee_verification psbt_obj in
  do* ensure_no_request psbt_txid in
  do* ensure_no_rollback psbt_txid in
  let* w := gets id in
  do* ensure (bool_decide (BondedRollbackOutputs (sw_queue w) !! (rollback_txid, vout) = None))
        (SockQ SqRequestAlreadyExists) in
  let* vault := ok_or (get_vault_address (sw_pool w) who) (SockQ SqUserDNE) in
  let* refund := ok_or (get_refund_address (sw_pool w) who) (SockQ SqUserDNE) in
  let* refund := try_convert_to_address_from_vec refund in
  let* tx_info := try_get_tx_info v (generate_hash_key rollback_txid vout who amount) in
  do* ensure (N.eqb (ti_to tx_info) 0) (SockQ SqRequestAlreadyExists) in
  let outputs := unsigned_outputs psbt_obj in
  do* ensure (Nat.leb (length outputs) 2) (SockQ SqInvalidPsbt) in
  let* system_vault := current_system_vault in
  let* system_vault := try_convert_to_address_from_vec system_vault in
  do* for_each outputs (verify_rollback_output system_vault refund (length outputs) amount) in
  do* (if is_activated (sw_blaze w) then lock_inputs psbt_txid psbt_obj else ret tt) in
  do* skmutate RollbackRequests
        <[psbt_txid := new_rollback_request unsigned_psbt who rollback_txid vout vault amount]> in
  do* skmutate BondedRollbackOutputs <[(rollback_txid, vout) := psbt_txid]> in
  sq_deposit (EvRollbackPsbtSubmitted psbt_txid).

(** The votes for a rollback *)
Definition yes_votes (votes : gmap N bool) : Z := Z.of_nat (length (filter (fun kv => kv.2 = true) (acc_iter votes))).

Definition submit_rollback_poll v (origin : Origin) (msg : RollbackPollMessage) : Sq unit :=
  do* ensure_none origin in
  let '(mkRollbackPollMessage authority_id txid is_approved) := msg in
  let* w := gets id in
  let* rollback_request := ok_or (RollbackRequests (sw_queue w) !! txid) (SockQ SqRequestDNE) in
  do* ensure (negb (rr_is_approved rollback_request)) (SockQ SqRequestAlreadyApproved) in
  do* ensure (negb (bool_decide (rr_votes rollback_request !! authority_id = Some is_approved)))
        (SockQ SqNoWritingSameValue) in
  let* votes := ok_or (try_insert_map MAX_AUTHORITIES authority_id is_approved
                         (rr_votes rollback_request)) (SockQ SqOutOfRange) in
  let rollback_request := rollback_request <| rr_votes := votes |> in
  do* sq_deposit (EvRollbackPollSubmitted txid authority_id is_approved) in
  if au_majority (qv_relayers v) <=? yes_votes votes then
    do* skmutate PendingRequests
          <[txid := new_psbt_request (rr_unsigned_psbt rollback_request) [] RollbackOf]> in
    do* sq_deposit (EvRollbackApproved txid) in
    skmutate RollbackRequests <[txid := rollback_request <| rr_is_approved := true |>]>
  else skmutate RollbackRequests <[txid := rollback_request]>.

Definition submit_migration_request (origin : Origin) (psbt : UnboundedBytes) : Sq unit :=
  do* ensure_root origin in
  do* ensure_service_state UTXOTransfer in
  let* psbt_obj := try_get_checked_psbt psbt in
  let txid := convert_txid (compute_txid psbt_obj) in
  do* try_psbt_fee_verification psbt_obj in
  do* ensure_no_request txid in
  let* output := ok_or (match unsigned_outputs psbt_obj with [output] => Some output | _ => None end)
                   (SockQ SqInvalidPsbt) in
  let* w := gets id in
  let target_round := u32_sat_add (get_current_round (sw_pool w)) 1 in
  let* system_vault := ok_or (get_system_vault (sw_pool w) target_round) (SockQ SqSystemVaultDNE) in
  let* to := output_address output in
  do* ensure (bool_decide (to = system_vault)) (SockQ SqInvalidPsbt) in
  do* skmutate PendingRequests <[txid := new_psbt_request psbt [] Migration]> in
  do* in_pool (add_migration_tx txid) in
  do* in_blaze bl_clear_utxos in
  sq_deposit (EvMigrationPsbtSubmitted txid).

Definition set_max_fee_rate (origin : Origin) (new : Z) : Sq unit :=
  do* ensure_root origin in
  let* w := gets id in
  do* ensure (negb (MaxFeeRate (sw_queue w) =? new)) (SockQ SqNoWritingSameValue) in
  do* ensure (from_sat_per_vb new) (SockQ SqOutOfRange) in
  do* skput MaxFeeRate new in
  sq_deposit (EvMaxFeeRateSet new).

(** What a replacement changes besides the request itself, by the type of the
    request *)
Definition rebond_request (old_txid new_txid : H256) (new_unsigned_psbt : UnboundedBytes)
    (old_request : PsbtRequest) : Sq unit :=
  match pr_request_type old_request with
  | NormalRequest =>
      do* for_each (pr_socket_messages old_request) (fun socket_message =>
            let* msg := sq_map_err (SocketMessage_try_from socket_message) SqInvalidSocketMessage in
            skmutate SocketMessages <[rid_sequence (sm_req_id msg) := (new_txid, msg)]>) in
      skmutate BondedOutboundTx (delete old_txid)
  | Migration =>
      do* in_pool (remove_migration_tx old_txid) in
      in_pool (add_migration_tx new_txid)
  | RollbackOf =>
      let* w := gets id in
      let* rollback_request := ok_or (RollbackRequests (sw_queue w) !! old_txid) (SockQ SqRequestDNE) in
      do* skmutate RollbackRequests (delete old_txid) in
      let rollback_request := rollback_request <| rr_unsigned_psbt := new_unsigned_psbt |> in
      do* skmutate RollbackRequests <[new_txid := rollback_request]> in
      skmutate BondedRollbackOutputs <[(rr_txid rollback_request, rr_vout rollback_request) := new_txid]>
  end.

Definition submit_bump_fee_request (origin : Origin) (old_txid : H256)
    (new_unsigned_psbt : UnboundedBytes) : Sq unit :=
  do* ensure_root origin in
  let* w := gets id in
  let* old_request := ok_or (ExecutedRequests (sw_queue w) !! old_txid) (SockQ SqRequestDNE) in
  do* ensure (negb (bool_decide (pr_unsigned_psbt old_request = new_unsigned_psbt)))
        (SockQ SqNoWritingSameValue) in
  do* ensure_service_state
        (if bool_decide (pr_request_type old_request = Migration) then UTXOTransfer else Normal) in
  let* old_psbt_obj := try_get_checked_psbt (pr_unsigned_psbt old_request) in
  let* new_psbt_obj := try_get_checked_psbt new_unsigned_psbt in
  let new_txid := convert_txid (compute_txid new_psbt_obj) in
  do* ensure (negb (N.eqb new_txid old_txid)) (SockQ SqNoWritingSameValue) in
  do* try_psbt_fee_verification new_psbt_obj in
  do* try_bump_fee_psbt_verification old_psbt_obj new_psbt_obj (pr_request_type old_request) in
  do* ensure_no_request new_txid in
  do* ensure_no_rollback new_txid in
  do* rebond_request old_txid new_txid new_unsigned_psbt old_request in
  do* skmutate ExecutedRequests (delete old_txid) in
  do* (if is_activated (sw_blaze w) then
         do* in_blaze (bl_unlock_utxos old_txid) in lock_inputs new_txid new_psbt_obj
       else ret tt) in
  do* skmutate PendingRequests
        <[new_txid := new_psbt_request new_unsigned_psbt (pr_socket_messages old_request)
                        (pr_request_type old_request)]> in
  sq_deposit (EvBumpFeePsbtSubmitted old_txid new_txid).

Definition drop_pending_rollback_request (origin : Origin) (txid : H256) : Sq unit :=
  do* ensure_root origin in
  do* ensure_service_state Normal in
  let* w := gets id in
  let* pending_request := ok_or (RollbackRequests (sw_queue w) !! txid) (SockQ SqRequestDNE) in
  do* ensure (negb (rr_is_approved pending_request)) (SockQ SqRequestDNE) in
  do* skmutate RollbackRequests (delete txid) in
  if is_activated (sw_blaze w) then in_blaze (bl_unlock_utxos txid) else ret tt.

Definition set_max_socket_message_bytes (origin : Origin) (new : Z) : Sq unit :=
  do* ensure_root origin in
  let* w := gets id in
  do* ensure (negb (MaxSocketMessageBytes (sw_queue w) =? new)) (SockQ SqNoWritingSameValue) in
  do* skput MaxSocketMessageBytes new in
  sq_deposit (EvMaxSocketMessageBytesSet new).

(** ** [SocketQueueManager] *)

Definition sq_is_ready_for_migrate (s : SqStorage) : bool :=
  bool_decide (PendingRequests s = ∅) && bool_decide (FinalizedRequests s = ∅)
  && forallb (fun x => rr_is_approved x.2) (map_to_list (RollbackRequests s)).

Definition verify_legacy_authority (s : SqStorage) (authority_id : AccountId) : InvalidTransaction + unit :=
  match Authority s with
  | Some a => if bool_decide (a = authority_id) then inr tt else inl BadSigner
  | None => inl BadSigner
  end.
Definition queue_verify_authority v (w : SqWorld P B) (authority_id : AccountId) : InvalidTransaction + unit :=
  if is_activated (sw_blaze w) then
    if au_is_authority (qv_relayers v) authority_id then inr tt else inl BadSigner
  else verify_legacy_authority (sw_queue w) authority_id.

Definition replace_in_rollback (old new : AccountId) (kv : H256 * RollbackRequest) : Sq unit :=
  if rr_is_approved kv.2 then ret tt
  else let* request := expect (rr_replace_authority old new kv.2) in
       skmutate RollbackRequests <[kv.1 := request]>.
Definition replace_in_confirmations (old new : AccountId) (kv : H256 * gmap N bool) : Sq unit :=
  if bool_decide (is_Some (kv.2 !! old)) then
    let* confirmations := expect (replace_key MAX_AUTHORITIES old new kv.2) in
    skmutate BroadcastConfirmations <[kv.1 := confirmations]>
  else ret tt.
Definition sq_replace_authority (old new : AccountId) : Sq unit :=
  let* w := gets id in
  let s := sw_queue w in
  do* for_each (map_to_list (PendingRequests s)) (fun kv =>
        let* request := expect (pr_replace_authority old new kv.2) in
        skmutate PendingRequests <[kv.1 := request]>) in
  do* for_each (map_to_list (RollbackRequests s)) (replace_in_rollback old new) in
  for_each (map_to_list (BroadcastConfirmations s)) (replace_in_confirmations old new).

(** ** Unsigned calls *)

Inductive SqCall : Type :=
| CallSubmitUnsignedPsbt (msg : UnsignedPsbtMessage) (signature : Signature)
| CallSubmitSignedPsbt (msg : SignedPsbtMessage) (signature : Signature)
| CallSubmitExecutedRequest (msg : ExecutedPsbtMessage) (signature : Signature)
| CallSubmitRollbackPoll (msg : RollbackPollMessage) (signature : Signature)
| CallSqOther.

(** The tag of a valid transaction is the signer and its signature. *)
Abbreviation SqValidity := (InvalidTransaction + ValidTransaction (AccountId * Signature))%type (only parsing).
Definition sq_valid (message : UnboundedBytes) (authority_id : AccountId) (signature : Signature)
    (tag_prefix : string) : SqValidity :=
  if negb (verify signature message authority_id) then inl BadProof
  else inr (mkValidTransaction _ tag_prefix priority_max (authority_id, signature) true).

(** [keccak_256(tag)] before the rest *)
Definition tagged (tag : string) (b : UnboundedBytes) : UnboundedBytes :=
  to_be_bytes 32 (Z.of_N (keccak_256 (as_bytes tag))) ++ b.
Definition h256_bytes (h : H256) : UnboundedBytes := to_be_bytes 32 (Z.of_N h).
(** The executives that may sign: those of the round while its funds are moved *)
Definition is_valid_signer v (p : P) (authority_id : AccountId) : bool :=
  if bool_decide (get_service_state p = UTXOTransfer) then
    bool_decide (authority_id ∈ get_relay_executives p (get_current_round p))
  else bool_decide (authority_id ∈ qv_executives v).

Definition sq_validate_unsigned v (w : SqWorld P B) (call : SqCall) : SqValidity :=
  match call with
  | CallSubmitUnsignedPsbt (mkUnsignedPsbtMessage authority_id _ psbt) signature =>
      match queue_verify_authority v w authority_id with
      | inl e => inl e
      | inr _ => sq_valid (tagged "UnsignedPsbt" psbt) authority_id signature "UnsignedPsbtSubmission"
      end
  | CallSubmitSignedPsbt (mkSignedPsbtMessage authority_id _ signed_psbt) signature =>
      if negb (is_valid_signer v (sw_pool w) authority_id) then inl BadSigner
      else sq_valid (tagged "SignedPsbt" signed_psbt) authority_id signature "SignedPsbtSubmission"
  | CallSubmitExecutedRequest (mkExecutedPsbtMessage authority_id txid) signature =>
      match queue_verify_authority v w authority_id with
      | inl e => inl e
      | inr _ => sq_valid (tagged "ExecutedPsbt" (h256_bytes txid)) authority_id signature
                   "ExecutedPsbtSubmission"
      end
  | CallSubmitRollbackPoll (mkRollbackPollMessage authority_id txid is_approved) signature =>
      if negb (au_is_authority (qv_relayers v) authority_id) then inl BadSigner
      else sq_valid (tagged "RollbackPoll" (h256_bytes txid ++ [if is_approved then x01 else x00]))
             authority_id signature "RollbackPollSubmission"
  | CallSqOther => inl InvalidCall
  end.

Definition sq_unsigned_call v (call : SqCall) : Sq unit :=
  match call with
  | CallSubmitUnsignedPsbt msg _ => submit_unsigned_psbt v NoneOrigin msg
  | CallSubmitSignedPsbt msg _ => submit_signed_psbt NoneOrigin msg
  | CallSubmitExecutedRequest msg _ => submit_executed_request v NoneOrigin msg
  | CallSubmitRollbackPoll msg _ => submit_rollback_poll v NoneOrigin msg
  | CallSqOther => ret tt
  end.
(** An unsigned extrinsic: the call runs when it is valid. *)
Definition sq_apply_unsigned v (call : SqCall) (w : SqWorld P B)
    : option (outcome DispatchError unit * SqWorld P B) :=
  match sq_validate_unsigned v w call with
  | inl _ => None
  | inr _ => Some (dispatch (sq_unsigned_call v call) w)
  end.
End Pallet.

(** The socket queue, with the relayers and contracts it reads, is the queue
    of the other pallets. *)
#[export] Instance SocketQueue_manager `{!SqConfig} {R P B : Type}
    `{!Authorities R, !PoolManager P, !BlazeManager B} : SocketQueueManager (SqView R * SqWorld P B) := {
  is_ready_for_migrate q := sq_is_ready_for_migrate (sw_queue q.2);
  sq_verify_authority q := queue_verify_authority q.1 q.2;
  sq_verify_legacy_authority q := verify_legacy_authority (sw_queue q.2);
  get_max_fee_rate q := MaxFeeRate (sw_queue q.2);
  verify_socket_message q b :=
    match (sq_verify_socket_message q.1 b q.2).1 with Done _ => true | _ => false end;
  get_max_socket_message_bytes q := MaxSocketMessageBytes (sw_queue q.2)
}.
