(* ===== verification/OracleRegistry.v ===== *)
(** * Oracle registry

    [pallets/oracle-registry] and [primitives/oracle]: which oracle gives the
    price of an asset or of the native currency of a chain, the aggregators of
    the assets, and the reads of the oracle contracts through the EVM. The EVM
    is not in the repository: it is the class [Runner], whose state [W] is
    whatever the contracts keep. *)

From S2P Require Import Prelude Errors Primitives Cccp.
Local Open Scope Z_scope.
Local Open Scope frame_scope.

(** ** The runner of [pallet_evm] *)

(** [CallInfo]: whether the exit reason is [Succeed], and the returned bytes. *)
Record CallInfo : Type := mkCallInfo { ci_succeed : bool; ci_value : UnboundedBytes }.

Class Runner (W : Type) := {
  (** [view_call(source, target, input, gas_limit)]: changes nothing; [None]
      is an error of the runner. *)
  view_call : W -> H160 -> H160 -> UnboundedBytes -> Z -> option CallInfo;
  call_as_internal_call : W -> H160 -> H160 -> UnboundedBytes -> Z -> option CallInfo * W
}.

(** ** Data of [bp_oracle] *)

Abbreviation ChainId := Z (only parsing).
Abbreviation AssetOracleId := H256 (only parsing).

Record OracleInfo : Type := mkOracleInfo {
  oi_round : U256; oi_data : H256; oi_block : Z; oi_time : Z; oi_authority_round : Z; oi_reserved : Z
}.

Inductive OracleKey : Type :=
| OkAsset (asset : H160)
| OkNativeCurrency (chain_id : ChainId).
#[export] Instance OracleKey_eq_dec : EqDecision OracleKey.
Proof. solve_decision. Defined.
#[export] Instance OracleKey_countable : Countable OracleKey := inj_countable'
  (fun k => match k with OkAsset a => inl a | OkNativeCurrency c => inr c end)
  (fun s => match s with inl a => OkAsset a | inr c => OkNativeCurrency c end)
  ltac:(by intros []).

Record AggregatorInfo : Type := mkAggregatorInfo { ag_address : H160; ag_decimal : Z }.

Record AggregatorRoundData : Type := mkAggregatorRoundData {
  rd_round_id : U256; rd_answer : U256; rd_started_at : U256; rd_updated_at : U256;
  rd_answered_in_round : U256
}.

(** ** ABI of the oracle contracts *)

Definition bytes4 (v : Z) : UnboundedBytes := to_be_bytes 4 v.
Definition LAST_ORACLE_DATA_SELECTOR : UnboundedBytes := bytes4 0xbe274672.
Definition LAST_ORACLE_INFO_SELECTOR : UnboundedBytes := bytes4 0xa16d4d76.
Definition LATEST_ROUND_DATA_SELECTOR : UnboundedBytes := bytes4 0xfeaf968c.

(** [&data[32 * i..32 * (i + 1)]] read as a big-endian integer *)
Definition word (i : nat) (data : UnboundedBytes) : U256 :=
  from_be_bytes (take 32 (drop (32 * i) data)).
(** [low_u64] *)
Definition low_u64 (v : U256) : Z := v mod u64_modulus.

Definition oracle_data_calldata (oracle_id : AssetOracleId) : UnboundedBytes :=
  LAST_ORACLE_DATA_SELECTOR ++ to_be_bytes 32 (Z.of_N oracle_id).
Definition oracle_data_return (data : UnboundedBytes) : option H256 :=
  if Nat.ltb (length data) 32 then None else Some (Z.to_N (word 0 data)).

Definition oracle_info_calldata (oracle_id : AssetOracleId) : UnboundedBytes :=
  LAST_ORACLE_INFO_SELECTOR ++ to_be_bytes 32 (Z.of_N oracle_id).
Definition oracle_info_return (data : UnboundedBytes) : option OracleInfo :=
  if Nat.ltb (length data) 192 then None
  else Some (mkOracleInfo (word 0 data) (Z.to_N (word 1 data)) (low_u64 (word 2 data))
               (low_u64 (word 3 data)) (low_u64 (word 4 data)) (low_u64 (word 5 data))).

Definition aggregator_calldata : UnboundedBytes := LATEST_ROUND_DATA_SELECTOR.
Definition aggregator_return (data : UnboundedBytes) : option AggregatorRoundData :=
  if Nat.ltb (length data) 160 then None
  else Some (mkAggregatorRoundData (word 0 data) (word 1 data) (word 2 data) (word 3 data) (word 4 data)).

(** ** The trait the other pallets use

    [R] is the registry, [W] the EVM its contracts live in. *)

Class OracleRegistryManager (R W : Type) := {
  get_oracle : R -> OracleKey -> option AssetOracleId;
  get_oracle_manager_contract : R -> option H160;
  get_latest_oracle_data : R -> W -> AssetOracleId -> option H256;
  get_latest_oracle_info : R -> W -> AssetOracleId -> option OracleInfo;
  get_aggregator_info : R -> H160 -> option AggregatorInfo;
  get_latest_round_data : R -> W -> H160 -> option AggregatorRoundData
}.
(** The default methods *)
Definition get_asset_oracle {R W} `{!OracleRegistryManager R W} (r : R) (asset : H160) : option AssetOracleId :=
  get_oracle r (OkAsset asset).
Definition get_native_currency_oracle {R W} `{!OracleRegistryManager R W} (r : R) (chain_id : ChainId) :
    option AssetOracleId :=
  get_oracle r (OkNativeCurrency chain_id).

(** ** Storage of the pallet *)

Inductive OracleRegistryEvent : Type :=
| EvAssetOracleSet (asset : H160) (oracle_id : AssetOracleId)
| EvAssetOracleRemoved (asset : H160)
| EvNativeCurrencyOracleSet (chain_id : ChainId) (oracle_id : AssetOracleId)
| EvNativeCurrencyOracleRemoved (chain_id : ChainId)
| EvOracleManagerContractSet (contract : H160)
| EvOracleManagerContractRemoved
| EvAssetAggregatorSet (asset aggregator_contract : H160)
| EvAssetAggregatorRemoved (asset : H160).

Record OrStorage : Type := mkOrStorage {
  Oracles : gmap OracleKey AssetOracleId;
  Aggregators : gmap H160 AggregatorInfo;
  OracleManagerContract : option H160;
  OrEvents : list OracleRegistryEvent
}.
#[export] Instance OrStorage_rebuild : Rebuild OrStorage := fun r =>
  mkOrStorage (Oracles r) (Aggregators r) (OracleManagerContract r) (OrEvents r).
#[export] Instance f_Oracles : Field Oracles := ltac:(derive_field).
#[export] Instance f_Aggregators : Field Aggregators := ltac:(derive_field).
#[export] Instance f_OracleManagerContract : Field OracleManagerContract := ltac:(derive_field).
#[export] Instance f_OrEvents : Field OrEvents := ltac:(derive_field).

Abbreviation Or A := (M OrStorage DispatchError A).
Definition or_put {A} (f : OrStorage -> A) `{!Field f} (v : A) : Or unit := modify (fun s => s <| f := v |>).
Definition or_mutate {A} (f : OrStorage -> A) `{!Field f} (g : A -> A) : Or unit :=
  modify (fun s => s <| f ::= g |>).
Definition or_deposit (e : OracleRegistryEvent) : Or unit := or_mutate OrEvents (fun l => l ++ [e]).

(** ** Extrinsics *)

(** What [set_asset_oracle] and [set_native_currency_oracle] share: the read,
    the comparison and the write of the entry. *)
Definition write_oracle (key : OracleKey) (oracle_id : AssetOracleId) : Or unit :=
  let* s := gets id in
  do* match Oracles s !! key with
      | Some current => ensure (negb (N.eqb current oracle_id)) (OracleRegistryErr OrNoWritingSameValue)
      | None => ret tt
      end in
  or_mutate Oracles <[key := oracle_id]>.

Definition set_asset_oracle (o : Origin) (asset : H160) (asset_oracle_id : AssetOracleId) : Or unit :=
  do* ensure_root o in
  do* write_oracle (OkAsset asset) asset_oracle_id in
  or_deposit (EvAssetOracleSet asset asset_oracle_id).

Definition remove_asset_oracle (o : Origin) (asset : H160) : Or unit :=
  do* ensure_root o in
  let* s := gets id in
  do* ensure (bool_decide (is_Some (Oracles s !! OkAsset asset))) (OracleRegistryErr AssetDNE) in
  do* or_mutate Oracles (delete (OkAsset asset)) in
  or_deposit (EvAssetOracleRemoved asset).

Definition set_native_currency_oracle (o : Origin) (chain_id : ChainId)
    (native_currency_oracle_id : AssetOracleId) : Or unit :=
  do* ensure_root o in
  do* write_oracle (OkNativeCurrency chain_id) native_currency_oracle_id in
  or_deposit (EvNativeCurrencyOracleSet chain_id native_currency_oracle_id).

Definition remove_native_currency_oracle (o : Origin) (chain_id : ChainId) : Or unit :=
  do* ensure_root o in
  let* s := gets id in
  do* ensure (bool_decide (is_Some (Oracles s !! OkNativeCurrency chain_id)))
        (OracleRegistryErr NativeCurrencyChainDNE) in
  do* or_mutate Oracles (delete (OkNativeCurrency chain_id)) in
  or_deposit (EvNativeCurrencyOracleRemoved chain_id).

Definition set_oracle_manager_contract (o : Origin) (contract : H160) : Or unit :=
  do* ensure_root o in
  let* s := gets id in
  do* match OracleManagerContract s with
      | Some current => ensure (negb (N.eqb current contract)) (OracleRegistryErr OrNoWritingSameValue)
      | None => ret tt
      end in
  do* or_put OracleManagerContract (Some contract) in
  or_deposit (EvOracleManagerContractSet contract).

Definition remove_oracle_manager_contract (o : Origin) : Or unit :=
  do* ensure_root o in
  let* s := gets id in
  do* ensure (bool_decide (is_Some (OracleManagerContract s))) (OracleRegistryErr OracleManagerContractDNE) in
  do* or_put OracleManagerContract None in
  or_deposit EvOracleManagerContractRemoved.

Definition set_asset_aggregator (o : Origin) (asset aggregator_contract : H160) (decimal : Z) : Or unit :=
  do* ensure_root o in
  let* s := gets id in
  do* match Aggregators s !! asset with
      | Some current =>
          do* ensure (negb (N.eqb (ag_address current) aggregator_contract))
                (OracleRegistryErr OrNoWritingSameValue) in
          ensure (Z.eqb (ag_decimal current) decimal) (OracleRegistryErr OrNoWritingSameValue)
      | None => ret tt
      end in
  do* or_mutate Aggregators <[asset := mkAggregatorInfo aggregator_contract decimal]> in
  or_deposit (EvAssetAggregatorSet asset aggregator_contract).

Definition remove_asset_aggregator (o : Origin) (asset : H160) : Or unit :=
  do* ensure_root o in
  let* s := gets id in
  do* ensure (bool_decide (is_Some (Aggregators s !! asset))) (OracleRegistryErr AssetDNE) in
  do* or_mutate Aggregators (delete asset) in
  or_deposit (EvAssetAggregatorRemoved asset).

(** ** [OracleRegistryManager] of the pallet *)

Section Manager.
Context {W : Type} `{!Runner W}.

Definition VIEW_GAS : Z := 100000.
(** [view_call(H160::zero(), contract, calldata, 100_000)] and its outcome:
    [None] for an error of the runner or an exit other than [Succeed]. *)
Definition view_value (w : W) (contract : H160) (calldata : UnboundedBytes) : option UnboundedBytes :=
  result ← view_call w 0%N contract calldata VIEW_GAS;
  if ci_succeed result then Some (ci_value result) else None.

Definition or_latest_oracle_data (r : OrStorage) (w : W) (oracle_id : AssetOracleId) : option H256 :=
  contract ← OracleManagerContract r;
  value ← view_value w contract (oracle_data_calldata oracle_id);
  oracle_data_return value.

Definition or_latest_oracle_info (r : OrStorage) (w : W) (oracle_id : AssetOracleId) : option OracleInfo :=
  contract ← OracleManagerContract r;
  value ← view_value w contract (oracle_info_calldata oracle_id);
  oracle_info_return value.

Definition or_latest_round_data (r : OrStorage) (w : W) (asset : H160) : option AggregatorRoundData :=
  aggregator ← Aggregators r !! asset;
  value ← view_value w (ag_address aggregator) aggregator_calldata;
  aggregator_return value.

#[export] Instance Oracle_registry : OracleRegistryManager OrStorage W := {
  get_oracle r key := Oracles r !! key;
  get_oracle_manager_contract := OracleManagerContract;
  get_latest_oracle_data := or_latest_oracle_data;
  get_latest_oracle_info := or_latest_oracle_info;
  get_aggregator_info r asset := Aggregators r !! asset;
  get_latest_round_data := or_latest_round_data
}.
End Manager.
