(* ===== verification/FeePayment.v ===== *)
(** * Payment of EVM fees

    [pallets/bifrost-evm-tx-payment]: the tokens accepted for fees, the token
    a user prefers, the conversion of a fee by the prices of the oracle
    registry, and the adapter that [pallet_evm] charges a transaction with
    ([withdraw_fee] before it runs, [correct_and_deposit_fee] and
    [pay_priority_fee] after). The EVM, where the tokens live, and the native
    balances are not in the repository: they are the state [W] of the classes
    [Runner] and [FeeCurrency]. *)

From S2P Require Import Prelude Errors Primitives Cccp OracleRegistry.
Local Open Scope Z_scope.
Local Open Scope frame_scope.

(** ** [U256] *)

Definition u256_checked_mul (a b : U256) : option U256 := if a * b <? 2 ^ 256 then Some (a * b) else None.
Definition u256_checked_div (a b : U256) : option U256 := if b =? 0 then None else Some (a / b).
Definition u256_saturating_mul (a b : U256) : U256 := Z.min (a * b) (2 ^ 256 - 1).
(** [U256::from(10u64).pow(e)]: [None] is the panic on overflow *)
Definition u256_pow10 (e : Z) : option U256 := if 10 ^ e <? 2 ^ 256 then Some (10 ^ e) else None.
(** [10u128.pow(e)]: wraps in the release profile *)
Definition u128_pow10 (e : Z) : Z := (10 ^ e) mod u128_modulus.
(** [unique_saturated_into] a [u128] *)
Definition into_u128 (v : U256) : Balance := Z.min v (u128_modulus - 1).

(** A [Result] mapped, and a [Result] inspected by a caller with errors of its
    own. *)
Definition map_err {S E E' A} (f : E -> E') (m : M S E A) : M S E' A := fun s =>
  match m s with
  | (Done a, s') => (Done a, s') | (Fail e, s') => (Fail (f e), s') | (Trap, s') => (Trap, s')
  end.
Definition result_of {S E E' A} (m : M S E A) : M S E' (E + A) := fun s =>
  match m s with
  | (Done a, s') => (Done (inr a), s') | (Fail e, s') => (Done (inl e), s') | (Trap, s') => (Trap, s')
  end.

(** ** Data *)

Record FeeTokenConfig : Type := mkFeeTokenConfig {
  enabled : bool; decimals : Z; max_staleness_seconds : Z; min_balance : U256
}.

Inductive FallbackReason : Type :=
| FrTokenNotRegistered | FrTokenDisabled | FrPriceConversionFailed | FrTransferFailed | FrOraclePriceStale.

Record FeePaymentInfo : Type := mkFeePaymentInfo {
  fi_token : H160; fi_amount : U256; fi_native_equivalent : U256; fi_token_price : U256;
  fi_native_price : U256
}.

Inductive OracleError : Type := OeCallFailed | OeInvalidPrice | OeStalePrice | OeOracleNotRegistered.

(** An imbalance is its amount. *)
Inductive LiquidityInfo : Type :=
| LiNone
| LiNative (imbalance : option Balance)
| LiERC20Withdrawn (token : H160) (amount native_equivalent : U256) (tx_index : Z)
    (token_price native_price : U256)
| LiERC20Tip (token : H160) (tip_amount : U256).

Inductive FeePaymentEvent : Type :=
| EvFeeTokenAdded (token : H160) (decimals : Z)
| EvFeeTokenRemoved (token : H160)
| EvFeeTokenUpdated (token : H160)
| EvUserFeeTokenSet (user : H160) (token : option H160)
| EvFeePaymentInToken (user token : H160) (amount native_equivalent : U256)
| EvFeeRefundInToken (user token : H160) (amount : U256)
| EvTipPaymentInToken (author token : H160) (amount : U256)
| EvCollectedFeesWithdrawn (token to : H160) (amount : U256)
| EvFeePaymentFallbackToNative (user token : H160) (reason : FallbackReason).

(** The native balances in [W]; [drop_positive] and [drop_negative] are what
    happens when an imbalance goes out of scope. *)
Class FeeCurrency (W : Type) := {
  (** [withdraw(who, value, FEE, AllowDeath)]: the imbalance, [None] is an error *)
  fee_withdraw : W -> AccountId -> Balance -> option (Balance * W);
  fee_deposit_into_existing : W -> AccountId -> Balance -> option (Balance * W);
  drop_positive : Balance -> W -> W;
  drop_negative : Balance -> W -> W;
  (** [OU::on_unbalanced] *)
  on_unbalanced : Balance -> W -> W
}.

Class FeeConfig := {
  fee_admin_origin : Origin -> bool;
  FeeCollectorAddress : H160;
  FeeTokenUpdateCooldown : BlockNumber;
  NativeChainId : ChainId;
  (** [T::AddressMapping::into_account_id], the SCALE encoding of an account *)
  into_account_id : H160 -> AccountId;
  encode_account : AccountId -> UnboundedBytes
}.

(** ** Storage *)

Record FpStorage {W : Type} : Type := mkFpStorage {
  AcceptedFeeTokens : gmap N FeeTokenConfig;
  UserFeeToken : gmap N H160;
  LastFeeTokenUpdate : gmap N BlockNumber;
  CurrentTxIndex : Z;
  PendingFeePayments : gmap (N * Z) FeePaymentInfo;
  World : W;
  FpEvents : list FeePaymentEvent
}.
Arguments FpStorage W : clear implicits.
Arguments mkFpStorage {W}.
#[export] Instance FpStorage_rebuild {W} : Rebuild (FpStorage W) := fun r =>
  mkFpStorage (AcceptedFeeTokens r) (UserFeeToken r) (LastFeeTokenUpdate r) (CurrentTxIndex r)
    (PendingFeePayments r) (World r) (FpEvents r).
#[export] Instance f_AcceptedFeeTokens {W} : Field (R:=FpStorage W) AcceptedFeeTokens := ltac:(derive_field).
#[export] Instance f_UserFeeToken {W} : Field (R:=FpStorage W) UserFeeToken := ltac:(derive_field).
#[export] Instance f_LastFeeTokenUpdate {W} : Field (R:=FpStorage W) LastFeeTokenUpdate := ltac:(derive_field).
#[export] Instance f_CurrentTxIndex {W} : Field (R:=FpStorage W) CurrentTxIndex := ltac:(derive_field).
#[export] Instance f_PendingFeePayments {W} : Field (R:=FpStorage W) PendingFeePayments := ltac:(derive_field).
#[export] Instance f_World {W} : Field (R:=FpStorage W) World := ltac:(derive_field).
#[export] Instance f_FpEvents {W} : Field (R:=FpStorage W) FpEvents := ltac:(derive_field).

(** What a call reads elsewhere: the oracle registry, the block number, the
    time in milliseconds, the author of the block, the base fee per gas. *)
Record FpView {R : Type} : Type := mkFpView {
  fv_registry : R; fv_now : BlockNumber; fv_timestamp : Z; fv_author : H160; fv_base_fee : U256
}.
Arguments FpView R : clear implicits.
Arguments mkFpView {R}.

Section Payment.
Context {R W : Type} `{!FeeConfig, !Runner W, !FeeCurrency W, !OracleRegistryManager R W}.
Implicit Types (v : FpView R) (s : FpStorage W).

Definition fp_mutate {E A} (f : FpStorage W -> A) `{!Field f} (g : A -> A) : M (FpStorage W) E unit :=
  modify (fun s => s <| f ::= g |>).
Definition fp_put {E A} (f : FpStorage W -> A) `{!Field f} (x : A) : M (FpStorage W) E unit :=
  modify (fun s => s <| f := x |>).
Definition fp_deposit {E} (e : FeePaymentEvent) : M (FpStorage W) E unit :=
  fp_mutate FpEvents (fun l => l ++ [e]).

(** ** Calls of ERC20 contracts *)

Definition ERC20_TRANSFER_GAS_LIMIT : Z := 100000.
Definition ERC20_VIEW_GAS_LIMIT : Z := 50000.
Definition TRANSFER_SELECTOR : UnboundedBytes := bytes4 0xa9059cbb.
Definition BALANCE_OF_SELECTOR : UnboundedBytes := bytes4 0x70a08231.

Definition encode_balance_of (account : H160) : UnboundedBytes :=
  BALANCE_OF_SELECTOR ++ replicate 12 x00 ++ to_be_bytes 20 (Z.of_N account).
Definition encode_transfer (to : H160) (amount : U256) : UnboundedBytes :=
  TRANSFER_SELECTOR ++ replicate 12 x00 ++ to_be_bytes 20 (Z.of_N to) ++ to_be_bytes 32 amount.
Definition decode_u256_return (data : UnboundedBytes) : option U256 :=
  if Nat.ltb (length data) 32 then None else Some (word 0 data).
Definition check_bool_return (data : UnboundedBytes) : bool :=
  match data with
  | [] => true
  | _ =>
      if Nat.ltb (length data) 32 then false
      else bool_decide (data !! 31%nat = Some x01)
           && forallb (fun b => bool_decide (b = x00)) (take 31 data)
  end.

(** [call_as_internal_call] and the inspection of its result *)
Definition run_transfer (from token to : H160) (amount : U256) : M (FpStorage W) unit unit :=
  if amount =? 0 then ret tt
  else
    let* s := gets id in
    let '(result, w) := call_as_internal_call (World s) from token (encode_transfer to amount)
                          ERC20_TRANSFER_GAS_LIMIT in
    do* fp_put World w in
    match result with
    | None => fail tt
    | Some r => ensure (ci_succeed r && check_bool_return (ci_value r)) tt
    end.
Definition transfer_from_user (from token to : H160) (amount : U256) : M (FpStorage W) unit unit :=
  run_transfer from token to amount.
Definition transfer_to_user (from token to : H160) (amount : U256) : M (FpStorage W) unit unit :=
  run_transfer from token to amount.

Definition get_token_balance (s : FpStorage W) (account token : H160) : option U256 :=
  result ← view_call (World s) account token (encode_balance_of account) ERC20_VIEW_GAS_LIMIT;
  if ci_succeed result then decode_u256_return (ci_value result) else None.

(** ** Prices *)

(** [(now_ms / 1000) as u64] *)
Definition current_timestamp v : Z := (fv_timestamp v / 1000) mod u64_modulus.
(** The staleness check of both sources of prices *)
Definition ensure_fresh v (max_staleness_seconds time : Z) : M (FpStorage W) OracleError unit :=
  if 0 <? max_staleness_seconds then
    do* ensure (negb (time =? 0)) OeStalePrice in
    ensure (negb (max_staleness_seconds <? sat_sub (current_timestamp v) time)) OeStalePrice
  else ret tt.

Definition get_oracle_price_from_registry v (oracle_id : AssetOracleId) (max_staleness_seconds : Z)
    : M (FpStorage W) OracleError U256 :=
  let* s := gets id in
  let* info := ok_or (get_latest_oracle_info (fv_registry v) (World s) oracle_id) OeCallFailed in
  let price := Z.of_N (oi_data info) in
  do* ensure (negb (price =? 0)) OeInvalidPrice in
  do* ensure_fresh v max_staleness_seconds (oi_time info) in
  ret price.

Definition get_aggregator_price_from_registry v (token : H160) (max_staleness_seconds : Z)
    : M (FpStorage W) OracleError U256 :=
  let* s := gets id in
  let* aggregator_info := ok_or (get_aggregator_info (fv_registry v) token) OeCallFailed in
  let* round_data := ok_or (get_latest_round_data (fv_registry v) (World s) token) OeCallFailed in
  let answer := rd_answer round_data in
  do* ensure (negb ((answer =? 0) || Z.testbit answer 255)) OeInvalidPrice in
  let decimal := ag_decimal aggregator_info in
  let* price :=
    (if decimal <=? 18 then
       let* scale := expect (u256_pow10 (18 - decimal)) in
       ret (u256_saturating_mul answer scale)
     else
       let* scale := expect (u256_pow10 (decimal - 18)) in
       ret (answer / scale)) in
  do* ensure (negb (price =? 0)) OeInvalidPrice in
  do* ensure_fresh v max_staleness_seconds (low_u64 (rd_updated_at round_data)) in
  ret price.

Definition get_token_price_via_registry v (token : H160) (max_staleness_seconds : Z)
    : M (FpStorage W) OracleError U256 :=
  let* oracle_id := ok_or (get_asset_oracle (W:=W) (fv_registry v) token) OeOracleNotRegistered in
  if N.eqb oracle_id 0 then get_aggregator_price_from_registry v token max_staleness_seconds
  else get_oracle_price_from_registry v oracle_id max_staleness_seconds.

(** ** Functions of the pallet *)

Definition account_to_h160 (account : AccountId) : M (FpStorage W) DispatchError H160 :=
  let account_bytes := encode_account account in
  do* ensure (Nat.leb 20 (length account_bytes)) (FeePaymentErr FpInvalidAccountFormat) in
  ret (Z.to_N (from_be_bytes (take 20 account_bytes))).

Definition is_token_accepted s (token : H160) : bool :=
  match AcceptedFeeTokens s !! token with Some c => enabled c | None => false end.
Definition is_erc20_fee_enabled v : bool :=
  bool_decide (is_Some (get_native_currency_oracle (W:=W) (fv_registry v) NativeChainId)).

Definition get_bfc_usd_price v : M (FpStorage W) FeePaymentError U256 :=
  let* oracle_id := ok_or (get_native_currency_oracle (W:=W) (fv_registry v) NativeChainId)
                      FpNativeOracleNotSet in
  map_err (fun _ => FpOraclePriceFailed) (get_oracle_price_from_registry v oracle_id 0).

Definition price_error (e : OracleError) : FeePaymentError :=
  match e with
  | OeStalePrice => FpOraclePriceStale
  | OeOracleNotRegistered => FpOracleNotRegistered
  | _ => FpOraclePriceFailed
  end.

(** [native_fee * bfc_usd * 10^decimals / token_usd / 10^18], checked *)
Definition token_amount_of (native_fee bfc_usd_price token_usd_price token_decimals : Z) : option U256 :=
  a ← u256_checked_mul native_fee bfc_usd_price;
  b ← u256_checked_mul a (u128_pow10 token_decimals);
  c ← u256_checked_div b token_usd_price;
  u256_checked_div c (u128_pow10 18).

Definition convert_native_to_token_with_prices v (native_fee : U256) (token : H160)
    : M (FpStorage W) FeePaymentError (U256 * U256 * U256) :=
  let* s := gets id in
  let* config := ok_or (AcceptedFeeTokens s !! token) FpTokenNotAccepted in
  do* ensure (enabled config) FpTokenDisabled in
  let* bfc_usd_price := get_bfc_usd_price v in
  let* token_usd_price :=
    map_err price_error (get_token_price_via_registry v token (max_staleness_seconds config)) in
  let* token_amount :=
    ok_or (token_amount_of native_fee bfc_usd_price token_usd_price (decimals config)) FpPriceOverflow in
  ret (token_amount, token_usd_price, bfc_usd_price).
Definition convert_native_to_token v (native_fee : U256) (token : H160) : M (FpStorage W) FeePaymentError U256 :=
  let* '(amount, _, _) := convert_native_to_token_with_prices v native_fee token in ret amount.

Definition execute_fee_transfer (from token : H160) (amount : U256) : M (FpStorage W) FeePaymentError unit :=
  map_err (fun _ => FpERC20TransferFailed) (transfer_from_user from token FeeCollectorAddress amount).
Definition refund_token (to token : H160) (amount : U256) : M (FpStorage W) FeePaymentError unit :=
  if amount =? 0 then ret tt
  else map_err (fun _ => FpERC20TransferFailed) (transfer_to_user FeeCollectorAddress token to amount).

(** ** Extrinsics and hooks *)

Definition ensure_fee_admin (o : Origin) : M (FpStorage W) DispatchError unit := ensure (fee_admin_origin o) BadOrigin.

Definition fp_on_initialize (_ : BlockNumber) : M (FpStorage W) DispatchError unit :=
  do* fp_put PendingFeePayments ∅ in
  fp_put CurrentTxIndex 0.

Definition add_fee_token (o : Origin) (token : H160) (config : FeeTokenConfig) : M (FpStorage W) DispatchError unit :=
  do* ensure_fee_admin o in
  let* s := gets id in
  do* ensure (negb (bool_decide (is_Some (AcceptedFeeTokens s !! token)))) (FeePaymentErr FpTokenAlreadyAccepted) in
  do* ensure (decimals config <=? 18) (FeePaymentErr FpInvalidTokenConfig) in
  do* fp_mutate AcceptedFeeTokens <[token := config]> in
  fp_deposit (EvFeeTokenAdded token (decimals config)).

Definition remove_fee_token (o : Origin) (token : H160) : M (FpStorage W) DispatchError unit :=
  do* ensure_fee_admin o in
  let* s := gets id in
  do* ensure (bool_decide (is_Some (AcceptedFeeTokens s !! token))) (FeePaymentErr FpTokenNotAccepted) in
  do* fp_mutate AcceptedFeeTokens (delete token) in
  fp_deposit (EvFeeTokenRemoved token).

Definition update_fee_token (o : Origin) (token : H160) (config : FeeTokenConfig) : M (FpStorage W) DispatchError unit :=
  do* ensure_fee_admin o in
  let* s := gets id in
  do* ensure (bool_decide (is_Some (AcceptedFeeTokens s !! token))) (FeePaymentErr FpTokenNotAccepted) in
  do* ensure (decimals config <=? 18) (FeePaymentErr FpInvalidTokenConfig) in
  do* fp_mutate AcceptedFeeTokens <[token := config]> in
  fp_deposit (EvFeeTokenUpdated token).

Definition set_user_fee_token (o : Origin) (token : option H160) : M (FpStorage W) DispatchError unit :=
  let* who := ensure_signed o in
  let* user_address := account_to_h160 who in
  do* match token with
      | Some t =>
          let* s := gets id in
          let* config := ok_or (AcceptedFeeTokens s !! t) (FeePaymentErr FpTokenNotAccepted) in
          do* ensure (enabled config) (FeePaymentErr FpTokenDisabled) in
          fp_mutate UserFeeToken <[user_address := t]>
      | None => fp_mutate UserFeeToken (delete user_address)
      end in
  fp_deposit (EvUserFeeTokenSet user_address token).

Definition withdraw_collected_fees (o : Origin) (token to : H160) (amount : U256)
    : M (FpStorage W) DispatchError unit :=
  do* ensure_fee_admin o in
  do* ensure (negb (amount =? 0)) (FeePaymentErr FpInvalidTokenConfig) in
  do* ensure (negb (N.eqb to 0)) (FeePaymentErr FpInvalidTokenConfig) in
  do* map_err (fun _ => FeePaymentErr FpERC20TransferFailed)
        (transfer_to_user FeeCollectorAddress token to amount) in
  fp_deposit (EvCollectedFeesWithdrawn token to amount).

(** ** [BifrostFeeAdapter] *)

Definition withdraw_native_fee (who : H160) (fee : U256) : M (FpStorage W) DispatchError LiquidityInfo :=
  let* s := gets id in
  let* '(imbalance, w) := ok_or (fee_withdraw (World s) (into_account_id who) (into_u128 fee)) EvmBalanceLow in
  do* fp_put World w in
  ret (LiNative (Some imbalance)).

Definition fallback_to_native (who : H160) (fee : U256) (token : H160) (reason : FallbackReason)
    : M (FpStorage W) DispatchError LiquidityInfo :=
  do* fp_deposit (EvFeePaymentFallbackToNative who token reason) in
  withdraw_native_fee who fee.

Definition withdraw_erc20_fee v (who : H160) (native_fee : U256) (token : H160) (tx_index : Z)
    : M (FpStorage W) DispatchError LiquidityInfo :=
  let* s := gets id in
  match AcceptedFeeTokens s !! token with
  | None => fallback_to_native who native_fee token FrTokenNotRegistered
  | Some config =>
      if negb (enabled config) then fallback_to_native who native_fee token FrTokenDisabled
      else
        let* converted := result_of (convert_native_to_token_with_prices v native_fee token) in
        match converted with
        | inl _ => fallback_to_native who native_fee token FrPriceConversionFailed
        | inr (token_amount, token_price, native_price) =>
            let* transferred := result_of (execute_fee_transfer who token token_amount) in
            match transferred with
            | inl _ => fallback_to_native who native_fee token FrTransferFailed
            | inr _ =>
                do* fp_mutate PendingFeePayments
                      <[(who, tx_index) :=
                          mkFeePaymentInfo token token_amount native_fee token_price native_price]> in
                do* fp_deposit (EvFeePaymentInToken who token token_amount native_fee) in
                ret (LiERC20Withdrawn token token_amount native_fee tx_index token_price native_price)
            end
        end
  end.

Definition withdraw_fee v (who : H160) (fee : U256) : M (FpStorage W) DispatchError LiquidityInfo :=
  let* s := gets id in
  let tx_index := CurrentTxIndex s in
  do* fp_put CurrentTxIndex (u32_sat_add tx_index 1) in
  if fee =? 0 then ret LiNone
  else if negb (is_erc20_fee_enabled v) then withdraw_native_fee who fee
  else match UserFeeToken s !! who with
       | None => withdraw_native_fee who fee
       | Some token => withdraw_erc20_fee v who fee token tx_index
       end.

(** [paid.offset(refund).same().unwrap_or_else(|_| zero())] *)
Definition offset_same (paid refund : Balance) (w : W) : Balance * W :=
  if refund <? paid then (paid - refund, w)
  else if paid <? refund then (0, drop_positive (refund - paid) w)
  else (0, w).

Definition correct_native_fee (who : H160) (corrected_fee base_fee : U256) (already_withdrawn : option Balance)
    : M (FpStorage W) DispatchError LiquidityInfo :=
  match already_withdrawn with
  | Some paid =>
      let* s := gets id in
      let refund_amount := sat_sub paid (into_u128 corrected_fee) in
      let '(refund_imbalance, w1) :=
        default (0, World s) (fee_deposit_into_existing (World s) (into_account_id who) refund_amount) in
      let '(adjusted_paid, w2) := offset_same paid refund_imbalance w1 in
      let base_fee_imbalance := Z.min (into_u128 base_fee) adjusted_paid in
      do* fp_put World (on_unbalanced base_fee_imbalance w2) in
      ret (LiNative (Some (adjusted_paid - base_fee_imbalance)))
  | None => ret LiNone
  end.

(** [checked_mul(..).and_then(checked_div)] *)
Definition mul_div (a b c : U256) : option U256 := m ← u256_checked_mul a b; u256_checked_div m c.

Definition tip_portion (actual_token_amount corrected_fee base_fee : U256) : U256 :=
  if (base_fee <? corrected_fee) && negb (corrected_fee =? 0) then
    sat_sub actual_token_amount
      (default actual_token_amount (mul_div actual_token_amount base_fee corrected_fee))
  else 0.

Definition correct_erc20_fee (who : H160) (corrected_fee base_fee : U256) (token : H160)
    (withdrawn_amount native_equivalent : U256) (tx_index : Z) (token_price native_price : U256)
    : M (FpStorage W) DispatchError LiquidityInfo :=
  if native_equivalent =? 0 then ret LiNone
  else
    let actual_token_amount :=
      default withdrawn_amount (mul_div withdrawn_amount corrected_fee native_equivalent) in
    let refund_amount := sat_sub withdrawn_amount actual_token_amount in
    do* (if refund_amount =? 0 then ret tt
         else
           let* refunded := result_of (refund_token who token refund_amount) in
           match refunded with
           | inr _ => fp_deposit (EvFeeRefundInToken who token refund_amount)
           | inl _ => ret tt
           end) in
    do* fp_mutate PendingFeePayments
          <[(who, tx_index) :=
              mkFeePaymentInfo token actual_token_amount corrected_fee token_price native_price]> in
    ret (LiERC20Tip token (tip_portion actual_token_amount corrected_fee base_fee)).

Definition correct_and_deposit_fee (who : H160) (corrected_fee base_fee : U256) (already_withdrawn : LiquidityInfo)
    : M (FpStorage W) DispatchError LiquidityInfo :=
  match already_withdrawn with
  | LiNone => ret LiNone
  | LiNative imbalance => correct_native_fee who corrected_fee base_fee imbalance
  | LiERC20Withdrawn token amount native_equivalent tx_index token_price native_price =>
      correct_erc20_fee who corrected_fee base_fee token amount native_equivalent tx_index token_price
        native_price
  | LiERC20Tip _ _ => ret LiNone
  end.

Definition pay_priority_fee v (tip : LiquidityInfo) : M (FpStorage W) DispatchError unit :=
  match tip with
  | LiNative (Some tip_imbalance) =>
      let* s := gets id in
      let w := match fee_deposit_into_existing (World s) (into_account_id (fv_author v)) tip_imbalance with
               | Some (credit, w) => drop_positive credit w
               | None => World s
               end in
      fp_put World (drop_negative tip_imbalance w)
  | LiERC20Tip token tip_amount =>
      if tip_amount =? 0 then ret tt
      else
        let* paid := result_of (transfer_to_user FeeCollectorAddress token (fv_author v) tip_amount) in
        match paid with
        | inr _ => fp_deposit (EvTipPaymentInToken (fv_author v) token tip_amount)
        | inl _ => ret tt
        end
  | _ => ret tt
  end.
End Payment.
