(* ===== verification/FeePrecompile.v ===== *)
(** * Users of the fee pallet: the precompile and the transaction pool

    [precompiles/bifrost-evm-tx-payment], by which a user sets and clears the
    token of its fees, and [BifrostFeelessCalls] of [runtime/common], which
    tells the pool which transactions need no native balance and the runner
    which calls are free. *)

From S2P Require Import Prelude Errors Primitives Cccp OracleRegistry FeePayment.
Local Open Scope Z_scope.
Local Open Scope frame_scope.

(** ** The handle of a precompile *)

Inductive PrecompileFailure : Type :=
| OutOfGas
| Revert (message : string).

Record PcState {W : Type} : Type := mkPcState {
  pc_storage : FpStorage W; pc_gas : Z; pc_logs : list (H160 * H160)
}.
Arguments PcState W : clear implicits.
Arguments mkPcState {W}.
#[export] Instance PcState_rebuild {W} : Rebuild (PcState W) := fun r =>
  mkPcState (pc_storage r) (pc_gas r) (pc_logs r).
#[export] Instance f_pc_storage {W} : Field (R:=PcState W) pc_storage := ltac:(derive_field).
#[export] Instance f_pc_gas {W} : Field (R:=PcState W) pc_gas := ltac:(derive_field).
#[export] Instance f_pc_logs {W} : Field (R:=PcState W) pc_logs := ltac:(derive_field).

Class GasCosts := { db_read_gas_cost : Z; db_write_gas_cost : Z }.

Section Precompile.
Context {R W : Type} `{!FeeConfig, !GasCosts, !Runner W, !OracleRegistryManager R W}.
Implicit Types (v : FpView R) (s : FpStorage W).
Abbreviation Pc A := (M (PcState W) PrecompileFailure A).

Definition record_cost (cost : Z) : Pc unit :=
  let* p := gets id in
  do* ensure (cost <=? pc_gas p) OutOfGas in
  modify (fun p => p <| pc_gas ::= (fun g => g - cost) |>).
Definition on_storage {A} (f : FpStorage W -> A) : Pc A := gets (fun p => f (pc_storage p)).
Definition pc_mutate (f : FpStorage W -> FpStorage W) : Pc unit := modify (fun p => p <| pc_storage ::= f |>).
(** The log [UserFeeTokenSet(caller, token)] *)
Definition pc_log (caller token : H160) : Pc unit :=
  modify (fun p => p <| pc_logs ::= (fun l => l ++ [(caller, token)]) |>).
(** [.map_err(|_| revert(message))?] on a function of the pallet *)
Definition or_revert {E A} (m : M (FpStorage W) E A) (message : string) : Pc A :=
  lift pc_storage (fun s p => p <| pc_storage := s |>) (map_err (fun _ => Revert message) m).

(** ** Rate limit *)

Definition is_rate_limited v s (caller : H160) : bool :=
  if FeeTokenUpdateCooldown =? 0 then false
  else match LastFeeTokenUpdate s !! caller with
       | Some last_update => fv_now v <? u32_sat_add last_update FeeTokenUpdateCooldown
       | None => false
       end.

Definition check_rate_limit v (caller : H160) : Pc unit :=
  if FeeTokenUpdateCooldown =? 0 then ret tt
  else
    let* last := on_storage (fun s => LastFeeTokenUpdate s !! caller) in
    match last with
    | Some last_update =>
        ensure (negb (fv_now v <? u32_sat_add last_update FeeTokenUpdateCooldown))
          (Revert "Rate limited: please wait before changing fee token")
    | None => ret tt
    end.

(** ** Calls of the precompile *)

Definition pc_set_user_fee_token v (caller token : H160) : Pc unit :=
  do* record_cost (db_read_gas_cost * 2) in
  do* record_cost (db_write_gas_cost * 2) in
  do* check_rate_limit v caller in
  let* found := on_storage (fun s => AcceptedFeeTokens s !! token) in
  let* config := ok_or found (Revert "Token not accepted for fee payment") in
  do* ensure (enabled config) (Revert "Token is currently disabled") in
  do* pc_mutate (fun s => s <| UserFeeToken ::= <[caller := token]> |>) in
  do* pc_mutate (fun s => s <| LastFeeTokenUpdate ::= <[caller := fv_now v]> |>) in
  pc_log caller token.

Definition pc_clear_user_fee_token v (caller : H160) : Pc unit :=
  do* record_cost db_read_gas_cost in
  do* record_cost (db_write_gas_cost * 2) in
  do* check_rate_limit v caller in
  do* pc_mutate (fun s => s <| UserFeeToken ::= delete caller |>) in
  do* pc_mutate (fun s => s <| LastFeeTokenUpdate ::= <[caller := fv_now v]> |>) in
  pc_log caller 0%N.

Definition pc_get_user_fee_token (user : H160) : Pc H160 :=
  do* record_cost db_read_gas_cost in
  on_storage (fun s => default 0%N (UserFeeToken s !! user)).

Definition pc_get_users_fee_token : Pc (list H160 * list H160) :=
  do* record_cost (db_read_gas_cost * 10) in
  let* users := on_storage (fun s => map_to_list (UserFeeToken s)) in
  fold_each users ([], []) (fun acc kv =>
    do* record_cost db_read_gas_cost in ret (acc.1 ++ [kv.1], acc.2 ++ [kv.2])).

Definition pc_native_fee v (gas_amount : U256) : Pc U256 :=
  ok_or (u256_checked_mul (fv_base_fee v) gas_amount) (Revert "Fee calculation overflow").

Definition pc_estimate_fee_in_token v (token : H160) (gas_amount : U256) : Pc U256 :=
  do* record_cost (db_read_gas_cost * 2) in
  let* native_fee := pc_native_fee v gas_amount in
  or_revert (convert_native_to_token v native_fee token) "Failed to convert fee to token amount".

Definition pc_is_accepted_token (token : H160) : Pc bool :=
  do* record_cost db_read_gas_cost in
  on_storage (fun s => is_token_accepted s token).

Definition pc_get_token_config (token : H160) : Pc (bool * Z * U256) :=
  do* record_cost db_read_gas_cost in
  let* found := on_storage (fun s => AcceptedFeeTokens s !! token) in
  let* config := ok_or found (Revert "Token not found") in
  ret (enabled config, decimals config, min_balance config).

Definition pc_get_token_price v (token : H160) : Pc U256 :=
  do* record_cost (db_read_gas_cost * 5) in
  or_revert (get_token_price_via_registry v token 0) "Failed to get oracle price".

Definition pc_get_native_fee v (gas_amount : U256) : Pc U256 :=
  do* record_cost db_read_gas_cost in
  pc_native_fee v gas_amount.

(** ** [BifrostFeelessCalls] *)

Definition TX_PAYMENT_PRECOMPILE : H160 := 0x0810%N.
Definition SET_USER_FEE_TOKEN : UnboundedBytes := bytes4 0x47dee8ee.
Definition CLEAR_USER_FEE_TOKEN : UnboundedBytes := bytes4 0xc1e1da08.

Definition extract_token_from_input (input : UnboundedBytes) : option H160 :=
  if Nat.ltb (length input) 36 then None
  else Some (Z.to_N (from_be_bytes (take 20 (drop 16 input)))).

Definition validate_feeless_set_token s (caller token : H160) : bool :=
  match AcceptedFeeTokens s !! token with
  | None => false
  | Some config =>
      enabled config &&
      (if min_balance config =? 0 then true
       else match get_token_balance s caller token with
            | None => false
            | Some balance => negb (balance <? min_balance config)
            end)
  end.

Definition is_feeless_internal v s (caller : H160) (target : option H160) (input : UnboundedBytes) : bool :=
  match target with
  | Some target =>
      if N.eqb target TX_PAYMENT_PRECOMPILE && Nat.leb 4 (length input) then
        let selector := take 4 input in
        if bool_decide (selector = SET_USER_FEE_TOKEN) then
          if is_rate_limited v s caller then false
          else match extract_token_from_input input with
               | Some token => validate_feeless_set_token s caller token
               | None => false
               end
        else if bool_decide (selector = CLEAR_USER_FEE_TOKEN) then negb (is_rate_limited v s caller)
        else false
      else false
  | None => false
  end.

(** A [None] is the panic of a price that cannot be computed. *)
Definition validate_erc20_fee_user v s (caller token : H160) (gas_limit base_fee : U256) : option bool :=
  if negb (is_erc20_fee_enabled v) then Some false
  else match AcceptedFeeTokens s !! token with
       | None => Some false
       | Some config =>
           if negb (enabled config) then Some false
           else match u256_checked_mul gas_limit base_fee with
                | None => Some false
                | Some estimated_native_fee =>
                    match (convert_native_to_token v estimated_native_fee token s).1 with
                    | Trap => None
                    | Fail _ => Some false
                    | Done required_token_amount =>
                        match get_token_balance s caller token with
                        | None => Some false
                        | Some balance => Some (required_token_amount <=? balance)
                        end
                    end
                end
       end.

Definition is_zero_balance_callable v s (caller : H160) (target : option H160) (input : UnboundedBytes)
    (gas_limit base_fee : U256) : option bool :=
  match UserFeeToken s !! caller with
  | Some token => validate_erc20_fee_user v s caller token gas_limit base_fee
  | None => Some (is_feeless_internal v s caller target input)
  end.

Definition is_feeless v s (caller : H160) (target : option H160) (input : UnboundedBytes) : bool :=
  is_feeless_internal v s caller target input.
End Precompile.
