(* ===== verification/BfcUtility.v ===== *)
(** * BFC utility

    [pallets/bfc-utility]: the accepted community proposals, the minting of
    native tokens and the blocked accounts. The balances and the hexadecimal
    printer are not in the repository. *)

From S2P Require Import Prelude Errors Primitives Cccp.
Local Open Scope Z_scope.
Local Open Scope frame_scope.

Record Proposal : Type := mkProposal { proposal_hex : string; proposal_index : Z }.

Inductive BfcUtilityEvent : Type :=
| EvProposed (proposal_index : Z)
| EvMintNative (beneficiary : AccountId) (minted : Balance).

(** The state [C] of the balances: [deposit_creating] returns the positive
    imbalance, which is dropped at the end of the call. *)
Class MintCurrency (C : Type) := {
  deposit_creating : C -> AccountId -> Balance -> Balance * C;
  drop_minted : Balance -> C -> C
}.
Class BfcUtilityConfig := {
  mintable_origin : Origin -> bool;
  (** [to_hex(bytes, skip_leading_zeroes)] *)
  to_hex : UnboundedBytes -> bool -> string
}.

Record BuStorage {C : Type} : Type := mkBuStorage {
  AcceptedProposals : list Proposal;
  ProposalIndex : Z;
  BlockedAccounts : gset N;
  Balances : C;
  BuEvents : list BfcUtilityEvent
}.
Arguments BuStorage C : clear implicits.
Arguments mkBuStorage {C}.
#[export] Instance BuStorage_rebuild {C} : Rebuild (BuStorage C) := fun r =>
  mkBuStorage (AcceptedProposals r) (ProposalIndex r) (BlockedAccounts r) (Balances r) (BuEvents r).
#[export] Instance f_AcceptedProposals {C} : Field (R:=BuStorage C) AcceptedProposals := ltac:(derive_field).
#[export] Instance f_ProposalIndex {C} : Field (R:=BuStorage C) ProposalIndex := ltac:(derive_field).
#[export] Instance f_BlockedAccounts {C} : Field (R:=BuStorage C) BlockedAccounts := ltac:(derive_field).
#[export] Instance f_Balances {C} : Field (R:=BuStorage C) Balances := ltac:(derive_field).
#[export] Instance f_BuEvents {C} : Field (R:=BuStorage C) BuEvents := ltac:(derive_field).

Section Pallet.
Context {C : Type} `{!BfcUtilityConfig, !MintCurrency C}.
Abbreviation Bu A := (M (BuStorage C) DispatchError A).

Definition bu_put {A} (f : BuStorage C -> A) `{!Field f} (x : A) : Bu unit := modify (fun s => s <| f := x |>).
Definition bu_deposit (e : BfcUtilityEvent) : Bu unit := modify (fun s => s <| BuEvents ::= (fun l => l ++ [e]) |>).

Definition is_blocked_account (s : BuStorage C) (account : AccountId) : bool := bool_decide (account ∈ BlockedAccounts s).

(** [GenesisConfig::build] *)
Definition bu_genesis (index : Z) (c : C) : BuStorage C := mkBuStorage [] index ∅ c [].

Definition community_proposal (o : Origin) (proposal : UnboundedBytes) : Bu unit :=
  do* ensure_root o in
  let* s := gets id in
  let index := ProposalIndex s in
  do* bu_put AcceptedProposals (AcceptedProposals s ++ [mkProposal (to_hex proposal true) index]) in
  let index := u32_add index 1 in
  do* bu_put ProposalIndex index in
  bu_deposit (EvProposed index).

Definition mint_native (o : Origin) (beneficiary : AccountId) (mint : Balance) : Bu unit :=
  do* ensure (mintable_origin o) BadOrigin in
  do* ensure (negb (mint =? 0)) (BfcUtilityErr AmountTooLow) in
  let* s := gets id in
  let '(minted, c) := deposit_creating (Balances s) beneficiary mint in
  do* bu_deposit (EvMintNative beneficiary minted) in
  bu_put Balances (drop_minted minted c).

Definition add_blocked_account (o : Origin) (account : AccountId) : Bu unit :=
  do* ensure_root o in
  let* s := gets id in
  do* ensure (negb (is_blocked_account s account)) (BfcUtilityErr AccountAlreadyBlocked) in
  bu_put BlockedAccounts ({[account]} ∪ BlockedAccounts s).

Definition remove_blocked_account (o : Origin) (account : AccountId) : Bu unit :=
  do* ensure_root o in
  let* s := gets id in
  do* ensure (is_blocked_account s account) (BfcUtilityErr AccountNotBlocked) in
  bu_put BlockedAccounts (BlockedAccounts s ∖ {[account]}).
End Pallet.

(** ** Where a blocked account is stopped

    [runtime/common]: the transaction extension [CheckBlockedOrigin], the
    check of self-contained Ethereum transactions, and the wrapper of the
    precompile set. The checks of [pallet_ethereum] and the wrapped set are
    arguments. An [AccountId] is the [H160] it is made from. *)

Inductive PrecompileOutcome {Out : Type} : Type :=
| PcReturned (out : Out)
| PcReverted (output : UnboundedBytes).
Arguments PrecompileOutcome Out : clear implicits.

Inductive RuntimeCall {EthCall Call : Type} : Type :=
| REthereum (call : EthCall)
| ROther (call : Call).
Arguments RuntimeCall EthCall Call : clear implicits.

Definition blocked_account_revert_data : UnboundedBytes :=
  let msg := String.list_byte_of_string "blocked account" in
  to_be_bytes 4 0x08c379a0 ++ replicate 31 x00 ++ [x20] ++ replicate 31 x00 ++
  [byte_of (Z.of_nat (length msg))] ++ msg ++ replicate (32 - length msg) x00.

Section Guards.
Context {C EthCall Call Handle Out : Type}.
Implicit Types s : BuStorage C.

(** [CheckBlockedOrigin::validate] *)
Definition check_blocked_origin s (o : Origin) : InvalidTransaction + Origin :=
  match o with
  | SignedOrigin who => if is_blocked_account s who then inl BadSigner else inr o
  | _ => inr o
  end.

(** [check_self_contained]; [eth_check] is that of the Ethereum call *)
Definition check_self_contained s (eth_check : EthCall -> option (InvalidTransaction + H160))
    (call : RuntimeCall EthCall Call) : option (InvalidTransaction + H160) :=
  match call with
  | REthereum c =>
      match eth_check c with
      | None => None
      | Some (inr signer) => if is_blocked_account s signer then Some (inl BadSigner) else Some (inr signer)
      | Some (inl e) => Some (inl e)
      end
  | ROther _ => None
  end.

(** [BifrostPrecompiles::execute] and [is_precompile] around the inner set *)
Definition precompiles_execute s (code_address : Handle -> H160)
    (inner : Handle -> option (PrecompileOutcome Out)) (handle : Handle) : option (PrecompileOutcome Out) :=
  if is_blocked_account s (code_address handle) then Some (PcReverted blocked_account_revert_data)
  else inner handle.
(** [(is_precompile, extra_cost)] *)
Definition precompiles_is_precompile s (inner : H160 -> Z -> option (bool * Z)) (address : H160) (gas : Z)
    : option (bool * Z) :=
  if is_blocked_account s address then Some (true, 0) else inner address gas.
End Guards.
