(* ===== verification/Instances.v ===== *)
(** * A concrete runtime

    Instances of the parameters of the model, used to run the pallets on
    concrete inputs: balances kept in two maps, [Perbill] by integer
    arithmetic, the relay manager and the offence handler of this development,
    and a set of small constants. The laws assumed of the balances and of
    [Perbill] hold of them. *)

From S2P Require Import Prelude Errors Primitives StakingTypes Offences RelayManager.
Local Open Scope Z_scope.
Local Open Scope frame_scope.

(** ** [Perbill] *)

#[export] Instance perbill_ops : PerbillOps := {
  from_parts n := Z.min n ACCURACY;
  from_percent n := Z.min n 100 * 10000000;
  from_rational p q := if q =? 0 then ACCURACY else Z.min (p * ACCURACY / q) ACCURACY;
  perbill_mul p x := (p * x + ACCURACY / 2) / ACCURACY
}.

#[export] Instance perbill_laws : PerbillLaws.
Proof.
  split.
  - done.
  - done.
  - intros p q Hp Hq. cbn. unfold ACCURACY. destruct (Z.eqb_spec q 0); [lia|].
    pose proof (Z.div_pos (p * 1000000000) q). lia.
  - intros p q Hp Hq. cbn. unfold ACCURACY. destruct (Z.eqb_spec q 0); [lia|].
    pose proof (Z.mul_div_le (p * 1000000000) q Hq). nia.
  - intros p x Hp Hx. cbn. unfold ACCURACY in *. change (1000000000 / 2) with 500000000.
    pose proof (Z.div_mod (p * x + 500000000) 1000000000 ltac:(lia)).
    pose proof (Z.mod_pos_bound (p * x + 500000000) 1000000000 ltac:(lia)). lia.
Qed.

(** ** Balances *)

Record Ledger : Type := mkLedger { free : gmap N Z; held : gmap N Z; issuance : Z }.
Definition free_of (c : Ledger) (a : AccountId) : Z := default 0 (free c !! a).
Definition held_of (c : Ledger) (a : AccountId) : Z := Z.max 0 (default 0 (held c !! a)).
Definition ledger_can (c : Ledger) (a : AccountId) (v : Z) : bool :=
  (0 <=? v) && (v <=? free_of c a).
Definition ledger_take (c : Ledger) (a : AccountId) (v : Z) : gmap N Z :=
  <[a := Z.max 0 (held_of c a - v)]> (held c).

#[export] Instance ledger_currency : Currency Ledger := {
  free_balance := free_of;
  reserved_balance := held_of;
  total_issuance := issuance;
  can_reserve := ledger_can;
  reserve c a v :=
    if ledger_can c a v
    then Some (mkLedger (<[a := free_of c a - v]> (free c)) (<[a := held_of c a + v]> (held c))
                 (issuance c))
    else None;
  unreserve c a v :=
    mkLedger (<[a := free_of c a + Z.min v (held_of c a)]> (free c)) (ledger_take c a v)
      (issuance c);
  slash_reserved c a v :=
    mkLedger (free c) (ledger_take c a v) (issuance c - Z.min v (held_of c a));
  deposit_into_existing c a v :=
    match free c !! a with
    | Some f => Some (v, mkLedger (<[a := f + v]> (free c)) (held c) (issuance c + v))
    | None => None
    end
}.

Lemma held_insert c f i a b v :
  held_of (mkLedger f (<[a := v]> (held c)) i) b =
    if decide (a = b) then Z.max 0 v else held_of c b.
Proof.
  unfold held_of. cbn. case_decide as E.
  - subst. by rewrite lookup_insert_eq.
  - by rewrite lookup_insert_ne.
Qed.

#[export] Instance ledger_laws : CurrencyLaws Ledger.
Proof.
  split; cbn.
  - intros c a. unfold held_of. lia.
  - intros c a v. destruct (ledger_can c a v); split; intros Hs; first [done | by destruct Hs].
  - intros c a v c' b. unfold ledger_can. destruct (Z.leb_spec 0 v), (v <=? free_of c a); try done.
    cbn. intros [= <-]. rewrite held_insert. unfold held_of. case_decide as E; subst; lia.
  - intros c a v b Hv. unfold ledger_take. rewrite held_insert. case_decide; subst; lia.
  - intros c a v b Hv. unfold ledger_take. rewrite held_insert. case_decide; subst; lia.
  - intros c a v r c' b. destruct (free c !! a); [|done]. by intros [= _ <-].
Qed.

(** ** The bridge pallets and the membership, reduced to the member list *)

Record Bridge : Type := mkBridge { br_members : list AccountId; br_prime : option AccountId;
  br_reports : list UnresponsivenessOffence }.
#[export] Instance bridge_env : RelayEnv Bridge := {
  relay_queue_replace_authority _ _ q := q;
  socket_queue_replace_authority _ _ q := q;
  registration_pool_replace_authority _ _ q := q;
  blaze_replace_authority _ _ q := q;
  members := br_members;
  put_members l q := mkBridge l (br_prime q) (br_reports q);
  prime := br_prime;
  put_prime a q := mkBridge (br_members q) (Some a) (br_reports q);
  change_members_sorted _ _ _ q := q;
  set_prime _ q := q;
  report_offence o q := mkBridge (br_members q) (br_prime q) (br_reports q ++ [o])
}.

Definition relay_start : RmStorage Bridge :=
  mkRmStorage Bridge 3 1 ∅ [] ∅ ∅ ∅ ∅ ∅ 1 1 ∅ ∅ ∅ true 0 ∅ (mkBridge [] None []) [].
Definition offences_start : OffencesStorage := mkOffencesStorage ∅ 5 1 1 true true [].

(** ** The constants of the staking pallet *)

#[export] Instance test_config : Config := {
  Cur := Ledger;
  Rm := RmStorage Bridge;
  Oh := OffencesStorage;
  oh_handler := Offences_handler;
  cfg_perbill := perbill_ops;
  monetary_governance o := match o with RootOrigin => true | _ => false end;
  annual_rate_to_round a n := if n =? 0 then None else Some (a / n);
  twox64 a := a;
  DefaultBlocksPerSession := 5;
  DefaultBlocksPerRound := 20;
  MinBlocksPerRound := 5;
  MaxBlocksPerRound := 1000;
  StorageCacheLifetimeInRounds := 3;
  LeaveCandidatesDelay := 2;
  CandidateBondLessDelay := 2;
  LeaveNominatorsDelay := 2;
  RevokeNominationDelay := 2;
  NominationBondLessDelay := 2;
  RewardPaymentDelay := 1;
  DefaultMaxSelectedFullCandidates := 2;
  DefaultMaxSelectedBasicCandidates := 2;
  MaxTopNominationsPerCandidate := 2;
  MaxBottomNominationsPerCandidate := 2;
  MaxNominationsPerNominator := 3;
  DefaultFullValidatorCommission_cfg := 100000000;
  DefaultBasicValidatorCommission_cfg := 50000000;
  MaxFullValidatorCommission_cfg := 200000000;
  MaxBasicValidatorCommission_cfg := 200000000;
  MinFullValidatorStk := 100;
  MinBasicValidatorStk := 50;
  MinFullCandidateStk := 100;
  MinBasicCandidateStk := 50;
  MinNomination := 5;
  MinNominatorStk := 10
}.

(** Accounts 1 to 40 own 1000 units each. *)
Definition rich : Ledger :=
  mkLedger (list_to_map ((fun n => (N.of_nat n, 1000)) <$> seq 1 40)) ∅ 40000.
Definition start : Storage :=
  mkStorage _ 0 default_round 3 100000000 50000000 200000000 200000000 4 2 2 0 ∅ ∅ ∅ ∅ ∅
    ∅ ∅ ∅ ∅ 1 ∅ 0 ∅ ∅ ∅ ∅ ∅ ∅ ∅ (mkInflationInfo (mkRange 0 0 0) (mkRange 0 0 0) (mkRange 0 0 0))
    ∅ ∅ 0 rich relay_start offences_start [].

(** The storage reached by calls that all succeed. *)
Fixpoint calls (l : list (P unit)) (s : Storage) : option Storage :=
  match l with
  | [] => Some s
  | m :: l' => match dispatch m s with (Done _, s') => calls l' s' | _ => None end
  end.
Definition after (l : list (P unit)) : Storage := default start (calls l start).
(** The calls succeed one after the other and lead to a storage with [Q]. *)
Definition reaches (l : list (P unit)) (Q : Storage -> Prop) : Prop :=
  match calls l start with Some s => Q s | None => False end.
Definition in_round (r : RoundIndex) : P unit :=
  mutate Round (fun i => i <| current_round_index := r |>).

(** A run known to succeed, with the storage it leads to. *)
Lemma done_run {S E} (m : M S E unit) s : (m s).1 = Done tt -> m s = (Done tt, (m s).2).
Proof. by destruct (m s) as [? ?]; intros [= ->]. Qed.
