(* ===== verification/BridgeInstances.v ===== *)
(** * A concrete codec and hash

    Instances of the parameters of the bridge pallets for the witnesses and
    the runs: a packed codec for the tokens, for which the laws of [EthAbi]
    hold, and a hash without collisions that numbers the byte strings of a
    given list first. *)

From S2P Require Import Prelude Cccp BtcRelay.
Local Open Scope Z_scope.

(** ** The codec *)

Fixpoint bytes_frame (b : list byte) : list byte :=
  match b with [] => [x00] | c :: b' => x01 :: c :: bytes_frame b' end.
Fixpoint bytes_unframe (fuel : nat) (b : list byte) : option (list byte * list byte) :=
  match fuel, b with
  | _, x00 :: rest => Some ([], rest)
  | S f, _ :: c :: rest => '(b', rest') ← bytes_unframe f rest; Some (c :: b', rest')
  | _, _ => None
  end.

Fixpoint enc (t : Token) : list byte :=
  match t with
  | TAddress a => to_be_bytes 20 (Z.of_N a)
  | TFixedBytes b => b
  | TBytes b => bytes_frame b
  | TUint v => to_be_bytes 32 v
  | TFixedArray l | TTuple l => flat_map enc l
  end.

(** The first [n] bytes *)
Definition chop (n : nat) (b : list byte) : option (list byte * list byte) :=
  if Nat.leb n (length b) then Some (take n b, drop n b) else None.

Fixpoint dec (k : ParamKind) (b : list byte) {struct k} : option (Token * list byte) :=
  match k with
  | KAddress => '(h, r) ← chop 20 b; Some (TAddress (Z.to_N (from_be_bytes h)), r)
  | KBytes => '(h, r) ← bytes_unframe (length b) b; Some (TBytes h, r)
  | KUint _ => '(h, r) ← chop 32 b; Some (TUint (from_be_bytes h), r)
  | KFixedBytes n => '(h, r) ← chop n b; Some (TFixedBytes h, r)
  | KFixedArray k' n =>
      '(l, r) ←
        (fix items (n : nat) (b : list byte) : option (list Token * list byte) :=
           match n with
           | O => Some ([], b)
           | S n' => '(t, r) ← dec k' b; '(l, r') ← items n' r; Some (t :: l, r')
           end) n b;
      Some (TFixedArray l, r)
  | KTuple ks =>
      '(l, r) ←
        (fix items (ks : list ParamKind) (b : list byte) {struct ks} : option (list Token * list byte) :=
           match ks with
           | [] => Some ([], b)
           | k' :: ks' => '(t, r) ← dec k' b; '(l, r') ← items ks' r; Some (t :: l, r')
           end) ks b;
      Some (TTuple l, r)
  end.

#[export] Instance packed_abi : EthAbi := {
  abi_encode ts := flat_map enc ts;
  abi_decode ks b := match dec (KTuple ks) b with Some (TTuple ts, []) => Some ts | _ => None end
}.

Section KindInd.
Context (P : ParamKind -> Prop).
Context (Ha : P KAddress) (Hb : P KBytes) (Hu : forall n, P (KUint n)) (Hf : forall n, P (KFixedBytes n)).
Context (Hr : forall k n, P k -> P (KFixedArray k n)) (Ht : forall ks, Forall P ks -> P (KTuple ks)).
Fixpoint kind_ind (k : ParamKind) : P k :=
  match k with
  | KAddress => Ha
  | KBytes => Hb
  | KUint n => Hu n
  | KFixedBytes n => Hf n
  | KFixedArray k' n => Hr k' n (kind_ind k')
  | KTuple ks =>
      Ht ks ((fix all (ks : list ParamKind) : Forall P ks :=
                match ks with
                | [] => Forall_nil_2 P
                | k' :: ks' => Forall_cons_2 P k' ks' (kind_ind k') (all ks')
                end) ks)
  end.
End KindInd.

Lemma chop_app n b r : length b = n -> chop n (b ++ r) = Some (b, r).
Proof.
  intros <-. unfold chop. rewrite length_app, (proj2 (Nat.leb_le _ _)) by lia.
  by rewrite take_app_length, drop_app_length.
Qed.
Lemma chop_some n b h r : chop n b = Some (h, r) -> length h = n.
Proof.
  unfold chop. destruct (Nat.leb_spec n (length b)); [|done]. intros [= <- _].
  rewrite length_take. lia.
Qed.
Lemma unframe_frame b r fuel :
  (length b <= fuel)%nat -> bytes_unframe fuel (bytes_frame b ++ r) = Some (b, r).
Proof.
  revert fuel. induction b as [|c b IH]; intros fuel Hf; [by destruct fuel|].
  destruct fuel as [|fuel]; [cbn in Hf; lia|]. cbn. by rewrite IH by (cbn in Hf; lia).
Qed.
Lemma frame_length b : (length b <= length (bytes_frame b))%nat.
Proof. induction b; cbn; lia. Qed.

#[local] Arguments from_be_bytes : simpl never.
#[local] Arguments to_be_bytes : simpl never.

Lemma dec_enc k : forall t r, token_is word k t = true -> dec k (enc t ++ r) = Some (t, r).
Proof.
  induction k as [| |n|n|k n IH|ks IH] using kind_ind; intros t r Hk.
  - destruct t; try done. cbn in Hk. cbn [dec enc]. rewrite chop_app by apply to_be_bytes_length. cbn.
    apply N.ltb_lt in Hk. rewrite from_to_be_bytes, N2Z.id; [done|].
    change (256 ^ Z.of_nat 20) with (Z.of_N (2 ^ 160)). lia.
  - destruct t; try done. cbn [dec enc]. rewrite unframe_frame; [done|].
    rewrite length_app. pose proof (frame_length b). lia.
  - destruct t; try done. cbn [token_is] in Hk. cbn [dec enc]. rewrite chop_app by apply to_be_bytes_length.
    cbn. rewrite from_to_be_bytes; [done|]. change (256 ^ Z.of_nat 32) with (2 ^ word n). lia.
  - destruct t; try done. cbn in Hk. apply Nat.eqb_eq in Hk. cbn [dec enc]. by rewrite chop_app.
  - destruct t; try done. cbn [token_is] in Hk. apply andb_true_iff in Hk as [<-%Nat.eqb_eq Hl].
    cbn [dec enc]. revert r. induction l as [|t l IHl]; intros r; [done|].
    cbn in Hl. apply andb_true_iff in Hl as [H1 H2]. cbn. rewrite <- app_assoc, IH by done. cbn.
    specialize (IHl H2 r). destruct (_ (length l) (flat_map enc l ++ r)) as [[l' r']|]; cbn in *; congruence.
  - destruct t; try done. revert l r Hk. induction IH as [|k ks Hk0 Hks IHks]; intros l r Hk.
    + destruct l; [done|]. done.
    + destruct l as [|t l]; [done|]. cbn in Hk. apply andb_true_iff in Hk as [H1 H2].
      specialize (IHks l r H2). cbn [enc flat_map] in *. rewrite <- app_assoc. cbn [dec] in *.
      rewrite Hk0 by done. cbn. destruct (_ ks (flat_map enc l ++ r)) as [[l' r']|]; cbn in *; congruence.
Qed.

(** What a decoded value is. *)
Lemma bind_some {A B} (o : option A) (f : A -> option B) b :
  o ≫= f = Some b -> exists a, o = Some a /\ f a = Some b.
Proof. destruct o; [cbn; eauto|done]. Qed.
Lemma dec_kinds k : forall b t r, dec k b = Some (t, r) -> token_is word k t = true.
Proof.
  induction k as [| |n|n|k n IH|ks IH] using kind_ind; intros b t r Hd; cbn [dec] in Hd;
    apply bind_some in Hd as ([h r'] & Hh & [= <- <-]).
  - apply chop_some in Hh. cbn. apply N.ltb_lt. pose proof (from_be_bytes_range h) as Hr.
    rewrite Hh in Hr. change (256 ^ Z.of_nat 20) with (Z.of_N (2 ^ 160)) in Hr. lia.
  - done.
  - apply chop_some in Hh. cbn [token_is]. pose proof (from_be_bytes_range h) as Hr.
    rewrite Hh in Hr. change (256 ^ Z.of_nat 32) with (2 ^ word n) in Hr. lia.
  - apply chop_some in Hh. cbn. by apply Nat.eqb_eq.
  - cbn [token_is]. apply andb_true_iff. revert b h r' Hh.
    induction n as [|n IHn]; intros b h r' Hh; [by simplify_eq|].
    apply bind_some in Hh as ([t b1] & Ht & Hh). apply bind_some in Hh as ([l b2] & Hl & [= <- <-]).
    apply IHn in Hl as [E Hl]. cbn. rewrite E, (IH _ _ _ Ht), Hl. done.
  - revert b h r' Hh. induction IH as [|k ks Hk Hks IHks]; intros b h r' Hh; [by simplify_eq|].
    apply bind_some in Hh as ([t b1] & Ht & Hh). apply bind_some in Hh as ([l b2] & Hl & [= <- <-]).
    cbn. rewrite (Hk _ _ _ Ht). by eapply IHks.
Qed.

Lemma token_exact_word k : forall t, token_is exact k t = true -> token_is word k t = true.
Proof.
  induction k as [| |n|n|k n IH|ks IH] using kind_ind; intros t; destruct t; try done.
  - cbn [token_is]. rewrite !andb_true_iff, !Z.ltb_lt. unfold exact, word. intros [? ?]. split; [done|].
    eapply Z.lt_le_trans; [done|]. apply Z.pow_le_mono_r; lia.
  - cbn [token_is]. rewrite !andb_true_iff. intros [? Hl]. split; [done|]. clear -IH Hl.
    induction l as [|t l IHl]; [done|]. cbn in *. apply andb_true_iff in Hl as [H1 H2].
    rewrite (IH _ H1). by apply IHl.
  - revert l. induction IH as [|k ks Hk Hks IHks]; intros [|t l] Hl; try done.
    cbn in *. apply andb_true_iff in Hl as [H1 H2]. rewrite (Hk _ H1). by apply IHks.
Qed.

#[export] Instance packed_abi_laws : EthAbiLaws.
Proof.
  assert (forall ks ts, tokens_are word ks ts = true -> abi_decode ks (abi_encode ts) = Some ts) as Hrt.
  { intros ks ts Hk. unfold abi_decode, abi_encode. cbn [packed_abi].
    pose proof (dec_enc (KTuple ks) (TTuple ts) [] Hk) as Hd. rewrite app_nil_r in Hd.
    cbn [enc] in Hd. by rewrite Hd. }
  split.
  - intros ks ts Hk. apply Hrt. by apply token_exact_word.
  - intros ks b ts. unfold abi_decode. cbn [packed_abi].
    destruct (dec (KTuple ks) b) as [[[] [|]]|] eqn:E; try done. intros [= <-]. by apply dec_kinds in E.
  - intros ks ts ts' H1 H2 E. apply Hrt in H1, H2. congruence.
Qed.

(** ** The hash *)

(** The byte strings of [known] get the first numbers. *)
Definition numbered_hash (known : list (list byte)) (b : list byte) : N :=
  match list_find (fun x => x = b) known with
  | Some (i, _) => N.of_nat i
  | None => N.of_nat (length known) + Z.to_N (from_be_bytes (x01 :: b))
  end.

Lemma from_be_bytes_app l l' :
  from_be_bytes (l ++ l') = from_be_bytes l * 256 ^ Z.of_nat (length l') + from_be_bytes l'.
Proof.
  induction l' as [|b l' IH] using rev_ind; [rewrite app_nil_r; change (from_be_bytes []) with 0; cbn [length Z.of_nat]; lia|].
  rewrite app_assoc, !from_be_bytes_snoc, IH, length_app, Nat.add_1_r, Nat2Z.inj_succ, Z.pow_succ_r by lia.
  lia.
Qed.
Lemma marked_inj b b' : from_be_bytes (x01 :: b) = from_be_bytes (x01 :: b') -> b = b'.
Proof.
  intros E. assert (length b = length b') as Hl.
  { change (x01 :: b) with ([x01] ++ b) in E. change (x01 :: b') with ([x01] ++ b') in E.
    rewrite !from_be_bytes_app in E. change (from_be_bytes [x01]) with 1 in E.
    pose proof (from_be_bytes_range b). pose proof (from_be_bytes_range b').
    destruct (Z.lt_trichotomy (Z.of_nat (length b)) (Z.of_nat (length b'))) as [Hlt|[?|Hlt]]; [|lia|].
    - pose proof (Z.pow_lt_mono_r 256 (Z.of_nat (length b)) (Z.of_nat (length b')) ltac:(lia) ltac:(lia) Hlt).
      assert (256 ^ Z.of_nat (length b') >= 256 * 256 ^ Z.of_nat (length b)).
      { rewrite <- Z.pow_succ_r by lia. apply Z.le_ge, Z.pow_le_mono_r; lia. }
      lia.
    - assert (256 ^ Z.of_nat (length b) >= 256 * 256 ^ Z.of_nat (length b')).
      { rewrite <- Z.pow_succ_r by lia. apply Z.le_ge, Z.pow_le_mono_r; lia. }
      lia. }
  apply (f_equal (to_be_bytes (length (x01 :: b)))) in E. rewrite to_from_be_bytes in E.
  change (length (x01 :: b)) with (S (length b)) in E. rewrite Hl in E.
  change (S (length b')) with (length (x01 :: b')) in E. rewrite to_from_be_bytes in E. congruence.
Qed.
Lemma numbered_hash_inj known : Inj (=) (=) (numbered_hash known).
Proof.
  intros b b'. unfold numbered_hash.
  destruct (list_find (fun x => x = b) known) as [[i y]|] eqn:E1,
    (list_find (fun x => x = b') known) as [[j z]|] eqn:E2; intros E.
  - apply list_find_Some in E1 as (H1 & -> & _), E2 as (H2 & -> & _).
    assert (i = j) as -> by lia. congruence.
  - apply list_find_Some in E1 as (H1%lookup_lt_Some & _). lia.
  - apply list_find_Some in E2 as (H2%lookup_lt_Some & _). lia.
  - apply marked_inj. pose proof (from_be_bytes_range (x01 :: b)). pose proof (from_be_bytes_range (x01 :: b')).
    lia.
Qed.

(** ** Cryptography *)

(** Over a hash: bytes stand for their own hexadecimal, and the signature of
    an account, over any message, is the account. *)
Definition simple_crypto (hash : list byte -> N) : Crypto := {|
  keccak_256 := hash;
  bytes2hex _ b := String.string_of_list_byte b;
  hex2bytes s := Some (String.list_byte_of_string s);
  hex_encode b := String.string_of_list_byte b;
  Signature := AccountId;
  verify sig _ who := N.eqb sig who
|}.

(** The signature of an account over a message is the pair of both. *)
Definition recording_crypto (hash : list byte -> N) : Crypto := {|
  keccak_256 := hash;
  bytes2hex _ b := String.string_of_list_byte b;
  hex2bytes s := Some (String.list_byte_of_string s);
  hex_encode b := String.string_of_list_byte b;
  Signature := AccountId * list byte;
  verify sig message who := bool_decide (sig = (who, message))
|}.

(** ** Bitcoin *)

(** Descriptors are a threshold and the keys; an address is their bytes. *)
Definition descriptor_bytes (d : Z * list N) : list byte :=
  byte_of d.1 :: flat_map (fun k => to_be_bytes 4 (Z.of_N k)) d.2.
Fixpoint read_keys (fuel : nat) (b : list byte) : option (list N) :=
  match fuel, b with
  | _, [] => Some []
  | S f, _ => '(h, r) ← chop 4 b; l ← read_keys f r; Some (Z.to_N (from_be_bytes h) :: l)
  | O, _ => None
  end.
Definition read_descriptor (b : list byte) : option (Z * list N) :=
  match b with m :: r => l ← read_keys (length r) r; Some (byte_val m, l) | [] => None end.

(** The script of a descriptor, or the script that locks an address. *)
Definition simple_btc : BtcLib := {|
  Network := unit;
  PublicKey := N;
  PublicKey_from_slice k := if N.eqb k 0 then None else Some k;
  PublicKey_leb := N.leb;
  Descriptor := Z * list N;
  new_wsh_sortedmulti m keys :=
    if (1 <=? m) && (m <=? Z.of_nat (length keys)) then Some (m, keys) else None;
  sanity_check d := bool_decide (NoDup d.2);
  descriptor_address d _ := Some (descriptor_bytes d);
  descriptor_to_string := descriptor_bytes;
  descriptor_from_str := read_descriptor;
  Address := list byte;
  address_from_str := Some;
  require_network a _ := Some a;
  address_to_string a := a;
  ScriptBuf := (Z * list N) + list byte;
  script_code d := Some (inl d);
  script_len s := match s with inl d => 3 + 34 * Z.of_nat (length d.2) | inr b => Z.of_nat (length b) end;
  instructions s :=
    match s with
    | inl d =>
        Some (Op (80 + d.1)) :: (fmap (fun k => Some (PushBytes (to_be_bytes 33 (Z.of_N k)))) d.2)
        ++ [Some (Op (80 + Z.of_nat (length d.2))); Some (Op 174)]
    | inr b => [Some (PushBytes b)]
    end;
  TxIn := list byte * Z;
  base_size _ := 41;
  Weight := Z;
  from_witness_data_size w := w;
  from_non_witness_data_size w := 4 * w;
  weight_add := Z.add;
  to_vbytes_ceil w := (w + 3) / 4
|}.

(** Lists of byte strings, each one framed. *)
Fixpoint unframe_all (fuel : nat) (b : list byte) : option (list (list byte)) :=
  match fuel, b with
  | _, [] => Some []
  | S f, _ => '(x, r) ← bytes_unframe (length b) b; l ← unframe_all f r; Some (x :: l)
  | O, _ => None
  end.
Definition framed (l : list (list byte)) : list byte := flat_map bytes_frame l.
Definition unframed (b : list byte) : option (list (list byte)) := unframe_all (length b) b.

(** A transaction: the inputs with the value and the descriptor they spend,
    the outputs, the accounts that signed, and whether it is final. *)
Record SimplePsbt : Type := mkSimplePsbt {
  sps_tx_inputs : list (list byte * Z);
  sps_inputs : list (Z * (Z * list N));
  sps_outputs : list (Z * list byte);
  sps_signers : list byte;
  sps_final : bool
}.
Definition tx_bytes (p : SimplePsbt) : list byte :=
  framed [framed (fmap (fun i => i.1 ++ to_be_bytes 1 i.2) (sps_tx_inputs p));
          framed (fmap (fun o => to_be_bytes 8 o.1 ++ o.2) (sps_outputs p))].
Definition simple_serialize (p : SimplePsbt) : list byte :=
  framed [tx_bytes p;
          framed (fmap (fun i => to_be_bytes 8 i.1 ++ descriptor_bytes i.2) (sps_inputs p));
          sps_signers p; if sps_final p then [x01] else [x00]].
Definition read_value (n : nat) (b : list byte) : option (Z * list byte) :=
  '(h, r) ← chop n b; Some (from_be_bytes h, r).
Definition simple_deserialize (b : list byte) : option SimplePsbt :=
  match unframed b with
  | Some [tx; inputs; signers; [final]] =>
      match unframed tx with
      | Some [ins; outs] =>
          ins ← unframed ins;
          ins ← mapM (fun i => '(vout, _) ← read_value 1 (drop 32 i); Some (take 32 i, vout)) ins;
          outs ← unframed outs;
          outs ← mapM (read_value 8) outs;
          inputs ← unframed inputs;
          inputs ← mapM (fun i => '(v, d) ← read_value 8 i; d ← read_descriptor d; Some (v, d)) inputs;
          Some (mkSimplePsbt ins inputs outs signers (Z.eqb (byte_val final) 1))
      | _ => None
      end
  | _ => None
  end.
Definition script_bytes (s : (Z * list N) + list byte) : list byte := match s with inr b => b | inl _ => [] end.
Definition script_descriptor (s : (Z * list N) + list byte) : Z * list N :=
  match s with inl d => d | inr _ => (0, []) end.
(** A number of 255 bits for a byte string *)
Definition checksum (b : list byte) : Z :=
  foldl (fun acc c => (acc * 257 + byte_val c + 1) mod (2 ^ 255 - 19)) 7 b.

Definition simple_script_dec : EqDecision (@ScriptBuf simple_btc).
Proof. cbn. apply _. Defined.
Definition simple_address_dec : EqDecision (@Address simple_btc).
Proof. cbn. apply _. Defined.
Definition simple_txin_dec : EqDecision (@TxIn simple_btc).
Proof. cbn. apply _. Defined.
#[export] Instance simple_psbt : @PsbtLib simple_btc := {|
  ScriptBuf_eq_dec := simple_script_dec;
  Address_eq_dec := simple_address_dec;
  TxIn_eq_dec := simple_txin_dec;
  ScriptBuf_leb s s' :=
    match s, s' with
    | inr b, inr b' => from_be_bytes b <=? from_be_bytes b'
    | inl _, _ => true
    | _, inl _ => false
    end;
  script_pubkey a := inr a;
  address_from_script s _ := match s with inr a => Some a | inl _ => None end;
  descriptor_script_pubkey d := inr (descriptor_bytes d);
  descriptor_keys d := d.2;
  new_txin txid vout := (txid, vout);
  txout_size o := 9 + Z.of_nat (length (script_bytes (txo_script_pubkey o)));
  txout_vbytes o := 9 + Z.of_nat (length (script_bytes (txo_script_pubkey o)));
  Psbt := SimplePsbt;
  PsbtInput := Z * (Z * list N);
  psbt_inputs := sps_inputs;
  unsigned_inputs := sps_tx_inputs;
  unsigned_outputs p := fmap (fun o => @mkTxOut simple_btc o.1 (inr o.2)) (sps_outputs p);
  compute_txid p := to_be_bytes 32 (checksum (tx_bytes p));
  previous_txid i := i.1;
  previous_vout i := i.2;
  witness_utxo i := Some i.1;
  non_witness_utxo _ := None;
  witness_script i := Some (inl i.2);
  new_psbt_input o s _ := (txo_value o, script_descriptor s);
  from_unsigned_tx ins outs :=
    if forallb (fun o : @TxOut simple_btc => if txo_script_pubkey o is inr _ then true else false) outs then
      Some (mkSimplePsbt ins []
        (fmap (fun o : @TxOut simple_btc => (txo_value o, script_bytes (txo_script_pubkey o))) outs)
        [] false)
    else None;
  with_inputs inputs _ p :=
    mkSimplePsbt (sps_tx_inputs p) inputs (sps_outputs p) (sps_signers p) (sps_final p);
  psbt_fee p :=
    let fee := zsum (fmap fst (sps_inputs p)) - zsum (fmap fst (sps_outputs p)) in
    if 0 <=? fee then Some fee else None;
  psbt_serialize := simple_serialize;
  psbt_deserialize := simple_deserialize;
  psbt_combine p q :=
    if bool_decide (tx_bytes p = tx_bytes q) then
      Some (mkSimplePsbt (sps_tx_inputs p) (sps_inputs p) (sps_outputs p)
              (sps_signers p ++ filter (fun k => k ∉ sps_signers p) (sps_signers q)) (sps_final p))
    else None;
  psbt_finalize p :=
    if forallb (fun i => i.2.1 <=? Z.of_nat (length (sps_signers p))) (sps_inputs p)
    then Some (mkSimplePsbt (sps_tx_inputs p) (sps_inputs p) (sps_outputs p) (sps_signers p) true)
    else None
|}.
