(* ===== verification/Logic.v ===== *)
(** * A small program logic for the storage monad

    [runs m s Q]: from [s], [m] returns a value (it neither fails nor panics)
    and the result and the storage reached satisfy [Q]. [preserves f m]:
    whatever its outcome, [m] leaves the part [f] of the storage as it was.
    The tactics [wp] and [frame] go through a handler with these rules, and
    [fields] reduces the read of a record field after an update. *)

From S2P Require Import Prelude.
Local Open Scope Z_scope.
Local Open Scope frame_scope.

Section Runs.
Context {S E : Type}.

Definition runs {A} (m : M S E A) (s : S) (Q : A -> S -> Prop) : Prop :=
  match m s with (Done a, s') => Q a s' | _ => False end.

Lemma runs_iff {A} (m : M S E A) s Q :
  runs m s Q <-> exists a s', m s = (Done a, s') /\ Q a s'.
Proof.
  unfold runs. destruct (m s) as [[a|e|] s']; split;
    first [ by eauto | done | intros (? & ? & ? & ?); by simplify_eq ].
Qed.
Lemma runs_mono {A} (m : M S E A) s (Q R : A -> S -> Prop) :
  runs m s Q -> (forall a s', Q a s' -> R a s') -> runs m s R.
Proof. unfold runs. destruct (m s) as [[a|e|] s']; auto. Qed.
Lemma runs_bind {A B} (m : M S E A) (k : A -> M S E B) s Q :
  runs m s (fun a s' => runs (k a) s' Q) -> runs (bind m k) s Q.
Proof. unfold runs, bind. by destruct (m s) as [[a|e|] s']. Qed.
Lemma runs_ret {A} (a : A) s (Q : A -> S -> Prop) : Q a s -> runs (ret a) s Q.
Proof. done. Qed.
Lemma runs_gets {A} (f : S -> A) s (Q : A -> S -> Prop) : Q (f s) s -> runs (gets f) s Q.
Proof. done. Qed.
Lemma runs_modify (f : S -> S) s (Q : unit -> S -> Prop) : Q tt (f s) -> runs (modify f) s Q.
Proof. done. Qed.
Lemma runs_ensure b e s (Q : unit -> S -> Prop) :
  b = true -> Q tt s -> runs (ensure b e) s Q.
Proof. by intros ->. Qed.
Lemma runs_ok_or {A} (o : option A) e s a (Q : A -> S -> Prop) :
  o = Some a -> Q a s -> runs (ok_or o e) s Q.
Proof. by intros ->. Qed.
Lemma runs_expect {A} (o : option A) s a (Q : A -> S -> Prop) :
  o = Some a -> Q a s -> runs (expect o) s Q.
Proof. by intros ->. Qed.
Lemma runs_attempt_ok {A} (m : M S E A) s (Q : E + A -> S -> Prop) :
  runs m s (fun a s' => Q (inr a) s') -> runs (attempt m) s Q.
Proof. unfold runs, attempt. by destruct (m s) as [[a|e|] s']. Qed.

Lemma runs_lift {S' A} (get : S -> S') (put : S' -> S -> S) (m : M S' E A) s
    (Q : A -> S -> Prop) :
  match m (get s) with (Done a, t) => Q a (put t s) | _ => False end ->
  runs (lift get put m) s Q.
Proof. unfold runs, lift. by destruct (m (get s)) as [[a|e|] t]. Qed.

(** A loop whose body keeps [I], indexed by what is left to do. *)
Lemma runs_for_each {A} (I : list A -> S -> Prop) (f : A -> M S E unit) l s Q :
  I l s ->
  (forall x l' s, I (x :: l') s -> runs (f x) s (fun _ s' => I l' s')) ->
  (forall s', I [] s' -> Q tt s') ->
  runs (for_each l f) s Q.
Proof.
  revert s. induction l as [|x l IH]; intros s HI Hstep HQ; cbn.
  - by apply runs_ret, HQ.
  - apply runs_bind. eapply runs_mono; [by apply Hstep|]. cbn. auto.
Qed.
Lemma runs_fold_each {A B} (I : B -> list A -> S -> Prop) (f : B -> A -> M S E B) l b s Q :
  I b l s ->
  (forall b x l' s, I b (x :: l') s -> runs (f b x) s (fun b' s' => I b' l' s')) ->
  (forall b' s', I b' [] s' -> Q b' s') ->
  runs (fold_each l b f) s Q.
Proof.
  revert b s. induction l as [|x l IH]; intros b s HI Hstep HQ; cbn.
  - by apply runs_ret, HQ.
  - apply runs_bind. eapply runs_mono; [by apply Hstep|]. cbn. auto.
Qed.
End Runs.

(** [safe m s Q]: from [s], [m] does not panic, and what it returns, when it
    returns, satisfies [Q]. *)
Section Safe.
Context {S E : Type}.

Definition safe {A} (m : M S E A) (s : S) (Q : A -> S -> Prop) : Prop :=
  match m s with (Done a, s') => Q a s' | (Fail _, _) => True | (Trap, _) => False end.

Lemma safe_no_trap {A} (m : M S E A) s Q : safe m s Q -> (m s).1 <> Trap.
Proof. unfold safe. by destruct (m s) as [[a|e|] s']. Qed.
Lemma safe_mono {A} (m : M S E A) s (Q Q' : A -> S -> Prop) :
  safe m s Q -> (forall a s', Q a s' -> Q' a s') -> safe m s Q'.
Proof. unfold safe. destruct (m s) as [[a|e|] s']; auto. Qed.
Lemma safe_bind {A B} (m : M S E A) (k : A -> M S E B) s Q :
  safe m s (fun a s' => safe (k a) s' Q) -> safe (bind m k) s Q.
Proof. unfold safe, bind. by destruct (m s) as [[a|e|] s']. Qed.
Lemma safe_ret {A} (a : A) s (Q : A -> S -> Prop) : Q a s -> safe (ret a) s Q.
Proof. done. Qed.
Lemma safe_fail {A} e s (Q : A -> S -> Prop) : safe (fail e) s Q.
Proof. done. Qed.
Lemma safe_gets {A} (f : S -> A) s (Q : A -> S -> Prop) : Q (f s) s -> safe (gets f) s Q.
Proof. done. Qed.
Lemma safe_modify (f : S -> S) s (Q : unit -> S -> Prop) : Q tt (f s) -> safe (modify f) s Q.
Proof. done. Qed.
Lemma safe_ensure b e s (Q : unit -> S -> Prop) : (b = true -> Q tt s) -> safe (ensure b e) s Q.
Proof. destruct b; [by intros HQ; apply HQ|done]. Qed.
Lemma safe_ok_or {A} (o : option A) e s (Q : A -> S -> Prop) :
  (forall a, o = Some a -> Q a s) -> safe (ok_or o e) s Q.
Proof. destruct o; [by intros HQ; apply HQ|done]. Qed.
Lemma safe_expect {A} (o : option A) s (Q : A -> S -> Prop) :
  (exists a, o = Some a /\ Q a s) -> safe (expect o) s Q.
Proof. by intros (a & -> & HQ). Qed.
End Safe.

(** Equations that run a handler step by step, for the outcomes that are
    errors. *)
Section Steps.
Context {S E : Type}.

Lemma bind_assoc {A B C} (m : M S E A) (f : A -> M S E B) (k : B -> M S E C) s :
  bind (bind m f) k s = bind m (fun a => bind (f a) k) s.
Proof. unfold bind. by destruct (m s) as [[a|e|] s']. Qed.
Lemma bind_ret {A B} (a : A) (k : A -> M S E B) s : bind (ret a) k s = k a s.
Proof. done. Qed.
Lemma bind_gets {A B} (f : S -> A) (k : A -> M S E B) s : bind (gets f) k s = k (f s) s.
Proof. done. Qed.
Lemma bind_modify {B} (f : S -> S) (k : unit -> M S E B) s : bind (modify f) k s = k tt (f s).
Proof. done. Qed.
Lemma bind_ensure {B} b e (k : unit -> M S E B) s :
  bind (ensure b e) k s = if b then k tt s else (Fail e, s).
Proof. by destruct b. Qed.
Lemma bind_ok_or {A B} (o : option A) e (k : A -> M S E B) s :
  bind (ok_or o e) k s = match o with Some a => k a s | None => (Fail e, s) end.
Proof. by destruct o. Qed.
Lemma ensure_eq b e s : (ensure b e : M S E unit) s = (if b then Done tt else Fail e, s).
Proof. by destruct b. Qed.
Lemma ok_or_eq {A} (o : option A) (e : E) s :
  (ok_or o e : M S E A) s = (match o with Some a => Done a | None => Fail e end, s).
Proof. by destruct o. Qed.
End Steps.

(** What a loop or an extrinsic that has run leaves. *)
Section Loops.
Context {S E : Type}.

(** A loop whose body is a write. *)
Lemma for_each_write {A} (l : list A) (f : A -> M S E unit) (g : S -> A -> S) s :
  (forall x s, f x s = (Done tt, g s x)) -> for_each l f s = (Done tt, foldl g s l).
Proof.
  intros Hf. revert s. induction l as [|x l IH]; intros s; cbn; [done|].
  unfold bind. rewrite Hf. apply IH.
Qed.
Lemma for_each_ensure_done {A} (l : list A) (b : A -> bool) (e : E) (s : S) u s' :
  for_each l (fun x => ensure (b x) e) s = (Done u, s') -> Forall (fun x => b x = true) l /\ s' = s.
Proof.
  induction l as [|x l IH]; cbn [for_each]; intros Hl; mrun; [done|].
  match goal with H : for_each _ _ _ = _ |- _ => apply IH in H as [? ->] end. by split; [constructor|].
Qed.
Lemma for_each_inv (J : S -> Prop) {A} (l : list A) (f : A -> M S E unit) s u s' :
  (forall x s u s', J s -> f x s = (Done u, s') -> J s') ->
  J s -> for_each l f s = (Done u, s') -> J s'.
Proof.
  intros Hf. revert s. induction l as [|x l IH]; intros s Hs Hl; cbn [for_each] in Hl; mrun; [done|].
  eapply IH; [|done]. by eapply Hf.
Qed.
(** The same, for an invariant of what is left to do. *)
Lemma for_each_rest {A} (J : list A -> S -> Prop) (l : list A) (f : A -> M S E unit) s u s' :
  (forall x l s u s', J (x :: l) s -> f x s = (Done u, s') -> J l s') ->
  J l s -> for_each l f s = (Done u, s') -> J [] s'.
Proof.
  intros Hf. revert s. induction l as [|x l IH]; intros s Hs Hl; cbn [for_each] in Hl; mrun; [done|].
  eapply IH; [|done]. by eapply Hf.
Qed.
Lemma fold_each_inv {A B} (J : B -> S -> Prop) (l : list A) (f : B -> A -> M S E B) b s b' s' :
  (forall b x s b' s', J b s -> f b x s = (Done b', s') -> J b' s') ->
  J b s -> fold_each l b f s = (Done b', s') -> J b' s'.
Proof.
  intros Hf. revert b s. induction l as [|x l IH]; intros b s Hs Hl; cbn [fold_each] in Hl; mrun; [done|].
  eapply IH; [|done]. by eapply Hf.
Qed.
Lemma dispatch_inv (J : S -> Prop) {A} (m : M S E A) s :
  J s -> (forall u s', m s = (Done u, s') -> J s') -> J (dispatch m s).2.
Proof. intros Hs Hm. unfold dispatch. destruct (m s) as [[u|e|] s'] eqn:E0; [|done|done]. by eapply Hm. Qed.
Lemma dispatch_cases {A} (m : M S E A) s r s' :
  dispatch m s = (r, s') -> (exists u, m s = (Done u, s')) \/ s' = s.
Proof. unfold dispatch. destruct (m s) as [[u|e|] s1]; intros [= <- <-]; eauto. Qed.
End Loops.

Ltac run_step :=
  lazymatch goal with
  | |- bind (bind _ _) _ _ = _ => rewrite bind_assoc
  | |- bind (ret _) _ _ = _ => rewrite bind_ret
  | |- bind (gets _) _ _ = _ => rewrite bind_gets
  | |- bind (modify _) _ _ = _ => rewrite bind_modify
  | |- bind (ensure _ _) _ _ = _ => rewrite bind_ensure
  | |- bind (ok_or _ _) _ _ = _ => rewrite bind_ok_or
  | |- ensure _ _ _ = _ => rewrite ensure_eq
  | |- ok_or _ _ _ = _ => rewrite ok_or_eq
  end; cbv beta.

Section Preserves.
Context {S E : Type}.

Definition preserves {A B} (f : S -> B) (m : M S E A) : Prop :=
  forall s, f (m s).2 = f s.

Lemma preserves_done {A B} (f : S -> B) (m : M S E A) s r s' :
  preserves f m -> m s = (r, s') -> f s' = f s.
Proof. intros H Hm. specialize (H s). by rewrite Hm in H. Qed.
Lemma preserves_ret {A B} (f : S -> B) (a : A) : preserves f (ret a).
Proof. done. Qed.
Lemma preserves_fail {A B} (f : S -> B) e : preserves f (fail e : M S E A).
Proof. done. Qed.
Lemma preserves_trap {A B} (f : S -> B) : preserves f (trap : M S E A).
Proof. done. Qed.
Lemma preserves_gets {A B} (f : S -> B) (g : S -> A) : preserves f (gets g).
Proof. done. Qed.
Lemma preserves_ensure {B} (f : S -> B) b e : preserves f (ensure b e).
Proof. by destruct b. Qed.
Lemma preserves_ok_or {A B} (f : S -> B) (o : option A) e : preserves f (ok_or o e).
Proof. by destruct o. Qed.
Lemma preserves_expect {A B} (f : S -> B) (o : option A) : preserves f (expect o).
Proof. by destruct o. Qed.
Lemma preserves_modify {B} (f : S -> B) (g : S -> S) :
  (forall s, f (g s) = f s) -> preserves f (modify g).
Proof. done. Qed.
Lemma preserves_bind {A A' B} (f : S -> B) (m : M S E A) (k : A -> M S E A') :
  preserves f m -> (forall a, preserves f (k a)) -> preserves f (bind m k).
Proof.
  intros Hm Hk s. unfold bind. specialize (Hm s).
  destruct (m s) as [[a|e|] s']; cbn in *; [|done..]. by rewrite Hk.
Qed.
Lemma preserves_attempt {A B} (f : S -> B) (m : M S E A) :
  preserves f m -> preserves f (attempt m).
Proof. intros Hm s. specialize (Hm s). unfold attempt. by destruct (m s) as [[a|e|] s']. Qed.
Lemma preserves_for_each {A B} (f : S -> B) (l : list A) k :
  (forall x, preserves f (k x)) -> preserves f (for_each l k).
Proof.
  intros Hk. induction l; cbn; [apply preserves_ret|]. by apply preserves_bind.
Qed.
Lemma preserves_fold_each {A B C} (f : S -> B) (l : list A) (k : C -> A -> M S E C) acc :
  (forall c x, preserves f (k c x)) -> preserves f (fold_each l acc k).
Proof.
  intros Hk. revert acc. induction l; intros acc; cbn; [apply preserves_ret|].
  by apply preserves_bind.
Qed.
Lemma preserves_lift {S' A B} (f : S -> B) (get : S -> S') (put : S' -> S -> S) (m : M S' E A) :
  (forall t s, f (put t s) = f s) -> preserves f (lift get put m).
Proof. intros Hp s. unfold lift. destruct (m (get s)). apply Hp. Qed.
End Preserves.

(** [keeps I m]: whatever its outcome, [m] keeps the invariant [I]. *)
Section Keeps.
Context {S E : Type} (I : S -> Prop).

Definition keeps {A} (m : M S E A) : Prop := forall s, I s -> I (m s).2.

Lemma keeps_done {A} (m : M S E A) s r s' : keeps m -> I s -> m s = (r, s') -> I s'.
Proof. intros H Hi Hm. specialize (H s Hi). by rewrite Hm in H. Qed.
Lemma keeps_preserves {A B} (f : S -> B) (m : M S E A) :
  preserves f m -> (forall s s', f s' = f s -> I s -> I s') -> keeps m.
Proof. intros Hp HI s Hs. eapply HI; [apply Hp|done]. Qed.
Lemma keeps_ret {A} (a : A) : keeps (ret a).
Proof. by intros s. Qed.
Lemma keeps_gets {A} (f : S -> A) : keeps (gets f).
Proof. by intros s. Qed.
Lemma keeps_modify (f : S -> S) : (forall s, I s -> I (f s)) -> keeps (modify f).
Proof. intros Hf s Hs. by apply Hf. Qed.
Lemma keeps_expect {A} (o : option A) : keeps (expect o).
Proof. by destruct o; intros s. Qed.
Lemma keeps_bind {A B} (m : M S E A) (k : A -> M S E B) :
  keeps m -> (forall a, keeps (k a)) -> keeps (bind m k).
Proof.
  intros Hm Hk s Hs. unfold bind. specialize (Hm s Hs).
  destruct (m s) as [[a|e|] s']; cbn in *; [by apply Hk|done..].
Qed.
Lemma keeps_for_each {A} (l : list A) k : (forall x, keeps (k x)) -> keeps (for_each l k).
Proof. intros Hk. induction l; cbn; [apply keeps_ret|]. by apply keeps_bind. Qed.
Lemma keeps_fold_each {A C} (l : list A) (k : C -> A -> M S E C) acc :
  (forall c x, keeps (k c x)) -> keeps (fold_each l acc k).
Proof.
  intros Hk. revert acc. induction l; intros acc; cbn; [apply keeps_ret|]. by apply keeps_bind.
Qed.
End Keeps.

(** Reads of record fields after updates. *)
Ltac field_step g h i f s :=
  first
    [ constr_eq g h; change (g (@update_field _ _ h i f s)) with (f (g s))
    | change (g (@update_field _ _ h i f s)) with (g s) ].
Ltac field_step_in H g h i f s :=
  first
    [ constr_eq g h; change (g (@update_field _ _ h i f s)) with (f (g s)) in H
    | change (g (@update_field _ _ h i f s)) with (g s) in H ].
Ltac fields :=
  repeat (cbv beta; match goal with
  | |- context [?g (@update_field _ _ ?h ?i ?f ?s)] => field_step g h i f s
  | H : context [?g (@update_field _ _ ?h ?i ?f ?s)] |- _ => field_step_in H g h i f s
  end); cbv beta in *.

(** The same in the goal only, for the fields of a record, by equations
    proved for a variable storage: no conversion looks into the storage that
    is read, so it stays fast on long sequences of writes. *)
Ltac read_eq g h i f s E :=
  first
    [ constr_eq g h;
      assert (forall x, g (@update_field _ _ h i f x) = f (g x)) as E by (intros; reflexivity)
    | assert (forall x, g (@update_field _ _ h i f x) = g x) as E by (intros; reflexivity) ].
Ltac reads :=
  repeat (cbv beta; match goal with
  | |- context [?g (@update_field _ _ ?h ?i ?f ?s)] =>
      let _ := constr:(_ : Field g) in
      let E := fresh in read_eq g h i f s E; rewrite (E s); clear E
  end); cbv beta.

Create HintDb frame.

(** [preserves f m] by going through [m], unfolding the definitions it calls. *)
Ltac unfold_head m :=
  lazymatch m with
  | ?f _ => unfold_head f
  | ?f => unfold f
  end.
Ltac frame_step :=
  lazymatch goal with
  | |- forall _, _ => intros
  | |- preserves _ (bind _ _) => apply preserves_bind
  | |- preserves _ (ret _) => apply preserves_ret
  | |- preserves _ (fail _) => apply preserves_fail
  | |- preserves _ trap => apply preserves_trap
  | |- preserves _ (gets _) => apply preserves_gets
  | |- preserves _ (ensure _ _) => apply preserves_ensure
  | |- preserves _ (ok_or _ _) => apply preserves_ok_or
  | |- preserves _ (expect _) => apply preserves_expect
  | |- preserves _ (modify _) =>
      first [ apply preserves_modify; reflexivity | solve [eauto 2 with frame nocore] ]
  | |- preserves _ (attempt _) => apply preserves_attempt
  | |- preserves _ (for_each _ _) => apply preserves_for_each
  | |- preserves _ (fold_each _ _ _) => apply preserves_fold_each
  | |- preserves _ (lift _ _ _) => apply preserves_lift; reflexivity
  | |- preserves _ (match ?x with _ => _ end) => destruct x
  | |- preserves _ (let x := ?v in @?k x) =>
      let y := fresh x in set (y := v); cbv beta; clearbody y
  | |- preserves _ ?m => solve [eauto 2 with frame nocore] || unfold_head m
  end.
Ltac frame := repeat (cbv beta; frame_step).

(** One step of [safe]. *)
Ltac safe_step :=
  lazymatch goal with
  | |- safe (bind _ _) _ _ => apply safe_bind
  | |- safe (ret _) _ _ => apply safe_ret
  | |- safe (fail _) _ _ => apply safe_fail
  | |- safe (gets _) _ _ => apply safe_gets
  | |- safe (modify _) _ _ => apply safe_modify
  | |- safe (ensure _ _) _ _ => apply safe_ensure; intros ?
  | |- safe (ok_or _ _) _ _ => apply safe_ok_or; intros ? ?
  | |- safe (match ?x with _ => _ end) _ _ => destruct x eqn:?
  end; cbv beta.

(** One step of [runs]. *)
Ltac wp_step :=
  lazymatch goal with
  | |- runs (bind _ _) _ _ => apply runs_bind
  | |- runs (ret _) _ _ => apply runs_ret
  | |- runs (gets _) _ _ => apply runs_gets
  | |- runs (modify _) _ _ => apply runs_modify
  | |- runs (ensure _ _) _ _ => apply runs_ensure; [try done|]
  | |- runs (ok_or _ _) _ _ => eapply runs_ok_or; [try eassumption; try done|]
  | |- runs (expect _) _ _ => eapply runs_expect; [try eassumption; try done|]
  | |- runs (attempt _) _ _ => apply runs_attempt_ok
  end; cbv beta.
