(* ===== verification/CandidateInv.v ===== *)
(** * The invariant of a candidate

    The two lists of bonds of a candidate and the metadata that summarises
    them: the top list holds the greatest bonds, the bottom list is used only
    when the top is full, and the metadata (capacities, extremal amounts,
    count, voting power) and the candidate pool agree with the lists. The
    lemmas here are about the lists; the operations are in
    [CandidateProps]. *)

From S2P Require Import Prelude Logic Errors Primitives StakingTypes Nominations Nominator Candidate.
Local Open Scope Z_scope.
Local Open Scope frame_scope.

(** The constants the invariant needs: both lists can hold a bond, and the
    count of nominations fits its width. *)
Class NominationBounds `{Config} : Prop := {
  max_top_pos : 1 <= MaxTopNominationsPerCandidate;
  max_bottom_pos : 1 <= MaxBottomNominationsPerCandidate;
  max_sum_u32 : MaxTopNominationsPerCandidate + MaxBottomNominationsPerCandidate < u32_modulus
}.

Abbreviation len l := (Z.of_nat (length l)).

(** ** Descending lists *)

Section Descending.
Implicit Types l : list Bond.

Lemma descending_app l k :
  descending (l ++ k) -> forall x y, x ∈ l -> y ∈ k -> b_amount y <= b_amount x.
Proof.
  unfold descending. induction l as [|z l IH]; cbn; intros Hd x y Hx Hy;
    [by apply not_elem_of_nil in Hx|].
  apply StronglySorted_inv in Hd as [Hd Hz]. rewrite Forall_forall in Hz.
  apply elem_of_cons in Hx as [->|Hx]; [|by eapply IH].
  apply Hz, elem_of_app. by right.
Qed.
Lemma descending_app_l l k : descending (l ++ k) -> descending l.
Proof.
  unfold descending. induction l as [|z l IH]; cbn; intros Hd; [constructor|].
  apply StronglySorted_inv in Hd as [Hd Hz]. constructor; [by apply IH|].
  by apply Forall_app in Hz as [? _].
Qed.
Lemma descending_app_r l k : descending (l ++ k) -> descending k.
Proof.
  unfold descending. induction l as [|z l IH]; cbn; intros Hd; [done|].
  apply StronglySorted_inv in Hd as [Hd Hz]. by apply IH.
Qed.
Lemma descending_cons x l : descending (x :: l) -> descending l.
Proof. apply (descending_app_r [x]). Qed.

Lemma descending_head x l y : descending (x :: l) -> y ∈ x :: l -> b_amount y <= b_amount x.
Proof.
  intros Hd [->|Hy]%elem_of_cons; [lia|].
  eapply (descending_app [x] l); [done|set_solver|done].
Qed.
Lemma descending_last l x y : descending (l ++ [x]) -> y ∈ l ++ [x] -> b_amount x <= b_amount y.
Proof.
  intros Hd [Hy| ->%list_elem_of_singleton]%elem_of_app; [|lia].
  eapply descending_app; [done..|set_solver].
Qed.

Lemma sort_descending l : descending (stable_sort (fun a b => b_amount b <=? b_amount a) l).
Proof.
  unfold descending. eapply StronglySorted_ind with
    (P := StronglySorted (fun a b => b_amount b <= b_amount a));
    [constructor| |apply (stable_sort_strongly (fun a b => b_amount b <=? b_amount a)); cbn; lia].
  intros x k _ Hk Hx. constructor; [done|].
  eapply Forall_impl; [done|]. cbn. lia.
Qed.

Lemma lowest_last ns x l :
  ns_nominations ns = l ++ [x] -> lowest_nomination_amount ns = b_amount x.
Proof. unfold lowest_nomination_amount. intros ->. by rewrite last_snoc. Qed.
Lemma lowest_le ns x : descending (ns_nominations ns) -> x ∈ ns_nominations ns ->
  lowest_nomination_amount ns <= b_amount x.
Proof.
  intros Hd Hx. destruct (exists_last (l := ns_nominations ns)) as (l & y & E).
  { by destruct (ns_nominations ns); [apply not_elem_of_nil in Hx|]. }
  rewrite (lowest_last ns y l E). rewrite E in *. by eapply descending_last.
Qed.
Lemma highest_ge ns x : descending (ns_nominations ns) -> x ∈ ns_nominations ns ->
  b_amount x <= highest_nomination_amount ns.
Proof.
  unfold highest_nomination_amount. intros Hd Hx.
  destruct (ns_nominations ns) as [|y l]; [by apply not_elem_of_nil in Hx|].
  by eapply descending_head.
Qed.

Lemma pop_snoc l x : pop (l ++ [x]) = Some (x, l).
Proof.
  unfold pop. rewrite last_snoc, length_app. cbn.
  replace (pred (length l + 1)) with (length l) by lia. by rewrite take_app_length.
Qed.
Lemma nonempty_snoc l : l <> [] -> exists l' x, l = l' ++ [x].
Proof. intros Hl. destruct (exists_last Hl) as (l' & x & ->). eauto. Qed.
End Descending.

#[export] Instance amounts_perm : Proper ((≡ₚ) ==> (≡ₚ)) amounts.
Proof. unfold amounts. intros l k Hp. by rewrite Hp. Qed.
Lemma amounts_app l k : amounts (l ++ k) = amounts l ++ amounts k.
Proof. apply fmap_app. Qed.
Lemma zsum_amounts_app l k : zsum (amounts (l ++ k)) = zsum (amounts l) + zsum (amounts k).
Proof. by rewrite amounts_app, zsum_app. Qed.
Lemma zsum_amounts_cons x l : zsum (amounts (x :: l)) = b_amount x + zsum (amounts l).
Proof. done. Qed.

(** Equality of bags of bonds: [x ∈], lengths and sums are rewritten with it. *)
Ltac bag H := let H' := fresh in
  pose proof (f_equal Z.of_nat (Permutation_length H)) as H';
  cbn [length app] in H'; rewrite ?length_app in H'; cbn [length] in H'.

(** ** The two lists *)

Section Lists.
Context `{Config}.

(** Everything of the invariant that says where a bond may stand. *)
Record ordered (t b : list Bond) : Prop := mkOrdered {
  o_top : descending t;
  o_bottom : descending b;
  o_owners : NoDup (b_owner <$> t ++ b);
  o_nonneg : Forall (fun x => 0 <= b_amount x) (t ++ b);
  o_top_len : len t <= MaxTopNominationsPerCandidate;
  o_bottom_len : len b <= MaxBottomNominationsPerCandidate;
  o_order : forall x y, x ∈ t -> y ∈ b -> b_amount y <= b_amount x
}.
(** The bottom is used only when the top is full. *)
Definition spill (t b : list Bond) : Prop := b <> [] -> len t = MaxTopNominationsPerCandidate.

Definition fresh (who : AccountId) (l : list Bond) : Prop := who ∉ b_owner <$> l.

(** A change of the lists that only permutes, adds or drops bonds. *)
Lemma owners_perm (l k : list Bond) : l ≡ₚ k -> NoDup (b_owner <$> l) <-> NoDup (b_owner <$> k).
Proof. by intros ->. Qed.
Lemma fresh_cons x l : NoDup (b_owner <$> x :: l) <-> fresh (b_owner x) l /\ NoDup (b_owner <$> l).
Proof. apply NoDup_cons. Qed.

Lemma insert_app_l x (t b : list Bond) : insert_fcfs x t ++ b ≡ₚ x :: t ++ b.
Proof. by rewrite insert_fcfs_perm. Qed.
Lemma insert_app_r x (t b : list Bond) : t ++ insert_fcfs x b ≡ₚ x :: t ++ b.
Proof. rewrite insert_fcfs_perm. symmetry. apply Permutation_middle. Qed.
Lemma len_insert x (l : list Bond) : len (insert_fcfs x l) = len l + 1.
Proof. rewrite insert_fcfs_perm. cbn. lia. Qed.

Lemma ordered_add_top x t b :
  ordered t b -> len t < MaxTopNominationsPerCandidate -> 0 <= b_amount x ->
  fresh (b_owner x) (t ++ b) -> (forall y, y ∈ b -> b_amount y <= b_amount x) ->
  ordered (insert_fcfs x t) b.
Proof.
  intros [] Hl Hx Hf Hb. split; try done.
  - by apply insert_fcfs_descending.
  - rewrite insert_app_l, fresh_cons. done.
  - rewrite insert_app_l. by constructor.
  - rewrite len_insert. lia.
  - intros y z. rewrite insert_fcfs_perm, elem_of_cons. intros [->|?] ?; eauto.
Qed.

Lemma ordered_add_bottom x t b :
  ordered t b -> len b < MaxBottomNominationsPerCandidate -> 0 <= b_amount x ->
  fresh (b_owner x) (t ++ b) -> (forall y, y ∈ t -> b_amount x <= b_amount y) ->
  ordered t (insert_fcfs x b).
Proof.
  intros [] Hl Hx Hf Hb. split; try done.
  - by apply insert_fcfs_descending.
  - rewrite insert_app_r, fresh_cons. done.
  - rewrite insert_app_r. by constructor.
  - rewrite len_insert. lia.
  - intros y z Hy. rewrite insert_fcfs_perm, elem_of_cons. intros [->|?]; eauto.
Qed.

(** Sub-lists: bonds are dropped from either list. *)
Lemma ordered_sub t b t' b' :
  ordered t b -> t' `sublist_of` t -> b' `sublist_of` b -> descending t' -> descending b' ->
  ordered t' b'.
Proof.
  intros [] Ht Hb Hdt Hdb.
  assert (t' ++ b' `sublist_of` t ++ b) as Htb by by apply sublist_app.
  split; try done.
  - eapply sublist_NoDup; [done|]. by apply fmap_sublist.
  - rewrite Forall_forall in *. intros x Hx. by eapply o_nonneg0, elem_of_sublist.
  - apply sublist_length in Ht. lia.
  - apply sublist_length in Hb. lia.
  - intros x y Hx Hy. apply o_order0; by eapply elem_of_sublist.
Qed.

Lemma ordered_drop_last_top x t b : ordered (t ++ [x]) b -> ordered t b.
Proof.
  intros Ho. pose proof Ho as []. eapply ordered_sub; eauto.
  - by apply sublist_inserts_r.
  - by eapply descending_app_l.
Qed.
Lemma ordered_drop_last_bottom x t b : ordered t (b ++ [x]) -> ordered t b.
Proof.
  intros Ho. pose proof Ho as []. eapply ordered_sub; eauto.
  - by apply sublist_inserts_r.
  - by eapply descending_app_l.
Qed.
Lemma ordered_drop_head_bottom x t b : ordered t (x :: b) -> ordered t b.
Proof.
  intros Ho. pose proof Ho as []. eapply ordered_sub; eauto.
  - by apply sublist_cons.
  - by eapply descending_cons.
Qed.
Lemma ordered_move_up x t b :
  ordered t (x :: b) -> len t < MaxTopNominationsPerCandidate -> ordered (insert_fcfs x t) b.
Proof.
  intros Ho Hl. pose proof Ho as []. apply ordered_add_top; try done.
  - by eapply ordered_drop_head_bottom.
  - rewrite Forall_app in o_nonneg0. destruct o_nonneg0 as [_ Hx]. by inversion_clear Hx.
  - unfold fresh. rewrite <- Permutation_middle in o_owners0. by apply fresh_cons in o_owners0 as [? _].
  - intros y Hy. eapply descending_head; [done|]. set_solver.
Qed.
Lemma ordered_move_down x t b :
  ordered (t ++ [x]) b -> len b < MaxBottomNominationsPerCandidate -> ordered t (insert_fcfs x b).
Proof.
  intros Ho Hl. pose proof Ho as []. apply ordered_add_bottom; try done.
  - by eapply ordered_drop_last_top.
  - rewrite !Forall_app in o_nonneg0. destruct o_nonneg0 as [[_ Hx] _]. by inversion_clear Hx.
  - unfold fresh. rewrite <- app_assoc in o_owners0. cbn in o_owners0.
    rewrite <- Permutation_middle in o_owners0. by apply fresh_cons in o_owners0 as [? _].
  - intros y Hy. eapply descending_last; [done|]. set_solver.
Qed.
Lemma ordered_others_top n t b : ordered t b -> ordered (bonds_of_others n t) b.
Proof.
  intros Ho. pose proof Ho as []. eapply ordered_sub; eauto.
  - apply sublist_filter.
  - by apply StronglySorted_filter.
Qed.
Lemma ordered_others_bottom n t b : ordered t b -> ordered t (bonds_of_others n b).
Proof.
  intros Ho. pose proof Ho as []. eapply ordered_sub; eauto.
  - apply sublist_filter.
  - by apply StronglySorted_filter.
Qed.

(** ** A bond taken out of a list by its owner *)

Lemma others_split (n : AccountId) (l : list Bond) :
  NoDup (b_owner <$> l) ->
  (exists a, l ≡ₚ mkBond n a :: bonds_of_others n l /\ bonds_of n l = [mkBond n a]) \/
  (fresh n l /\ bonds_of_others n l = l /\ bonds_of n l = []).
Proof.
  unfold bonds_of_others, bonds_of, fresh. induction l as [|x l IH]; intros Hn.
  { right. split; [|done]. apply not_elem_of_nil. }
  apply fresh_cons in Hn as [Hx Hn]. specialize (IH Hn).
  rewrite !filter_cons. destruct (decide (b_owner x = n)) as [E|E].
  - rewrite (decide_False (P := b_owner x <> n)) by (by intros []).
    destruct IH as [(a & Hp & _)|(Hf & -> & ->)].
    + destruct Hx. unfold fresh. rewrite Hp, E. cbn. set_solver.
    + left. exists (b_amount x). destruct x; cbn in *; by subst.
  - rewrite decide_True by done. destruct IH as [(a & Hp & ->)|(Hf & -> & ->)].
    + left. exists a. split; [|done]. rewrite Hp at 1. apply perm_swap.
    + right. split; [|done]. cbn. set_solver.
Qed.

Lemma taken_amount_some n l a :
  NoDup (b_owner <$> l) -> mkBond n a ∈ l ->
  taken_amount n l = Some a /\ bonds_of n l = [mkBond n a] /\
  l ≡ₚ mkBond n a :: bonds_of_others n l /\ fresh n (bonds_of_others n l) /\
  has_bond n l = true.
Proof.
  intros Hn Hin. destruct (others_split n l Hn) as [(a' & Hp & Hb)|(Hf & _ & _)].
  - assert (mkBond n a ∈ bonds_of n l) as Hi by by apply list_elem_of_filter.
    rewrite Hb in Hi. apply list_elem_of_singleton in Hi as [= ->].
    unfold taken_amount. rewrite Hb. split_and!; try done.
    + unfold fresh. intros (x & Hx & Hxo)%list_elem_of_fmap.
      apply list_elem_of_filter in Hxo as [? _]. done.
    + unfold has_bond. apply existsb_exists. exists (mkBond n a'). split.
      * by apply list_elem_of_In.
      * by apply bool_decide_eq_true.
  - destruct Hf. apply list_elem_of_fmap. by exists (mkBond n a).
Qed.
Lemma taken_amount_none n l : fresh n l ->
  taken_amount n l = None /\ bonds_of n l = [] /\ has_bond n l = false.
Proof.
  intros Hf. assert (bonds_of n l = []) as E.
  { destruct (bonds_of n l) as [|x k] eqn:E; [done|]. exfalso.
    assert (x ∈ bonds_of n l) as [<- Hx]%list_elem_of_filter by (rewrite E; set_solver).
    apply Hf, list_elem_of_fmap. eauto. }
  unfold taken_amount. rewrite E. split_and!; try done.
  unfold has_bond. apply not_true_is_false. intros (x & Hx & Ho)%existsb_exists.
  apply bool_decide_eq_true in Ho. apply Hf, list_elem_of_fmap. exists x.
  split; [done|]. by apply list_elem_of_In.
Qed.

Lemma map_bonds_perm n f l a :
  NoDup (b_owner <$> l) -> mkBond n a ∈ l ->
  map_bonds_of n f l ≡ₚ mkBond n (f a) :: bonds_of_others n l.
Proof.
  intros Hn Hin. destruct (taken_amount_some n l a Hn Hin) as (_ & _ & Hp & Hf & _).
  unfold map_bonds_of. rewrite Hp at 1. cbn. rewrite decide_True by done.
  f_equiv. apply reflexive_eq. rewrite <- (list_fmap_id (bonds_of_others n l)) at 2.
  apply list_fmap_ext. intros i x Hx. rewrite decide_False; [done|].
  intros <-. apply Hf, list_elem_of_fmap. exists x. split; [done|].
  by eapply list_elem_of_lookup_2.
Qed.

Lemma ordered_perm t b t' b' :
  ordered t b -> t' ≡ₚ t -> b' ≡ₚ b -> descending t' -> descending b' -> ordered t' b'.
Proof.
  intros [] Ht Hb Hdt Hdb. split; try done; rewrite ?Ht, ?Hb; try done.
  intros x y. rewrite Ht, Hb. apply o_order0.
Qed.

(** A bond changed in place and its list sorted again. *)
Lemma ordered_change_top n a a' t b t' :
  ordered t b -> mkBond n a ∈ t -> 0 <= a' -> (forall y, y ∈ b -> b_amount y <= a') ->
  t' ≡ₚ mkBond n a' :: bonds_of_others n t -> descending t' -> ordered t' b.
Proof.
  intros Ho Hin Ha Hb Hp Hd. pose proof Ho as [].
  destruct (taken_amount_some n t a) as (_ & _ & Hpt & Hf & _); [|done|].
  { rewrite fmap_app, NoDup_app in o_owners0. tauto. }
  eapply (ordered_perm (insert_fcfs (mkBond n a') (bonds_of_others n t)) b);
    [|by rewrite Hp, insert_fcfs_perm|done..].
  apply ordered_add_top; try done.
  - by apply ordered_others_top.
  - pose proof (Permutation_length Hpt) as Hl. cbn in Hl. lia.
  - unfold fresh. rewrite Hpt in o_owners0. cbn in o_owners0.
    rewrite !fmap_app in *. by apply NoDup_cons in o_owners0 as [? _].
Qed.
Lemma ordered_change_bottom n a a' t b b' :
  ordered t b -> mkBond n a ∈ b -> 0 <= a' -> (forall y, y ∈ t -> a' <= b_amount y) ->
  b' ≡ₚ mkBond n a' :: bonds_of_others n b -> descending b' -> ordered t b'.
Proof.
  intros Ho Hin Ha Hb Hp Hd. pose proof Ho as [].
  destruct (taken_amount_some n b a) as (_ & _ & Hpt & Hf & _); [|done|].
  { rewrite fmap_app, NoDup_app in o_owners0. tauto. }
  eapply (ordered_perm t (insert_fcfs (mkBond n a') (bonds_of_others n b)));
    [|done|by rewrite Hp, insert_fcfs_perm|done..].
  apply ordered_add_bottom; try done.
  - by apply ordered_others_bottom.
  - pose proof (Permutation_length Hpt) as Hl. cbn in Hl. lia.
  - unfold fresh. rewrite Hpt, <- Permutation_middle in o_owners0. cbn in o_owners0.
    by apply NoDup_cons in o_owners0 as [? _].
Qed.

(** ** The invariant *)

(** The metadata summarises the lists. *)
Record meta_ok (c : CandidateMetadata) (top bottom : Nominations) : Prop := mkMetaOk {
  m_lowest_top : c_lowest_top_nomination_amount c = lowest_nomination_amount top;
  m_top_capacity : c_top_capacity c = top_capacity top;
  m_voting_power : c_voting_power c = c_bond c + ns_total top;
  m_highest_bottom : c_highest_bottom_nomination_amount c = highest_nomination_amount bottom;
  m_lowest_bottom : c_lowest_bottom_nomination_amount c = lowest_nomination_amount bottom;
  m_bottom_capacity : c_bottom_capacity c = bottom_capacity bottom;
  m_count : c_nomination_count c = count top + count bottom
}.

(** [sync] tells whether the stored total of the bottom list is known to be
    the sum of its bonds: [decrease_bottom_nomination] leaves it stale. *)
Record candidate_ok (sync : bool) (c : CandidateMetadata) (top bottom : Nominations) : Prop :=
  mkCandidateOk {
  k_ordered : ordered (ns_nominations top) (ns_nominations bottom);
  k_spill : spill (ns_nominations top) (ns_nominations bottom);
  k_top_total : ns_total top = zsum (amounts (ns_nominations top));
  k_bottom_total : sync = true -> ns_total bottom = zsum (amounts (ns_nominations bottom));
  k_bond : 0 <= c_bond c;
  k_bound : c_bond c + zsum (amounts (ns_nominations top ++ ns_nominations bottom)) < u128_modulus;
  k_meta : meta_ok c top bottom
}.

(** The bonds of a candidate and the voting power in the candidate pool. *)
Definition stored (s : Storage) (candidate : AccountId) (top bottom : Nominations) : Prop :=
  TopNominations s !! candidate = Some top /\ BottomNominations s !! candidate = Some bottom.
Definition pool_ok (s : Storage) (candidate : AccountId) (c : CandidateMetadata) : Prop :=
  forall v, CandidatePool s !! candidate = Some v -> v = c_voting_power c.
Definition candidate_inv (sync : bool) (s : Storage) (candidate : AccountId)
    (c : CandidateMetadata) (top bottom : Nominations) : Prop :=
  stored s candidate top bottom /\ pool_ok s candidate c /\ candidate_ok sync c top bottom.

Definition bonds (top bottom : Nominations) : list Bond :=
  ns_nominations top ++ ns_nominations bottom.
End Lists.
