(* ===== verification/CandidateOpsProofs.v ===== *)
(** * The operations of a candidate against the lists of bonds

    Each operation on the nominations of a candidate is shown to return the
    metadata that summarises the new lists ([summarise]), to keep the
    invariant of [CandidateInv], and to change the bag of bonds as its name
    says. *)

From S2P Require Import Prelude Logic Errors Primitives StakingTypes Nominations Nominator Candidate CandidateInv.
Local Open Scope Z_scope.
Local Open Scope frame_scope.

Section Summary.
Context `{Config}.

(** The metadata of a candidate computed from its lists. *)
Definition summarise (c : CandidateMetadata) (top bottom : Nominations) : CandidateMetadata :=
  c <| c_nomination_count := count top + count bottom |>
    <| c_voting_power := c_bond c + ns_total top |>
    <| c_lowest_top_nomination_amount := lowest_nomination_amount top |>
    <| c_highest_bottom_nomination_amount := highest_nomination_amount bottom |>
    <| c_lowest_bottom_nomination_amount := lowest_nomination_amount bottom |>
    <| c_top_capacity := top_capacity top |>
    <| c_bottom_capacity := bottom_capacity bottom |>.
(** What is left of the metadata without the summary. *)
Definition unsummarised (c : CandidateMetadata) : CandidateMetadata :=
  c <| c_nomination_count := 0 |> <| c_voting_power := 0 |>
    <| c_lowest_top_nomination_amount := 0 |> <| c_highest_bottom_nomination_amount := 0 |>
    <| c_lowest_bottom_nomination_amount := 0 |>
    <| c_top_capacity := CapEmpty |> <| c_bottom_capacity := CapEmpty |>.

Lemma summarise_intro c c' top bottom :
  unsummarised c' = unsummarised c -> meta_ok c' top bottom -> c' = summarise c top bottom.
Proof.
  destruct c, c'. cbv [unsummarised update_field]. cbn. intros [= -> -> -> -> -> -> -> -> -> -> -> -> -> ->] [].
  cbn in *. subst. reflexivity.
Qed.
Lemma summarise_meta c top bottom : meta_ok (summarise c top bottom) top bottom.
Proof. done. Qed.

(** The metadata after [reset_top_data]. *)
Definition top_data (c : CandidateMetadata) (top : Nominations) : CandidateMetadata :=
  c <| c_lowest_top_nomination_amount := lowest_nomination_amount top |>
    <| c_top_capacity := top_capacity top |>
    <| c_voting_power := u128_add (c_bond c) (ns_total top) |>.

Lemma runs_reset_top_data c candidate top s (Q : CandidateMetadata -> Storage -> Prop) :
  pool_ok s candidate c ->
  (forall pool, pool_ok (s <| CandidatePool := pool |>) candidate (top_data c top) ->
    Q (top_data c top) (s <| CandidatePool := pool |>)) ->
  runs (reset_top_data c candidate top) s Q.
Proof.
  intros Hp HQ. unfold reset_top_data. fold (top_data c top). wp_step.
  case_decide as Hd.
  - do 2 wp_step.
    assert (s = s <| CandidatePool := CandidatePool s |>) as E by by destruct s.
    rewrite E. apply HQ. intros v Hv. rewrite <- Hd. by apply Hp.
  - unfold update_active, mutate. do 2 wp_step.
    apply (HQ (match CandidatePool s !! candidate with
               | Some _ => <[candidate := c_voting_power (top_data c top)]> (CandidatePool s)
               | None => CandidatePool s
               end)).
    unfold pool_ok. fields. intros v.
    destruct (CandidatePool s !! candidate) eqn:E; [|congruence].
    rewrite lookup_insert_eq. by intros [= <-].
Qed.

(** An insertion in the middle of an operation. *)
Lemma insert_sorted_mk l t x :
  descending l -> t + b_amount x < u128_modulus ->
  insert_sorted_greatest_to_least (mkNominations l t) x =
    mkNominations (insert_fcfs x l) (t + b_amount x).
Proof.
  intros Hd Ht. pose proof (insert_sorted_nominations (mkNominations l t) x Hd) as Hi.
  unfold insert_sorted_greatest_to_least in *. cbn in *. rewrite Hi.
  by rewrite u128_sat_add_small.
Qed.
Lemma insert_sorted_eta ns x :
  descending (ns_nominations ns) ->
  insert_sorted_greatest_to_least ns x =
    mkNominations (insert_fcfs x (ns_nominations ns)) (u128_sat_add (ns_total ns) (b_amount x)).
Proof.
  intros Hd. pose proof (insert_sorted_nominations ns x Hd) as Hi.
  unfold insert_sorted_greatest_to_least in *. cbn in *. by rewrite Hi.
Qed.

Lemma count_nonneg ns : 0 <= count ns.
Proof. unfold count. lia. Qed.
Lemma top_capacity_full ns : top_capacity ns = CapFull <-> MaxTopNominationsPerCandidate <= count ns.
Proof. unfold top_capacity. destruct (Z.leb_spec MaxTopNominationsPerCandidate (count ns)), (count ns =? 0); split; (done || lia). Qed.
Lemma bottom_capacity_full ns :
  bottom_capacity ns = CapFull <-> MaxBottomNominationsPerCandidate <= count ns.
Proof.
  unfold bottom_capacity.
  destruct (Z.leb_spec MaxBottomNominationsPerCandidate (count ns)), (count ns =? 0);
    split; (done || lia).
Qed.
Lemma bottom_capacity_empty `{!NominationBounds} ns :
  bottom_capacity ns = CapEmpty <-> ns_nominations ns = [].
Proof.
  pose proof max_bottom_pos. unfold bottom_capacity, count.
  destruct (ns_nominations ns); cbn [length];
    destruct (Z.leb_spec MaxBottomNominationsPerCandidate (Z.of_nat 0)),
      (Z.eqb_spec (Z.of_nat 0) 0); try lia; try done;
    repeat case_match; split; try done; lia.
Qed.
End Summary.

(** ** What an operation on the lists achieves *)

Section Relisted.
Context `{Config}.

(** The candidate [c] is left with the bag of bonds [l], its metadata [c']
    summarising them, and the invariant holds. *)
Definition relisted (sync : bool) (candidate : AccountId) (c : CandidateMetadata) (l : list Bond)
    (c' : CandidateMetadata) (s' : Storage) : Prop :=
  exists top' bottom', c' = summarise c top' bottom' /\
    candidate_inv sync s' candidate c' top' bottom' /\ bonds top' bottom' ≡ₚ l.

Lemma relisted_intro sync candidate c l c' s' top' bottom' :
  stored s' candidate top' bottom' -> pool_ok s' candidate c' ->
  unsummarised c' = unsummarised c -> meta_ok c' top' bottom' ->
  ordered (ns_nominations top') (ns_nominations bottom') ->
  spill (ns_nominations top') (ns_nominations bottom') ->
  ns_total top' = zsum (amounts (ns_nominations top')) ->
  (sync = true -> ns_total bottom' = zsum (amounts (ns_nominations bottom'))) ->
  0 <= c_bond c -> c_bond c + zsum (amounts l) < u128_modulus ->
  bonds top' bottom' ≡ₚ l ->
  relisted sync candidate c l c' s'.
Proof.
  intros ?? Hu ?????? Hb Hl. exists top', bottom'.
  split; [by apply summarise_intro|]. split; [|done]. split; [done|]. split; [done|].
  assert (c_bond c' = c_bond c) as Hcb.
  { change (c_bond (unsummarised c') = c_bond (unsummarised c)). by rewrite Hu. }
  split; try done; rewrite ?Hcb; try done. unfold bonds in Hl. by rewrite Hl.
Qed.

Lemma amounts_nonneg (l : list Bond) : Forall (fun x => 0 <= b_amount x) l -> 0 <= zsum (amounts l).
Proof.
  intros Hl. apply zsum_nonneg, Forall_forall. intros a (x & -> & Hx)%list_elem_of_fmap.
  rewrite Forall_forall in Hl. by apply Hl.
Qed.

(** What the invariant says of a bond in either list. *)
Section OfInvariant.
Context (sync : bool) (c : CandidateMetadata) (top bottom : Nominations).
Context (Hc : candidate_ok sync c top bottom).
Lemma ok_ordered : ordered (ns_nominations top) (ns_nominations bottom).
Proof. apply Hc. Qed.

Lemma ok_top_owners : NoDup (b_owner <$> ns_nominations top).
Proof. pose proof (o_owners _ _ ok_ordered) as H1. rewrite fmap_app, NoDup_app in H1. tauto. Qed.
Lemma ok_bottom_owners : NoDup (b_owner <$> ns_nominations bottom).
Proof. pose proof (o_owners _ _ ok_ordered) as H1. rewrite fmap_app, NoDup_app in H1. tauto. Qed.
Lemma ok_disjoint x y :
  x ∈ ns_nominations top -> y ∈ ns_nominations bottom -> b_owner x <> b_owner y.
Proof.
  intros Hx Hy E. pose proof (o_owners _ _ ok_ordered) as H1.
  rewrite fmap_app, NoDup_app in H1. destruct H1 as (_ & H1 & _).
  apply (H1 (b_owner x)); [by apply list_elem_of_fmap_2|].
  rewrite E. by apply list_elem_of_fmap_2.
Qed.
Lemma ok_nonneg x : x ∈ bonds top bottom -> 0 <= b_amount x.
Proof. pose proof (o_nonneg _ _ ok_ordered) as H1. rewrite Forall_forall in H1. apply H1. Qed.
Lemma ok_nonneg_top : Forall (fun x => 0 <= b_amount x) (ns_nominations top).
Proof. pose proof (o_nonneg _ _ ok_ordered) as H1. rewrite Forall_app in H1. tauto. Qed.
Lemma ok_nonneg_bottom : Forall (fun x => 0 <= b_amount x) (ns_nominations bottom).
Proof. pose proof (o_nonneg _ _ ok_ordered) as H1. rewrite Forall_app in H1. tauto. Qed.
Lemma ok_top_sum : 0 <= zsum (amounts (ns_nominations top)).
Proof. apply amounts_nonneg, ok_nonneg_top. Qed.
Lemma ok_bottom_sum : 0 <= zsum (amounts (ns_nominations bottom)).
Proof. apply amounts_nonneg, ok_nonneg_bottom. Qed.
Lemma ok_bound :
  c_bond c + zsum (amounts (ns_nominations top)) + zsum (amounts (ns_nominations bottom))
    < u128_modulus.
Proof. pose proof (k_bound _ _ _ _ Hc) as H1. rewrite zsum_amounts_app in H1. lia. Qed.
Lemma ok_count_u32 `{!NominationBounds} : 0 <= count top + count bottom < u32_modulus.
Proof.
  pose proof (o_top_len _ _ ok_ordered). pose proof (o_bottom_len _ _ ok_ordered). pose proof max_sum_u32.
  unfold count. lia.
Qed.
Lemma ok_bottom_empty : count top < MaxTopNominationsPerCandidate -> ns_nominations bottom = [].
Proof.
  intros Hl. destruct (ns_nominations bottom) eqn:E; [done|].
  pose proof (k_spill _ _ _ _ Hc) as Hs. rewrite E in Hs. unfold count in Hl.
  rewrite Hs in Hl by done. lia.
Qed.
Lemma ok_lowest_top x : x ∈ ns_nominations top -> c_lowest_top_nomination_amount c <= b_amount x.
Proof. rewrite (m_lowest_top _ _ _ (k_meta _ _ _ _ Hc)). apply lowest_le, ok_ordered. Qed.
Lemma ok_highest_bottom x :
  x ∈ ns_nominations bottom -> b_amount x <= c_highest_bottom_nomination_amount c.
Proof. rewrite (m_highest_bottom _ _ _ (k_meta _ _ _ _ Hc)). apply highest_ge, ok_ordered. Qed.
(** The lists do not overlap. *)
Lemma ok_extremal : ns_nominations bottom <> [] -> ns_nominations top <> [] ->
  c_highest_bottom_nomination_amount c <= c_lowest_top_nomination_amount c.
Proof.
  rewrite (m_highest_bottom _ _ _ (k_meta _ _ _ _ Hc)), (m_lowest_top _ _ _ (k_meta _ _ _ _ Hc)).
  intros Hb (l & x & E)%nonempty_snoc. rewrite (lowest_last top x l E).
  unfold highest_nomination_amount. destruct (ns_nominations bottom) as [|y k] eqn:Eb; [done|].
  apply (o_order _ _ ok_ordered); rewrite ?E, ?Eb; set_solver.
Qed.
End OfInvariant.
End Relisted.

(** ** Taking a bond out *)

Section Others.
Implicit Types l k : list Bond.

Lemma sum_taken n a l : NoDup (b_owner <$> l) -> mkBond n a ∈ l ->
  zsum (amounts l) = a + zsum (amounts (bonds_of_others n l)).
Proof. intros Hn Hin. destruct (taken_amount_some n l a Hn Hin) as (_ & _ & Hp & _). by rewrite Hp at 1. Qed.
Lemma len_taken n a l : NoDup (b_owner <$> l) -> mkBond n a ∈ l ->
  len l = len (bonds_of_others n l) + 1.
Proof.
  intros Hn Hin. destruct (taken_amount_some n l a Hn Hin) as (_ & _ & Hp & _).
  apply Permutation_length in Hp. cbn in Hp. lia.
Qed.
Lemma others_fresh n l : fresh n l -> bonds_of_others n l = l.
Proof.
  unfold fresh, bonds_of_others. induction l as [|x l IH]; [done|].
  rewrite fmap_cons, not_elem_of_cons. intros [Hx Hl]. rewrite filter_cons, decide_True by done.
  by rewrite IH.
Qed.
Lemma others_app n l k : bonds_of_others n (l ++ k) = bonds_of_others n l ++ bonds_of_others n k.
Proof. apply filter_app. Qed.
Lemma others_sum_le n l : Forall (fun x => 0 <= b_amount x) l ->
  0 <= zsum (amounts (bonds_of_others n l)) <= zsum (amounts l).
Proof.
  unfold bonds_of_others. induction 1 as [|x l Hx Hl IH]; [done|].
  rewrite filter_cons. case_decide; rewrite ?zsum_amounts_cons; lia.
Qed.
Lemma fresh_others n l : fresh n (bonds_of_others n l).
Proof. intros (x & -> & [? _]%list_elem_of_filter)%list_elem_of_fmap. done. Qed.
Lemma fresh_app n l k : fresh n (l ++ k) <-> fresh n l /\ fresh n k.
Proof. unfold fresh. rewrite fmap_app, elem_of_app. tauto. Qed.
End Others.

Section OtherList.
Context `{Config} (sync : bool) (c : CandidateMetadata) (top bottom : Nominations).
Context (Hc : candidate_ok sync c top bottom).

Lemma ok_fresh_top n a : mkBond n a ∈ ns_nominations bottom -> fresh n (ns_nominations top).
Proof.
  intros Hn (x & Hx & Hin)%list_elem_of_fmap.
  by eapply (ok_disjoint _ _ _ _ Hc x (mkBond n a)).
Qed.
Lemma ok_fresh_bottom n a : mkBond n a ∈ ns_nominations top -> fresh n (ns_nominations bottom).
Proof.
  intros Hn (x & Hx & Hin)%list_elem_of_fmap.
  by eapply (ok_disjoint _ _ _ _ Hc (mkBond n a) x).
Qed.
Lemma ok_others_bound n :
  c_bond c + zsum (amounts (bonds_of_others n (bonds top bottom))) < u128_modulus.
Proof.
  pose proof (k_bound _ _ _ _ Hc). unfold bonds.
  pose proof (others_sum_le n _ (o_nonneg _ _ (k_ordered _ _ _ _ Hc))). lia.
Qed.
End OtherList.

(** [or_else_nomination_dne]: the second operation is run only when the first
    found no bond of the nominator. *)
Section OrElse.
Context `{Config} {A : Type}.

Lemma runs_or_else_first (m1 m2 : P A) s Q :
  runs m1 s Q -> runs (or_else_nomination_dne m1 m2) s Q.
Proof.
  intros Hm. unfold or_else_nomination_dne. wp_step. wp_step. eapply runs_mono; [done|].
  intros a s' HQ. by wp_step.
Qed.
Lemma runs_or_else_second (m1 m2 : P A) s Q :
  m1 s = (Fail (Staking NominationDNE), s) -> runs m2 s Q ->
  runs (or_else_nomination_dne m1 m2) s Q.
Proof.
  intros Hm HQ. unfold or_else_nomination_dne, runs, bind, attempt. by rewrite Hm.
Qed.
End OrElse.
