(* ===== verification/CandidateProps.v ===== *)
(** * Candidates: the nominations stay in order

    Adding, removing, increasing and decreasing a nomination keep the
    invariant of the candidate and change the bag of its bonds as they say. *)

From S2P Require Import Prelude Logic Errors Primitives StakingTypes Nominations Nominator Candidate CandidateInv CandidateOpsProofs.
Local Open Scope Z_scope.
Local Open Scope frame_scope.

Ltac open_inv Hi :=
  let Hs := fresh "Hs" in
  pose proof Hi as ([Htop Hbot] & Hpool & Hc);
  pose proof (k_meta _ _ _ _ Hc) as Hm;
  pose proof (k_ordered _ _ _ _ Hc) as Ho.
(** The sums of the lists are in range. *)
Ltac sums Hc :=
  pose proof (ok_bound _ _ _ _ Hc); pose proof (k_bond _ _ _ _ Hc);
  pose proof (ok_top_sum _ _ _ _ Hc); pose proof (ok_bottom_sum _ _ _ _ Hc).

Section Removal.
Context `{Config} `{!NominationBounds}.

Lemma rm_bottom_runs sync s candidate c top bottom n a :
  candidate_inv sync s candidate c top bottom -> mkBond n a ∈ ns_nominations bottom ->
  runs (rm_bottom_nomination c candidate n) s
    (fun r => relisted sync candidate c (bonds_of_others n (bonds top bottom)) r.1).
Proof.
  intros Hi Hn. open_inv Hi.
  pose proof (ok_bottom_owners _ _ _ _ Hc) as Hnd.
  destruct (taken_amount_some n _ a Hnd Hn) as (Ht & _).
  pose proof (sum_taken n a _ Hnd Hn) as Hsum. pose proof (len_taken n a _ Hnd Hn) as Hlen.
  pose proof (ok_fresh_top _ _ _ _ Hc n a Hn) as Hf.
  pose proof (others_sum_le n _ (ok_nonneg_bottom _ _ _ _ Hc)) as Hpos.
  unfold rm_bottom_nomination, get, mutate, reset_bottom_data. repeat wp_step. cbn [fst].
  eapply (relisted_intro _ _ _ _ _ _ top
    (mkNominations (bonds_of_others n (ns_nominations bottom)) (sat_sub (ns_total bottom) a)));
    try done; try apply Hc.
  - split; fields; [done|apply lookup_insert_eq].
  - split; fields; try apply Hm; try done. rewrite (m_count _ _ _ Hm).
    unfold count, sat_sub. cbn [ns_nominations]. lia.
  - by apply ordered_others_bottom.
  - intros _. apply (k_spill _ _ _ _ Hc). intros E. rewrite E in Hn. by apply not_elem_of_nil in Hn.
  - intros Hsy. cbn [ns_total ns_nominations]. rewrite (k_bottom_total _ _ _ _ Hc Hsy), sat_sub_small; lia.
  - by eapply ok_others_bound.
  - unfold bonds. cbn. by rewrite others_app, (others_fresh n (ns_nominations top)).
Qed.

(** The head of the bottom list fills the place left in the top list. *)
Lemma rm_top_runs sync s candidate c top bottom n a :
  candidate_inv sync s candidate c top bottom -> mkBond n a ∈ ns_nominations top ->
  runs (rm_top_nomination c candidate n) s
    (fun r => relisted sync candidate c (bonds_of_others n (bonds top bottom)) r.1).
Proof.
  intros Hi Hn. open_inv Hi. sums Hc.
  pose proof (ok_top_owners _ _ _ _ Hc) as Hnd.
  destruct (taken_amount_some n _ a Hnd Hn) as (Ht & _).
  pose proof (sum_taken n a _ Hnd Hn) as Hsum. pose proof (len_taken n a _ Hnd Hn) as Hlen.
  pose proof (ok_fresh_bottom _ _ _ _ Hc n a Hn) as Hf.
  pose proof (others_sum_le n _ (ok_nonneg_top _ _ _ _ Hc)) as Hpos.
  pose proof (o_top_len _ _ Ho) as Htl. pose proof (ordered_others_top n _ _ Ho) as Ho'.
  pose proof (ok_others_bound _ _ _ _ Hc n) as Hbnd.
  unfold bonds in Hbnd |- *. rewrite others_app, (others_fresh n (ns_nominations bottom)) in * by done.
  set (t := bonds_of_others n (ns_nominations top)) in *.
  unfold rm_top_nomination, get, mutate. repeat wp_step. fold t.
  replace (sat_sub (ns_total top) a) with (zsum (amounts t))
    by (rewrite (k_top_total _ _ _ _ Hc), sat_sub_small; lia).
  pose proof (bottom_capacity_empty bottom) as Hcap.
  rewrite <- (m_bottom_capacity _ _ _ Hm) in Hcap.
  case_decide as Hd.
  - wp_step. wp_step. apply runs_reset_top_data; [done|]. intros pool Hpool'.
    repeat wp_step. cbn [fst].
    apply (relisted_intro _ _ _ _ _ _ (mkNominations t (zsum (amounts t))) bottom);
      try done; try apply Hc.
    + split; fields; [apply lookup_insert_eq|done].
    + split; fields; unfold top_data; fields; try apply Hm; try done.
      * rewrite u128_add_small; [done|]. cbn [ns_total]. lia.
      * rewrite (m_count _ _ _ Hm). unfold count, sat_sub. cbn [ns_nominations]. lia.
    + apply Hcap in Hd. rewrite Hd. by intros [].
  - destruct (ns_nominations bottom) as [|x b] eqn:Eb; [by destruct Hd; apply Hcap|].
    repeat wp_step. rewrite Eb. unfold remove_first. repeat wp_step.
    rewrite zsum_amounts_cons in *. rewrite zsum_amounts_app, zsum_amounts_cons in Hbnd.
    pose proof (ok_nonneg_bottom _ _ _ _ Hc) as Hb. rewrite Eb in Hb.
    apply Forall_cons in Hb as [Hx Hb]. apply amounts_nonneg in Hb as Hbs.
    rewrite insert_sorted_mk; [|apply Ho'|lia].
    apply runs_reset_top_data; [done|]. intros pool Hpool'. repeat wp_step. cbn [fst].
    eapply (relisted_intro _ _ _ _ _ _ (mkNominations (insert_fcfs x t) _) (mkNominations b _));
      try done; try apply Hc.
    + split; fields; apply lookup_insert_eq.
    + split; unfold top_data, reset_bottom_data; fields; try done.
      * rewrite u128_add_small; [done|]. cbn [ns_total]. lia.
      * rewrite (m_count _ _ _ Hm). unfold count, sat_sub. rewrite Eb. cbn [ns_nominations].
        rewrite len_insert. cbn [length]. lia.
    + apply ordered_move_up; [done|lia].
    + intros _. cbn [ns_nominations]. rewrite len_insert.
      rewrite <- (k_spill _ _ _ _ Hc); [lia|]. by rewrite Eb.
    + cbn [ns_total ns_nominations]. rewrite insert_fcfs_perm, zsum_amounts_cons. lia.
    + intros Hsy. cbn [ns_total ns_nominations].
      rewrite (k_bottom_total _ _ _ _ Hc Hsy), Eb, zsum_amounts_cons, sat_sub_small; lia.
    + rewrite zsum_amounts_app, zsum_amounts_cons. lia.
    + unfold bonds. cbn [ns_nominations]. rewrite insert_app_l. apply Permutation_middle.
Qed.

Lemma rm_top_dne s candidate c top n :
  TopNominations s !! candidate = Some top -> fresh n (ns_nominations top) ->
  rm_top_nomination c candidate n s = (Fail (Staking NominationDNE), s).
Proof.
  intros Ht Hf. unfold rm_top_nomination, get, bind, gets. rewrite Ht. cbn.
  by rewrite (proj1 (taken_amount_none n _ Hf)).
Qed.

(** Where the bond of a nominator stands, from what the callers know: its
    amount. *)
Lemma bond_in_top sync c top bottom n a :
  candidate_ok sync c top bottom -> mkBond n a ∈ bonds top bottom ->
  c_lowest_top_nomination_amount c <= a ->
  c_lowest_top_nomination_amount c <> c_highest_bottom_nomination_amount c ->
  mkBond n a ∈ ns_nominations top.
Proof.
  intros Hc [?|Hb]%elem_of_app Ha Hne; [done|].
  pose proof (ok_highest_bottom _ _ _ _ Hc _ Hb) as Hh. cbn in Hh.
  assert (ns_nominations bottom <> []) as Hnb.
  { intros E. rewrite E in Hb. by apply not_elem_of_nil in Hb. }
  pose proof (k_spill _ _ _ _ Hc Hnb) as Hs. pose proof max_top_pos.
  assert (ns_nominations top <> []) as Hnt.
  { intros E. rewrite E in Hs. cbn in Hs. lia. }
  pose proof (ok_extremal _ _ _ _ Hc Hnb Hnt). lia.
Qed.
Lemma bond_in_bottom sync c top bottom n a :
  candidate_ok sync c top bottom -> mkBond n a ∈ bonds top bottom ->
  a < c_lowest_top_nomination_amount c -> mkBond n a ∈ ns_nominations bottom.
Proof.
  intros Hc [Ht|?]%elem_of_app Ha; [|done].
  pose proof (ok_lowest_top _ _ _ _ Hc _ Ht) as Hl. cbn in Hl. lia.
Qed.

Lemma rm_nomination_runs sync s candidate c top bottom n a :
  candidate_inv sync s candidate c top bottom -> mkBond n a ∈ bonds top bottom ->
  runs (rm_nomination_if_exists c candidate n a) s
    (fun r => relisted sync candidate c (bonds_of_others n (bonds top bottom)) r.1).
Proof.
  intros Hi Hn. open_inv Hi. unfold rm_nomination_if_exists.
  destruct (negb (bool_decide (c_top_capacity c = CapFull))) eqn:Ecap; cbn [orb].
  { eapply rm_top_runs; [done|]. apply negb_true_iff, bool_decide_eq_false in Ecap.
    rewrite (m_top_capacity _ _ _ Hm), top_capacity_full in Ecap. unfold bonds in Hn.
    rewrite (ok_bottom_empty _ _ _ _ Hc), app_nil_r in Hn by lia. done. }
  destruct (Z.leb_spec (c_lowest_top_nomination_amount c) a) as [Hle|Hlt]; cbn [andb];
    [|eapply rm_bottom_runs; [done|]; by eapply bond_in_bottom].
  destruct (Z.eqb_spec (c_lowest_top_nomination_amount c) (c_highest_bottom_nomination_amount c))
    as [Heq|Hne]; cbn [negb]; [|eapply rm_top_runs; [done|]; by eapply bond_in_top].
  apply elem_of_app in Hn as [Ht|Hb].
  - by eapply runs_or_else_first, rm_top_runs.
  - eapply runs_or_else_second; [|by eapply rm_bottom_runs].
    apply (rm_top_dne s candidate c top); [done|]. by eapply ok_fresh_top.
Qed.
End Removal.
