(* ===== verification/CandidateAdd.v ===== *)
(** * Candidates: adding a nomination *)

From S2P Require Import Prelude Logic Errors Primitives StakingTypes Nominations Nominator Candidate CandidateInv CandidateOpsProofs CandidateProps.
Local Open Scope Z_scope.
Local Open Scope frame_scope.

Section Addition.
Context `{Config} `{!NominationBounds}.

(** The storage of the nominations and of the pool after a kick. *)
Definition same_lists (s s' : Storage) : Prop :=
  TopNominations s' = TopNominations s /\ BottomNominations s' = BottomNominations s /\
  CandidatePool s' = CandidatePool s.

Lemma runs_kick candidate k s (Q : unit -> Storage -> Prop) :
  is_Some (NominatorState s !! b_owner k) ->
  (forall s', same_lists s s' -> Q tt s') ->
  runs (kick_lowest_bottom candidate k) s Q.
Proof.
  intros [n Hn] HQ. unfold kick_lowest_bottom, currency_unreserve, deposit_event, get, mutate.
  repeat wp_step. fields. repeat wp_step.
  destruct (size (n_nominations n) =? 1)%nat; repeat wp_step; apply HQ; repeat split.
Qed.

(** The bond dropped when the bottom list is full, its lowest one, and the
    bonds that stay. *)
Definition dropped (bottom : Nominations) : list Bond :=
  if count bottom =? MaxBottomNominationsPerCandidate
  then option_list (last (ns_nominations bottom)) else [].
Definition kept (bottom : Nominations) : list Bond :=
  if count bottom =? MaxBottomNominationsPerCandidate
  then take (pred (length (ns_nominations bottom))) (ns_nominations bottom)
  else ns_nominations bottom.
Definition displaced (top bottom : Nominations) : list Bond :=
  if count top =? MaxTopNominationsPerCandidate then dropped bottom else [].

Lemma kept_cases bottom :
  count bottom <= MaxBottomNominationsPerCandidate ->
  (count bottom < MaxBottomNominationsPerCandidate /\ dropped bottom = [] /\
     kept bottom = ns_nominations bottom) \/
  (exists b k, count bottom = MaxBottomNominationsPerCandidate /\
     ns_nominations bottom = b ++ [k] /\ dropped bottom = [k] /\ kept bottom = b).
Proof.
  intros Hl. unfold dropped, kept. pose proof max_bottom_pos.
  destruct (Z.eqb_spec (count bottom) MaxBottomNominationsPerCandidate) as [E|E]; [right|left; lia + auto with lia].
  destruct (nonempty_snoc (ns_nominations bottom)) as (b & k & Eb).
  { intros En. unfold count in E. rewrite En in E. cbn in E. lia. }
  exists b, k. rewrite Eb, last_snoc, length_app. cbn [length].
  replace (pred (length b + 1)) with (length b) by lia. by rewrite take_app_length.
Qed.

Lemma runs_add_bottom_room c bumped candidate x bottom s Q :
  BottomNominations s !! candidate = Some bottom ->
  count bottom < MaxBottomNominationsPerCandidate ->
  Q (reset_bottom_data
       (if negb bumped then c <| c_nomination_count ::= fun n => u32_add n 1 |> else c)
       (insert_sorted_greatest_to_least bottom x))
    (s <| BottomNominations ::= <[candidate := insert_sorted_greatest_to_least bottom x]> |>) ->
  runs (add_bottom_nomination c bumped candidate x) s Q.
Proof.
  intros Hb Hl HQ. unfold add_bottom_nomination, get, mutate. repeat wp_step.
  rewrite (proj2 (Z.eqb_neq _ _)) by lia. repeat wp_step. done.
Qed.

Lemma runs_add_bottom_full c bumped candidate x bottom b k s Q :
  BottomNominations s !! candidate = Some bottom -> ns_nominations bottom = b ++ [k] ->
  count bottom = MaxBottomNominationsPerCandidate -> is_Some (NominatorState s !! b_owner k) ->
  (let bottom' := insert_sorted_greatest_to_least
                    (mkNominations b (sat_sub (ns_total bottom) (b_amount k))) x in
   forall s', same_lists s s' ->
     Q (reset_bottom_data c bottom')
       (s' <| BottomNominations ::= <[candidate := bottom']> |>)) ->
  runs (add_bottom_nomination c bumped candidate x) s Q.
Proof.
  intros Hb E Hl Hk HQ. unfold add_bottom_nomination, get, mutate. repeat wp_step.
  rewrite (proj2 (Z.eqb_eq _ _)) by lia. rewrite E.
  wp_step. wp_step; [apply pop_snoc|]. cbv beta iota.
  apply runs_bind, runs_kick; [done|]. intros s' Hs'. repeat wp_step. by apply HQ.
Qed.

Lemma kept_facts t bottom : ordered t (ns_nominations bottom) ->
  ordered t (kept bottom) /\ len (kept bottom) < MaxBottomNominationsPerCandidate /\
  dropped bottom ++ kept bottom ≡ₚ ns_nominations bottom /\
  count bottom = len (dropped bottom) + len (kept bottom) /\
  (dropped bottom = [] <-> count bottom < MaxBottomNominationsPerCandidate) /\
  (dropped bottom <> [] -> b_amount <$> head (dropped bottom) = Some (lowest_nomination_amount bottom)).
Proof.
  intros Ho. destruct (kept_cases bottom) as [(Hl & Ed & Ek)|(b & k & Hl & E & Ed & Ek)];
    [apply (o_bottom_len _ _ Ho)| |]; rewrite Ed, Ek; unfold count in *.
  - split_and!; try done; cbn; lia.
  - rewrite (lowest_last bottom k b E), E in *. rewrite length_app in Hl |- *. cbn [length] in *.
    split_and!; try done; cbn; try lia.
    + by eapply ordered_drop_last_bottom.
    + apply Permutation_cons_append.
    + split; [done|lia].
Qed.

(** Both cases of the bottom list at once. *)
Lemma runs_add_bottom sync c bumped candidate x top bottom s Q :
  BottomNominations s !! candidate = Some bottom -> candidate_ok sync c top bottom ->
  zsum (amounts (ns_nominations bottom)) + b_amount x < u128_modulus ->
  (forall k, k ∈ dropped bottom -> is_Some (NominatorState s !! b_owner k)) ->
  (forall s' bottom', same_lists s s' ->
     ns_nominations bottom' = insert_fcfs x (kept bottom) ->
     (sync = true -> ns_total bottom' = zsum (amounts (ns_nominations bottom'))) ->
     Q (reset_bottom_data
          (if bool_decide (dropped bottom = []) && negb bumped
           then c <| c_nomination_count ::= fun n => u32_add n 1 |> else c) bottom')
       (s' <| BottomNominations ::= <[candidate := bottom']> |>)) ->
  runs (add_bottom_nomination c bumped candidate x) s Q.
Proof.
  intros Hb Hc Hx Hk HQ. pose proof (k_ordered _ _ _ _ Hc) as Ho. sums Hc.
  destruct (kept_cases bottom) as [(Hl & Ed & Ek)|(b & k & Hl & E & Ed & Ek)];
    [apply (o_bottom_len _ _ Ho)| |]; rewrite Ed, Ek in *.
  - apply (runs_add_bottom_room _ _ _ _ bottom); [done..|]. apply (HQ s); [done| |].
    + by rewrite insert_sorted_eta by apply Ho.
    + intros Hsy. rewrite insert_sorted_eta by apply Ho. cbn [ns_total ns_nominations].
      rewrite (k_bottom_total _ _ _ _ Hc Hsy), insert_fcfs_perm, zsum_amounts_cons, u128_sat_add_small; lia.
  - apply (runs_add_bottom_full _ _ _ _ bottom b k); [done..|by apply Hk; set_solver|].
    pose proof (ok_nonneg_bottom _ _ _ _ Hc) as Hn. pose proof (o_bottom _ _ Ho) as Hd.
    rewrite E in Hn, Hd, Hx. rewrite zsum_amounts_app, zsum_amounts_cons in Hx.
    apply descending_app_l in Hd. apply Forall_app in Hn as [Hnb Hnk].
    apply Forall_inv in Hnk. apply amounts_nonneg in Hnb. cbn in Hx.
    intros bottom' s' Hs'. apply HQ; [done|..]; subst bottom'; rewrite insert_sorted_eta by done; [done|].
    intros Hsy. cbn [ns_total ns_nominations].
    rewrite (k_bottom_total _ _ _ _ Hc Hsy), E, zsum_amounts_app, zsum_amounts_cons,
      insert_fcfs_perm, zsum_amounts_cons. cbn [amounts fmap list_fmap zsum foldr].
    rewrite sat_sub_small, u128_sat_add_small; lia.
Qed.

(** The outcome of an addition: the bond is in, the displaced one is out and
    its amount is reported. *)
Definition added (sync : bool) (candidate : AccountId) (c : CandidateMetadata)
    (top bottom : Nominations) (x : Bond) (c' : CandidateMetadata) (less : option Balance)
    (s' : Storage) : Prop :=
  exists l, relisted sync candidate c l c' s' /\
    displaced top bottom ++ l ≡ₚ x :: bonds top bottom /\
    less = b_amount <$> head (displaced top bottom).

Context (sync : bool) (s : Storage) (candidate : AccountId) (c : CandidateMetadata).
Context (top bottom : Nominations) (x : Bond).
Context (Hi : candidate_inv sync s candidate c top bottom).
Context (Hx : 0 <= b_amount x) (Hfresh : fresh (b_owner x) (bonds top bottom)).
Context (Hroom : c_bond c + zsum (amounts (bonds top bottom)) + b_amount x < u128_modulus).

Lemma add_top_room :
  count top < MaxTopNominationsPerCandidate ->
  runs (add_top_nomination c candidate x) s
    (fun r => added sync candidate c top bottom x r.1 r.2).
Proof.
  intros Hl. open_inv Hi. sums Hc.
  pose proof (ok_bottom_empty _ _ _ _ Hc Hl) as Eb.
  pose proof (ok_count_u32 _ _ _ _ Hc) as Hcnt. pose proof max_sum_u32. pose proof max_bottom_pos.
  unfold bonds in Hroom, Hfresh. rewrite zsum_amounts_app in Hroom.
  assert (count bottom = 0) as Hcb by (unfold count; by rewrite Eb).
  unfold add_top_nomination, get, mutate. repeat wp_step.
  rewrite (proj2 (Z.eqb_neq _ _)) by lia. repeat wp_step.
  rewrite insert_sorted_eta, u128_sat_add_small by (try apply Ho; rewrite (k_top_total _ _ _ _ Hc); lia).
  apply runs_reset_top_data; [done|]. intros pool Hpool'. repeat wp_step. cbn [fst snd].
  unfold added, displaced. rewrite (proj2 (Z.eqb_neq _ _)) by lia. cbn [andb].
  exists (x :: bonds top bottom). split; [|done].
  eapply (relisted_intro _ _ _ _ _ _ (mkNominations (insert_fcfs x (ns_nominations top)) _) bottom);
    try done; try apply Hc.
  - split; fields; [apply lookup_insert_eq|done].
  - split; unfold top_data; fields; try apply Hm; try done.
    + cbn [ns_total]. rewrite u128_add_small; [done|]. rewrite (k_top_total _ _ _ _ Hc). lia.
    + rewrite (m_count _ _ _ Hm). unfold count in *. cbn [ns_nominations].
      rewrite len_insert, u32_add_small; lia.
  - cbn [ns_nominations]. rewrite Eb in *. apply ordered_add_top; try done. set_solver.
  - rewrite Eb. by intros [].
  - cbn [ns_total ns_nominations]. rewrite insert_fcfs_perm, zsum_amounts_cons, (k_top_total _ _ _ _ Hc). lia.
  - rewrite zsum_amounts_cons. unfold bonds. rewrite zsum_amounts_app. lia.
  - unfold bonds. cbn [ns_nominations]. by rewrite insert_app_l.
Qed.

(** The facts on the bags that both remaining cases use. *)
Lemma added_bag : count top = MaxTopNominationsPerCandidate ->
  displaced top bottom = dropped bottom /\
  zsum (amounts (dropped bottom)) + zsum (amounts (kept bottom)) =
    zsum (amounts (ns_nominations bottom)) /\
  0 <= zsum (amounts (dropped bottom)) /\
  (forall y, y ∈ kept bottom -> y ∈ ns_nominations bottom) /\
  fresh (b_owner x) (kept bottom).
Proof.
  intros Hl. open_inv Hi.
  destruct (kept_facts _ _ Ho) as (_ & _ & Hp & _). unfold displaced.
  rewrite (proj2 (Z.eqb_eq _ _)) by done. split; [done|].
  pose proof (ok_nonneg_bottom _ _ _ _ Hc) as Hn. rewrite <- Hp in Hn.
  apply Forall_app in Hn as [Hn _]. apply amounts_nonneg in Hn.
  split_and!; [by rewrite <- zsum_amounts_app, Hp|done| |].
  - intros y Hy. rewrite <- Hp. apply elem_of_app. by right.
  - unfold bonds in Hfresh. apply fresh_app in Hfresh as [_ Hf]. unfold fresh in *.
    rewrite <- Hp, fmap_app, elem_of_app in Hf. tauto.
Qed.

Lemma displaced_bag :
  dropped bottom ++ x :: ns_nominations top ++ kept bottom ≡ₚ x :: bonds top bottom.
Proof.
  open_inv Hi. destruct (kept_facts _ _ Ho) as (_ & _ & Hp & _).
  rewrite <- Permutation_middle. f_equiv. rewrite (app_assoc (dropped bottom)).
  rewrite (Permutation_app_comm (dropped bottom) (ns_nominations top)), <- app_assoc.
  unfold bonds. by rewrite Hp.
Qed.

(** The metadata tells which amount is displaced. *)
Lemma less_dropped :
  (if decide (c_bottom_capacity c = CapFull)
   then Some (c_lowest_bottom_nomination_amount c) else None) = b_amount <$> head (dropped bottom).
Proof.
  open_inv Hi. destruct (kept_facts _ _ Ho) as (_ & _ & _ & _ & Hnil & Hlow).
  rewrite (m_bottom_capacity _ _ _ Hm), (m_lowest_bottom _ _ _ Hm).
  pose proof (bottom_capacity_full bottom) as Hf. pose proof (o_bottom_len _ _ Ho).
  case_decide as Hd.
  - apply Hf in Hd. rewrite Hlow; [done|]. intros En. apply Hnil in En. lia.
  - destruct (dropped bottom) as [|k l]; [done|]. destruct Hd. apply Hf.
    destruct (Z.le_gt_cases MaxBottomNominationsPerCandidate (count bottom)) as [?|Hlt]; [done|].
    by apply Hnil in Hlt.
Qed.
Lemma dropped_one : dropped bottom <> [] -> len (dropped bottom) = 1.
Proof. unfold dropped. case_match; [|done]. by destruct (last _). Qed.

Context (Hkick : forall k, k ∈ displaced top bottom -> is_Some (NominatorState s !! b_owner k)).

Lemma add_bottom_case :
  count top = MaxTopNominationsPerCandidate ->
  b_amount x <= lowest_nomination_amount top ->
  runs (add_bottom_nomination c false candidate x) s
    (fun c' => added sync candidate c top bottom x c' (b_amount <$> head (displaced top bottom))).
Proof.
  intros Hl Hlow. open_inv Hi. sums Hc.
  destruct (added_bag Hl) as (Ed & Hsum & Hdn & Hsub & Hfk). rewrite Ed in *.
  destruct (kept_facts _ _ Ho) as (Hok & Hlk & Hp & Hcnt & Hnil & Hlow').
  pose proof (ok_count_u32 _ _ _ _ Hc) as Hcu. pose proof max_sum_u32.
  unfold bonds in Hroom, Hfresh. rewrite zsum_amounts_app in Hroom.
  apply (runs_add_bottom sync _ _ _ _ top bottom); try done; [lia|].
  intros s' bottom' (Et & Eb & Ep) E Htot. unfold added. rewrite Ed.
  assert (zsum (amounts (ns_nominations bottom')) = b_amount x + zsum (amounts (kept bottom))) as Hs'.
  { by rewrite E, insert_fcfs_perm, zsum_amounts_cons. }
  exists (x :: ns_nominations top ++ kept bottom). split_and!; [|by apply displaced_bag|done].
  eapply (relisted_intro _ _ _ _ _ _ top bottom'); try done; try apply Hc.
  - split; fields; [by rewrite Et|apply lookup_insert_eq].
  - unfold pool_ok. fields. rewrite Ep. intros v Hv. rewrite (Hpool v Hv).
    by destruct (bool_decide _ && _).
  - by destruct (bool_decide _ && _).
  - unfold reset_bottom_data. case_bool_decide as Hd; cbn [andb negb]; split; fields;
      try apply Hm; try done; rewrite (m_count _ _ _ Hm); unfold count in *; rewrite E, len_insert.
    + pose proof (proj1 Hnil Hd). rewrite Hd in Hcnt. cbn in Hcnt. rewrite u32_add_small; lia.
    + pose proof (dropped_one Hd). lia.
  - rewrite E. apply ordered_add_bottom; try done.
    + apply fresh_app. apply fresh_app in Hfresh. tauto.
    + intros y Hy. pose proof (lowest_le top y (o_top _ _ Ho) Hy). lia.
  - by intros _.
  - rewrite zsum_amounts_cons, zsum_amounts_app. lia.
  - unfold bonds. rewrite E. apply insert_app_r.
Qed.

Lemma add_top_bump :
  count top = MaxTopNominationsPerCandidate ->
  lowest_nomination_amount top < b_amount x ->
  runs (add_top_nomination c candidate x) s
    (fun r => added sync candidate c top bottom x r.1 r.2).
Proof.
  intros Hl Hlow. open_inv Hi. sums Hc.
  destruct (added_bag Hl) as (Ed & Hsum & Hdn & Hsub & Hfk). rewrite Ed in *.
  destruct (kept_facts _ _ Ho) as (Hok & Hlk & Hp & Hcnt & Hnil & Hlow').
  pose proof (ok_count_u32 _ _ _ _ Hc) as Hcu. pose proof max_sum_u32. pose proof max_top_pos.
  unfold bonds in Hroom, Hfresh. rewrite zsum_amounts_app in Hroom.
  destruct (nonempty_snoc (ns_nominations top)) as (t & y & E).
  { intros En. unfold count in Hl. rewrite En in Hl. cbn in Hl. lia. }
  rewrite (lowest_last top y t E) in Hlow.
  pose proof (ordered_drop_last_top y t (kept bottom) ltac:(by rewrite <- E)) as Hot.
  pose proof (ordered_move_down y t (kept bottom) ltac:(by rewrite <- E) Hlk) as Hod.
  pose proof (ok_nonneg_top _ _ _ _ Hc) as Hnt. rewrite E in Hnt.
  apply Forall_app in Hnt as [Hnt Hy]. apply Forall_inv in Hy. apply amounts_nonneg in Hnt.
  assert (zsum (amounts (ns_nominations top)) = zsum (amounts t) + b_amount y) as Hst.
  { rewrite E, zsum_amounts_app, zsum_amounts_cons. cbn. lia. }
  unfold add_top_nomination, get, mutate. repeat wp_step.
  rewrite (proj2 (Z.eqb_eq _ _)) by done. rewrite E.
  wp_step. wp_step; [apply pop_snoc|]. cbv beta iota. wp_step.
  apply (runs_add_bottom sync _ _ _ _ top bottom); try done; [lia|].
  intros s' bottom' (Et & Eb & Ep) Eb' Htot. rewrite andb_false_r. repeat wp_step.
  rewrite less_dropped. rewrite (k_top_total _ _ _ _ Hc), sat_sub_small by lia.
  rewrite insert_sorted_mk by (try apply Hot; lia).
  assert (zsum (amounts (ns_nominations bottom')) = b_amount y + zsum (amounts (kept bottom))) as Hsb.
  { by rewrite Eb', insert_fcfs_perm, zsum_amounts_cons. }
  apply runs_reset_top_data; [unfold pool_ok; fields; by rewrite Ep|].
  intros pool Hpool'. repeat wp_step. cbn [fst snd]. unfold added. rewrite Ed.
  exists (x :: ns_nominations top ++ kept bottom). split_and!; [|by apply displaced_bag|done].
  eapply (relisted_intro _ _ _ _ _ _ (mkNominations (insert_fcfs x t) _) bottom'); try done; try apply Hc.
  - split; fields; [apply lookup_insert_eq|]. rewrite Eb. apply lookup_insert_eq.
  - by destruct (head (dropped bottom)).
  - by destruct (head (dropped bottom)).
  - pose proof (m_count _ _ _ Hm) as Hmc.
    destruct (dropped bottom) as [|k l] eqn:Edb; cbn [head fmap option_fmap option_map];
      split; unfold top_data, reset_bottom_data; fields; try done; cbn [ns_total];
      try (rewrite u128_add_small; lia);
      rewrite Hmc; unfold count in *; cbn [ns_nominations];
      rewrite Eb', !len_insert, E in *; rewrite length_app in *; cbn [length] in *.
    + pose proof (proj1 Hnil eq_refl). rewrite u32_add_small; lia.
    + pose proof (dropped_one ltac:(by rewrite Edb)) as H1'. rewrite Edb in H1'. cbn in H1'. lia.
  - cbn [ns_nominations]. rewrite Eb'. apply ordered_add_top; try done.
    + unfold count in Hl. rewrite E, length_app in Hl. cbn in Hl. lia.
    + rewrite E in Hfresh. rewrite !fresh_app in Hfresh. destruct Hfresh as [[Hf1 Hf2] _].
      apply fresh_app. split; [done|]. unfold fresh. rewrite insert_fcfs_perm.
      cbn. rewrite not_elem_of_cons. split; [|done]. unfold fresh in Hf2. set_solver.
    + intros z. rewrite insert_fcfs_perm, elem_of_cons. intros [->|Hz]; [lia|].
      pose proof (o_order _ _ Ho y z) as Hyz. rewrite E in *. specialize (Hsub z Hz).
      assert (b_amount z <= b_amount y); [|lia]. apply Hyz; set_solver.
  - intros _. cbn [ns_nominations]. rewrite len_insert. unfold count in Hl.
    rewrite E, length_app in Hl. cbn in Hl. lia.
  - cbn [ns_total ns_nominations]. rewrite insert_fcfs_perm, zsum_amounts_cons. lia.
  - rewrite zsum_amounts_cons, zsum_amounts_app. lia.
  - unfold bonds. cbn [ns_nominations]. rewrite Eb', insert_app_l, insert_app_r, E.
    rewrite <- app_assoc. cbn. by rewrite <- Permutation_middle.
Qed.

(** The bond is admitted unless both lists are full and it is not above the
    lowest of the bottom. *)
Definition admitted : Prop :=
  count top = MaxTopNominationsPerCandidate ->
  count bottom = MaxBottomNominationsPerCandidate ->
  lowest_nomination_amount bottom < b_amount x.

Lemma add_nomination_runs :
  admitted ->
  runs (add_nomination c candidate x) s
    (fun r => added sync candidate c top bottom x r.1 r.2.2).
Proof.
  intros Hadm. open_inv Hi. pose proof (top_capacity_full top) as Hcap.
  rewrite <- (m_top_capacity _ _ _ Hm) in Hcap.
  pose proof (o_top_len _ _ Ho) as Htl.
  destruct (Z.le_gt_cases MaxTopNominationsPerCandidate (count top)) as [Hle|Hlt].
  - assert (count top = MaxTopNominationsPerCandidate) as Hl by (unfold count in *; lia).
    destruct (added_bag Hl) as (Ed & _).
    unfold add_nomination. rewrite (proj2 Hcap) by done.
    rewrite (m_lowest_top _ _ _ Hm).
    destruct (Z.ltb_spec (lowest_nomination_amount top) (b_amount x)) as [Hx'|Hx'].
    + apply runs_bind. eapply runs_mono; [by apply add_top_bump|]. intros [c' l] s' Ha. by wp_step.
    + pose proof less_dropped as Hless. wp_step.
      assert (runs (if decide (c_bottom_capacity c = CapFull)
        then do* ensure (c_lowest_bottom_nomination_amount c <? b_amount x)
                   (Staking CannotNominateLessThanLowestBottomWhenBottomIsFull) in
             ret (Some (c_lowest_bottom_nomination_amount c))
        else ret None) s (fun l s' => l = b_amount <$> head (dropped bottom) /\ s' = s)) as Hr.
      { case_decide as Hd; repeat wp_step; try done.
        rewrite (m_bottom_capacity _ _ _ Hm), bottom_capacity_full in Hd.
        rewrite (m_lowest_bottom _ _ _ Hm). apply Z.ltb_lt, Hadm; [done|].
        pose proof (o_bottom_len _ _ Ho). unfold count in *. lia. }
      eapply runs_mono; [exact Hr|]. intros l s' [-> ->]. wp_step.
      eapply runs_mono; [by apply add_bottom_case|]. intros c' s' Ha. wp_step. cbn [fst snd].
      by rewrite <- Ed.
  - unfold add_nomination. assert (c_top_capacity c <> CapFull) by (intros ?%Hcap; lia).
    assert (runs (let* ' (c', _) := add_top_nomination c candidate x in
      ret (c', (AddedToTop (c_voting_power c'), None))) s
      (fun r => added sync candidate c top bottom x r.1 r.2.2)) as Hr.
    { apply runs_bind. eapply runs_mono; [by apply add_top_room|]. intros [c' l] s' Ha. wp_step.
      destruct Ha as (k & Hr & Hp & _). exists k. split_and!; [done..|].
      unfold displaced. rewrite (proj2 (Z.eqb_neq _ _)) by lia. done. }
    by destruct (c_top_capacity c).
Qed.
End Addition.
