(* ===== verification/CandidateChange.v ===== *)
(** * Candidates: increasing and decreasing a nomination *)

From S2P Require Import Prelude Logic Errors Primitives StakingTypes Nominations Nominator Candidate CandidateInv CandidateOpsProofs CandidateProps.
Local Open Scope Z_scope.
Local Open Scope frame_scope.

Section Change.
Context `{Config} `{!NominationBounds}.
Implicit Types l : list Bond.

(** The bag after the bond of [n] becomes [a']. *)
Definition with_bond (n : AccountId) (a' : Z) (l : list Bond) : list Bond :=
  mkBond n a' :: bonds_of_others n l.

Lemma with_bond_top n a' sync c top bottom a :
  candidate_ok sync c top bottom -> mkBond n a ∈ ns_nominations top ->
  with_bond n a' (bonds top bottom) = with_bond n a' (ns_nominations top) ++ ns_nominations bottom.
Proof.
  intros Hc Hn. unfold with_bond, bonds. rewrite others_app.
  by rewrite (others_fresh n (ns_nominations bottom)) by by eapply ok_fresh_bottom.
Qed.
Lemma with_bond_bottom n a' sync c top bottom a :
  candidate_ok sync c top bottom -> mkBond n a ∈ ns_nominations bottom ->
  with_bond n a' (bonds top bottom) ≡ₚ ns_nominations top ++ with_bond n a' (ns_nominations bottom).
Proof.
  intros Hc Hn. unfold with_bond, bonds. rewrite others_app.
  rewrite (others_fresh n (ns_nominations top)) by by eapply ok_fresh_top.
  apply Permutation_middle.
Qed.
Lemma with_bond_sum n a a' l : NoDup (b_owner <$> l) -> mkBond n a ∈ l ->
  zsum (amounts (with_bond n a' l)) = zsum (amounts l) - a + a'.
Proof. intros Hn Hin. unfold with_bond. rewrite (sum_taken n a l Hn Hin), zsum_amounts_cons. cbn. lia. Qed.
Lemma with_bond_len n a a' l : NoDup (b_owner <$> l) -> mkBond n a ∈ l ->
  len (with_bond n a' l) = len l.
Proof. intros Hn Hin. unfold with_bond. rewrite (len_taken n a l Hn Hin). cbn. lia. Qed.

(** A bond changed in place, and the list sorted again. *)
Lemma sort_changed n f a a' l t :
  NoDup (b_owner <$> l) -> mkBond n a ∈ l -> f a = a' ->
  exists l', sort_greatest_to_least (mkNominations (map_bonds_of n f l) t) = mkNominations l' t /\
    l' ≡ₚ with_bond n a' l /\ descending l'.
Proof.
  intros Hn Hin <-. unfold sort_greatest_to_least. cbn [ns_nominations ns_total].
  eexists. split; [done|]. split; [|apply sort_descending].
  rewrite stable_sort_perm. by apply map_bonds_perm.
Qed.

Context (sync : bool) (s : Storage) (candidate : AccountId) (c : CandidateMetadata).
Context (top bottom : Nominations) (n : AccountId) (a : Z).
Context (Hi : candidate_inv sync s candidate c top bottom).

(** The top list after the bond of [n] is changed in place. *)
Lemma relist_top a' top' pool (k : Z -> Z) :
  mkBond n a ∈ ns_nominations top -> 0 <= a' ->
  c_bond c + zsum (amounts (with_bond n a' (bonds top bottom))) < u128_modulus ->
  (forall y, y ∈ ns_nominations bottom -> b_amount y <= a') ->
  ns_nominations top' ≡ₚ with_bond n a' (ns_nominations top) ->
  descending (ns_nominations top') ->
  ns_total top' = zsum (amounts (ns_nominations top')) ->
  pool_ok (s <| CandidatePool := pool |>) candidate (top_data c top') ->
  relisted sync candidate c (with_bond n a' (bonds top bottom)) (top_data c top')
    (s <| CandidatePool := pool |> <| TopNominations ::= <[candidate := top']> |>).
Proof.
  intros Hn Ha Hbnd Hy Hp Hd Ht Hpool'. open_inv Hi. sums Hc.
  pose proof (ok_top_owners _ _ _ _ Hc) as Hnd.
  pose proof (with_bond_top n a' _ _ _ _ _ Hc Hn) as Hw. rewrite Hw, zsum_amounts_app in Hbnd.
  pose proof (with_bond_len n a a' _ Hnd Hn) as Hlen.
  assert (0 <= zsum (amounts (with_bond n a' (ns_nominations top)))).
  { rewrite with_bond_sum with (a := a) by done.
    pose proof (sum_taken n a _ Hnd Hn). pose proof (others_sum_le n _ (ok_nonneg_top _ _ _ _ Hc)). lia. }
  rewrite Hw. eapply (relisted_intro _ _ _ _ _ _ top' bottom); try done; try apply Hc.
  - split; fields; [apply lookup_insert_eq|done].
  - split; unfold top_data; fields; try apply Hm; try done.
    + rewrite u128_add_small; [done|]. rewrite Ht, Hp. lia.
    + rewrite (m_count _ _ _ Hm). unfold count. by rewrite Hp, Hlen.
  - by apply (ordered_change_top n a a' (ns_nominations top)).
  - intros Hb. rewrite Hp, Hlen. by apply (k_spill _ _ _ _ Hc).
  - rewrite zsum_amounts_app. lia.
  - unfold bonds. by rewrite Hp.
Qed.

Lemma increase_top_runs more :
  mkBond n a ∈ ns_nominations top -> 0 <= more ->
  c_bond c + zsum (amounts (with_bond n (a + more) (bonds top bottom))) < u128_modulus ->
  runs (increase_top_nomination c candidate n more) s
    (fun r => relisted sync candidate c (with_bond n (a + more) (bonds top bottom)) r.1).
Proof.
  intros Hn Hmore Hbnd. open_inv Hi. sums Hc.
  pose proof (ok_top_owners _ _ _ _ Hc) as Hnd.
  destruct (taken_amount_some n _ a Hnd Hn) as (_ & _ & _ & _ & Hhas).
  pose proof (ok_nonneg _ _ _ _ Hc (mkBond n a) ltac:(unfold bonds; set_solver)) as Ha. cbn in Ha.
  pose proof (with_bond_top n (a + more) _ _ _ _ _ Hc Hn) as Hw.
  pose proof (with_bond_sum n a (a + more) _ Hnd Hn) as Hs.
  pose proof Hbnd as Hbnd'. rewrite Hw, zsum_amounts_app in Hbnd'.
  pose proof (sum_taken n a _ Hnd Hn). pose proof (others_sum_le n _ (ok_nonneg_top _ _ _ _ Hc)).
  unfold increase_top_nomination, get, mutate. repeat wp_step.
  destruct (sort_changed n (fun a => u128_sat_add a more) a (a + more) (ns_nominations top)
    (u128_sat_add (ns_total top) more) Hnd Hn) as (l' & E & Hp & Hd).
  { apply u128_sat_add_small. lia. }
  rewrite E. apply runs_reset_top_data; [done|]. intros pool Hpool'. repeat wp_step. cbn [fst].
  apply relist_top; try done; [lia| |].
  - intros y Hy. pose proof (o_order _ _ Ho _ y Hn Hy) as Hle. cbn in Hle. lia.
  - cbn [ns_total ns_nominations]. rewrite Hp, Hs, (k_top_total _ _ _ _ Hc), u128_sat_add_small; lia.
Qed.

Lemma increase_top_dne more :
  fresh n (ns_nominations top) ->
  increase_top_nomination c candidate n more s = (Fail (Staking NominationDNE), s).
Proof.
  intros Hf. open_inv Hi. unfold increase_top_nomination, get, bind, gets. rewrite Htop. cbn.
  by rewrite (proj2 (proj2 (taken_amount_none n _ Hf))).
Qed.

(** The bottom list after the bond of [n] is changed in place. *)
Lemma relist_bottom sync' a' bottom' :
  mkBond n a ∈ ns_nominations bottom -> 0 <= a' ->
  c_bond c + zsum (amounts (with_bond n a' (bonds top bottom))) < u128_modulus ->
  (forall y, y ∈ ns_nominations top -> a' <= b_amount y) ->
  ns_nominations bottom' ≡ₚ with_bond n a' (ns_nominations bottom) ->
  descending (ns_nominations bottom') ->
  (sync' = true -> ns_total bottom' = zsum (amounts (ns_nominations bottom'))) ->
  relisted sync' candidate c (with_bond n a' (bonds top bottom)) (reset_bottom_data c bottom')
    (s <| BottomNominations ::= <[candidate := bottom']> |>).
Proof.
  intros Hn Ha Hbnd Hy Hp Hd Ht. open_inv Hi.
  pose proof (ok_bottom_owners _ _ _ _ Hc) as Hnd.
  pose proof (with_bond_bottom n a' _ _ _ _ _ Hc Hn) as Hw.
  pose proof (with_bond_len n a a' _ Hnd Hn) as Hlen.
  eapply (relisted_intro _ _ _ _ _ _ top bottom'); try done; try apply Hc.
  - split; fields; [done|apply lookup_insert_eq].
  - split; unfold reset_bottom_data; fields; try apply Hm; try done.
    rewrite (m_count _ _ _ Hm). unfold count. by rewrite Hp, Hlen.
  - by apply (ordered_change_bottom n a a' _ (ns_nominations bottom)).
  - intros _. apply (k_spill _ _ _ _ Hc). intros E. rewrite E in Hn. by apply not_elem_of_nil in Hn.
  - unfold bonds. by rewrite Hp, <- Hw.
Qed.

Lemma decrease_bottom_runs less :
  mkBond n a ∈ ns_nominations bottom -> 0 <= less <= a ->
  runs (decrease_bottom_nomination c candidate n less) s
    (fun r => relisted false candidate c (with_bond n (a - less) (bonds top bottom)) r.1).
Proof.
  intros Hn Hless. open_inv Hi. sums Hc.
  pose proof (ok_bottom_owners _ _ _ _ Hc) as Hnd.
  destruct (taken_amount_some n _ a Hnd Hn) as (_ & _ & _ & _ & Hhas).
  unfold decrease_bottom_nomination, get, mutate. repeat wp_step.
  destruct (sort_changed n (fun a => sat_sub a less) a (a - less) (ns_nominations bottom)
    (ns_total bottom) Hnd Hn) as (l' & E & Hp & Hd).
  { apply sat_sub_small. lia. }
  rewrite E. cbn [fst]. apply relist_bottom; try done; [lia| |].
  - rewrite (with_bond_bottom n (a - less) _ _ _ _ _ Hc Hn), zsum_amounts_app,
      (with_bond_sum n a (a - less) _ Hnd Hn). lia.
  - intros y Hy. pose proof (o_order _ _ Ho y _ Hy Hn) as Hle. cbn in Hle. lia.
Qed.

(** A bottom bond that grows past the lowest of the top takes its place. *)
Lemma relist_up x y t top' bottom' pool :
  ns_nominations top = t ++ [y] -> mkBond n a ∈ ns_nominations bottom ->
  b_amount y < x ->
  c_bond c + zsum (amounts (with_bond n x (bonds top bottom))) < u128_modulus ->
  ns_nominations top' = insert_fcfs (mkBond n x) t ->
  ns_nominations bottom' = insert_fcfs y (bonds_of_others n (ns_nominations bottom)) ->
  ns_total top' = zsum (amounts (ns_nominations top')) ->
  (sync = true -> ns_total bottom' = zsum (amounts (ns_nominations bottom'))) ->
  pool_ok (s <| CandidatePool := pool |>) candidate (top_data c top') ->
  relisted sync candidate c (with_bond n x (bonds top bottom))
    (reset_bottom_data (top_data c top') bottom')
    (s <| CandidatePool := pool |> <| TopNominations ::= <[candidate := top']> |>
       <| BottomNominations ::= <[candidate := bottom']> |>).
Proof.
  intros E Hn Hx Hbnd Et Eb Ht Hb Hpool'. open_inv Hi. sums Hc.
  pose proof (ok_bottom_owners _ _ _ _ Hc) as Hnd.
  pose proof (with_bond_bottom n x _ _ _ _ _ Hc Hn) as Hw.
  pose proof (len_taken n a _ Hnd Hn) as Hlen. pose proof (o_bottom_len _ _ Ho) as Hbl.
  pose proof (ordered_others_bottom n _ _ Ho) as Ho1. rewrite E in Ho1.
  pose proof (ordered_move_down y t _ Ho1 ltac:(lia)) as Ho2.
  assert (len (ns_nominations top) = MaxTopNominationsPerCandidate) as Hfull.
  { apply (k_spill _ _ _ _ Hc). intros En. rewrite En in Hn. by apply not_elem_of_nil in Hn. }
  pose proof Hfull as Hfull'. rewrite E, length_app in Hfull'. cbn [length] in Hfull'.
  pose proof (ok_nonneg_top _ _ _ _ Hc) as Hnt. rewrite E in Hnt. apply Forall_app in Hnt as [Hnt Hny].
  apply Forall_inv in Hny. pose proof (amounts_nonneg _ Hnt) as Hst.
  pose proof (others_sum_le n _ (ok_nonneg_bottom _ _ _ _ Hc)) as Hob.
  pose proof Hbnd as Hbnd'. rewrite Hw, E, !zsum_amounts_app, (with_bond_sum n a x _ Hnd Hn),
    (sum_taken n a _ Hnd Hn), !zsum_amounts_cons in Hbnd'. cbn [amounts fmap list_fmap zsum foldr] in Hbnd'.
  eapply (relisted_intro _ _ _ _ _ _ top' bottom'); try done; try apply Hc.
  - split; fields; apply lookup_insert_eq.
  - split; unfold reset_bottom_data, top_data; fields; try done.
    + rewrite u128_add_small; [done|]. rewrite Ht, Et, insert_fcfs_perm, zsum_amounts_cons. cbn. lia.
    + rewrite (m_count _ _ _ Hm). unfold count. rewrite Et, Eb, !len_insert. lia.
  - rewrite Et, Eb. apply ordered_add_top; try done; cbn; [lia|lia| |].
    + rewrite fresh_app. split.
      * pose proof (ok_fresh_top _ _ _ _ Hc n a Hn) as Hf. rewrite E, fresh_app in Hf. tauto.
      * unfold fresh. rewrite insert_fcfs_perm. cbn. rewrite not_elem_of_cons.
        split; [|apply fresh_others]. intros ->.
        eapply (ok_disjoint _ _ _ _ Hc y (mkBond (b_owner y) a)); [rewrite E; set_solver|done..].
    + intros z. rewrite insert_fcfs_perm, elem_of_cons. intros [->|Hz]; [lia|].
      pose proof (o_order _ _ Ho1 y z ltac:(set_solver) Hz). lia.
  - intros _. rewrite Et, len_insert. lia.
  - unfold bonds. rewrite Et, Eb, insert_app_l, insert_app_r. rewrite Hw, E. unfold with_bond.
    rewrite <- Permutation_middle. f_equiv. by rewrite <- Permutation_cons_append.
Qed.

(** A top bond that falls below the highest of the bottom changes places with
    it. *)
Lemma relist_down x h b top' bottom' pool :
  ns_nominations bottom = h :: b -> mkBond n a ∈ ns_nominations top ->
  0 <= x < b_amount h ->
  c_bond c + zsum (amounts (with_bond n x (bonds top bottom))) < u128_modulus ->
  ns_nominations top' = insert_fcfs h (bonds_of_others n (ns_nominations top)) ->
  ns_nominations bottom' = insert_fcfs (mkBond n x) b ->
  ns_total top' = zsum (amounts (ns_nominations top')) ->
  (sync = true -> ns_total bottom' = zsum (amounts (ns_nominations bottom'))) ->
  pool_ok (s <| CandidatePool := pool |>) candidate (top_data c top') ->
  relisted sync candidate c (with_bond n x (bonds top bottom))
    (top_data (reset_bottom_data c bottom') top')
    (s <| BottomNominations ::= <[candidate := bottom']> |> <| CandidatePool := pool |>
       <| TopNominations ::= <[candidate := top']> |>).
Proof.
  intros E Hn Hx Hbnd Et Eb Ht Hb Hpool'. open_inv Hi. sums Hc.
  pose proof (ok_top_owners _ _ _ _ Hc) as Hnd.
  pose proof (with_bond_top n x _ _ _ _ _ Hc Hn) as Hw.
  pose proof (len_taken n a _ Hnd Hn) as Hlen. pose proof (o_top_len _ _ Ho) as Htl.
  pose proof (o_bottom_len _ _ Ho) as Hbl.
  pose proof (ordered_others_top n _ _ Ho) as Ho1. rewrite E in Ho1, Hbl. cbn [length] in Hbl.
  pose proof (ordered_move_up h _ b Ho1 ltac:(lia)) as Ho2.
  assert (len (ns_nominations top) = MaxTopNominationsPerCandidate) as Hfull.
  { apply (k_spill _ _ _ _ Hc). by rewrite E. }
  pose proof (ok_nonneg_bottom _ _ _ _ Hc) as Hnb. rewrite E in Hnb.
  apply Forall_cons in Hnb as [Hnh Hnb]. pose proof (amounts_nonneg _ Hnb) as Hsb.
  pose proof (others_sum_le n _ (ok_nonneg_top _ _ _ _ Hc)) as Hot.
  pose proof Hbnd as Hbnd'. rewrite Hw, E, !zsum_amounts_app, (with_bond_sum n a x _ Hnd Hn),
    (sum_taken n a _ Hnd Hn), !zsum_amounts_cons in Hbnd'.
  eapply (relisted_intro _ _ _ _ _ _ top' bottom'); try done; try apply Hc.
  - split; fields; apply lookup_insert_eq.
  - split; unfold reset_bottom_data, top_data; fields; try done.
    + rewrite u128_add_small; [done|]. rewrite Ht, Et, insert_fcfs_perm, zsum_amounts_cons. lia.
    + rewrite (m_count _ _ _ Hm). unfold count. rewrite Et, Eb, E, !len_insert. cbn [length]. lia.
  - rewrite Et, Eb. apply ordered_add_bottom; try done; cbn; [lia|lia| |].
    + rewrite fresh_app. split.
      * unfold fresh. rewrite insert_fcfs_perm. cbn. rewrite not_elem_of_cons.
        split; [|apply fresh_others]. intros ->.
        eapply (ok_disjoint _ _ _ _ Hc (mkBond (b_owner h) a) h); [done|rewrite E; set_solver|done].
      * pose proof (ok_fresh_bottom _ _ _ _ Hc n a Hn) as Hf. rewrite E in Hf.
        by apply not_elem_of_cons in Hf as [_ ?].
    + intros z. rewrite insert_fcfs_perm, elem_of_cons. intros [->|Hz]; [lia|].
      pose proof (o_order _ _ Ho1 z h Hz ltac:(set_solver)). lia.
  - intros _. rewrite Et, len_insert. lia.
  - rewrite Hw. unfold bonds. rewrite Et, Eb, insert_app_l, insert_app_r, E. unfold with_bond.
    cbn. rewrite <- Permutation_middle. apply Permutation_swap.
Qed.

Lemma increase_bottom_runs more :
  mkBond n a ∈ ns_nominations bottom -> 0 <= more ->
  c_bond c + zsum (amounts (with_bond n (a + more) (bonds top bottom))) < u128_modulus ->
  runs (increase_bottom_nomination c candidate n a more) s
    (fun r => relisted sync candidate c (with_bond n (a + more) (bonds top bottom)) r.1).
Proof.
  intros Hn Hmore Hbnd. open_inv Hi. sums Hc.
  pose proof (ok_bottom_owners _ _ _ _ Hc) as Hnd.
  destruct (taken_amount_some n _ a Hnd Hn) as (Htk & _ & _ & _ & Hhas).
  pose proof (ok_nonneg _ _ _ _ Hc (mkBond n a) ltac:(unfold bonds; set_solver)) as Ha. cbn in Ha.
  pose proof (others_sum_le n _ (ok_nonneg_bottom _ _ _ _ Hc)) as Hob.
  pose proof (sum_taken n a _ Hnd Hn) as Hsum.
  pose proof Hbnd as Hbnd'.
  rewrite (with_bond_bottom n _ _ _ _ _ _ Hc Hn), zsum_amounts_app, (with_bond_sum n a _ _ Hnd Hn) in Hbnd'.
  assert (len (ns_nominations top) = MaxTopNominationsPerCandidate) as Hfull.
  { apply (k_spill _ _ _ _ Hc). intros En. rewrite En in Hn. by apply not_elem_of_nil in Hn. }
  pose proof max_top_pos.
  destruct (nonempty_snoc (ns_nominations top)) as (t & y & E).
  { intros En. rewrite En in Hfull. cbn in Hfull. lia. }
  unfold increase_bottom_nomination, get, mutate. repeat wp_step.
  rewrite (m_lowest_top _ _ _ Hm), (lowest_last top y t E), u128_sat_add_small by lia.
  destruct (Z.ltb_spec (b_amount y) (a + more)) as [Hlt|Hge].
  - repeat wp_step. rewrite decide_True by (apply top_capacity_full; unfold count; lia).
    rewrite E. wp_step. wp_step; [apply pop_snoc|]. cbv beta iota. repeat wp_step.
    pose proof (ok_nonneg_top _ _ _ _ Hc) as Hnt. rewrite E in Hnt. apply Forall_app in Hnt as [Hnt Hny].
    apply Forall_inv in Hny. pose proof (amounts_nonneg _ Hnt) as Hst.
    pose proof (k_top_total _ _ _ _ Hc) as Htt. rewrite E, zsum_amounts_app, zsum_amounts_cons in Htt, Hbnd'.
    cbn [amounts fmap list_fmap zsum foldr] in Htt, Hbnd'.
    rewrite (u128_sat_add_small a more), sat_sub_small, Htt by lia.
    rewrite insert_sorted_mk; [|eapply descending_app_l; rewrite <- E; apply Ho|cbn; lia].
    rewrite insert_sorted_eta by (apply StronglySorted_filter, Ho). cbn [ns_total ns_nominations].
    apply runs_reset_top_data; [done|]. intros pool Hpool'. repeat wp_step. cbn [fst].
    eapply relist_up; try done; cbn [ns_total ns_nominations].
    + rewrite insert_fcfs_perm, zsum_amounts_cons. cbn. lia.
    + intros Hsy. rewrite insert_fcfs_perm, zsum_amounts_cons.
      rewrite (k_bottom_total _ _ _ _ Hc Hsy), sat_sub_small, u128_sat_add_small; lia.
  - repeat wp_step.
    destruct (sort_changed n (fun a => u128_sat_add a more) a (a + more) (ns_nominations bottom)
      (u128_sat_add (ns_total bottom) more) Hnd Hn) as (l' & El & Hp & Hd).
    { apply u128_sat_add_small. lia. }
    rewrite El. cbn [fst]. apply relist_bottom; try done; [lia| |].
    + intros z Hz. rewrite E in Hz. pose proof (o_top _ _ Ho) as Hdt. rewrite E in Hdt.
      pose proof (descending_last t y z Hdt Hz). lia.
    + intros Hsy. cbn [ns_total ns_nominations]. rewrite Hp, (with_bond_sum n a _ _ Hnd Hn),
        (k_bottom_total _ _ _ _ Hc Hsy), u128_sat_add_small; lia.
Qed.

Lemma decrease_top_runs less :
  mkBond n a ∈ ns_nominations top -> 0 <= less <= a ->
  runs (decrease_top_nomination c candidate n a less) s
    (fun r => relisted sync candidate c (with_bond n (a - less) (bonds top bottom)) r.1).
Proof.
  intros Hn Hless. open_inv Hi. sums Hc.
  pose proof (ok_top_owners _ _ _ _ Hc) as Hnd.
  destruct (taken_amount_some n _ a Hnd Hn) as (Htk & Hof & _ & _ & Hhas).
  pose proof (others_sum_le n _ (ok_nonneg_top _ _ _ _ Hc)) as Hot.
  pose proof (sum_taken n a _ Hnd Hn) as Hsum. pose proof (k_top_total _ _ _ _ Hc) as Htt.
  pose proof (with_bond_top n (a - less) _ _ _ _ _ Hc Hn) as Hw.
  pose proof (with_bond_sum n a (a - less) _ Hnd Hn) as Hs.
  assert (c_bond c + zsum (amounts (with_bond n (a - less) (bonds top bottom))) < u128_modulus)
    as Hbnd by (rewrite Hw, zsum_amounts_app; lia).
  unfold decrease_top_nomination, get, mutate. repeat wp_step.
  rewrite (m_highest_bottom _ _ _ Hm), (sat_sub_small a less) by lia.
  destruct ((_ <? _) && _) eqn:Econd.
  - apply andb_true_iff in Econd as [Hlt Hcap]. apply Z.ltb_lt in Hlt.
    apply andb_true_iff in Hcap as [_ Hcap]. apply negb_true_iff, bool_decide_eq_false in Hcap.
    rewrite (m_bottom_capacity _ _ _ Hm), bottom_capacity_empty in Hcap.
    unfold highest_nomination_amount in Hlt.
    destruct (ns_nominations bottom) as [|h b] eqn:E; [done|]. cbn in Hlt.
    rewrite Hof. cbn [last fmap option_fmap option_map]. repeat wp_step.
    rewrite E. unfold remove_first. repeat wp_step.
    pose proof (ok_nonneg_bottom _ _ _ _ Hc) as Hnb. rewrite E in Hnb.
    apply Forall_cons in Hnb as [Hnh Hnb]. apply amounts_nonneg in Hnb as Hsb.
    rewrite zsum_amounts_cons in *. cbn [fold_left b_amount].
    rewrite Htt, (sat_sub_small (zsum (amounts (ns_nominations top))) a), (sat_sub_small a less) by lia.
    pose proof (o_bottom _ _ Ho) as Hd. apply descending_cons in Hd.
    rewrite (insert_sorted_mk (bonds_of_others n (ns_nominations top)));
      [|apply StronglySorted_filter, Ho|lia].
    rewrite insert_sorted_eta by done. cbn [ns_total ns_nominations].
    apply runs_reset_top_data; [done|]. intros pool Hpool'. repeat wp_step. cbn [fst].
    eapply (relist_down _ h b); try done; try lia; cbn [ns_total ns_nominations].
    + rewrite insert_fcfs_perm, zsum_amounts_cons. lia.
    + intros Hsy. rewrite insert_fcfs_perm, zsum_amounts_cons. cbn [b_amount].
      rewrite (k_bottom_total _ _ _ _ Hc Hsy), E, zsum_amounts_cons, sat_sub_small, u128_sat_add_small; lia.
  - repeat wp_step.
    destruct (sort_changed n (fun a => sat_sub a less) a (a - less) (ns_nominations top)
      (sat_sub (ns_total top) less) Hnd Hn) as (l' & El & Hp & Hd).
    { apply sat_sub_small. lia. }
    rewrite El. apply runs_reset_top_data; [done|]. intros pool Hpool'. repeat wp_step. cbn [fst].
    apply relist_top; try done; [lia| |].
    + intros y Hy. pose proof (highest_ge bottom y (o_bottom _ _ Ho) Hy) as Hh.
      destruct (Z.ltb_spec (a - less) (highest_nomination_amount bottom)) as [Hlt|]; [|lia].
      assert (ns_nominations bottom <> []) as Hnb by (intros E; by rewrite E in Hy; apply not_elem_of_nil in Hy).
      rewrite (m_top_capacity _ _ _ Hm), (m_bottom_capacity _ _ _ Hm) in Econd. cbn [andb] in Econd.
      rewrite bool_decide_true, bool_decide_false in Econd; [done| |].
      * by intros ?%bottom_capacity_empty.
      * apply top_capacity_full. unfold count. rewrite (k_spill _ _ _ _ Hc Hnb). lia.
    + cbn [ns_total ns_nominations]. rewrite Hp, Hs, Htt, sat_sub_small; lia.
Qed.

Lemma decrease_top_dne less :
  fresh n (ns_nominations top) ->
  decrease_top_nomination c candidate n a less s = (Fail (Staking NominationDNE), s).
Proof.
  intros Hf. open_inv Hi. destruct (taken_amount_none n _ Hf) as (_ & E1 & E2).
  unfold decrease_top_nomination, get, bind, gets. rewrite Htop. cbn. rewrite E1, E2.
  by destruct (_ && _).
Qed.

Lemma increase_nomination_runs more :
  mkBond n a ∈ bonds top bottom -> 0 <= more ->
  c_bond c + zsum (amounts (with_bond n (a + more) (bonds top bottom))) < u128_modulus ->
  runs (increase_nomination c candidate n a more) s
    (fun r => relisted sync candidate c (with_bond n (a + more) (bonds top bottom)) r.1).
Proof.
  intros Hn Hmore Hbnd. open_inv Hi. unfold increase_nomination.
  destruct (Z.leb_spec (c_lowest_top_nomination_amount c) a) as [Hle|Hlt]; cbn [andb];
    [|apply increase_bottom_runs; [|done..]; by eapply bond_in_bottom].
  destruct (Z.eqb_spec (c_lowest_top_nomination_amount c) (c_highest_bottom_nomination_amount c))
    as [Heq|Hne]; cbn [negb]; [|apply increase_top_runs; [|done..]; by eapply bond_in_top].
  apply elem_of_app in Hn as [Ht|Hb].
  - by apply runs_or_else_first, increase_top_runs.
  - apply runs_or_else_second; [|by apply increase_bottom_runs].
    apply increase_top_dne. by eapply ok_fresh_top.
Qed.

(** The bottom total is known after the call only if the bond was in the top
    list. *)
Lemma decrease_nomination_runs less :
  mkBond n a ∈ bonds top bottom -> 0 <= less <= a ->
  runs (decrease_nomination c candidate n a less) s
    (fun r => relisted (sync && bool_decide (mkBond n a ∈ ns_nominations top)) candidate c
                (with_bond n (a - less) (bonds top bottom)) r.1).
Proof.
  intros Hn Hless. open_inv Hi. unfold decrease_nomination.
  assert (mkBond n a ∈ ns_nominations top ->
    runs (decrease_top_nomination c candidate n a less) s
    (fun r => relisted (sync && bool_decide (mkBond n a ∈ ns_nominations top)) candidate c
                (with_bond n (a - less) (bonds top bottom)) r.1)) as Htr.
  { intros Ht. rewrite bool_decide_true, andb_true_r by done. by apply decrease_top_runs. }
  assert (mkBond n a ∈ ns_nominations bottom ->
    runs (decrease_bottom_nomination c candidate n less) s
    (fun r => relisted (sync && bool_decide (mkBond n a ∈ ns_nominations top)) candidate c
                (with_bond n (a - less) (bonds top bottom)) r.1)) as Hbr.
  { intros Hb. rewrite bool_decide_false, andb_false_r; [by apply decrease_bottom_runs|].
    intros Ht. by apply (ok_disjoint _ _ _ _ Hc _ _ Ht Hb). }
  destruct (Z.leb_spec (c_lowest_top_nomination_amount c) a) as [Hle|Hlt]; cbn [andb];
    [|apply Hbr; by eapply bond_in_bottom].
  destruct (Z.eqb_spec (c_lowest_top_nomination_amount c) (c_highest_bottom_nomination_amount c))
    as [Heq|Hne]; cbn [negb]; [|apply Htr; by eapply bond_in_top].
  apply elem_of_app in Hn as [Ht|Hb].
  - by apply runs_or_else_first, Htr.
  - apply runs_or_else_second; [|by apply Hbr].
    apply decrease_top_dne. by eapply ok_fresh_top.
Qed.
End Change.
