(* ===== verification/CandidateTheorems.v ===== *)
(** * Theorems on the nominations of a candidate

    The insertion is first come first served; adding, removing, increasing
    and decreasing a nomination succeed on a bond that is there, keep the
    invariant of the candidate and touch nothing else; decreasing a bottom
    nomination leaves the stored total stale. *)

From S2P Require Import Prelude Logic Errors Primitives StakingTypes BinarySearch Nominations Nominator Candidate NominatorOps StakingImpls StakingCalls CandidateInv CandidateOpsProofs CandidateProps CandidateAdd CandidateChange Instances.
Local Open Scope Z_scope.
Local Open Scope frame_scope.

(** ** A candidate with both lists full *)

(** Candidate 11 with a self-bond of 100 and four nominations. *)
Definition demo : Storage := after [
  join_candidates (SignedOrigin 1%N) 11%N None 100 0;
  nominate (SignedOrigin 21%N) 11%N 20 0 0; nominate (SignedOrigin 22%N) 11%N 30 1 0;
  nominate (SignedOrigin 23%N) 11%N 10 2 0; nominate (SignedOrigin 24%N) 11%N 15 3 0].
Definition demo_top : Nominations := mkNominations [mkBond 22 30; mkBond 21 20] 50.
Definition demo_bottom : Nominations := mkNominations [mkBond 24 15; mkBond 23 10] 25.
Definition demo_candidate : CandidateMetadata :=
  mkCandidateMetadata 1 100 100 4 150 20 15 10 CapFull CapFull None VActive false 50000000 0 0
    1000000000 ProdIdle DstStaked 0 Basic.

#[export] Instance test_bounds : NominationBounds.
Proof. by split. Qed.

Ltac concrete_members :=
  repeat match goal with
  | H : _ ∈ _ :: _ |- _ => apply elem_of_cons in H as [->|H]
  | H : _ ∈ [] |- _ => by apply not_elem_of_nil in H
  end; cbn; lia.

Lemma demo_lookups :
  CandidateInfo demo !! 11%N = Some demo_candidate /\ stored demo 11%N demo_top demo_bottom /\
  pool_ok demo 11%N demo_candidate.
Proof.
  split; [by vm_compute|]. split; [split; by vm_compute|].
  intros v Hv. vm_compute in Hv. by injection Hv as <-.
Qed.
Lemma demo_ok : candidate_ok true demo_candidate demo_top demo_bottom.
Proof.
  split; [split|..]; cbn [demo_top demo_bottom ns_nominations ns_total].
  - repeat constructor; done.
  - repeat constructor; done.
  - by apply (bool_decide_unpack _).
  - repeat constructor; done.
  - done.
  - done.
  - intros x y Hx Hy. concrete_members.
  - intros _. done.
  - done.
  - done.
  - done.
  - done.
  - by split.
Qed.
Lemma demo_inv : candidate_inv true demo 11%N demo_candidate demo_top demo_bottom.
Proof. destruct demo_lookups as (_ & ? & ?). split; [done|]. split; [done|apply demo_ok]. Qed.

Section Theorems.
Context `{Config} `{!NominationBounds}.

(** Insertion into a list sorted from greatest to least, found by the
    binary search of the standard library, is the first-come-first-served
    insertion: the new bond goes after all bonds of at least its amount, the
    list stays sorted, gains exactly that bond, and the total grows by its
    amount, saturating. *)
Theorem insert_sorted_first_come_first_served (ns : Nominations) (x : Bond) :
  descending (ns_nominations ns) ->
  let ns' := insert_sorted_greatest_to_least ns x in
  ns_nominations ns' = insert_fcfs x (ns_nominations ns) /\
  descending (ns_nominations ns') /\
  ns_nominations ns' ≡ₚ x :: ns_nominations ns /\
  ns_total ns' = u128_sat_add (ns_total ns) (b_amount x).
Proof.
  intros Hd. cbn zeta. rewrite insert_sorted_eta by done. cbn [ns_nominations ns_total].
  split_and!; [done|by apply insert_fcfs_descending|apply insert_fcfs_perm|done].
Qed.

(** C34: a new bond admitted on a candidate that satisfies the invariant is
    added: the metadata summarises the new lists, the invariant holds again,
    the bag of bonds gains the bond and loses only the lowest bottom bond, if
    both lists were full, and that amount is the one reported to the
    caller. *)
Theorem add_nomination_keeps_invariant sync s candidate c top bottom (x : Bond) :
  candidate_inv sync s candidate c top bottom ->
  0 <= b_amount x -> fresh (b_owner x) (bonds top bottom) ->
  c_bond c + zsum (amounts (bonds top bottom)) + b_amount x < u128_modulus ->
  (forall k, k ∈ displaced top bottom -> is_Some (NominatorState s !! b_owner k)) ->
  admitted top bottom x ->
  exists c' position less s',
    add_nomination c candidate x s = (Done (c', (position, less)), s') /\
    added sync candidate c top bottom x c' less s'.
Proof.
  intros Hi Hx Hf Hb Hk Ha.
  pose proof (add_nomination_runs sync s candidate c top bottom x Hi Hx Hf Hb Hk Ha) as Hr.
  apply runs_iff in Hr as ([c' [position less]] & s' & Hr & Hadd). by exists c', position, less, s'.
Qed.

(** A bond that is not above the lowest bottom bond when both lists are
    full is refused, and the storage is not touched. *)
Theorem add_nomination_refused sync s candidate c top bottom (x : Bond) :
  candidate_inv sync s candidate c top bottom ->
  ~ admitted top bottom x ->
  b_amount x <= lowest_nomination_amount top ->
  add_nomination c candidate x s =
    (Fail (Staking CannotNominateLessThanLowestBottomWhenBottomIsFull), s).
Proof.
  intros (_ & _ & Hc) Hn Hl. pose proof (k_meta _ _ _ _ Hc) as Hm.
  assert (count top = MaxTopNominationsPerCandidate /\
    count bottom = MaxBottomNominationsPerCandidate /\
    b_amount x <= lowest_nomination_amount bottom) as (Ht & Hb & Hlow).
  { unfold admitted in Hn.
    destruct (decide (count top = MaxTopNominationsPerCandidate)) as [E1|]; [|by destruct Hn].
    destruct (decide (count bottom = MaxBottomNominationsPerCandidate)) as [E2|]; [|by destruct Hn].
    split_and!; [done..|]. apply Z.nlt_ge. intros ?. by apply Hn. }
  unfold add_nomination. rewrite (m_top_capacity _ _ _ Hm), (proj2 (top_capacity_full top)) by lia.
  rewrite (m_lowest_top _ _ _ Hm), (proj2 (Z.ltb_ge _ _)) by done.
  rewrite (m_bottom_capacity _ _ _ Hm), decide_True by (apply bottom_capacity_full; lia).
  unfold bind, ensure. rewrite (m_lowest_bottom _ _ _ Hm), (proj2 (Z.ltb_ge _ _)) by done. done.
Qed.

(** What these operations leave alone: the nominators, the other metadata,
    the total, the balances, and the lists of the other candidates. *)
Definition beside (candidate : AccountId) (s : Storage) :=
  (NominatorState s, CandidateInfo s, Total s, Balances s, Relay s, Offend s, Events s,
   (delete candidate (TopNominations s), delete candidate (BottomNominations s),
    delete candidate (CandidatePool s))).

Lemma beside_top candidate ns :
  preserves (E := DispatchError) (beside candidate)
    (modify (fun s => s <| TopNominations ::= <[candidate := ns]> |>)).
Proof. intros s. cbn. unfold beside. fields. by rewrite delete_insert_eq. Qed.
Lemma beside_bottom candidate ns :
  preserves (E := DispatchError) (beside candidate)
    (modify (fun s => s <| BottomNominations ::= <[candidate := ns]> |>)).
Proof. intros s. cbn. unfold beside. fields. by rewrite delete_insert_eq. Qed.
Lemma beside_pool candidate v : preserves (beside candidate) (update_active candidate v).
Proof.
  intros s. cbn. unfold beside. fields. destruct (CandidatePool s !! candidate); [|done].
  by rewrite delete_insert_eq.
Qed.
#[local] Hint Resolve beside_top beside_bottom beside_pool : frame.

Lemma beside_rm c candidate n a : preserves (beside candidate) (rm_nomination_if_exists c candidate n a).
Proof. frame. Qed.
Lemma beside_increase c candidate n a more :
  preserves (beside candidate) (increase_nomination c candidate n a more).
Proof. frame. Qed.
Lemma beside_decrease c candidate n a less :
  preserves (beside candidate) (decrease_nomination c candidate n a less).
Proof. frame. Qed.

(** The operation returns, leaves the candidate with the bonds [l] and
    touches nothing beside it. *)
Definition leaves_bonds (sync : bool) (candidate : AccountId) (c : CandidateMetadata)
    (l : list Bond) (m : P (CandidateMetadata * bool)) (s : Storage) : Prop :=
  exists c' b s', m s = (Done (c', b), s') /\
    relisted sync candidate c l c' s' /\ beside candidate s' = beside candidate s.

Lemma leaves_bonds_intro sync candidate c l m s :
  runs m s (fun r => relisted sync candidate c l r.1) -> preserves (beside candidate) m ->
  leaves_bonds sync candidate c l m s.
Proof.
  intros ([c' b] & s' & Hm & Hr)%runs_iff Hp. exists c', b, s'. split_and!; [done..|].
  by eapply preserves_done.
Qed.

(** Removing the nomination of a nominator, told by its amount, succeeds
    whichever list holds it: that bond and no other is gone, the head of the
    bottom list fills the place left in the top, the metadata and the pool
    follow, and nothing beside the candidate changes. *)
Theorem rm_nomination_keeps_invariant sync s candidate c top bottom n a :
  candidate_inv sync s candidate c top bottom -> mkBond n a ∈ bonds top bottom ->
  leaves_bonds sync candidate c (bonds_of_others n (bonds top bottom))
    (rm_nomination_if_exists c candidate n a) s.
Proof. intros ??. apply leaves_bonds_intro; [by apply rm_nomination_runs|apply beside_rm]. Qed.

(** Increasing a nomination by [more] succeeds on a bond that is there
    and turns it into the increased bond, in its list or moved to the top in
    exchange for the lowest top bond; the invariant is kept. *)
Theorem increase_nomination_keeps_invariant sync s candidate c top bottom n a more :
  candidate_inv sync s candidate c top bottom -> mkBond n a ∈ bonds top bottom -> 0 <= more ->
  c_bond c + zsum (amounts (with_bond n (a + more) (bonds top bottom))) < u128_modulus ->
  leaves_bonds sync candidate c (with_bond n (a + more) (bonds top bottom))
    (increase_nomination c candidate n a more) s.
Proof. intros. apply leaves_bonds_intro; [by apply increase_nomination_runs|apply beside_increase]. Qed.

(** Decreasing a nomination succeeds on a bond that is there, and keeps
    the invariant; the stored total of the bottom list stays in step only when
    the bond was in the top list. *)
Theorem decrease_nomination_keeps_invariant sync s candidate c top bottom n a less :
  candidate_inv sync s candidate c top bottom -> mkBond n a ∈ bonds top bottom -> 0 <= less <= a ->
  leaves_bonds (sync && bool_decide (mkBond n a ∈ ns_nominations top)) candidate c
    (with_bond n (a - less) (bonds top bottom)) (decrease_nomination c candidate n a less) s.
Proof. intros. apply leaves_bonds_intro; [by apply decrease_nomination_runs|apply beside_decrease]. Qed.

(** After a decrease in the bottom list the stored total exceeds the sum
    of the bonds by the amount of the decrease. *)
Theorem decrease_bottom_total_is_stale s candidate c top bottom n a less :
  candidate_inv true s candidate c top bottom -> mkBond n a ∈ ns_nominations bottom ->
  0 <= less <= a ->
  exists c' s' bottom', decrease_bottom_nomination c candidate n less s = (Done (c', false), s') /\
    BottomNominations s' !! candidate = Some bottom' /\
    ns_total bottom' = zsum (amounts (ns_nominations bottom')) + less.
Proof.
  intros Hi Hn Hless. open_inv Hi.
  pose proof (ok_bottom_owners _ _ _ _ Hc) as Hnd.
  destruct (taken_amount_some n _ a Hnd Hn) as (_ & _ & _ & _ & Hhas).
  destruct (sort_changed n (fun a => sat_sub a less) a (a - less) (ns_nominations bottom)
    (ns_total bottom) Hnd Hn) as (l' & E & Hp & _).
  { apply sat_sub_small. lia. }
  unfold decrease_bottom_nomination, get, mutate, bind, gets, ok_or, ensure. rewrite Hbot. cbn.
  rewrite Hhas. cbn. rewrite E. eexists _, _, _. split; [done|]. fields.
  split; [apply lookup_insert_eq|]. cbn [ns_total ns_nominations].
  rewrite Hp, (with_bond_sum n a _ _ Hnd Hn), (k_bottom_total _ _ _ _ Hc eq_refl). lia.
Qed.
End Theorems.

(** ** Witnesses on the demonstration candidate *)

Lemma insert_sorted_witness :
  ns_nominations (insert_sorted_greatest_to_least demo_bottom (mkBond 25 15)) =
    [mkBond 24 15; mkBond 25 15; mkBond 23 10].
Proof.
  pose proof (insert_sorted_first_come_first_served demo_bottom (mkBond 25 15)
    (o_bottom _ _ (k_ordered _ _ _ _ demo_ok))) as (-> & _).
  reflexivity.
Defined.

Lemma add_nomination_witness : exists c' position less s',
  add_nomination demo_candidate 11%N (mkBond 25 40) demo = (Done (c', (position, less)), s') /\
  added true 11%N demo_candidate demo_top demo_bottom (mkBond 25 40) c' less s'.
Proof.
  apply add_nomination_keeps_invariant; [apply demo_inv|done|..].
  - by apply (bool_decide_unpack _).
  - done.
  - intros k Hk. change (displaced demo_top demo_bottom) with [mkBond 23 10] in Hk.
    apply list_elem_of_singleton in Hk as ->. by apply (bool_decide_unpack _).
  - intros _ _. done.
Defined.

Lemma add_nomination_refused_witness :
  add_nomination demo_candidate 11%N (mkBond 25 10) demo =
    (Fail (Staking CannotNominateLessThanLowestBottomWhenBottomIsFull), demo).
Proof.
  apply (add_nomination_refused true _ _ _ demo_top demo_bottom); [apply demo_inv| |done].
  intros Ha. by specialize (Ha eq_refl eq_refl).
Defined.

Lemma rm_nomination_witness :
  leaves_bonds true 11%N demo_candidate [mkBond 22 30; mkBond 24 15; mkBond 23 10]
    (rm_nomination_if_exists demo_candidate 11%N 21%N 20) demo.
Proof.
  apply (rm_nomination_keeps_invariant true demo 11%N demo_candidate demo_top demo_bottom 21%N 20);
    [apply demo_inv|by apply (bool_decide_unpack _)].
Defined.

Lemma increase_nomination_witness :
  leaves_bonds true 11%N demo_candidate
    (with_bond 23%N 25 (bonds demo_top demo_bottom))
    (increase_nomination demo_candidate 11%N 23%N 10 15) demo.
Proof.
  apply (increase_nomination_keeps_invariant true demo 11%N demo_candidate demo_top demo_bottom);
    [apply demo_inv|by apply (bool_decide_unpack _)|done..].
Defined.

Lemma decrease_nomination_witness :
  leaves_bonds true 11%N demo_candidate
    (with_bond 22%N 12 (bonds demo_top demo_bottom))
    (decrease_nomination demo_candidate 11%N 22%N 30 18) demo.
Proof.
  apply (decrease_nomination_keeps_invariant true demo 11%N demo_candidate demo_top demo_bottom);
    [apply demo_inv|by apply (bool_decide_unpack _)|done].
Defined.

Lemma decrease_bottom_total_witness : exists c' s' bottom',
  decrease_bottom_nomination demo_candidate 11%N 24%N 5 demo = (Done (c', false), s') /\
  BottomNominations s' !! 11%N = Some bottom' /\
  ns_total bottom' = zsum (amounts (ns_nominations bottom')) + 5.
Proof.
  apply (decrease_bottom_total_is_stale demo 11%N demo_candidate demo_top demo_bottom 24%N 15);
    [apply demo_inv|by apply (bool_decide_unpack _)|done].
Defined.
