(* ===== verification/NominatorInv.v ===== *)
(** * The invariant of a nominator

    The totals of a nominator and of its pending requests are the sums of
    their entries, every request is for a nomination that is there and at most
    its amount. [nominator_step] collects what the calls do to a nominator;
    the invariant is proved by induction on these steps in
    [NominatorTheorems]. *)

From S2P Require Import Prelude Logic Errors Primitives StakingTypes Nominations Nominator Candidate NominatorOps StakingImpls.
Local Open Scope Z_scope.
Local Open Scope frame_scope.

Definition is_revoke (r : NominationRequest) : Z :=
  match r_action r with Revoke => 1 | Decrease => 0 end.

Record requests_ok (nominations : gmap N Balance) (p : PendingNominationRequests) : Prop :=
  mkRequestsOk {
  q_less : p_less_total p = msum r_amount (p_requests p);
  q_revocations : p_revocations_count p = msum is_revoke (p_requests p);
  q_covered : forall v r, p_requests p !! v = Some r ->
    r_validator r = v /\ 0 <= r_amount r /\
    exists a, nominations !! v = Some a /\ r_amount r <= a
}.

Record nominator_ok (n : Nominator) : Prop := mkNominatorOk {
  nk_total : n_total n = msum id (n_nominations n);
  nk_nonneg : forall v a, n_nominations n !! v = Some a -> 0 <= a;
  nk_bound : n_total n < u128_modulus;
  nk_size : Z.of_nat (size (n_nominations n)) < u32_modulus;
  nk_initial : dom (n_initial_nominations n) = dom (n_nominations n);
  nk_requests : requests_ok (n_nominations n) (n_requests n)
}.

(** ** Requests *)

Section Requests.
Implicit Types (m : gmap N Balance) (p : PendingNominationRequests).

Lemma is_revoke_range r : 0 <= is_revoke r <= 1.
Proof. unfold is_revoke. destruct (r_action r); lia. Qed.

Lemma requests_nonneg m p : requests_ok m p ->
  (forall v r, p_requests p !! v = Some r -> 0 <= r_amount r).
Proof. intros Hp v r Hr. by destruct (q_covered _ _ Hp v r Hr) as (_ & ? & _). Qed.

(** Sums over a map against its size. *)
Lemma msum_le_size {V} (f : V -> Z) (r : gmap N V) :
  (forall v, f v <= 1) -> msum f r <= Z.of_nat (size r).
Proof.
  intros Hf. induction r as [|k v r Hk IH] using map_ind.
  - rewrite msum_empty. lia.
  - rewrite msum_insert_new, map_size_insert_None by done. specialize (Hf v). lia.
Qed.
(** A map whose entries are covered by another sums to less. *)
Lemma msum_covered (r : gmap N NominationRequest) m :
  (forall v a, m !! v = Some a -> 0 <= a) ->
  (forall v x, r !! v = Some x -> exists a, m !! v = Some a /\ r_amount x <= a) ->
  msum r_amount r <= msum id m.
Proof.
  revert m. induction r as [|k x r Hk IH] using map_ind; intros m Hm Hr.
  - rewrite msum_empty. by apply msum_nonneg.
  - rewrite msum_insert_new by done.
    destruct (Hr k x) as (a & Ha & Hle); [apply lookup_insert_eq|].
    pose proof (msum_delete id m k a Ha) as Hd.
    assert (msum r_amount r <= msum id (delete k m)) as Hi; [|cbn in *; lia].
    apply IH.
    + intros v b [_ Hb]%lookup_delete_Some. by eapply Hm.
    + intros v y Hy. assert (v <> k) by congruence.
      destruct (Hr v y) as (b & Hb & ?); [by rewrite lookup_insert_ne|].
      exists b. split; [by rewrite lookup_delete_ne|done].
Qed.
Lemma covered_size (r : gmap N NominationRequest) m :
  (forall v x, r !! v = Some x -> is_Some (m !! v)) -> (size r <= size m)%nat.
Proof.
  intros Hr. rewrite <- !size_dom. apply subseteq_size. intros v.
  rewrite !elem_of_dom. intros [x Hx]. by eapply Hr.
Qed.

Section Of.
Context (n : Nominator) (Hn : nominator_ok n).

Lemma less_le_total : 0 <= p_less_total (n_requests n) <= n_total n.
Proof.
  pose proof (nk_requests _ Hn) as Hp. rewrite (q_less _ _ Hp), (nk_total _ Hn). split.
  - by apply msum_nonneg, (requests_nonneg (n_nominations n)).
  - apply msum_covered; [apply Hn|]. intros v x Hx. by destruct (q_covered _ _ Hp v x Hx) as (_ & _ & ?).
Qed.
Lemma request_le_less v r : p_requests (n_requests n) !! v = Some r ->
  r_amount r <= p_less_total (n_requests n).
Proof.
  pose proof (nk_requests _ Hn) as Hp. intros Hr. rewrite (q_less _ _ Hp).
  eapply msum_le_of; [|done]. by apply (requests_nonneg (n_nominations n)).
Qed.
Lemma revoke_le_count v r : p_requests (n_requests n) !! v = Some r ->
  is_revoke r <= p_revocations_count (n_requests n).
Proof.
  pose proof (nk_requests _ Hn) as Hp. intros Hr. rewrite (q_revocations _ _ Hp).
  eapply msum_le_of; [|done]. intros k x _. apply is_revoke_range.
Qed.
Lemma total_nonneg : 0 <= n_total n.
Proof. rewrite (nk_total _ Hn). apply msum_nonneg, Hn. Qed.
Lemma nomination_le_total v a : n_nominations n !! v = Some a -> a <= n_total n.
Proof. intros Ha. rewrite (nk_total _ Hn). apply (msum_le_of id _ v); [apply Hn|done]. Qed.

(** A new request for a nomination that has none. *)
Lemma request_added v a amount :
  n_nominations n !! v = Some a -> p_requests (n_requests n) !! v = None -> 0 <= amount <= a ->
  p_less_total (n_requests n) + amount <= n_total n /\
  (p_revocations_count (n_requests n) + 1 < u32_modulus).
Proof.
  pose proof (nk_requests _ Hn) as Hp. intros Ha Hv Hle. split.
  - rewrite (q_less _ _ Hp), (nk_total _ Hn).
    pose proof (msum_insert_new r_amount (p_requests (n_requests n)) v
      (mkNominationRequest v amount 0 Revoke) Hv) as Hs. cbn in Hs.
    assert (msum r_amount (<[v := mkNominationRequest v amount 0 Revoke]> (p_requests (n_requests n)))
      <= msum id (n_nominations n)); [|lia].
    apply msum_covered; [apply Hn|]. intros w x [[<- <-]|[? Hx]]%lookup_insert_Some.
    + exists a. cbn. split; [done|lia].
    + by destruct (q_covered _ _ Hp w x Hx) as (_ & _ & ?).
  - rewrite (q_revocations _ _ Hp).
    pose proof (msum_le_size is_revoke (p_requests (n_requests n)) (fun r => proj2 (is_revoke_range r))) as Hs.
    assert (size (<[v := mkNominationRequest v amount 0 Revoke]> (p_requests (n_requests n)))
      <= size (n_nominations n))%nat as Hc.
    { apply covered_size. intros w x [[<- <-]|[? Hx]]%lookup_insert_Some; [by rewrite Ha|].
      destruct (q_covered _ _ Hp w x Hx) as (_ & _ & b & -> & _). done. }
    rewrite map_size_insert_None in Hc by done. pose proof (nk_size _ Hn). lia.
Qed.
End Of.
End Requests.

(** ** The operations on requests and nominations *)

Section Operations.
Implicit Types (m : gmap N Balance) (p : PendingNominationRequests).

Lemma requests_delete m p v r :
  requests_ok m p -> p_requests p !! v = Some r ->
  requests_ok m (mkPendingNominationRequests (p_revocations_count p - is_revoke r)
                   (delete v (p_requests p)) (p_less_total p - r_amount r)).
Proof.
  intros [] Hv. split; cbn.
  - by rewrite (msum_delete _ _ v r), q_less0.
  - by rewrite (msum_delete _ _ v r), q_revocations0.
  - intros w x [_ Hx]%lookup_delete_Some. by apply q_covered0.
Qed.
Lemma requests_insert m p v r a :
  requests_ok m p -> p_requests p !! v = None -> m !! v = Some a ->
  r_validator r = v -> 0 <= r_amount r <= a ->
  requests_ok m (mkPendingNominationRequests (p_revocations_count p + is_revoke r)
                   (<[v := r]> (p_requests p)) (p_less_total p + r_amount r)).
Proof.
  intros [] Hv Ha Hr Hle. split; cbn.
  - rewrite msum_insert_new by done. lia.
  - rewrite msum_insert_new by done. lia.
  - intros w x [[<- <-]|[? Hx]]%lookup_insert_Some; [|by apply q_covered0].
    split_and!; [done|lia|]. exists a. split; [done|lia].
Qed.
Lemma requests_nominations m m' p :
  requests_ok m p ->
  (forall v r a, p_requests p !! v = Some r -> m !! v = Some a -> r_amount r <= a ->
     exists a', m' !! v = Some a' /\ r_amount r <= a') ->
  requests_ok m' p.
Proof.
  intros [] Hm. split; [done..|]. intros v r Hr.
  destruct (q_covered0 v r Hr) as (? & ? & a & Ha & Hle). split_and!; [done..|]. by eapply Hm.
Qed.

Context `{Config}.

(** [remove_request] drops the request and its share of the totals. *)
Lemma remove_request_ok n v :
  nominator_ok n ->
  requests_ok (n_nominations n) (remove_request (n_requests n) v) /\
  p_requests (remove_request (n_requests n) v) = delete v (p_requests (n_requests n)).
Proof.
  intros Hn. pose proof (nk_requests _ Hn) as Hp. unfold remove_request.
  destruct (p_requests (n_requests n) !! v) as [r|] eqn:E; [|by rewrite delete_id].
  split; [|done]. pose proof (requests_delete _ _ v r Hp E) as Hd.
  pose proof (request_le_less n Hn v r E). pose proof (revoke_le_count n Hn v r E) as Hc.
  rewrite (sat_sub_small _ (r_amount r)) by done. unfold is_revoke in *.
  destruct (r_action r); [by rewrite sat_sub_small|by rewrite Z.sub_0_r in Hd].
Qed.

Lemma new_nominator_ok id v a : 0 <= a < u128_modulus -> nominator_ok (new_nominator id v a).
Proof.
  intros Ha. split; cbn.
  - unfold msum. rewrite map_to_list_singleton. cbn. lia.
  - intros w b [<- <-]%lookup_singleton_Some. lia.
  - lia.
  - by rewrite map_size_singleton.
  - done.
  - split; cbn; [by rewrite msum_empty..|]. by intros w r.
Qed.

Lemma add_nomination_ok n candidate a n' s :
  nominator_ok n -> 0 <= a -> n_total n + a < u128_modulus ->
  Z.of_nat (size (n_nominations n)) + 1 < u32_modulus ->
  nominator_add_nomination n candidate a s = (Done n', s) -> nominator_ok n'.
Proof.
  intros Hn Ha Hb Hs. unfold nominator_add_nomination.
  destruct (n_nominations n !! candidate) eqn:E; [done|]. unfold ret. intros [= <-].
  pose proof (total_nonneg n Hn). split; fields.
  - rewrite msum_insert_new, u128_add_small, (nk_total _ Hn) by (done || lia). cbn. lia.
  - intros v b [[<- <-]|[_ Hv]]%lookup_insert_Some; [done|]. by apply (nk_nonneg _ Hn v).
  - rewrite u128_add_small; lia.
  - rewrite map_size_insert_None by done. lia.
  - by rewrite !dom_insert_L, (nk_initial _ Hn).
  - eapply requests_nominations; [apply Hn|]. intros v r b _ Hv Hle.
    exists b. split; [|done]. rewrite lookup_insert_ne; [done|]. intros ->. congruence.
Qed.

(** A nomination dropped together with its request. *)
Lemma rm_nomination_ok n v :
  nominator_ok n ->
  nominator_ok ((rm_nomination n v).1 <| n_requests ::= fun p => remove_request p v |>).
Proof.
  intros Hn. destruct (remove_request_ok n v Hn) as [Hr Hreq]. unfold rm_nomination.
  destruct (n_nominations n !! v) as [a|] eqn:E; cbn [fst].
  - pose proof (nomination_le_total n Hn v a E). pose proof (nk_nonneg _ Hn v a E).
    split; fields.
    + rewrite (msum_delete _ _ v a), sat_sub_small, (nk_total _ Hn) by done. done.
    + intros w b [_ Hb]%lookup_delete_Some. by apply (nk_nonneg _ Hn w).
    + rewrite sat_sub_small by done. pose proof (nk_bound _ Hn). lia.
    + rewrite map_size_delete_Some by eauto. pose proof (nk_size _ Hn). lia.
    + by rewrite !dom_delete_L, (nk_initial _ Hn).
    + eapply requests_nominations; [done|]. intros w r b. rewrite Hreq.
      intros [Hne _]%lookup_delete_Some Hb Hle. exists b. by rewrite lookup_delete_ne.
  - destruct Hn. by split.
Qed.
End Operations.

(** ** Requests scheduled, cancelled and executed *)

Section Schedules.
Context `{Config}.

(** A request added to a nominator. *)
Lemma with_request_ok n v a r count total :
  count = p_revocations_count (n_requests n) + is_revoke r ->
  total = p_less_total (n_requests n) + r_amount r ->
  nominator_ok n -> n_nominations n !! v = Some a -> p_requests (n_requests n) !! v = None ->
  r_validator r = v -> 0 <= r_amount r <= a ->
  nominator_ok (n <| n_requests :=
    mkPendingNominationRequests count (<[v := r]> (p_requests (n_requests n))) total |>).
Proof.
  intros -> -> Hn Ha Hv Hr Hle. destruct Hn. split; fields; try done. by eapply requests_insert.
Qed.

Lemma schedule_decrease_ok n v less n' when s :
  nominator_ok n -> 0 <= less ->
  schedule_decrease_nomination n v less s = (Done (n', when), s) -> nominator_ok n'.
Proof.
  intros Hn Hless. unfold schedule_decrease_nomination, get, requests_bond_less.
  destruct (n_nominations n !! v) as [a|] eqn:E; [|done]. intros Hs. mrun. simplify_eq.
  match goal with Hb : bool_decide _ = true |- _ => apply bool_decide_eq_true in Hb as Hv end.
  match goal with Hb : (less <? a) = true |- _ => apply Z.ltb_lt in Hb end.
  destruct (request_added n Hn v a less E Hv ltac:(lia)) as [Hlt _].
  pose proof (less_le_total n Hn). pose proof (nk_bound _ Hn).
  eapply (with_request_ok n v a (mkNominationRequest v less _ Decrease)); try done; cbn.
  - by rewrite Z.add_0_r.
  - apply u128_add_small. lia.
  - lia.
Qed.

Lemma schedule_revoke_ok n v n' rs s :
  nominator_ok n ->
  schedule_revoke n v s = (Done (n', rs), s) -> nominator_ok n'.
Proof.
  intros Hn. unfold schedule_revoke, get, requests_revoke.
  destruct (n_nominations n !! v) as [a|] eqn:E; [|done]. intros Hs. mrun. simplify_eq.
  match goal with Hb : bool_decide _ = true |- _ => apply bool_decide_eq_true in Hb as Hv end.
  pose proof (nk_nonneg _ Hn v a E).
  destruct (request_added n Hn v a a E Hv ltac:(lia)) as [Hlt Hc].
  pose proof (less_le_total n Hn). pose proof (nk_bound _ Hn).
  assert (0 <= p_revocations_count (n_requests n)).
  { rewrite (q_revocations _ _ (nk_requests _ Hn)). apply msum_nonneg. intros. apply is_revoke_range. }
  eapply (with_request_ok n v a (mkNominationRequest v a _ Revoke)); try done; cbn.
  - apply u32_add_small. lia.
  - apply u128_add_small. lia.
Qed.

Lemma cancel_request_eq n v r s :
  nominator_ok n -> p_requests (n_requests n) !! v = Some r ->
  cancel_pending_request n v s =
    (Done (n <| n_requests :=
       mkPendingNominationRequests (p_revocations_count (n_requests n) - is_revoke r)
         (delete v (p_requests (n_requests n))) (p_less_total (n_requests n) - r_amount r) |>, r), s).
Proof.
  intros Hn E. unfold cancel_pending_request, bind, ok_or, ret. rewrite E.
  pose proof (request_le_less n Hn v r E). pose proof (revoke_le_count n Hn v r E) as Hc.
  unfold is_revoke in *. destruct (r_action r);
    cbv [update_field f_p_requests f_p_less_total f_p_revocations_count]; cbn.
  - by rewrite !sat_sub_small by lia.
  - by rewrite sat_sub_small, Z.sub_0_r by lia.
Qed.
Lemma cancel_request_ok n v n' r s s' :
  nominator_ok n -> cancel_pending_request n v s = (Done (n', r), s') -> nominator_ok n'.
Proof.
  intros Hn Hs. destruct (p_requests (n_requests n) !! v) as [r'|] eqn:E.
  - rewrite (cancel_request_eq n v r' s Hn E) in Hs. simplify_eq.
    pose proof (requests_delete _ _ v r (nk_requests _ Hn) E). destruct Hn. by split.
  - unfold cancel_pending_request, bind, ok_or in Hs. by rewrite E in Hs.
Qed.

(** A nomination whose amount changes and which has no pending decrease
    above its new amount. *)
Lemma set_nomination_ok n v a a' p :
  nominator_ok n -> n_nominations n !! v = Some a -> 0 <= a' ->
  n_total n - a + a' < u128_modulus -> requests_ok (n_nominations n) p ->
  (forall r, p_requests p !! v = Some r -> r_amount r <= a -> r_amount r <= a') ->
  nominator_ok (n <| n_nominations ::= <[v := a']> |> <| n_total := n_total n - a + a' |>
                  <| n_requests := p |>).
Proof.
  intros Hn E Ha Hb Hp Hr. split; fields.
  - by rewrite (msum_insert_old _ _ v a), (nk_total _ Hn).
  - intros w b [[<- <-]|[_ Hw]]%lookup_insert_Some; [done|]. by apply (nk_nonneg _ Hn w).
  - done.
  - rewrite map_size_insert_Some by eauto. apply Hn.
  - rewrite dom_insert_lookup_L by eauto. apply Hn.
  - eapply requests_nominations; [done|]. intros w r b Hw Hb' Hle.
    destruct (decide (w = v)) as [->|].
    + exists a'. rewrite lookup_insert_eq. split; [done|]. apply Hr; congruence.
    + exists b. by rewrite lookup_insert_ne.
Qed.
End Schedules.
