(* ===== verification/NominatorTheorems.v ===== *)
(** * Theorems on nominators and their requests

    The totals of a nominator follow its nominations and requests through
    every call ([nominator_step], by rule induction); a request that is
    scheduled and cancelled leaves no trace; a request is not executed before
    its round; the checks of a scheduled decrease, and the cases in which the
    minimum is not enforced. *)

From S2P Require Import Prelude Logic Errors Primitives StakingTypes Nominations Nominator Candidate NominatorOps StakingImpls StakingCalls Instances NominatorInv.
Local Open Scope Z_scope.
Local Open Scope frame_scope.

Section Steps.
Context `{Config}.

Lemma increase_ok n candidate amount n' s s' :
  nominator_ok n -> 0 <= amount -> n_total n + amount < u128_modulus ->
  nominator_increase_nomination n candidate amount s = (Done n', s') -> nominator_ok n'.
Proof.
  intros Hn Ha Hb Hs. unfold nominator_increase_nomination in Hs.
  destruct (n_nominations n !! candidate) as [a|] eqn:E; [|done].
  assert (n' = n <| n_nominations ::= <[candidate := u128_add a amount]> |>
                 <| n_total ::= fun t => u128_add t amount |>) as ->.
  { mrun. match goal with x : CandidateMetadata * bool |- _ => destruct x end. by mrun. }
  pose proof (nomination_le_total n Hn candidate a E). pose proof (nk_nonneg _ Hn candidate a E).
  pose proof (total_nonneg n Hn).
  pose proof (set_nomination_ok n candidate a (a + amount) (n_requests n) Hn E ltac:(lia) ltac:(lia)
    (nk_requests _ Hn) ltac:(intros; lia)) as Hok.
  assert (n <| n_nominations ::= <[candidate := u128_add a amount]> |>
            <| n_total ::= fun t => u128_add t amount |> =
    n <| n_nominations ::= <[candidate := a + amount]> |> <| n_total := n_total n - a + (a + amount) |>
      <| n_requests := n_requests n |>) as ->; [|done].
  destruct n. cbv [update_field f_n_nominations f_n_total f_n_requests]. cbn in *.
  rewrite !u128_add_small by lia. f_equal. lia.
Qed.

Lemma rm_nomination_id n v : n_id (rm_nomination n v).1 = n_id n.
Proof. unfold rm_nomination. by destruct (n_nominations n !! v). Qed.

(** Only the last write of [execute_revoke] reaches the nominator. *)
Lemma execute_revoke_state n candidate amount s s' n' :
  execute_revoke n candidate amount s = (Done tt, s') -> NominatorState s' !! n_id n = Some n' ->
  n' = (rm_nomination (n <| n_requests ::= fun p =>
          p <| p_less_total ::= fun t => sat_sub t amount |>
            <| p_revocations_count ::= fun c => sat_sub c 1 |> |>) candidate).1.
Proof.
  unfold execute_revoke, mutate. intros Hs Hn. mrun.
  match goal with b : bool |- _ => destruct b end; mrun; fields.
  - unfold deposit_event, mutate in *. mrun. fields. rewrite rm_nomination_id in Hn. fields.
    by rewrite lookup_delete_eq in Hn.
  - rewrite rm_nomination_id in Hn. fields. rewrite lookup_insert_eq in Hn. congruence.
Qed.

Lemma execute_revoke_ok n candidate r s s' n' :
  nominator_ok n -> p_requests (n_requests n) !! candidate = Some r -> r_action r = Revoke ->
  execute_revoke (n <| n_requests ::= fun p => p <| p_requests ::= delete candidate |> |>)
    candidate (r_amount r) s = (Done tt, s') ->
  NominatorState s' !! n_id n = Some n' -> nominator_ok n'.
Proof.
  intros Hn E Ea Hs Hn'. apply (execute_revoke_state _ _ _ _ _ _ Hs) in Hn'. subst n'.
  pose proof (rm_nomination_ok n candidate Hn) as Hok.
  match goal with |- nominator_ok ?x => enough (x =
    (rm_nomination n candidate).1 <| n_requests ::= fun p => remove_request p candidate |>) as -> end;
    [done|].
  unfold rm_nomination, remove_request. fields.
  destruct (n_nominations n !! candidate); destruct n as [????[]];
    cbv [update_field f_n_nominations f_n_total f_n_requests f_p_requests f_p_less_total
         f_p_revocations_count f_n_initial_nominations f_n_awarded_per];
    cbn in *; by rewrite E, Ea.
Qed.

Lemma execute_decrease_ok n candidate r s s' n' :
  nominator_ok n -> p_requests (n_requests n) !! candidate = Some r -> r_action r = Decrease ->
  execute_decrease (n <| n_requests ::= fun p => p <| p_requests ::= delete candidate |> |>)
    candidate (r_amount r) s = (Done tt, s') ->
  NominatorState s' !! n_id n = Some n' -> nominator_ok n'.
Proof.
  intros Hn E Ea. unfold execute_decrease, deposit_event, mutate, put, get. fields.
  destruct (n_nominations n !! candidate) as [a|] eqn:En; [|done].
  destruct (Z.ltb_spec (r_amount r) a) as [Hlt|]; [|done]. intros Hs Hn'. mrun.
  match goal with x : CandidateMetadata * bool |- _ => destruct x end. mrun. fields.
  rewrite lookup_insert_eq in Hn'. injection Hn' as <-.
  pose proof (nk_requests _ Hn) as Hp. pose proof (requests_delete _ _ candidate r Hp E) as Hd.
  destruct (q_covered _ _ Hp _ _ E) as (_ & Hpos & _).
  pose proof (request_le_less n Hn _ _ E). pose proof (nomination_le_total n Hn _ _ En).
  pose proof (nk_bound _ Hn).
  pose proof (set_nomination_ok n candidate a (a - r_amount r) _ Hn En ltac:(lia) ltac:(lia) Hd) as Hok.
  cbn [p_requests] in Hok. specialize (Hok ltac:(intros ? Hx; by rewrite lookup_delete_eq in Hx)).
  match goal with H : nominator_ok ?x |- nominator_ok ?y => enough (y = x) as ->; [done|] end.
  unfold is_revoke. rewrite Ea. destruct n as [????[]].
  cbv [update_field f_n_nominations f_n_total f_n_requests f_p_requests f_p_less_total]. cbn in *.
  rewrite !sat_sub_small by lia. f_equal; [lia|]. f_equal. lia.
Qed.

Lemma execute_request_ok n candidate s s' n' :
  nominator_ok n -> execute_pending_request n candidate s = (Done tt, s') ->
  NominatorState s' !! n_id n = Some n' -> nominator_ok n'.
Proof.
  intros Hn Hs. unfold execute_pending_request, get in Hs.
  mrun. destruct (r_action _) eqn:Ea; intros.
  - by eapply (execute_revoke_ok n candidate).
  - by eapply (execute_decrease_ok n candidate).
Qed.

(** ** The steps of a nominator *)

(** What the calls and the pallet do to the stored [Nominator]. Amounts are
    unsigned and do not overflow the total. *)
Inductive nominator_step : Nominator -> Nominator -> Prop :=
| step_nominate n candidate amount n' s : 0 <= amount -> n_total n + amount < u128_modulus ->
    Z.of_nat (size (n_nominations n)) < MaxNominationsPerNominator ->
    nominator_add_nomination n candidate amount s = (Done n', s) -> nominator_step n n'
| step_bond_more n candidate amount n' s s' : 0 <= amount -> n_total n + amount < u128_modulus ->
    nominator_increase_nomination n candidate amount s = (Done n', s') -> nominator_step n n'
| step_dropped n candidate :
    nominator_step n
      ((rm_nomination n candidate).1 <| n_requests ::= fun p => remove_request p candidate |>)
| step_schedule_bond_less n candidate less n' when s : 0 <= less ->
    schedule_decrease_nomination n candidate less s = (Done (n', when), s) -> nominator_step n n'
| step_schedule_revoke n candidate n' rs s :
    schedule_revoke n candidate s = (Done (n', rs), s) -> nominator_step n n'
| step_cancel_request n candidate n' r s s' :
    cancel_pending_request n candidate s = (Done (n', r), s') -> nominator_step n n'
| step_execute_request n candidate n' s s' :
    execute_pending_request n candidate s = (Done tt, s') ->
    NominatorState s' !! n_id n = Some n' -> nominator_step n n'
| step_schedule_leave n when : nominator_step n (set_leaving n when)
| step_cancel_leave n : nominator_step n (cancel_leave n)
| step_reward_dst n dst : nominator_step n (nominator_set_reward_dst n dst)
| step_rewarded n validator tokens :
    nominator_step n (nominator_increment_awarded_tokens n validator tokens).

Inductive nominator_reachable : Nominator -> Prop :=
| reach_new id validator amount : 0 <= amount < u128_modulus ->
    nominator_reachable (new_nominator id validator amount)
| reach_step n n' : nominator_reachable n -> nominator_step n n' -> nominator_reachable n'.

Lemma nominator_step_ok n n' :
  MaxNominationsPerNominator < u32_modulus ->
  nominator_step n n' -> nominator_ok n -> nominator_ok n'.
Proof.
  intros Hmax Hstep Hn. destruct Hstep.
  - eapply add_nomination_ok; [exact Hn|done|done|lia|done].
  - by eapply increase_ok.
  - by apply rm_nomination_ok.
  - by eapply schedule_decrease_ok.
  - by eapply schedule_revoke_ok.
  - by eapply cancel_request_ok.
  - by eapply execute_request_ok.
  - destruct Hn; by split.
  - destruct Hn; by split.
  - destruct Hn; by split.
  - destruct Hn; by split.
Qed.
End Steps.

Section Theorems.
Context `{Config}.


(** A nominator whose request was added and is cancelled is as before. *)
Lemma cancel_added n v r count total s a :
  nominator_ok n -> n_nominations n !! v = Some a -> p_requests (n_requests n) !! v = None ->
  r_validator r = v -> 0 <= r_amount r <= a ->
  count = p_revocations_count (n_requests n) + is_revoke r ->
  total = p_less_total (n_requests n) + r_amount r ->
  cancel_pending_request (n <| n_requests :=
    mkPendingNominationRequests count (<[v := r]> (p_requests (n_requests n))) total |>) v s
  = (Done (n, r), s).
Proof.
  intros Hn Ha Hv Hr Hle Hc Ht.
  pose proof (with_request_ok n v a r count total Hc Ht Hn Ha Hv Hr Hle) as Hok.
  rewrite (cancel_request_eq _ v r) by (done || (fields; apply lookup_insert_eq)).
  subst. fields. cbn [p_requests p_less_total p_revocations_count].
  rewrite delete_insert_id by done. rewrite !Z.add_simpl_r. by destruct n as [????[]].
Qed.

(** Cancelling a request right after scheduling it gives back the
    nominator as it was, for a revocation and for a decrease. *)
Theorem schedule_then_cancel (n : Nominator) v s :
  nominator_ok n ->
  (forall n' now when, schedule_revoke n v s = (Done (n', (now, when)), s) ->
     exists a, n_nominations n !! v = Some a /\
       cancel_pending_request n' v s = (Done (n, mkNominationRequest v a when Revoke), s)) /\
  (forall n' less when, 0 <= less ->
     schedule_decrease_nomination n v less s = (Done (n', when), s) ->
     cancel_pending_request n' v s = (Done (n, mkNominationRequest v less when Decrease), s)).
Proof.
  intros Hn. pose proof (less_le_total n Hn). pose proof (nk_bound _ Hn). split.
  - intros n' now when. unfold schedule_revoke, get, requests_revoke.
    destruct (n_nominations n !! v) as [a|] eqn:E; [|done]. intros Hs. mrun.
    match goal with Hb : bool_decide _ = true |- _ => apply bool_decide_eq_true in Hb as Hv end.
    pose proof (nk_nonneg _ Hn v a E).
    destruct (request_added n Hn v a a E Hv ltac:(lia)) as [Hlt Hc].
    assert (0 <= p_revocations_count (n_requests n)).
    { rewrite (q_revocations _ _ (nk_requests _ Hn)). apply msum_nonneg. intros. apply is_revoke_range. }
    exists a. split; [done|]. eapply cancel_added; try done; cbn.
    + by rewrite u32_add_small by lia.
    + by rewrite u128_add_small by lia.
  - intros n' less when Hless. unfold schedule_decrease_nomination, get, requests_bond_less.
    destruct (n_nominations n !! v) as [a|] eqn:E; [|done]. intros Hs. mrun.
    match goal with Hb : bool_decide _ = true |- _ => apply bool_decide_eq_true in Hb as Hv end.
    match goal with Hb : (less <? a) = true |- _ => apply Z.ltb_lt in Hb end.
    destruct (request_added n Hn v a less E Hv ltac:(lia)) as [Hlt _].
    eapply cancel_added; try done; cbn; [lia|lia|]. by rewrite u128_add_small by lia.
Qed.

(** A request is not executed before its round: the call fails and
    leaves the storage as it was, whatever the request. *)
Theorem request_not_due nominator n candidate r s :
  NominatorState s !! nominator = Some n -> p_requests (n_requests n) !! candidate = Some r ->
  round_index s < r_when_executable r ->
  dispatch (execute_nomination_request (SignedOrigin nominator) candidate) s =
    (Fail (Staking PendingNominationRequestNotDueYet), s).
Proof.
  intros Hn Hr Hlt. unfold execute_nomination_request, nominator_of, execute_pending_request.
  unfold dispatch, get, bind, gets, ensure_signed, ret, ok_or. rewrite Hn. cbn. rewrite Hr. cbn.
  unfold ensure. by rewrite (proj2 (Z.leb_gt _ _)).
Qed.

(** A scheduled decrease that is accepted leaves the nomination at least
    [MinNomination] and, when what is not yet requested was at least
    [MinNominatorStk], leaves it at least [MinNominatorStk]. *)
Theorem schedule_decrease_keeps_minimum n v less n' when s :
  nominator_ok n -> 0 <= less -> 0 <= MinNominatorStk ->
  MinNominatorStk <= n_total n - p_less_total (n_requests n) ->
  schedule_decrease_nomination n v less s = (Done (n', when), s) ->
  MinNominatorStk <= n_total n' - p_less_total (n_requests n') /\
  exists a, n_nominations n' !! v = Some a /\ MinNomination <= a - less.
Proof.
  intros Hn Hless Hmin Hnet. pose proof (less_le_total n Hn). pose proof (nk_bound _ Hn).
  unfold schedule_decrease_nomination, get, requests_bond_less.
  destruct (n_nominations n !! v) as [a|] eqn:E; [|done]. intros Hs. mrun.
  repeat match goal with
  | Hb : (_ <? _) = true |- _ => apply Z.ltb_lt in Hb
  | Hb : (_ <=? _) = true |- _ => apply Z.leb_le in Hb
  | Hb : bool_decide _ = true |- _ => apply bool_decide_eq_true in Hb as Hv
  end.
  pose proof (nomination_le_total n Hn v a E).
  destruct (request_added n Hn v a less E Hv ltac:(lia)) as [Hlt _].
  fields. rewrite u128_add_small by lia.
  match goal with Hb : less <= _ |- _ =>
    rewrite (u128_sub_small (n_total n)), u128_sub_small in Hb by lia end.
  match goal with Hb : MinNomination <= _ |- _ => rewrite u128_sub_small in Hb by lia end.
  split; [lia|]. by exists a.
Qed.
End Theorems.

(** ** Runs on the concrete runtime *)

(** Nominations of 10, 10 and 8 by account 21, the first two being revoked. *)
Definition two_revoked : list (P unit) := [
  join_candidates (SignedOrigin 1%N) 11%N None 100 0;
  join_candidates (SignedOrigin 2%N) 12%N None 100 1;
  join_candidates (SignedOrigin 3%N) 13%N None 100 2;
  nominate (SignedOrigin 21%N) 11%N 10 0 0; nominate (SignedOrigin 21%N) 12%N 10 0 1;
  nominate (SignedOrigin 21%N) 13%N 8 0 2;
  schedule_revoke_nomination (SignedOrigin 21%N) 11%N;
  schedule_revoke_nomination (SignedOrigin 21%N) 12%N].

(** After revocations that bring what is left below [MinNominatorStk],
    the subtraction of [schedule_decrease_nomination] wraps and a decrease is
    accepted: of a total of 28, 23 are requested, and the minimum is 10. *)
Theorem decrease_accepted_below_minimum :
  reaches (two_revoked ++ [schedule_nominator_bond_less (SignedOrigin 21%N) 13%N 3]) (fun s =>
    (n_total <$> NominatorState s !! 21%N) = Some 28 /\
    ((fun n => p_less_total (n_requests n)) <$> NominatorState s !! 21%N) = Some 23) /\
  MinNominatorStk = 10.
Proof. by vm_compute. Qed.

(** A nomination of 20 whose revocation is scheduled, then increased by
    7, then revoked: the nomination of 27 is gone with its nominator, but 7
    stay reserved and counted in the total. *)
Theorem bond_more_after_revoke_locks_funds :
  reaches [
    join_candidates (SignedOrigin 1%N) 11%N None 100 0; nominate (SignedOrigin 21%N) 11%N 20 0 0;
    schedule_revoke_nomination (SignedOrigin 21%N) 11%N;
    nominator_bond_more (SignedOrigin 21%N) 11%N 7; in_round 3;
    execute_nomination_request (SignedOrigin 21%N) 11%N] (fun s =>
    NominatorState s !! 21%N = None /\
    TopNominations s !! 11%N = Some empty_nominations /\
    BottomNominations s !! 11%N = Some empty_nominations /\
    (c_bond <$> CandidateInfo s !! 11%N) = Some 100 /\
    held_of (Balances s) 21%N = 7 /\ Total s = 107).
Proof. by vm_compute. Qed.

(** ** Witnesses *)

Definition one_nomination : Nominator := new_nominator 21 11 20.
Lemma one_nomination_ok : nominator_ok one_nomination.
Proof. by apply new_nominator_ok. Qed.
(** The nominator after a revocation is scheduled in round 1. *)
Definition one_revoked : Nominator :=
  one_nomination <| n_requests :=
    mkPendingNominationRequests 1 {[ 11%N := mkNominationRequest 11 20 3 Revoke ]} 20 |>.
Definition revoked_start : Storage := start <| NominatorState := {[ 21%N := one_revoked ]} |>.


Lemma schedule_then_cancel_witness :
  cancel_pending_request one_revoked 11%N start =
    (Done (one_nomination, mkNominationRequest 11 20 3 Revoke), start).
Proof.
  destruct (schedule_then_cancel one_nomination 11%N start one_nomination_ok) as [Hr _].
  destruct (Hr one_revoked 1 3) as (a & Ha & Hc); [reflexivity|].
  replace 20 with a by (vm_compute in Ha; congruence). exact Hc.
Defined.

Lemma request_not_due_witness :
  dispatch (execute_nomination_request (SignedOrigin 21%N) 11%N) revoked_start =
    (Fail (Staking PendingNominationRequestNotDueYet), revoked_start).
Proof.
  apply (request_not_due 21%N one_revoked 11%N (mkNominationRequest 11 20 3 Revoke));
    reflexivity.
Defined.

Definition one_decreased : Nominator :=
  one_nomination <| n_requests :=
    mkPendingNominationRequests 0 {[ 11%N := mkNominationRequest 11 5 3 Decrease ]} 5 |>.
Lemma schedule_decrease_witness :
  schedule_decrease_nomination one_nomination 11%N 5 start = (Done (one_decreased, 3), start) /\
  MinNominatorStk <= n_total one_decreased - p_less_total (n_requests one_decreased).
Proof.
  split; [reflexivity|].
  apply (schedule_decrease_keeps_minimum one_nomination 11%N 5 one_decreased 3 start);
    [exact one_nomination_ok|lia|by vm_compute|by vm_compute|reflexivity].
Defined.
