(* ===== verification/OffencesTheorems.v ===== *)
(** * Theorems on the offences

    The record of a validator is the list of its offences since its last
    penalty ([recorded]); [handle_offence] implements the specification
    [spec_handle] on that list; the slash is a fraction of the self-bond; the
    refresh removes exactly the expired records. *)

From S2P Require Import Prelude Logic Errors Primitives Offences Instances.
Local Open Scope Z_scope.
Local Open Scope frame_scope.

Section Spec.
Context `{PerbillLaws}.

Definition fractions (l : list Offence) : list Z := o_slash_fraction <$> l.
(** The fraction of a list of offences: their sum, at most one. *)
Definition total_fraction (l : list Offence) : Perbill := Z.min ACCURACY (zsum (fractions l)).
Definition valid_fraction (o : Offence) : Prop := 0 <= o_slash_fraction o <= ACCURACY.

(** The stored record of the offences [l]. *)
Definition recorded (l : list Offence) : option ValidatorOffenceInfo :=
  match l with
  | [] => None
  | o :: l' => Some (fold_left add_offence l' (new_offence_info o))
  end.

(** One more offence after the offences [l]: a penalty by the fraction
    accumulated so far when the count exceeds [max], or one more entry. *)
Definition spec_handle (slash_on : bool) (max : Z) (l : list Offence) (o : Offence)
    : (bool * Balance) * list Offence :=
  if max <? Z.of_nat (length l) + 1
  then ((true, if slash_on then perbill_mul (total_fraction l) (o_self_bond o) else 0), [])
  else ((false, 0), l ++ [o]).

Lemma recorded_snoc l o : l <> [] -> recorded (l ++ [o]) = (fun i => add_offence i o) <$> recorded l.
Proof. destruct l as [|x l]; [done|]. intros _. cbn. by rewrite fold_left_app. Qed.

Lemma sum_fractions_nonneg l : Forall valid_fraction l -> 0 <= zsum (fractions l).
Proof. intros Hl. apply zsum_nonneg, Forall_fmap. eapply Forall_impl; [done|]. intros o []. done. Qed.

Lemma fractions_snoc l o : zsum (fractions (l ++ [o])) = zsum (fractions l) + o_slash_fraction o.
Proof. unfold fractions. rewrite fmap_app, zsum_app. cbn. lia. Qed.

Lemma recorded_summary l i :
  Forall valid_fraction l -> Z.of_nat (length l) < u32_modulus -> recorded l = Some i ->
  offence_count i = Z.of_nat (length l) /\ aggregated_slash_fraction i = total_fraction l /\
  offences i = l /\ (latest_offence_session_index i = default 0 (o_session_index <$> last l)).
Proof.
  revert i. induction l as [|o l IH] using rev_ind; intros i; [done|].
  rewrite Forall_app, length_app. intros [Hl Ho] Hlen. apply Forall_inv in Ho.
  destruct l as [|x l].
  - intros [= <-]. cbn. unfold total_fraction, valid_fraction in *. cbn. split_and!; try done; lia.
  - rewrite recorded_snoc by done. intros (j & Hj & ->)%fmap_Some_1. cbn [length] in Hlen.
    destruct (IH j Hl ltac:(cbn [length]; lia) Hj) as (Hc & Hf & Hof & _).
    unfold add_offence. cbn [offence_count aggregated_slash_fraction offences latest_offence_session_index].
    rewrite Hc, Hf, Hof, last_snoc. cbn [length].
    split_and!; [rewrite u32_add_small; lia| |done|done].
    unfold increased_slash_fraction. pose proof (sum_fractions_nonneg _ Hl).
    unfold total_fraction, valid_fraction, ACCURACY in *. rewrite fractions_snoc.
    rewrite u32_add_small by (unfold u32_modulus; lia).
    rewrite from_parts_spec by lia. unfold ACCURACY. lia.
Qed.
End Spec.

Section Theorems.
Context `{PerbillLaws} {C : Type} `{Currency C}.

Definition maximum (s : OffencesStorage) (tier : TierType) : Z :=
  match tier with Full => FullMaximumOffenceCount s | _ => BasicMaximumOffenceCount s end.

(** C16: handling an offence refines [spec_handle]: on the record of the
    offences [l] of a validator it returns what the specification returns and
    stores the record of the specification's list; the records of the other
    validators are left as they are, and the balances change only by the
    slash. *)
Theorem handle_offence_refines (who stash : AccountId) (tier : TierType) (o : Offence)
    (l : list Offence) (c : C) (s : OffencesStorage) :
  Forall valid_fraction l -> Z.of_nat (length l) + 1 < u32_modulus -> 1 <= maximum s tier ->
  ValidatorOffences s !! who = recorded l ->
  exists s', handle_offence who stash tier o (c, s) =
    (Done (spec_handle (IsSlashActive s) (maximum s tier) l o).1,
     (if (spec_handle (IsSlashActive s) (maximum s tier) l o).1.1 && IsSlashActive s
      then slash_reserved c stash (spec_handle (IsSlashActive s) (maximum s tier) l o).1.2 else c, s')) /\
    ValidatorOffences s' !! who = recorded (spec_handle (IsSlashActive s) (maximum s tier) l o).2 /\
    (forall v, v <> who -> ValidatorOffences s' !! v = ValidatorOffences s !! v).
Proof.
  intros Hf Hlen Hmax Hr. unfold handle_offence, bind, gets. cbn [snd]. rewrite Hr.
  destruct (recorded l) as [i|] eqn:E.
  - destruct (recorded_summary l i Hf ltac:(lia) E) as (Hc & Ha & _).
    assert (l <> []) as Hne by by intros ->.
    assert (is_offence_count_exceeds s (u32_add (offence_count i) 1) tier =
      (maximum s tier <? Z.of_nat (length l) + 1)) as ->.
    { rewrite Hc, u32_add_small by lia. by destruct tier. }
    unfold spec_handle. destruct (_ <? _); cbn [fst snd].
    + unfold try_slash, bind, gets. cbn [snd]. rewrite Ha.
      destruct (IsSlashActive s); eexists; (split; [done|]); fields;
        (split; [apply lookup_delete_eq|]); intros v Hv; by rewrite lookup_delete_ne.
    + eexists. split; [done|]. fields. rewrite lookup_insert_eq, recorded_snoc, E by done.
      split; [done|]. intros v Hv. by rewrite lookup_insert_ne.
  - assert (l = []) as -> by by destruct l. unfold spec_handle.
    rewrite (proj2 (Z.ltb_ge _ _)) by (cbn; lia). cbn [fst snd app].
    eexists. split; [done|]. fields. rewrite lookup_insert_eq. split; [done|].
    intros v Hv. by rewrite lookup_insert_ne.
Qed.

(** A penalty never exceeds the self-bond recorded by the offence, it is
    what is taken of the reserved balance of the stash, and nothing is taken
    when the slash is inactive or the offence is only recorded. *)
Theorem penalty_within_self_bond who stash tier o (c c' : C) s s' (b : bool) amount :
  (forall i, ValidatorOffences s !! who = Some i -> 0 <= aggregated_slash_fraction i <= ACCURACY) ->
  0 <= o_self_bond o ->
  handle_offence who stash tier o (c, s) = (Done (b, amount), (c', s')) ->
  0 <= amount <= o_self_bond o /\
  c' = (if b && IsSlashActive s then slash_reserved c stash amount else c) /\
  (b && IsSlashActive s = false -> amount = 0).
Proof.
  intros Hi Ho. unfold handle_offence. unfold bind at 1. unfold gets at 1. cbn [snd].
  destruct (ValidatorOffences s !! who) as [i|] eqn:E.
  - pose proof (perbill_mul_bounds _ _ (Hi i eq_refl) Ho) as Hm.
    unfold bind, gets. cbn [snd]. destruct (is_offence_count_exceeds _ _ _); cbn.
    + unfold try_slash, bind, gets. cbn. destruct (IsSlashActive s); cbn; intros [= <- <- <- <-];
        (split; [lia|done]).
    + intros [= <- <- <- <-]. split; [lia|done].
  - cbn. intros [= <- <- <- <-]. split; [lia|done].
Qed.

(** The session refresh keeps exactly the records whose last offence is
    not older than the expiration, and changes nothing else. *)
Theorem refresh_keeps_unexpired (session : SessionIndex) (s : OffencesStorage) (v : AccountId) :
  (forall i, ValidatorOffences s !! v = Some i -> 0 <= session - latest_offence_session_index i < u32_modulus) ->
  exists s', off_refresh_offences session s = (Done tt, s') /\
    ValidatorOffences s' !! v =
      match ValidatorOffences s !! v with
      | Some i => if session - latest_offence_session_index i <=? OffenceExpirationInSessions s
                  then Some i else None
      | None => None
      end /\ s' = s <| ValidatorOffences := ValidatorOffences s' |>.
Proof.
  intros Hs. eexists. split; [done|]. fields. split; [|done].
  destruct (ValidatorOffences s !! v) as [i|] eqn:E.
  - specialize (Hs i eq_refl). destruct (Z.leb_spec (session - latest_offence_session_index i)
      (OffenceExpirationInSessions s)).
    + apply map_lookup_filter_Some. split; [done|]. cbn. rewrite u32_sub_small; lia.
    + apply map_lookup_filter_None. right. intros x Hx. simplify_eq. cbn.
      rewrite u32_sub_small by lia. lia.
  - apply map_lookup_filter_None. by left.
Qed.
End Theorems.

(** ** Witnesses *)

Definition offence_1 : Offence := mkOffence 1 3 1000 70 70 0 70000000.
Definition offence_2 : Offence := mkOffence 1 4 1000 70 70 0 70000000.
Definition one_offence : OffencesStorage :=
  offences_start <| ValidatorOffences := {[ 11%N := new_offence_info offence_1 ]} |>.

(** The maximum is one offence: the second one is punished, by the fraction
    of the first. *)
Lemma handle_offence_witness : exists s',
  handle_offence 11%N 1%N Basic offence_2 (rich, one_offence) =
    (Done (true, 70), (slash_reserved rich 1%N 70, s')) /\
  ValidatorOffences s' !! 11%N = None.
Proof.
  destruct (handle_offence_refines 11%N 1%N Basic offence_2 [offence_1] rich one_offence)
    as (s' & H1 & H2 & _); [by repeat constructor|by vm_compute|by vm_compute|reflexivity|].
  exists s'. split; [exact H1|exact H2].
Defined.
Lemma penalty_witness : 0 <= 70 <= 1000.
Proof.
  apply (penalty_within_self_bond 11%N 1%N Basic offence_2 rich (slash_reserved rich 1%N 70)
    one_offence (handle_offence 11%N 1%N Basic offence_2 (rich, one_offence)).2.2 true 70).
  - intros i Hi. vm_compute in Hi. injection Hi as <-. by vm_compute.
  - done.
  - by vm_compute.
Defined.
Lemma refresh_witness : exists s', off_refresh_offences 9 one_offence = (Done tt, s') /\
  ValidatorOffences s' !! 11%N = None.
Proof.
  destruct (refresh_keeps_unexpired 9 one_offence 11%N) as (s' & H1 & H2 & _).
  - intros i Hi. vm_compute in Hi. injection Hi as <-. by vm_compute.
  - exists s'. split; [exact H1|]. by rewrite H2.
Defined.
