(* ===== verification/RelayInv.v ===== *)
(** * The invariant of the relay manager

    The bonded controllers and the relayer states are inverse of each other,
    and the relayer pool lists the same pairs, once each. *)

From S2P Require Import Prelude Logic Errors Primitives RelayManager.
Local Open Scope Z_scope.
Local Open Scope frame_scope.

Section Invariant.
Context {Q : Type} `{!RelayEnv Q}.
Implicit Types s : RmStorage Q.

Record relay_ok (bonded : gmap N AccountId) (states : gmap N RelayerMetadata) (pool : list Relayer)
    : Prop := mkRelayOk {
  y_bonded : forall c r, bonded !! c = Some r -> rm_controller <$> states !! r = Some c;
  y_state : forall r m, states !! r = Some m -> bonded !! rm_controller m = Some r;
  y_pool : forall x, x ∈ pool <-> bonded !! rl_controller x = Some (rl_relayer x);
  y_nodup : NoDup (rl_relayer <$> pool)
}.
Definition relay_inv s : Prop := relay_ok (BondedController s) (RelayerState s) (RelayerPool s).

(** The part of the storage the invariant is about. *)
Definition bonds_view s := (BondedController s, RelayerState s, RelayerPool s).
Lemma relay_inv_view s s' : bonds_view s' = bonds_view s -> relay_inv s -> relay_inv s'.
Proof. unfold bonds_view, relay_inv. by intros [= -> -> ->]. Qed.
Lemma keeps_of_view {A} (m : M (RmStorage Q) DispatchError A) :
  preserves bonds_view m -> keeps relay_inv m.
Proof. intros Hp. eapply keeps_preserves; [done|]. apply relay_inv_view. Qed.

(** Two controllers of one relayer are the same. *)
Lemma bonded_inj bonded states pool c c' r :
  relay_ok bonded states pool -> bonded !! c = Some r -> bonded !! c' = Some r -> c = c'.
Proof. intros [] H1 H2. apply y_bonded0 in H1. apply y_bonded0 in H2. congruence. Qed.

Lemma relay_ok_update bonded states pool r m m' :
  relay_ok bonded states pool -> states !! r = Some m -> rm_controller m' = rm_controller m ->
  relay_ok bonded (<[r := m']> states) pool.
Proof.
  intros [] Hr Hm. split; try done.
  - intros c x Hc. destruct (decide (x = r)) as [->|]; [|by rewrite lookup_insert_ne; eauto].
    rewrite lookup_insert_eq. cbn. rewrite Hm. apply y_bonded0 in Hc. by rewrite Hr in Hc.
  - intros x y [[<- <-]|[? Hx]]%lookup_insert_Some; [|by apply y_state0].
    rewrite Hm. by apply y_state0.
Qed.

Lemma relay_ok_join bonded states pool r c m :
  relay_ok bonded states pool -> states !! r = None -> bonded !! c = None -> rm_controller m = c ->
  relay_ok (<[c := r]> bonded) (<[r := m]> states) (pool ++ [mkRelayer r c]).
Proof.
  intros Hok Hr Hc <-. pose proof Hok as [].
  assert (forall c', bonded !! c' <> Some r) as Hnr.
  { intros c' H. apply y_bonded0 in H. by rewrite Hr in H. }
  split.
  - intros c' x [[<- <-]|[? Hx]]%lookup_insert_Some; [by rewrite lookup_insert_eq|].
    rewrite lookup_insert_ne; [by apply y_bonded0|]. intros <-. by eapply Hnr.
  - intros x m' [[<- <-]|[? Hx]]%lookup_insert_Some; [apply lookup_insert_eq|].
    rewrite lookup_insert_ne; [by apply y_state0|]. intros E. apply y_state0 in Hx. congruence.
  - intros x. rewrite elem_of_app, list_elem_of_singleton, y_pool0. split.
    + intros [Hx| ->]; [|apply lookup_insert_eq]. rewrite lookup_insert_ne; [done|congruence].
    + intros [[-> ->]|[? Hx]]%lookup_insert_Some; [right; by destruct x|by left].
  - rewrite fmap_app. apply NoDup_app. split_and!; [done| |apply NoDup_singleton].
    intros y (x & -> & Hx)%list_elem_of_fmap Hy. cbn in Hy. apply list_elem_of_singleton in Hy.
    apply y_pool0 in Hx. rewrite Hy in Hx. by eapply Hnr.
Qed.

(** The pool without the entries of one account. *)
Definition pool_without (by_relayer : bool) (acc : AccountId) (pool : list Relayer) : list Relayer :=
  filter (fun x => (if by_relayer then rl_relayer x else rl_controller x) <> acc) pool.

Lemma pool_without_same bonded states pool c r :
  relay_ok bonded states pool -> bonded !! c = Some r ->
  forall b x, x ∈ pool_without b (if b : bool then r else c) pool <-> x ∈ pool /\ x <> mkRelayer r c.
Proof.
  intros Hok Hc b x. unfold pool_without. rewrite list_elem_of_filter. split.
  - intros [Hx Hin]. split; [done|]. intros ->. by destruct b.
  - intros [Hin Hx]. split; [|done]. intros Heq. apply Hx. pose proof (proj1 (y_pool _ _ _ Hok x) Hin) as Hb.
    destruct b.
    + rewrite Heq in Hb. pose proof (bonded_inj _ _ _ _ _ _ Hok Hb Hc). destruct x; cbn in *; congruence.
    + rewrite Heq, Hc in Hb. destruct x; cbn in *; congruence.
Qed.
Lemma pool_without_nodup b acc pool :
  NoDup (rl_relayer <$> pool) -> NoDup (rl_relayer <$> pool_without b acc pool).
Proof.
  intros Hn. eapply sublist_NoDup; [exact Hn|]. apply fmap_sublist, sublist_filter.
Qed.

Lemma relay_ok_leave bonded states pool b c r :
  relay_ok bonded states pool -> bonded !! c = Some r ->
  relay_ok (delete c bonded) (delete r states) (pool_without b (if b : bool then r else c) pool).
Proof.
  intros Hok Hc. pose proof Hok as []. split.
  - intros c' x [Hne Hx]%lookup_delete_Some. rewrite lookup_delete_ne; [by apply y_bonded0|].
    intros <-. apply Hne. by eapply bonded_inj.
  - intros x m [Hne Hx]%lookup_delete_Some. apply y_state0 in Hx.
    rewrite lookup_delete_ne; [done|]. intros E. rewrite <- E in Hx. congruence.
  - intros x. rewrite (pool_without_same _ _ _ c r Hok Hc), y_pool0, lookup_delete_Some.
    split; [|naive_solver]. intros [Hx Hn]. split; [|done]. intros E.
    rewrite <- E, Hc in Hx. destruct x; cbn in *; congruence.
  - by apply pool_without_nodup.
Qed.

(** ** The operations *)

Lemma relay_ok_new_controller bonded states pool old new r m :
  relay_ok bonded states pool -> bonded !! old = Some r -> states !! r = Some m ->
  bonded !! new = None ->
  relay_ok (<[new := r]> (delete old bonded)) (<[r := rl_set_controller m new]> states)
    (pool_without false old pool ++ [mkRelayer r new]).
Proof.
  intros Hok Hold Hr Hnew. pose proof (relay_ok_leave _ _ _ false old r Hok Hold) as Hl. cbn in Hl.
  rewrite <- (insert_delete_eq states). apply relay_ok_join; try done.
  - apply lookup_delete_eq.
  - apply lookup_delete_None. by right.
Qed.
Lemma relay_ok_new_relayer bonded states pool old new m :
  relay_ok bonded states pool -> states !! old = Some m -> states !! new = None ->
  relay_ok (<[rm_controller m := new]> bonded) (<[new := m]> (delete old states))
    (pool_without true old pool ++ [mkRelayer new (rm_controller m)]).
Proof.
  intros Hok Hold Hnew. pose proof (y_state _ _ _ Hok old m Hold) as Hb.
  pose proof (relay_ok_leave _ _ _ true (rm_controller m) old Hok Hb) as Hl. cbn in Hl.
  rewrite <- (insert_delete_eq bonded). apply relay_ok_join; try done.
  - apply lookup_delete_None. by right.
  - apply lookup_delete_eq.
Qed.

Lemma keeps_update_relayer r f :
  (forall m, rm_controller (f m) = rm_controller m) -> keeps relay_inv (update_relayer r f).
Proof.
  intros Hf s Hs. unfold update_relayer, rmutate, bind, gets, expect. cbn.
  destruct (RelayerState s !! r) as [m|] eqn:E; [|done]. cbn.
  unfold relay_inv. fields. by eapply relay_ok_update.
Qed.
End Invariant.

(** [keeps relay_inv m] for functions that only change the states of relayers
    through [update_relayer]. *)
Ltac keeps_step :=
  lazymatch goal with
  | |- forall _, _ => intros
  | |- keeps _ (bind _ _) => apply keeps_bind
  | |- keeps _ (for_each _ _) => apply keeps_for_each
  | |- keeps _ (fold_each _ _ _) => apply keeps_fold_each
  | |- keeps _ (update_relayer _ _) => apply keeps_update_relayer; by intros [? [] ? ?]
  | |- keeps _ (match ?x with _ => _ end) => destruct x
  | |- keeps _ _ => first [ apply keeps_of_view; solve [frame] | progress unfold_keeps ]
  end
with unfold_keeps :=
  lazymatch goal with |- keeps _ ?m => unfold_head m end.
Ltac keep := repeat (cbv beta zeta; keeps_step).
