(* ===== verification/RelayTheorems.v ===== *)
(** * Theorems on the relay manager

    Controllers and relayers stay in one-to-one correspondence through every
    operation ([relay_step], by rule induction); the selection of a round, the
    kick-out, the replacement of a relayer and the heartbeats do what the
    staking pallet and the bridge expect of them. *)

From S2P Require Import Prelude Logic Errors Primitives RelayManager RelayInv Instances.
Local Open Scope Z_scope.
Local Open Scope frame_scope.

Section Steps.
Context {Q : Type} `{!RelayEnv Q}.
Implicit Types s : RmStorage Q.

Lemma try_push_some {A} bound (x : A) l l' : try_push bound x l = Some l' -> l' = l ++ [x].
Proof. unfold try_push. case_match; congruence. Qed.

Lemma try_insert_set_some bound x (X : gset N) :
  x ∈ X \/ Z.of_nat (size X) < bound -> try_insert_set bound x X = Some ({[x]} ∪ X).
Proof.
  unfold try_insert_set. intros Hx. case_decide as Hin.
  - f_equal. set_solver.
  - destruct Hx as [?|Hx]; [done|]. by rewrite (proj2 (Z.ltb_lt _ _)).
Qed.

Lemma join_keeps r c s s' :
  relay_inv s -> rm_join_relayers r c s = (Done tt, s') -> relay_inv s'.
Proof.
  intros Hi. unfold rm_join_relayers, verify_relayer_existence, add_to_relayer_pool, rm_deposit,
    rmutate, rput. intros Hs. mrun. unfold relay_inv. fields.
  repeat match goal with
  | Hb : negb _ = true |- _ => apply negb_true_iff in Hb
  | Hb : try_push _ _ _ = Some _ |- _ => apply try_push_some in Hb as ->
  end.
  apply relay_ok_join; try done.
  - unfold is_relayer in *. cbn in *.
    match goal with Hb : bool_decide (is_Some (RelayerState _ !! _)) = false |- _ =>
      apply bool_decide_eq_false in Hb; by apply eq_None_not_Some end.
  - match goal with Hb : bool_decide (is_Some (BondedController _ !! _)) = false |- _ =>
      apply bool_decide_eq_false in Hb; by apply eq_None_not_Some end.
Qed.

Lemma leave_keeps c : keeps (relay_inv (Q := Q)) (rm_leave_relayers c).
Proof.
  intros s Hs. unfold rm_leave_relayers, remove_from_relayer_pool, rmutate, rput, bind, gets. cbn.
  destruct (BondedController s !! c) as [r|] eqn:E; [|done]. cbn.
  unfold relay_inv. fields. by apply (relay_ok_leave _ _ _ true).
Qed.

Lemma replace_controller_keeps old new s s' :
  relay_inv s -> BondedController s !! new = None ->
  rm_replace_bonded_controller old new s = (Done tt, s') -> relay_inv s'.
Proof.
  intros Hi Hnew. unfold rm_replace_bonded_controller, remove_from_relayer_pool, update_relayer,
    rmutate, rput. intros Hs. mrun. unfold id in *.
  destruct (BondedController _ !! old) as [r|] eqn:E; mrun; [|done].
  match goal with Hb : try_push _ _ _ = Some _ |- _ => apply try_push_some in Hb as -> end.
  unfold relay_inv. fields. by apply relay_ok_new_controller.
Qed.

(** The pool and the selection after the replacement of a relayer: the two
    bounded containers have room, because an entry was removed from each. *)
Lemma replace_bonded_relayer_runs sv old new s (W : bool -> RmStorage Q -> Prop) :
  relay_inv s -> RelayerState s !! new = None -> old <> new ->
  Z.of_nat (length (RelayerPool s)) <= MAX_AUTHORITIES ->
  Z.of_nat (size (SelectedRelayers s)) <= MAX_AUTHORITIES ->
  (RelayerState s !! old = None -> W false s) ->
  (forall m s', RelayerState s !! old = Some m ->
     bonds_view s' = (<[rm_controller m := new]> (BondedController s),
                      <[new := m]> (delete old (RelayerState s)),
                      pool_without true old (RelayerPool s) ++ [mkRelayer new (rm_controller m)]) ->
     SelectedRelayers s' = (if decide (old ∈ SelectedRelayers s)
                            then {[new]} ∪ (SelectedRelayers s ∖ {[old]}) else SelectedRelayers s) ->
     W true s') ->
  runs (replace_bonded_relayer sv old new) s W.
Proof.
  intros Hi Hnew Hne Hpool Hsel Hnone Hsome. unfold replace_bonded_relayer, rmutate. wp_step. wp_step.
  unfold id. destruct (RelayerState s !! old) as [m|] eqn:E; [|wp_step; by apply Hnone].
  repeat wp_step. unfold replace_relayer_pool, remove_from_relayer_pool, rput. repeat wp_step. fields.
  fold (pool_without true old (RelayerPool s)).
  assert (length (pool_without true old (RelayerPool s)) < length (RelayerPool s))%nat as Hlt.
  { apply length_filter_lt with (mkRelayer old (rm_controller m)); [|cbn; tauto].
    apply (y_pool _ _ _ Hi). by apply (y_state _ _ _ Hi). }
  rewrite (proj2 (Nat.ltb_lt _ _)) by done. unfold add_to_relayer_pool, rput. repeat wp_step. fields.
  { unfold try_push. rewrite (proj2 (Z.ltb_lt _ _)) by lia. done. }
  repeat wp_step. unfold replace_selected_relayers, remove_from_selected_relayers, rput.
  repeat wp_step. fields. case_bool_decide as Hin.
  - unfold add_to_selected_relayers, rput. repeat wp_step. fields.
    rewrite try_insert_set_some.
    2: { right. rewrite size_difference, size_singleton by set_solver.
         assert (size (SelectedRelayers s) <> 0%nat) by (intros E0%size_empty_inv; set_solver). lia. }
    repeat wp_step. unfold refresh_latest_cached_relayers, replace_heartbeats, rmutate.
    repeat wp_step. eapply Hsome; [done|done|]. fields. by rewrite decide_True.
  - repeat wp_step. eapply Hsome; [done|done|]. fields. rewrite decide_False by done. set_solver.
Qed.

Lemma replace_relayer_keeps sv old new s s' b :
  relay_inv s -> RelayerState s !! new = None -> old <> new ->
  Z.of_nat (length (RelayerPool s)) <= MAX_AUTHORITIES ->
  Z.of_nat (size (SelectedRelayers s)) <= MAX_AUTHORITIES ->
  replace_bonded_relayer sv old new s = (Done b, s') -> relay_inv s'.
Proof.
  intros Hi Hnew Hne Hp Hsel Hs.
  enough (runs (replace_bonded_relayer sv old new) s (fun _ s' => relay_inv s')) as Hr.
  { unfold runs in Hr. by rewrite Hs in Hr. }
  apply replace_bonded_relayer_runs; try done. intros m s1 Hm Hv _.
  unfold bonds_view in Hv. injection Hv as H1 H2 H3. unfold relay_inv. rewrite H1, H2, H3.
  by apply relay_ok_new_relayer.
Qed.

(** ** The steps of the relay manager *)

(** Calls, and the functions the staking pallet calls. A controller is moved
    to an account that controls no relayer and a relayer to an account that is
    none: [set_controller] and [set_relayer] check it. *)
Inductive relay_step : RmStorage Q -> RmStorage Q -> Prop :=
| rs_join r c s s' : rm_join_relayers r c s = (Done tt, s') -> relay_step s s'
| rs_leave c s s' : rm_leave_relayers c s = (Done tt, s') -> relay_step s s'
| rs_controller old new s s' : BondedController s !! new = None ->
    rm_replace_bonded_controller old new s = (Done tt, s') -> relay_step s s'
| rs_relayer sv old new b s s' : RelayerState s !! new = None -> old <> new ->
    Z.of_nat (length (RelayerPool s)) <= MAX_AUTHORITIES ->
    Z.of_nat (size (SelectedRelayers s)) <= MAX_AUTHORITIES ->
    replace_bonded_relayer sv old new s = (Done b, s') -> relay_step s s'
| rs_kickout c s s' : rm_kickout_relayer c s = (Done tt, s') -> relay_step s s'
| rs_round r s s' : rm_refresh_round r s = (Done tt, s') -> relay_step s s'
| rs_selected r l s s' : rm_refresh_selected_relayers r l s = (Done tt, s') -> relay_step s s'
| rs_majority r s s' : refresh_majority r s = (Done tt, s') -> relay_step s s'
| rs_heartbeats sv s s' : rm_collect_heartbeats sv s = (Done tt, s') -> relay_step s s'
| rs_heartbeat sv o s s' : heartbeat sv o s = (Done tt, s') -> relay_step s s'
| rs_heartbeat_v2 sv o i h s s' : heartbeat_v2 sv o i h s = (Done tt, s') -> relay_step s s'
| rs_set_relayer o new s s' : set_relayer o new s = (Done tt, s') -> relay_step s s'
| rs_cancel o s s' : cancel_relayer_set o s = (Done tt, s') -> relay_step s s'.

Inductive relay_reachable : RmStorage Q -> Prop :=
| ry_start s : BondedController s = ∅ -> RelayerState s = ∅ -> RelayerPool s = [] ->
    relay_reachable s
| ry_step s s' : relay_reachable s -> relay_step s s' -> relay_reachable s'.

Lemma kickout_keeps c : keeps (relay_inv (Q := Q)) (rm_kickout_relayer c).
Proof. keep. Qed.
Lemma selected_keeps r l : keeps (relay_inv (Q := Q)) (rm_refresh_selected_relayers r l).
Proof. keep. Qed.
Lemma heartbeats_keeps sv : keeps (relay_inv (Q := Q)) (rm_collect_heartbeats sv).
Proof. keep. Qed.
Lemma heartbeat_keeps sv o : keeps (relay_inv (Q := Q)) (heartbeat sv o).
Proof. keep. Qed.
Lemma heartbeat_v2_keeps sv o i h : keeps (relay_inv (Q := Q)) (heartbeat_v2 sv o i h).
Proof. keep. Qed.
Lemma other_keeps :
  (forall r, keeps (relay_inv (Q := Q)) (rm_refresh_round r)) /\
  (forall r, keeps (relay_inv (Q := Q)) (refresh_majority r)) /\
  (forall o new, keeps (relay_inv (Q := Q)) (set_relayer o new)) /\
  (forall o, keeps (relay_inv (Q := Q)) (cancel_relayer_set o)).
Proof. split_and!; keep. Qed.

Lemma relay_step_inv s s' : relay_step s s' -> relay_inv s -> relay_inv s'.
Proof.
  intros Hstep Hi. destruct other_keeps as (H1 & H2 & H3 & H4).
  destruct Hstep; [by eapply join_keeps| |by eapply replace_controller_keeps|
    by eapply replace_relayer_keeps|..];
    (eapply keeps_done; [|exact Hi|eassumption]);
    eauto using leave_keeps, kickout_keeps, selected_keeps, heartbeats_keeps, heartbeat_keeps,
      heartbeat_v2_keeps.
Qed.
End Steps.

Section Theorems.
Context {Q : Type} `{!RelayEnv Q}.
Implicit Types s : RmStorage Q.

Lemma empty_relay_inv s :
  BondedController s = ∅ -> RelayerState s = ∅ -> RelayerPool s = [] -> relay_inv s.
Proof.
  intros H1 H2 H3. unfold relay_inv. rewrite H1, H2, H3. split; [done|done| |constructor].
  intros x. rewrite lookup_empty. split; [by intros ?%not_elem_of_nil|done].
Qed.


(** The delayed replacement of a relayer by an account that is not one
    never fails, so the [expect] of [handle_delayed_relayer_sets] holds; it
    tells whether the old account was a relayer, and then the controller, its
    metadata and its place in the selection pass to the new account. *)
Theorem replacement_succeeds sv old new s :
  relay_inv s -> RelayerState s !! new = None -> old <> new ->
  Z.of_nat (length (RelayerPool s)) <= MAX_AUTHORITIES ->
  Z.of_nat (size (SelectedRelayers s)) <= MAX_AUTHORITIES ->
  exists s', replace_bonded_relayer sv old new s = (Done (is_relayer s old), s') /\
    relay_inv s' /\
    forall m, RelayerState s !! old = Some m ->
      RelayerState s' = <[new := m]> (delete old (RelayerState s)) /\
      BondedController s' = <[rm_controller m := new]> (BondedController s) /\
      (old ∈ SelectedRelayers s ->
         SelectedRelayers s' = {[new]} ∪ (SelectedRelayers s ∖ {[old]})).
Proof.
  intros Hi Hnew Hne Hp Hsel.
  assert (runs (replace_bonded_relayer sv old new) s (fun b s' => b = is_relayer s old /\
    forall m, RelayerState s !! old = Some m ->
      RelayerState s' = <[new := m]> (delete old (RelayerState s)) /\
      BondedController s' = <[rm_controller m := new]> (BondedController s) /\
      (old ∈ SelectedRelayers s ->
         SelectedRelayers s' = {[new]} ∪ (SelectedRelayers s ∖ {[old]})))) as Hr.
  { unfold is_relayer. apply replace_bonded_relayer_runs; try done.
    - intros E. rewrite E. split; [by rewrite bool_decide_false by by intros []|done].
    - intros m s' Hm Hv Hs. unfold bonds_view in Hv. injection Hv as H1 H2 H3.
      rewrite Hm. split; [by rewrite bool_decide_true|]. intros m' [= <-].
      split_and!; [done..|]. intros Hin. by rewrite Hs, decide_True. }
  apply runs_iff in Hr as (b & s' & Hs & -> & Hm). exists s'. split_and!; [done| |done].
  by eapply replace_relayer_keeps.
Qed.

(** The relayers bonded to a list of controllers. *)
Definition relayers_of (bonded : gmap N AccountId) (controllers : list AccountId) : gset N :=
  list_to_set (omap (fun c => bonded !! c) controllers).

Lemma size_add_le (r : N) (X : gset N) : (size ({[r]} ∪ X) <= S (size X))%nat.
Proof.
  rewrite size_union_alt, size_singleton.
  pose proof (subseteq_size (X ∖ {[r]}) X ltac:(set_solver)). lia.
Qed.

Lemma runs_update_relayer r f s m (W : unit -> RmStorage Q -> Prop) :
  RelayerState s !! r = Some m ->
  W tt (s <| RelayerState ::= <[r := f m]> |>) -> runs (update_relayer r f) s W.
Proof. intros Hm HW. unfold update_relayer, rmutate, id. by repeat wp_step. Qed.

Lemma bonded_state s c r :
  relay_inv s -> BondedController s !! c = Some r -> exists m, RelayerState s !! r = Some m.
Proof. intros Hi Hc. apply (y_bonded _ _ _ Hi) in Hc. apply fmap_Some in Hc as (m & ? & _). eauto. Qed.

Lemma refresh_pool_runs s :
  relay_inv s ->
  runs refresh_relayer_pool s (fun _ s' =>
    relay_inv s' /\ BondedController s' = BondedController s /\
    (SelectedRelayers s', RmStorageCacheLifetime s', CachedSelectedRelayers s') =
      (SelectedRelayers s, RmStorageCacheLifetime s, CachedSelectedRelayers s)).
Proof.
  intros Hi. unfold refresh_relayer_pool. wp_step. wp_step.
  apply (runs_for_each (fun l s' => relay_inv s' /\ BondedController s' = BondedController s /\
    (SelectedRelayers s', RmStorageCacheLifetime s', CachedSelectedRelayers s') =
      (SelectedRelayers s, RmStorageCacheLifetime s, CachedSelectedRelayers s) /\
    forall x, x ∈ l -> BondedController s !! rl_controller x = Some (rl_relayer x))).
  - split_and!; [done..|]. intros x. apply (y_pool _ _ _ Hi).
  - intros x l s1 (Hi1 & Hb & Hv & Hl).
    destruct (bonded_state s1 (rl_controller x) (rl_relayer x) Hi1) as [m Hm].
    { rewrite Hb. apply Hl. set_solver. }
    eapply runs_update_relayer; [done|]. split_and!; [|done..|].
    + unfold relay_inv. fields. eapply relay_ok_update; [done|done|]. by destruct m as [? [] ? ?].
    + intros y Hy. apply Hl. set_solver.
  - intros s' (? & ? & ? & _). done.
Qed.

(** The relayers selected for a round are exactly the relayers bonded to
    the selected controllers; the same set is kept as the initial selection of
    the round and cached under the round, and no [expect] fails. *)
Theorem selection_of_relayers round controllers s :
  relay_inv s -> Z.of_nat (length controllers) <= MAX_AUTHORITIES ->
  exists s', rm_refresh_selected_relayers round controllers s = (Done tt, s') /\
    SelectedRelayers s' = relayers_of (BondedController s) controllers /\
    InitialSelectedRelayers s' = SelectedRelayers s' /\
    CachedSelectedRelayers s' !! round = Some (SelectedRelayers s') /\ relay_inv s'.
Proof.
  intros Hi Hlen.
  enough (runs (rm_refresh_selected_relayers round controllers) s (fun _ s' =>
    SelectedRelayers s' = relayers_of (BondedController s) controllers /\
    InitialSelectedRelayers s' = SelectedRelayers s' /\
    CachedSelectedRelayers s' !! round = Some (SelectedRelayers s'))) as Hr.
  { apply runs_iff in Hr as ([] & s' & Hs & H1 & H2 & H3). exists s'. split_and!; [done..|].
    eapply keeps_done; [apply selected_keeps|exact Hi|exact Hs]. }
  unfold rm_refresh_selected_relayers. wp_step.
  eapply runs_mono; [by apply refresh_pool_runs|]. intros [] s1 (Hi1 & Hb & Hv). cbv beta.
  wp_step. apply (runs_fold_each (fun X l s' => relay_inv s' /\ BondedController s' = BondedController s /\
    X ∪ relayers_of (BondedController s) l = relayers_of (BondedController s) controllers /\
    Z.of_nat (size X) + Z.of_nat (length l) <= MAX_AUTHORITIES)).
  - split_and!; [done|done|set_solver|]. rewrite size_empty. lia.
  - intros X c l s2 (Hi2 & Hb2 & HX & Hs). wp_step. wp_step. unfold id. rewrite Hb2.
    cbn [length] in Hs. unfold relayers_of in HX. cbn in HX.
    destruct (BondedController s !! c) as [r|] eqn:E; cbn in HX.
    + wp_step. wp_step; [apply try_insert_set_some; right; lia|].
      destruct (bonded_state s2 c r Hi2 ltac:(by rewrite Hb2)) as [m Hm].
      wp_step. eapply runs_update_relayer; [done|]. cbv beta. unfold rm_deposit, rmutate.
      repeat wp_step. split_and!; [|done| |].
      * unfold relay_inv. fields. by eapply relay_ok_update.
      * unfold relayers_of. rewrite <- HX. set_solver.
      * pose proof (size_add_le r X). lia.
    + wp_step. split_and!; [done|done|done|lia].
  - intros X s3 (Hi3 & Hb3 & HX & _). unfold rput. repeat wp_step.
    unfold refresh_cached_selected_relayers, rput. repeat wp_step. fields.
    split_and!; [|done|apply lookup_insert_eq]. rewrite <- HX. unfold relayers_of. cbn. set_solver.
Qed.

(** Kicking out the relayer of a controller marks it, takes it out of the
    selection, and, if it was selected, makes the majority and its cache those
    of the selection that is left. *)
Theorem kickout_relayer_effect controller r s :
  relay_inv s -> BondedController s !! controller = Some r ->
  exists s', rm_kickout_relayer controller s = (Done tt, s') /\
    (rm_status <$> RelayerState s' !! r) = Some RKickedOut /\
    SelectedRelayers s' = SelectedRelayers s ∖ {[r]} /\
    (r ∈ SelectedRelayers s ->
       RmMajority s' = rm_compute_majority s' /\
       RmCachedMajority s' !! RmRound s' = Some (rm_compute_majority s') /\
       CachedSelectedRelayers s' !! RmRound s' = Some (SelectedRelayers s')) /\
    (r ∉ SelectedRelayers s -> RmMajority s' = RmMajority s).
Proof.
  intros Hi Hc. destruct (bonded_state s controller r Hi Hc) as [m Hm].
  match goal with |- exists s', ?f s = _ /\ @?W s' => enough (runs f s (fun _ s' => W s')) as Hr;
    [by apply runs_iff in Hr as ([] & s' & ? & ?); exists s'|] end.
  unfold rm_kickout_relayer. wp_step. wp_step. unfold id. rewrite Hc. wp_step.
  eapply runs_update_relayer; [done|]. unfold remove_from_selected_relayers, rput. repeat wp_step. fields.
  case_bool_decide as Hin.
  - unfold refresh_latest_cached_relayers, refresh_latest_cached_majority, rmutate, rput.
    repeat wp_step. unfold majority, rm_compute_majority, id. fields.
    rewrite !lookup_insert_eq. by split_and!.
  - wp_step. fields. rewrite lookup_insert_eq. by split_and!.
Qed.

Lemma heartbeat_pulsed sv relayer s :
  is_relayer s relayer = true -> is_selected_relayer s relayer false = true ->
  received_heartbeat s (sv_session_index sv) relayer = true ->
  heartbeat sv (SignedOrigin relayer) s = (Done tt, s).
Proof.
  intros H1 H2 H3.
  enough (runs (heartbeat sv (SignedOrigin relayer)) s (fun _ s' => s' = s)) as Hr.
  { apply runs_iff in Hr as ([] & s' & Hs & ->). done. }
  unfold heartbeat, ensure_signed, pulse_heartbeat. repeat wp_step. unfold id. rewrite H3.
  by repeat wp_step.
Qed.

(** A second heartbeat of a relayer in the same session is accepted and
    changes nothing. *)
Theorem heartbeat_idempotent sv relayer s s' :
  heartbeat sv (SignedOrigin relayer) s = (Done tt, s') ->
  heartbeat sv (SignedOrigin relayer) s' = (Done tt, s').
Proof.
  unfold heartbeat at 1. unfold ensure_signed, pulse_heartbeat, update_relayer, rm_deposit, rmutate.
  intros Hs. mrun. unfold id in *.
  destruct (received_heartbeat s (sv_session_index sv) relayer) eqn:E; cbn [negb] in *; mrun.
  - by apply heartbeat_pulsed.
  - apply heartbeat_pulsed; unfold is_relayer, received_heartbeat; fields; [|done|].
    + rewrite lookup_insert_eq. by apply bool_decide_eq_true.
    + by rewrite lookup_insert_eq.
Qed.

(** The validators of a session whose relayer sent no heartbeat. *)
Definition silent (sv : SessionView) s (v : AccountId) : bool :=
  match BondedController s !! v with
  | Some r => negb (is_heartbeat_pulsed sv s r)
  | None => false
  end.
Definition offenders_of (sv : SessionView) s (l : list AccountId) : list AccountId :=
  filter (fun v => silent sv s v && sv_identified sv v = true) l.
(** The relayers after the validators [l] were examined. *)
Definition relayers_after (sv : SessionView) s (l : list AccountId) (r : AccountId)
    : option RelayerMetadata :=
  if existsb (fun v => silent sv s v && bool_decide (BondedController s !! v = Some r)) l
  then rl_go_offline <$> RelayerState s !! r else RelayerState s !! r.

Lemma collect_offenders_runs sv s :
  relay_inv s ->
  runs (collect_offenders sv) s (fun offenders s' =>
    offenders = offenders_of sv s (sv_validators sv) /\
    (forall r, RelayerState s' !! r = relayers_after sv s (sv_validators sv) r) /\
    s' = s <| RelayerState := RelayerState s' |>).
Proof.
  intros Hi. unfold collect_offenders.
  apply (runs_fold_each (fun acc l s' => exists prev, sv_validators sv = prev ++ l /\ relay_inv s' /\
    acc = offenders_of sv s prev /\ (forall r, RelayerState s' !! r = relayers_after sv s prev r) /\
    s' = s <| RelayerState := RelayerState s' |>)).
  - exists []. split_and!; try done. by destruct s.
  - intros acc v l s1 (prev & Hl & Hi1 & -> & Hr & Hs). wp_step. wp_step. unfold id.
    assert (BondedController s1 = BondedController s) as Hb by by rewrite Hs.
    assert (is_heartbeat_pulsed sv s1 = is_heartbeat_pulsed sv s) as Hp by by rewrite Hs.
    rewrite Hb, Hp.
    assert (offenders_of sv s (prev ++ [v]) = offenders_of sv s prev ++
      (if silent sv s v && sv_identified sv v then [v] else [])) as Ho.
    { unfold offenders_of. rewrite filter_app. f_equal. rewrite filter_cons, filter_nil.
      by destruct (_ && _). }
    assert (forall r, relayers_after sv s (prev ++ [v]) r =
      if silent sv s v && bool_decide (BondedController s !! v = Some r)
      then rl_go_offline <$> RelayerState s !! r else relayers_after sv s prev r) as Ha.
    { intros r. unfold relayers_after. rewrite existsb_app. cbn. rewrite orb_false_r.
      by destruct (existsb _ prev), (silent sv s v && bool_decide (BondedController s !! v = Some r)). }
    destruct (BondedController s !! v) as [r|] eqn:E; [destruct (negb _) eqn:Esil|].
    + destruct (bonded_state s1 v r Hi1 ltac:(by rewrite Hb)) as [m Hm]. wp_step.
      eapply runs_update_relayer; [done|]. cbv beta. wp_step.
      assert (silent sv s v = true) as Hsil by (unfold silent; by rewrite E).
      exists (prev ++ [v]). rewrite <- app_assoc. split_and!; [done| | | |].
      * unfold relay_inv. fields. by eapply relay_ok_update.
      * rewrite Ho, Hsil. cbn [andb]. by destruct (sv_identified sv v); rewrite ?app_nil_r.
      * intros x. fields. rewrite Ha, Hsil. cbn [andb]. case_bool_decide as Hx.
        -- injection Hx as <-. rewrite lookup_insert_eq. pose proof (Hr r) as Hrr. rewrite Hm in Hrr.
           unfold relayers_after in Hrr. destruct (existsb _ prev).
           ++ destruct (RelayerState s !! r) as [m0|]; [|done]. injection Hrr as ->. by destruct m0.
           ++ by rewrite <- Hrr.
        -- rewrite lookup_insert_ne by congruence. apply Hr.
      * fields. by rewrite Hs at 1.
    + wp_step. exists (prev ++ [v]). rewrite <- app_assoc.
      assert (silent sv s v = false) as Hsil by (unfold silent; by rewrite E).
      rewrite Ho, Hsil, app_nil_r. split_and!; try done. intros x. by rewrite Ha, Hsil.
    + wp_step. exists (prev ++ [v]). rewrite <- app_assoc.
      assert (silent sv s v = false) as Hsil by (unfold silent; by rewrite E).
      rewrite Ho, Hsil, app_nil_r. split_and!; try done. intros x. by rewrite Ha, Hsil.
  - intros acc s' (prev & Hl & _ & -> & Hr & Hs). rewrite app_nil_r in Hl. by rewrite Hl.
Qed.

(** The collection of a session's heartbeats never fails: it puts the
    relayers that sent none offline, forgets the heartbeats of the session and
    no other, says which validators are offenders, and reports them exactly
    when there are some and the offence is active. *)
Theorem collect_heartbeats_effect sv s :
  relay_inv s ->
  let off := offenders_of sv s (sv_validators sv) in
  exists s', rm_collect_heartbeats sv s = (Done tt, s') /\
    (forall r, RelayerState s' !! r = relayers_after sv s (sv_validators sv) r) /\
    (forall i who, received_heartbeat s' i who =
       if decide (i = sv_session_index sv) then false else received_heartbeat s i who) /\
    RmEvents s' = RmEvents s ++ [match off with [] => EvAllGood | _ => EvSomeOffline off end] /\
    Env s' = if bool_decide (off <> []) && IsHeartbeatOffenceActive s
             then report_offence (mkUnresponsivenessOffence (sv_session_index sv)
                    (Z.of_nat (length (sv_validators sv)) mod u32_modulus) off
                    (HeartbeatSlashFraction s)) (Env s)
             else Env s.
Proof.
  intros Hi off.
  match goal with |- exists s', ?f s = _ /\ @?W s' => enough (runs f s (fun _ s' => W s')) as Hr;
    [by apply runs_iff in Hr as ([] & s' & ? & ?); exists s'|] end.
  unfold rm_collect_heartbeats. wp_step.
  eapply runs_mono; [by apply collect_offenders_runs|]. fold off.
  intros offs s1 (-> & Hr & Hs). cbv beta. unfold rm_deposit, rmutate, id. wp_step. wp_step.
  assert (ReceivedHeartbeats s1 = ReceivedHeartbeats s) as E1 by by rewrite Hs.
  assert (RmEvents s1 = RmEvents s) as E2 by by rewrite Hs.
  assert (Env s1 = Env s) as E3 by by rewrite Hs.
  assert (IsHeartbeatOffenceActive s1 = IsHeartbeatOffenceActive s) as E4 by by rewrite Hs.
  assert (HeartbeatSlashFraction s1 = HeartbeatSlashFraction s) as E5 by by rewrite Hs.
  clear Hs.
  assert (forall X : RmStorage Q, ReceivedHeartbeats X =
      filter (fun kv : Z * N * bool => kv.1.1 <> sv_session_index sv) (ReceivedHeartbeats s1) ->
      forall i who, received_heartbeat X i who =
       if decide (i = sv_session_index sv) then false else received_heartbeat s i who) as Hh.
  { intros X HX i who. unfold received_heartbeat. rewrite HX, E1, map_lookup_filter.
    destruct (ReceivedHeartbeats s !! (i, who)); cbn; repeat case_decide; by repeat case_guard. }
  destruct off as [|o l] eqn:Eoff; cbv iota beta.
  - wp_step. fields. split_and!; [done|by apply Hh|by rewrite E2|done].
  - wp_step. wp_step. wp_step. rewrite bool_decide_true by done. cbn [andb].
    match goal with |- context [if IsHeartbeatOffenceActive ?x then modify _ else _] =>
      change (IsHeartbeatOffenceActive x) with (IsHeartbeatOffenceActive s1) end.
    rewrite E4. destruct (IsHeartbeatOffenceActive s) eqn:Ea; repeat wp_step; fields;
      (split_and!; [done|by apply Hh|by rewrite E2|]); [by rewrite E3, E5|done].
Qed.
End Theorems.

(** ** Concrete runs *)

(** Relayers 11 and 12 of the controllers 1 and 2, both selected in round 1. *)
Definition relays1 : RmStorage Bridge := (rm_join_relayers 11%N 1%N relay_start).2.
Definition relays2 : RmStorage Bridge := (rm_join_relayers 12%N 2%N relays1).2.
Definition relays3 : RmStorage Bridge := (rm_refresh_selected_relayers 1 [1%N; 2%N] relays2).2.
Definition relays : RmStorage Bridge := (refresh_majority 1 relays3).2.
Definition session : SessionView := {|
  sv_session_index := 7; sv_validators := [1%N; 2%N]; sv_has_keys := fun _ => true;
  sv_identified := fun _ => true |}.

Lemma relay_steps :
  relay_step relay_start relays1 /\ relay_step relays1 relays2 /\
  relay_step relays2 relays3 /\ relay_step relays3 relays.
Proof.
  split_and!.
  - apply rs_join with 11%N 1%N. by vm_compute.
  - apply rs_join with 12%N 2%N. by vm_compute.
  - apply rs_selected with 1 [1%N; 2%N]. by vm_compute.
  - apply rs_majority with 1. by vm_compute.
Qed.
Lemma relays_inv : relay_inv relays.
Proof.
  destruct relay_steps as (H1 & H2 & H3 & H4).
  eapply relay_step_inv; [exact H4|]. eapply relay_step_inv; [exact H3|].
  eapply relay_step_inv; [exact H2|]. eapply relay_step_inv; [exact H1|].
  by apply empty_relay_inv.
Qed.


Lemma replacement_witness :
  exists s', replace_bonded_relayer session 11%N 13%N relays = (Done true, s') /\
    SelectedRelayers s' = {[13%N]} ∪ (SelectedRelayers relays ∖ {[11%N]}).
Proof.
  destruct (replacement_succeeds session 11%N 13%N relays) as (s' & Hs & _ & Hm).
  - exact relays_inv.
  - by vm_compute.
  - done.
  - by vm_compute.
  - by vm_compute.
  - exists s'. split; [exact Hs|].
    destruct (Hm (mkRelayerMetadata 1%N RActive None None)) as (_ & _ & Hsel); [by vm_compute|].
    apply Hsel. by apply (bool_decide_unpack _); vm_compute.
Defined.

Lemma selection_witness :
  exists s', rm_refresh_selected_relayers 2 [2%N] relays = (Done tt, s') /\
    SelectedRelayers s' = {[12%N]} /\ CachedSelectedRelayers s' !! 2 = Some {[12%N]}.
Proof.
  destruct (selection_of_relayers 2 [2%N] relays) as (s' & Hs & Hsel & _ & Hc & _);
    [exact relays_inv|done|].
  exists s'. rewrite Hc, Hsel.
  assert (relayers_of (BondedController relays) [2%N] = {[12%N]}) as ->
    by (by apply (bool_decide_unpack _); vm_compute).
  by split_and!.
Defined.

Lemma kickout_relayer_witness :
  exists s', rm_kickout_relayer 1%N relays = (Done tt, s') /\
    SelectedRelayers s' = {[12%N]} /\ RmMajority s' = 1.
Proof.
  destruct (kickout_relayer_effect 1%N 11%N relays) as (s' & Hs & _ & Hsel & Hin & _);
    [exact relays_inv|by vm_compute|].
  exists s'. destruct Hin as [Hm _]; [by apply (bool_decide_unpack _); vm_compute|].
  assert (SelectedRelayers s' = {[12%N]}) as He
    by (rewrite Hsel; by apply (bool_decide_unpack _); vm_compute).
  split_and!; [exact Hs|exact He|]. rewrite Hm. unfold rm_compute_majority. by rewrite He.
Defined.

Lemma heartbeat_witness :
  heartbeat session (SignedOrigin 11%N) (heartbeat session (SignedOrigin 11%N) relays).2 =
    (Done tt, (heartbeat session (SignedOrigin 11%N) relays).2).
Proof. apply heartbeat_idempotent with relays. by vm_compute. Defined.

(** Relayer 11 sends its heartbeat, relayer 12 does not. *)
Definition one_silent : RmStorage Bridge := (heartbeat session (SignedOrigin 11%N) relays).2.
Lemma one_silent_inv : relay_inv one_silent.
Proof.
  eapply relay_step_inv; [|exact relays_inv].
  apply (rs_heartbeat session (SignedOrigin 11%N)). by vm_compute.
Qed.
Lemma collect_heartbeats_witness :
  exists s', rm_collect_heartbeats session one_silent = (Done tt, s') /\
    RelayerState s' !! 12%N = Some (mkRelayerMetadata 2%N RIdle None None) /\
    RmEvents s' = RmEvents one_silent ++ [EvSomeOffline [2%N]] /\
    length (br_reports (Env s')) = 1%nat.
Proof.
  destruct (collect_heartbeats_effect session one_silent one_silent_inv)
    as (s' & Hs & Hr & _ & Hev & Henv).
  exists s'. split_and!; [exact Hs| | |].
  - rewrite Hr. by vm_compute.
  - rewrite Hev. by vm_compute.
  - rewrite Henv. by vm_compute.
Defined.
