(* ===== verification/SelectionTheorems.v ===== *)
(** * Theorems on the selection of validators

    Which candidates a round selects, what the storage records of them, and
    how the selection, its caches and the majority change when a validator goes
    offline or is kicked out. *)

From S2P Require Import Prelude Logic Errors Primitives StakingTypes Nominations Candidate StakingImpls StakingCalls RelayManager Instances.
Local Open Scope Z_scope.
Local Open Scope frame_scope.

(** ** The best [n] of a sorted list *)

Definition by_amount (x y : Bond) : Prop := (b_amount y <=? b_amount x) = true.

Lemma take_best (l : list Bond) n x :
  StronglySorted by_amount l -> x ∈ l -> x ∉ take n l ->
  length (take n l) = n /\ Forall (fun w => b_amount x <= b_amount w) (take n l).
Proof.
  revert n. induction l as [|y l IH]; intros n Hs Hin Hout; [by apply not_elem_of_nil in Hin|].
  destruct n as [|n]; [by split|]. cbn in Hout. apply not_elem_of_cons in Hout as [Hne Hout].
  apply StronglySorted_inv in Hs as [Hs Hy]. apply elem_of_cons in Hin as [?|Hin]; [done|].
  destruct (IH n Hs Hin Hout) as [Hlen Hall]. cbn. split; [by f_equal|].
  constructor; [|done]. rewrite Forall_forall in Hy. specialize (Hy x Hin).
  unfold by_amount in Hy. lia.
Qed.

Section Selection.
Context `{Config}.
Implicit Types s : Storage.

Lemma sorted_candidates_spec s x :
  x ∈ get_sorted_candidates s <-> CandidatePool s !! b_owner x = Some (b_amount x).
Proof.
  unfold get_sorted_candidates. rewrite stable_sort_perm, list_elem_of_fmap. split.
  - intros ([k v] & -> & Hin). by apply elem_of_acc_iter in Hin.
  - intros Hx. exists (b_owner x, b_amount x). split; [by destruct x|by apply elem_of_acc_iter].
Qed.
Lemma sorted_candidates_sorted s : StronglySorted by_amount (get_sorted_candidates s).
Proof. apply stable_sort_strongly; intros; lia. Qed.
Lemma sorted_candidates_nodup s : NoDup (b_owner <$> get_sorted_candidates s).
Proof.
  unfold get_sorted_candidates. rewrite stable_sort_perm, <- list_fmap_compose.
  rewrite (list_fmap_ext _ fst); [apply NoDup_acc_iter|by intros i [k v]].
Qed.

(** What it means for [l] to be the [n] strongest candidates among those of
    the pool that satisfy [P] and have at least [min]. *)
Record strongest (pool : gmap N Balance) (P : AccountId -> bool) (n : nat) (min : Balance)
    (l : list AccountId) : Prop := mkStrongest {
  st_member : forall v, v ∈ l -> P v = true /\ exists p, pool !! v = Some p /\ min <= p;
  st_nodup : NoDup l;
  st_sorted : StronglySorted (fun a b => (a <=? b)%N = true) l;
  st_length : (length l <= n)%nat;
  st_maximal : forall v p, pool !! v = Some p -> min <= p -> P v = true -> v ∉ l ->
    length l = n /\ forall w q, w ∈ l -> pool !! w = Some q -> p <= q
}.

Lemma top_n_strongest s (P : AccountId -> bool) n min :
  strongest (CandidatePool s) P n min
    (get_top_n_candidates (filter (fun c => P (b_owner c) = true) (get_sorted_candidates s)) n min).
Proof.
  unfold get_top_n_candidates.
  set (l := filter (fun x => min <= b_amount x) _).
  assert (forall x, x ∈ l <-> CandidatePool s !! b_owner x = Some (b_amount x) /\
    P (b_owner x) = true /\ min <= b_amount x) as Hl.
  { intros x. unfold l. rewrite !list_elem_of_filter, sorted_candidates_spec. naive_solver. }
  assert (StronglySorted by_amount l) as Hs.
  { unfold l. do 2 apply StronglySorted_filter. apply sorted_candidates_sorted. }
  assert (NoDup (b_owner <$> take n l)) as Hn.
  { eapply sublist_NoDup; [apply sorted_candidates_nodup|]. apply fmap_sublist.
    transitivity l; [apply sublist_take|]. unfold l.
    etransitivity; apply sublist_filter. }
  split.
  - intros v. rewrite stable_sort_perm. intros (x & -> & Hx)%list_elem_of_fmap.
    assert (x ∈ l) as (Hp & Hpx & Hm)%Hl by (eapply elem_of_sublist; [exact Hx|apply sublist_take]).
    eauto.
  - by rewrite stable_sort_perm.
  - apply (stable_sort_strongly N.leb); intros *; rewrite !N.leb_le; lia.
  - rewrite stable_sort_perm, length_fmap, length_take. lia.
  - intros v p Hp Hm HP. rewrite stable_sort_perm. intros Hout.
    destruct (take_best l n (mkBond v p) Hs) as [Hlen Hall].
    + by apply Hl.
    + intros Hin. apply Hout, list_elem_of_fmap. by exists (mkBond v p).
    + rewrite length_fmap. split; [done|]. intros w q Hw Hq. rewrite stable_sort_perm in Hw.
      apply list_elem_of_fmap in Hw as (x & -> & Hx).
      rewrite Forall_forall in Hall. specialize (Hall x Hx). cbn in Hall.
      assert (x ∈ l) as (Hpx & _)%Hl by (eapply elem_of_sublist; [exact Hx|apply sublist_take]).
      rewrite Hq in Hpx. by injection Hpx as ->.
Qed.

(** The accounts of the tier whose self-bond reaches the tier's minimum. *)
Definition tier_ok s (full : bool) (v : AccountId) : bool := eligible s full (mkBond v 0).


(** ** The snapshots of the chosen validators *)

Definition chosen_snapshot s (v : AccountId) : option ValidatorSnapshot :=
  c ← CandidateInfo s !! v; t ← TopNominations s !! v;
  Some (mkValidatorSnapshot (c_bond c) (ns_nominations t) (c_voting_power c)).
Definition power_of s (v : AccountId) : Balance := default 0 (c_voting_power <$> CandidateInfo s !! v).
Definition mark (b : bool) (c : CandidateMetadata) : CandidateMetadata :=
  if b then set_is_selected c true else c.
Definition has_metadata s (v : AccountId) : Prop :=
  is_Some (CandidateInfo s !! v) /\ is_Some (TopNominations s !! v).

(** The storage [s'] is [s] with the validators [l] recorded for round [now]. *)
Record chosen (now : RoundIndex) (l : list AccountId) s s' : Prop := mkChosen {
  ch_stake : forall r v, AtStake s' !! (r, v) =
    if decide (r = now /\ v ∈ l) then chosen_snapshot s v else AtStake s !! (r, v);
  ch_info : forall v, CandidateInfo s' !! v = mark (bool_decide (v ∈ l)) <$> CandidateInfo s !! v;
  ch_tops : TopNominations s' = TopNominations s;
  ch_rest : (StorageCacheLifetime s', CachedSelectedCandidates s', Relay s') =
            (StorageCacheLifetime s, CachedSelectedCandidates s, Relay s)
}.

Lemma chosen_nil now s : chosen now [] s s.
Proof.
  split; [|intros v|done..].
  - intros r v. rewrite decide_False; [done|]. intros [_ ?%not_elem_of_nil]. done.
  - rewrite bool_decide_false by by intros ?%not_elem_of_nil. by destruct (_ !! _).
Qed.
Lemma chosen_same now l s s' v :
  chosen now l s s' -> chosen_snapshot s' v = chosen_snapshot s v /\ power_of s' v = power_of s v /\
    (has_metadata s v -> has_metadata s' v).
Proof.
  intros [_ Hi Ht _]. unfold chosen_snapshot, power_of, has_metadata. rewrite Ht, Hi.
  destruct (CandidateInfo s !! v) as [c|]; [|by split_and!; [..|intros [[? ?] _]]].
  cbn. unfold mark. destruct (bool_decide _); split_and!; try done; intros [_ ?]; by split.
Qed.
Lemma chosen_app now l1 l2 s s1 s2 :
  chosen now l1 s s1 -> chosen now l2 s1 s2 -> chosen now (l1 ++ l2) s s2.
Proof.
  intros Hc1 Hc2. pose proof Hc1 as [A1 I1 T1 R1]. pose proof Hc2 as [A2 I2 T2 R2]. split.
  - intros r v. rewrite A2, A1. destruct (chosen_same _ _ _ _ v Hc1) as [-> _].
    repeat case_decide; set_solver.
  - intros v. rewrite I2, I1, <- option_fmap_compose. apply option_fmap_ext. intros c. cbn.
    unfold mark. repeat case_bool_decide; first [done | set_solver].
  - congruence.
  - congruence.
Qed.

Lemma snapshot_validator_runs now acc v s :
  has_metadata s v ->
  runs (snapshot_validator now acc v) s (fun r s' => chosen now [v] s s' /\
    r.1.1 = u32_add acc.1.1 1 /\ r.2 = u128_add acc.2 (power_of s v)).
Proof.
  intros [[c Hc] [t Ht]]. destruct acc as [[vc nc] tot]. unfold snapshot_validator.
  unfold get, mutate, deposit_event. repeat wp_step. fields. split_and!.
  - split; fields; [| |done|done].
    + intros r w. unfold chosen_snapshot. destruct (decide (r = now /\ w ∈ [v])) as [[-> Hw]|Hn].
      * apply list_elem_of_singleton in Hw as ->. rewrite Hc. cbn. rewrite Ht.
        apply lookup_insert_eq.
      * apply lookup_insert_ne. intros [= <- <-]. apply Hn. by rewrite list_elem_of_singleton.
    + intros w. case_bool_decide as Hw; rewrite list_elem_of_singleton in Hw.
      * subst. by rewrite lookup_insert_eq, Hc.
      * rewrite lookup_insert_ne by done. by destruct (_ !! w).
  - done.
  - cbn. unfold power_of. by rewrite Hc.
Qed.

Lemma mod_add_l (a b : Z) : (a mod u128_modulus + b) mod u128_modulus = (a + b) mod u128_modulus.
Proof. apply Zplus_mod_idemp_l. Qed.

Lemma collect_runs now l s :
  Forall (has_metadata s) l ->
  runs (collect_validator_snapshot now l) s (fun r s' => chosen now l s s' /\
    r.1.1 = Z.of_nat (length l) mod u32_modulus /\
    r.2 = zsum (power_of s <$> l) mod u128_modulus).
Proof.
  intros Hl. unfold collect_validator_snapshot.
  apply (runs_fold_each (fun r rest s' => exists prev, l = prev ++ rest /\ chosen now prev s s' /\
    r.1.1 = Z.of_nat (length prev) mod u32_modulus /\
    r.2 = zsum (power_of s <$> prev) mod u128_modulus)).
  - exists []. split_and!; [done|apply chosen_nil|done..].
  - intros r v rest s1 (prev & -> & Hc & Hn & Ht). destruct (chosen_same _ _ _ _ v Hc) as (_ & Hp & Hm).
    eapply runs_mono; [apply snapshot_validator_runs, Hm|].
    { rewrite Forall_app, Forall_cons in Hl. tauto. }
    intros r' s2 (Hc2 & Hn2 & Ht2). exists (prev ++ [v]). rewrite <- app_assoc.
    split_and!; [done|by eapply chosen_app| |].
    + rewrite Hn2, Hn, length_app. unfold u32_add. rewrite Zplus_mod_idemp_l. f_equal. cbn. lia.
    + rewrite Ht2, Ht, Hp, fmap_app, zsum_app. unfold u128_add. rewrite mod_add_l. f_equal.
      cbn. unfold zsum. cbn. lia.
  - intros r s' (prev & -> & Hc & Hn & Ht). by rewrite app_nil_r.
Qed.

Lemma size_list_to_set_le (l : list N) : (size (list_to_set l : gset N) <= length l)%nat.
Proof.
  induction l as [|x l IH]; cbn; [by rewrite size_empty|]. rewrite size_union_alt, size_singleton.
  pose proof (subseteq_size ((list_to_set l : gset N) ∖ {[x]}) (list_to_set l) ltac:(set_solver)). lia.
Qed.
Lemma bounded_set_runs (l : list AccountId) s (W : gset N -> Storage -> Prop) :
  Z.of_nat (length l) <= MAX_AUTHORITIES -> W (list_to_set l) s -> runs (bounded_set l) s W.
Proof.
  intros Hl HW. unfold bounded_set. pose proof (size_list_to_set_le l).
  rewrite (proj2 (Z.leb_le _ _)) by lia. by wp_step.
Qed.

(** Recording the selection of a round never fails for candidates with
    metadata: the selected sets are the two lists and their union, the union
    is cached under the round, the relay manager is told of the full
    validators, each selected candidate is marked and its bonds and voting
    power are snapshot under the round (those of nobody else change), and the
    number and total voting power of the selection are returned. *)
Theorem update_top_candidates_effect now full basic s r :
  Forall (has_metadata s) (full ++ basic) ->
  Z.of_nat (length (full ++ basic)) <= MAX_AUTHORITIES ->
  refresh_selected_relayers now full (Relay s) = (Done tt, r) ->
  exists n m s', update_top_candidates now full basic s =
      (Done (n, m, zsum (power_of s <$> full ++ basic) mod u128_modulus), s') /\
    n = Z.of_nat (length (full ++ basic)) mod u32_modulus /\
    SelectedCandidates s' = list_to_set (full ++ basic) /\
    SelectedFullCandidates s' = list_to_set full /\
    SelectedBasicCandidates s' = list_to_set basic /\
    CachedSelectedCandidates s' !! now = Some (list_to_set (full ++ basic)) /\
    Relay s' = r /\
    (forall i v, AtStake s' !! (i, v) =
       if decide (i = now /\ v ∈ full ++ basic) then chosen_snapshot s v else AtStake s !! (i, v)) /\
    (forall v, CandidateInfo s' !! v =
       mark (bool_decide (v ∈ full ++ basic)) <$> CandidateInfo s !! v).
Proof.
  intros Hm Hlen Hr.
  enough (runs (update_top_candidates now full basic) s (fun x s' =>
    x.1.1 = Z.of_nat (length (full ++ basic)) mod u32_modulus /\
    x.2 = zsum (power_of s <$> full ++ basic) mod u128_modulus /\
    SelectedCandidates s' = list_to_set (full ++ basic) /\
    SelectedFullCandidates s' = list_to_set full /\
    SelectedBasicCandidates s' = list_to_set basic /\
    CachedSelectedCandidates s' !! now = Some (list_to_set (full ++ basic)) /\
    Relay s' = r /\
    exists s2, chosen now (full ++ basic) s s2 /\
      AtStake s' = AtStake s2 /\ CandidateInfo s' = CandidateInfo s2)) as Hrun.
  { apply runs_iff in Hrun as ([[n m] t] & s' & Hs & Hn & Ht & H1 & H2 & H3 & H4 & H5 & s2 & Hc & Ha & Hi).
    cbn in Hn, Ht. rewrite Ht in Hs. exists n, m, s'. split_and!; try done.
    - intros i v. rewrite Ha. by rewrite (ch_stake _ _ _ _ Hc).
    - intros v. rewrite Hi. by rewrite (ch_info _ _ _ _ Hc). }
  apply Forall_app in Hm as [Hmf Hmb]. rewrite length_app in Hlen.
  unfold update_top_candidates. wp_step.
  eapply runs_mono; [by apply collect_runs|]. intros [[fv fn] ft] s1 (Hc1 & Hn1 & Ht1). cbv beta iota.
  cbn in Hn1, Ht1. wp_step. eapply runs_mono.
  { apply collect_runs. eapply Forall_impl; [exact Hmb|]. intros v.
    apply (chosen_same _ _ _ _ v Hc1). }
  intros [[bv bn] bt] s2 (Hc2 & Hn2 & Ht2). cbv beta iota. cbn in Hn2, Ht2.
  pose proof (chosen_app _ _ _ _ _ _ Hc1 Hc2) as Hc.
  pose proof (ch_rest _ _ _ _ Hc) as Hrest. injection Hrest as _ _ HR.
  wp_step. apply bounded_set_runs; [rewrite length_app; lia|]. unfold put. wp_step. wp_step.
  wp_step. apply bounded_set_runs; [lia|]. wp_step. wp_step.
  wp_step. apply bounded_set_runs; [lia|]. wp_step. wp_step. wp_step.
  unfold refresh_cached_selected_candidates, get, mutate. repeat wp_step.
  unfold relay. apply runs_lift. fields. rewrite HR, Hr. wp_step. fields. split_and!; try done.
  - cbn. rewrite Hn1, Hn2, length_app. unfold u32_add. rewrite <- Zplus_mod. f_equal. lia.
  - cbn. rewrite Ht1, Ht2, fmap_app, zsum_app. unfold u128_add. rewrite <- Zplus_mod.
    do 2 f_equal. apply f_equal, list_fmap_ext. intros i v _.
    apply (chosen_same _ _ _ _ v Hc1).
  - apply lookup_insert_eq.
  - by exists s2.
Qed.

(** ** Validators that stop validating *)

Lemma size_without (v : N) (X : gset N) :
  v ∈ X -> Z.of_nat (size (X ∖ {[v]})) = Z.of_nat (size X) - 1 /\ 0 < Z.of_nat (size X).
Proof.
  intros Hv. rewrite size_difference, size_singleton by set_solver.
  assert (size X <> 0%nat) by (intros E%size_empty_inv; set_solver). lia.
Qed.

(** A selected validator that goes offline leaves the selection, but the
    majority stored and cached is the one of the selection that still holds
    it; for a selection of even size it is one more than the majority of the
    selection left. *)
Theorem go_offline_keeps_old_majority controller s s' :
  controller ∈ SelectedCandidates s ->
  go_offline (SignedOrigin controller) s = (Done tt, s') ->
  SelectedCandidates s' = SelectedCandidates s ∖ {[controller]} /\
  Majority s' = compute_majority s /\
  CachedMajority s' !! round_index s' = Some (compute_majority s) /\
  (Z.even (Z.of_nat (size (SelectedCandidates s))) = true ->
     Majority s' = compute_majority s' + 1).
Proof.
  intros Hin Hs.
  assert (SelectedCandidates s' = SelectedCandidates s ∖ {[controller]} /\
    Majority s' = compute_majority s /\ round_index s' = round_index s /\
    CachedMajority s' = <[round_index s := compute_majority s]> (CachedMajority s))
    as (H1 & H2 & H3 & H4).
  { unfold go_offline, ensure_signed, candidate_of, remove_from_candidate_pool,
      refresh_cached_selected_candidates, deposit_event, get, put, mutate in Hs. mrun.
    match goal with Hx : match c_tier ?c with _ => _ end _ = _ |- _ => destruct (c_tier c) end;
      mrun; unfold relay in *;
      try match goal with Hx : lift _ _ _ _ = _ |- _ => apply lift_done in Hx as (? & _ & ->) end;
      by repeat (split; [reflexivity|]). }
  rewrite H3, H4, lookup_insert_eq. split_and!; [done..|].
  intros Heven. rewrite H2. unfold compute_majority. rewrite H1.
    destruct (size_without _ _ Hin) as [-> Hpos]. apply Z.even_spec in Heven as [k ->].
    rewrite (Z.mul_comm 2 k), Z.div_mul by lia.
    replace (k * 2 - 1) with (1 + (k - 1) * 2) by lia. rewrite Z.div_add by lia.
    change (1 / 2) with 0. lia.
Qed.

(** Kicking a validator out removes it from the pool and from the
    selections, marks it, and stores and caches under the current round the
    selection and the majority that are left. *)
Theorem kickout_validator_effect who c r s :
  CandidateInfo s !! who = Some c ->
  (c_tier c = Full -> kickout_relayer who (Relay s) = (Done tt, r)) ->
  exists s', kickout_validator who s = (Done tt, s') /\
    CandidatePool s' = delete who (CandidatePool s) /\
    CandidateInfo s' = <[who := kick_out c]> (CandidateInfo s) /\
    SelectedCandidates s' = SelectedCandidates s ∖ {[who]} /\
    CachedSelectedCandidates s' !! round_index s' = Some (SelectedCandidates s') /\
    Majority s' = compute_majority s' /\
    CachedMajority s' !! round_index s' = Some (compute_majority s') /\
    Relay s' = if decide (c_tier c = Full) then r else Relay s.
Proof.
  intros Hc Hr.
  match goal with |- exists s', ?f s = _ /\ @?W s' => enough (runs f s (fun _ s' => W s')) as Hrun;
    [by apply runs_iff in Hrun as ([] & s' & ? & ?); exists s'|] end.
  unfold kickout_validator, remove_from_candidate_pool, remove_from_selected_candidates,
    refresh_latest_cached_selected_candidates, StakingImpls.refresh_latest_cached_majority,
    deposit_event, get, put, mutate. repeat wp_step. cbv zeta.
  change (c_tier (kick_out c)) with (c_tier c).
  destruct (c_tier c) eqn:Et; repeat wp_step; rewrite ?Et; try case_decide; try done;
    try (unfold relay; apply runs_lift;
         match goal with |- match kickout_relayer _ ?x with _ => _ end => change x with (Relay s) end;
         rewrite Hr by done);
    repeat wp_step.
  all: do 3 (split; [reflexivity|]);
    split; [exact (lookup_insert_eq (CachedSelectedCandidates s) (round_index s) _)|];
    split; [reflexivity|];
    split; [exact (lookup_insert_eq (CachedMajority s) (round_index s) _)|reflexivity].
Qed.
End Selection.

(** ** Concrete runs *)

(** Three full candidates 11, 12 and 13 (the council selects two) and a basic
    one, 14. *)
Definition pooled : Storage := after [
  join_candidates (SignedOrigin 1%N) 11%N (Some 31%N) 100 0;
  join_candidates (SignedOrigin 2%N) 12%N (Some 32%N) 200 1;
  join_candidates (SignedOrigin 3%N) 13%N (Some 33%N) 300 2;
  join_candidates (SignedOrigin 4%N) 14%N None 80 3].


Lemma update_top_candidates_witness :
  exists n m s', update_top_candidates 2 [12%N; 13%N] [14%N] pooled = (Done (n, m, 580), s') /\
    n = 3 /\ SelectedCandidates s' = {[12%N; 13%N; 14%N]} /\
    AtStake s' !! (2, 14%N) = Some (mkValidatorSnapshot 80 [] 80).
Proof.
  destruct (update_top_candidates_effect 2 [12%N; 13%N] [14%N] pooled
    (rm_refresh_selected_relayers 2 [12%N; 13%N] (Relay pooled)).2)
    as (n & m & s' & Hs & Hn & Hsel & _ & _ & _ & _ & Ha & _).
  - cbn [app]. rewrite !Forall_cons. split_and!; [..|constructor];
      split; by apply (bool_decide_unpack _); vm_compute.
  - by vm_compute.
  - by vm_compute.
  - exists n, m, s'. split_and!; [exact Hs|exact Hn| |].
    + rewrite Hsel. by apply (bool_decide_unpack _); vm_compute.
    + rewrite Ha, decide_True by (split; [done|by apply (bool_decide_unpack _); vm_compute]).
      by vm_compute.
Defined.

(** The storage of round 1 with 12 and 13 selected. *)
Definition validating : Storage := after [
  join_candidates (SignedOrigin 2%N) 12%N (Some 32%N) 200 0;
  join_candidates (SignedOrigin 3%N) 13%N (Some 33%N) 300 1;
  let* _ := update_top_candidates 1 [12%N; 13%N] [] in ret tt].

Definition offline : Storage := (go_offline (SignedOrigin 12%N) validating).2.
Lemma offline_run : go_offline (SignedOrigin 12%N) validating = (Done tt, offline).
Proof. apply (done_run (go_offline (SignedOrigin 12%N)) validating). by vm_compute. Qed.
Lemma go_offline_witness : Majority offline = 2 /\ compute_majority offline = 1.
Proof.
  destruct (go_offline_keeps_old_majority 12%N validating offline) as (_ & Hm & _ & Hstale).
  - by apply (bool_decide_unpack _); vm_compute.
  - exact offline_run.
  - assert (compute_majority validating = 2) as H2 by by vm_compute. rewrite H2 in Hm.
    split; [exact Hm|]. rewrite Hm in Hstale. cut (2 = compute_majority offline + 1); [lia|].
    apply Hstale. by vm_compute.
Defined.

Lemma kickout_validator_witness :
  exists s', kickout_validator 12%N validating = (Done tt, s') /\
    SelectedCandidates s' = {[13%N]} /\ Majority s' = 1.
Proof.
  destruct (CandidateInfo validating !! 12%N) as [c|] eqn:Hc; [|by vm_compute in Hc].
  destruct (@kickout_validator_effect test_config 12%N c (rm_kickout_relayer 12%N (Relay validating)).2 validating)
    as (s' & Hs & _ & _ & Hsel & _ & Hm & _ & _); [exact Hc|intros _; by vm_compute|].
  assert (SelectedCandidates s' = {[13%N]}) as He
    by (rewrite Hsel; by apply (bool_decide_unpack _); vm_compute).
  exists s'. split_and!; [exact Hs|exact He|]. rewrite Hm. unfold compute_majority. by rewrite He.
Defined.
