(* ===== verification/LifecycleTheorems.v ===== *)
(** * Theorems on the self-bond and the exit of candidates

    The pending bond-less request of a candidate, through slashes and
    executions; the exit of a candidate, which returns every bond. *)

From S2P Require Import Prelude Logic Errors Primitives StakingTypes Nominations Nominator Candidate StakingImpls StakingCalls RelayManager Instances.
Local Open Scope Z_scope.
Local Open Scope frame_scope.

(** ** The pending bond-less request *)

Section BondLess.
Context `{Config}.
Implicit Types s : Storage.
Implicit Types c : CandidateMetadata.

(** A pending request leaves at least the minimum self-bond of the tier. *)
Definition request_ok c : Prop :=
  is_u128 (c_bond c) /\
  match c_request c with
  | Some r => 0 <= cr_amount r < c_bond c /\
              min_candidate_stk (c_tier c) <= c_bond c - cr_amount r
  | None => True
  end.

(** The changes of the self-bond of a candidate. The other operations leave
    the bond, the request and the tier as they are ([set_validator_tier]
    apart). *)
Inductive bond_step : CandidateMetadata -> CandidateMetadata -> Prop :=
| bs_more c stash controller more s c' s' : 0 <= more ->
    bond_more c stash controller more s = (Done c', s') -> bond_step c c'
| bs_schedule c less s c' when s' : 0 <= less ->
    schedule_bond_less c less s = (Done (c', when), s') -> bond_step c c'
| bs_execute c stash controller s c' s' :
    execute_bond_less c stash controller s = (Done c', s') -> bond_step c c'
| bs_cancel c who s c' s' : cancel_bond_less c who s = (Done c', s') -> bond_step c c'
| bs_slash c offender v s c' s' : 0 <= v ->
    CandidateInfo s !! offender = Some c ->
    slash_reserved_bonds offender v s = (Done tt, s') ->
    CandidateInfo s' !! offender = Some c' -> bond_step c c'
| bs_other c c' : c_bond c' = c_bond c -> c_request c' = c_request c -> c_tier c' = c_tier c ->
    bond_step c c'.
Inductive bond_reachable : CandidateMetadata -> Prop :=
| br_new c : is_u128 (c_bond c) -> c_request c = None -> bond_reachable c
| br_step c c' : bond_reachable c -> bond_step c c' -> bond_reachable c'.

Lemma sat_sub_u128 a b : is_u128 a -> 0 <= b -> is_u128 (sat_sub a b).
Proof. unfold is_u128, sat_sub. lia. Qed.
Lemma u128_sat_add_grows a b : is_u128 a -> 0 <= b -> is_u128 (u128_sat_add a b) /\ a <= u128_sat_add a b.
Proof. unfold is_u128, u128_sat_add. lia. Qed.

Lemma slashed_request_ok c :
  is_u128 (c_bond c) ->
  match request_after_slash c with
  | Some r => cr_amount r < c_bond c /\ min_candidate_stk (c_tier c) <= c_bond c - cr_amount r
  | None => True
  end.
Proof.
  intros Hb. unfold request_after_slash. destruct (c_request c) as [r|]; [|done].
  destruct (Z.leb_spec (c_bond c) (cr_amount r)); cbn; [done|].
  destruct (Z.ltb_spec (sat_sub (c_bond c) (cr_amount r)) (min_candidate_stk (c_tier c))); [done|].
  unfold sat_sub in *. lia.
Qed.

Lemma bond_step_ok c c' : bond_step c c' -> request_ok c -> request_ok c'.
Proof.
  intros Hstep [Hb Hr].
  destruct Hstep as [c stash ctl more s c' s' Hm Hs|c less s c' when s' Hl Hs|c stash ctl s c' s' Hs
    |c who s c' s' Hs|c off v s c' s' Hv Hc Hs Hc'|c c' E1 E2 E3].
  - unfold bond_more, currency_reserve, put, deposit_event, mutate, get in Hs. mrun.
    destruct (u128_sat_add_grows _ _ Hb Hm). split; fields; [done|].
    destruct (c_request c); [lia|done].
  - unfold schedule_bond_less, get in Hs. mrun. split; fields; [done|]. cbn.
    rewrite Z.ltb_lt, Z.leb_le in *. unfold is_u128 in Hb. rewrite u128_sub_small in * by lia. lia.
  - unfold execute_bond_less, currency_unreserve, update_active, put, deposit_event, mutate, get in Hs.
    mrun. split; fields; [|done]. destruct (c_request c) as [r|]; [|done].
    match goal with E : Some _ = Some _ |- _ => injection E as -> end. apply sat_sub_u128; [done|lia].
  - unfold cancel_bond_less, deposit_event, mutate in Hs. mrun. by split; fields.
  - unfold slash_reserved_bonds, get, put, mutate in Hs. mrun.
    fields. rewrite lookup_insert_eq in Hc'. injection Hc' as <-.
    set (c1 := slash_voting_power (slash_bond c v) v).
    assert (is_u128 (c_bond c1)) as Hb1 by by apply sat_sub_u128.
    pose proof (slashed_request_ok c1 Hb1) as Hok. split; fields; [done|].
    destruct (request_after_slash c1) as [r|] eqn:Er; [|done]. split; [|lia]. split; [|lia].
    unfold request_after_slash in Er. change (c_request c1) with (c_request c) in Er.
    destruct (c_request c) as [r0|]; [|done]. destruct (_ || _); [done|]. injection Er as <-. lia.
  - unfold request_ok. rewrite E1, E2, E3. done.
Qed.
Lemma bond_reachable_ok c : bond_reachable c -> request_ok c.
Proof.
  induction 1 as [c Hb Hr|c c' _ IH Hstep]; [|by eapply bond_step_ok].
  split; [done|]. by rewrite Hr.
Qed.

(** C35: through any deposits, requests, slashes, executions and
    cancellations, the execution of a pending bond-less request is either not
    due or removes exactly the requested amount and leaves the candidate at
    least the minimum self-bond of its tier: a slash that makes the request
    too large drops the request. *)
Theorem bond_less_keeps_minimum c r stash controller s :
  bond_reachable c -> c_request c = Some r ->
  if round_index s <? cr_when_executable r
  then execute_bond_less c stash controller s = (Fail (Staking PendingCandidateRequestNotDueYet), s)
  else exists c' s', execute_bond_less c stash controller s = (Done c', s') /\
    c_bond c' = c_bond c - cr_amount r /\ min_candidate_stk (c_tier c') <= c_bond c' /\
    c_request c' = None /\ Balances s' = unreserve (Balances s) stash (cr_amount r).
Proof.
  intros [Hb Hr]%bond_reachable_ok Er. rewrite Er in Hr.
  destruct (Z.ltb_spec (round_index s) (cr_when_executable r)) as [Hlt|Hle].
  - unfold execute_bond_less. cbv [bind ok_or ret get gets ensure fail]. rewrite Er.
    by rewrite (proj2 (Z.leb_gt _ _) Hlt).
  - match goal with |- exists c' s', ?f s = _ /\ @?W c' s' => enough (runs f s W) as Hrun;
      [apply runs_iff in Hrun as (c' & s' & ? & ?); by exists c', s'|] end.
    unfold execute_bond_less, currency_unreserve, update_active, put, deposit_event, mutate, get.
    wp_step. wp_step. repeat wp_step; [by apply Z.leb_le|]. repeat wp_step. fields.
    unfold sat_sub. split_and!; [lia|lia|done|done].
Qed.
End BondLess.

(** ** The exit of a candidate *)

Section Exit.
Context `{Config}.
Implicit Types s : Storage.

(** [o] has a nomination for [controller]. *)
Definition nominates s (o controller : AccountId) : Prop :=
  exists n, NominatorState s !! o = Some n /\ is_Some (n_nominations n !! controller).
(** The balances after the bonds [l] are returned. *)
Definition unreserve_all (l : list Bond) (b : Cur) : Cur :=
  fold_left (fun b x => unreserve b (b_owner x) (b_amount x)) l b.

(** What [return_stakes] does: it only writes the balances and the nominators. *)
Record stakes_returned (controller : AccountId) (l : list Bond) s s' : Prop := mkReturned {
  sr_gone : forall o, o ∈ b_owner <$> l -> ~ nominates s' o controller;
  sr_mono : forall o, ~ nominates s o controller -> ~ nominates s' o controller;
  sr_other : forall o, o ∉ b_owner <$> l -> NominatorState s' !! o = NominatorState s !! o;
  sr_state : s' = s <| NominatorState := NominatorState s' |>
                    <| Balances := unreserve_all l (Balances s) |>
}.

Lemma returned_frame controller l s s' :
  stakes_returned controller l s s' ->
  CandidateInfo s' = CandidateInfo s /\ BondedStash s' = BondedStash s /\
  TopNominations s' = TopNominations s /\ BottomNominations s' = BottomNominations s /\
  Relay s' = Relay s /\ Total s' = Total s /\ Balances s' = unreserve_all l (Balances s).
Proof. intros [_ _ _ ->]. by split_and!. Qed.
Lemma storage_eta s : s = s <| NominatorState := NominatorState s |> <| Balances := Balances s |>.
Proof. by destruct s. Qed.

Lemma not_nominates_delete s o controller m :
  NominatorState s = delete o m -> ~ nominates s o controller.
Proof. intros E (n & Hn & _). by rewrite E, lookup_delete_eq in Hn. Qed.

Lemma rm_nomination_gone n controller n' rest :
  rm_nomination n controller = (n', rest) -> n_nominations n' !! controller = None /\
    (rest = None -> n' = n).
Proof.
  unfold rm_nomination. destruct (n_nominations n !! controller) eqn:E; intros [= <- <-].
  - split; [|done]. fields. apply lookup_delete_eq.
  - done.
Qed.

Lemma return_stake_done controller b n s s' :
  NominatorState s !! b_owner b = Some n ->
  return_stake controller b n s = (Done tt, s') -> stakes_returned controller [b] s s'.
Proof.
  intros Hn. unfold return_stake, currency_unreserve, mutate. intros Hs. mrun.
  destruct (rm_nomination n controller) as [n' rest] eqn:Er.
  pose proof (rm_nomination_gone _ _ _ _ Er) as [Hg Hsame].
  assert (forall s2, s2 = s <| NominatorState := NominatorState s2 |>
                            <| Balances := unreserve (Balances s) (b_owner b) (b_amount b) |> ->
    ~ nominates s2 (b_owner b) controller ->
    (forall o, o <> b_owner b -> NominatorState s2 !! o = NominatorState s !! o) ->
    stakes_returned controller [b] s s2) as Hmk.
  { intros s2 Es Hgone Ho. split; [| | |exact Es].
    - intros o ->%list_elem_of_singleton. done.
    - intros o Hnot. destruct (decide (o = b_owner b)) as [->|Hne]; [done|].
      unfold nominates. by rewrite Ho.
    - intros o Hne. apply Ho. contradict Hne. by apply list_elem_of_singleton. }
  destruct rest as [rest|]; [destruct (rest =? 0)|]; mrun.
  - apply Hmk; fields; [done|by eapply not_nominates_delete; fields|].
    intros o Hne. by apply lookup_delete_ne.
  - apply Hmk; fields; [done| |intros o Hne; by apply lookup_insert_ne].
    intros (m & Hm & [v Hv]). fields. rewrite lookup_insert_eq in Hm. injection Hm as <-.
    fields. congruence.
  - apply Hmk; fields; [by destruct s| |done].
    rewrite Hsame in Hg by done. intros (m & Hm & [v Hv]). fields. congruence.
Qed.

Lemma returned_app controller l1 l2 s s1 s2 :
  stakes_returned controller l1 s s1 -> stakes_returned controller l2 s1 s2 ->
  stakes_returned controller (l1 ++ l2) s s2.
Proof.
  intros [G1 M1 O1 E1] [G2 M2 O2 E2]. split.
  - intros o. rewrite fmap_app, elem_of_app. intros [Ho|Ho]; [by apply M2, G1|by apply G2].
  - intros o Ho. by apply M2, M1.
  - intros o. rewrite fmap_app, not_elem_of_app. intros [H1 H2]. by rewrite O2, O1.
  - assert (Balances s1 = unreserve_all l1 (Balances s)) as HB by by rewrite E1.
    rewrite E2 at 1. rewrite HB, E1. unfold unreserve_all. by rewrite fold_left_app.
Qed.
Lemma returned_nil controller s : stakes_returned controller [] s s.
Proof. split; [by intros o ?%not_elem_of_nil|done|done|apply storage_eta]. Qed.

Lemma return_stakes_done controller l s s' :
  return_stakes controller l s = (Done tt, s') -> stakes_returned controller l s s'.
Proof.
  unfold return_stakes. revert s. induction l as [|b l IH]; cbn; intros s Hs.
  - mrun. apply returned_nil.
  - unfold get in Hs. mrun. apply (returned_app controller [b] l s x0 s'); [|by apply IH].
    match goal with u : unit |- _ => destruct u end. by eapply return_stake_done.
Qed.

Lemma return_stake_total controller b n s : exists s', return_stake controller b n s = (Done tt, s').
Proof.
  unfold return_stake, currency_unreserve, mutate, bind. cbn.
  destruct (rm_nomination n controller) as [n' [rest|]]; [|by eexists].
  destruct (rest =? 0); by eexists.
Qed.
Lemma return_stakes_total controller l s :
  NoDup (b_owner <$> l) -> (forall o, o ∈ b_owner <$> l -> is_Some (NominatorState s !! o)) ->
  exists s', return_stakes controller l s = (Done tt, s').
Proof.
  revert s. induction l as [|b l IH]; intros s Hn Hl; [by eexists|].
  apply NoDup_cons in Hn as [Hb Hn]. destruct (Hl (b_owner b)) as [n Hnb]; [cbn; set_solver|].
  destruct (return_stake_total controller b n s) as [s1 H1].
  pose proof (return_stake_done _ _ _ _ _ Hnb H1) as [_ _ Ho _].
  destruct (IH s1 Hn) as [s2 H2].
  - intros o Hin. rewrite Ho; [apply Hl; cbn; set_solver|]. change (o ∉ [b_owner b]).
    rewrite list_elem_of_singleton. by intros ->.
  - exists s2. unfold return_stakes in *. cbn. apply bind_done. exists tt, s1. split; [|done].
    unfold get, bind, gets, ok_or. rewrite Hnb. exact H1.
Qed.

Lemma return_stakes_runs controller l s :
  NoDup (b_owner <$> l) -> (forall o, o ∈ b_owner <$> l -> is_Some (NominatorState s !! o)) ->
  runs (return_stakes controller l) s (fun _ s' => stakes_returned controller l s s').
Proof.
  intros Hn Hl. destruct (return_stakes_total controller l s Hn Hl) as [s' Hs].
  apply runs_iff. exists tt, s'. split; [done|]. by apply return_stakes_done.
Qed.

(** C18: the exit of a candidate whose leave is due returns every bond: it
    succeeds, unreserves its self-bond and every top and bottom nomination,
    takes the nomination out of every nominator, leaves the other nominators
    alone, removes the candidate from all four maps, and lowers the total by
    its backing. Before it is due it is refused. *)
Theorem execute_leave_returns_everything stash controller c top bottom when n r s :
  BondedStash s !! stash = Some controller -> CandidateInfo s !! controller = Some c ->
  TopNominations s !! controller = Some top -> BottomNominations s !! controller = Some bottom ->
  c_status c = VLeaving when -> c_nomination_count c <= n ->
  let bonds := ns_nominations top ++ ns_nominations bottom in
  NoDup (b_owner <$> bonds) -> (forall o, o ∈ b_owner <$> bonds -> is_Some (NominatorState s !! o)) ->
  leave_relayers controller (Relay s) = (Done tt, r) ->
  if round_index s <? when
  then execute_leave_candidates (SignedOrigin stash) n s =
         (Fail (Staking CandidateCannotLeaveYet), s)
  else exists s', execute_leave_candidates (SignedOrigin stash) n s = (Done tt, s') /\
    Balances s' = unreserve (unreserve_all bonds (Balances s)) stash (c_bond c) /\
    (forall o, o ∈ b_owner <$> bonds -> ~ nominates s' o controller) /\
    (forall o, o ∉ b_owner <$> bonds -> NominatorState s' !! o = NominatorState s !! o) /\
    CandidateInfo s' = delete controller (CandidateInfo s) /\
    BondedStash s' = delete stash (BondedStash s) /\
    TopNominations s' !! controller = None /\ BottomNominations s' !! controller = None /\
    Relay s' = r /\
    Total s' = sat_sub (Total s)
                 (u128_add (u128_add (c_bond c) (ns_total top)) (ns_total bottom)).
Proof.
  intros Hst Hc Ht Hb Hstatus Hn bonds Hnd Hns Hr.
  destruct (Z.ltb_spec (round_index s) when) as [Hlt|Hle].
  - unfold execute_leave_candidates, controller_of, candidate_of, can_leave, get, ensure_signed.
    repeat run_step. rewrite Hst. repeat run_step. rewrite Hc.
    repeat run_step. rewrite (proj2 (Z.leb_le _ _)) by done. rewrite Hstatus.
    repeat run_step. by rewrite (proj2 (Z.leb_gt _ _)).
  - match goal with |- exists s', ?f s = _ /\ @?W s' => enough (runs f s (fun _ s' => W s')) as Hrun;
      [by apply runs_iff in Hrun as ([] & s' & ? & ?); exists s'|] end.
    unfold execute_leave_candidates, controller_of, candidate_of, can_leave, ensure_signed,
      currency_unreserve, deposit_event, get, put, mutate. repeat wp_step; [by apply Z.leb_le|].
    rewrite Hstatus. repeat wp_step; [by apply Z.leb_le|]. repeat wp_step.
    assert (b_owner <$> bonds = (b_owner <$> ns_nominations top) ++ (b_owner <$> ns_nominations bottom))
      as Eb by apply fmap_app.
    rewrite Eb in *. apply NoDup_app in Hnd as (Hn1 & Hdis & Hn2).
    eapply runs_mono; [apply return_stakes_runs; [done|]|].
    { intros o Ho. apply Hns. set_solver. }
    intros [] s1 R1. cbv beta in R1 |- *. destruct (returned_frame _ _ _ _ R1) as (A1 & A2 & A3 & A4 & A5 & A6 & A7).
    repeat wp_step; [reads; by rewrite A4|]. repeat wp_step.
    eapply runs_mono; [apply return_stakes_runs; [done|]|].
    { intros o Ho. change (is_Some (NominatorState s1 !! o)). rewrite (sr_other _ _ _ _ R1).
      - apply Hns. set_solver.
      - intros Hin. by apply (Hdis o). }
    intros [] s2 R2. cbv beta in R2 |- *. destruct (returned_frame _ _ _ _ R2) as (B1 & B2 & B3 & B4 & B5 & B6 & B7).
    reads. repeat wp_step. unfold relay. apply runs_lift. reads. rewrite B5. reads.
    rewrite A5. reads. rewrite Hr. wp_step. reads.
    rewrite B1, B2, B6, B7, B3, B4. reads. rewrite A1, A2, A6, A7, A3, A4. reads.
    split; [unfold bonds, unreserve_all; by rewrite fold_left_app|].
    split; [|split; [|do 2 (split; [done|]); do 2 (split; [apply lookup_delete_eq|]); by split]].
    + intros o Ho Hnom. apply elem_of_app in Ho as [Ho|Ho]; [|by apply (sr_gone _ _ _ _ R2 o)].
      apply (sr_mono _ _ _ _ R2 o); [|done]. by apply (sr_gone _ _ _ _ R1 o).
    + intros o [H1 H2]%not_elem_of_app. rewrite (sr_other _ _ _ _ R2) by done.
      change (NominatorState s1 !! o = NominatorState s !! o). by rewrite (sr_other _ _ _ _ R1).
Qed.
End Exit.

(** ** Concrete runs *)

(** A candidate can raise its tier while a bond-less request made under
    the lower tier is pending; the execution of the request then leaves a full
    candidate with less than the minimum self-bond of its tier. *)
Theorem tier_change_ignores_pending_request :
  reaches [
    join_candidates (SignedOrigin 1%N) 11%N None 120 0;
    schedule_candidate_bond_less (SignedOrigin 11%N) 60;
    set_validator_tier (SignedOrigin 1%N) 0 Full (Some 31%N);
    in_round 3;
    execute_candidate_bond_less (SignedOrigin 1%N)] (fun s =>
  match CandidateInfo s !! 11%N with
  | Some c => c_tier c = Full /\ c_bond c = 60 /\ c_bond c < min_candidate_stk (c_tier c)
  | None => False
  end).
Proof. by vm_compute. Qed.

(** A basic candidate of bond 120 that asked for 60 back in round 1. *)
Definition lessening : CandidateMetadata :=
  mkCandidateMetadata 1 120 120 0 120 0 0 0 CapEmpty CapEmpty
    (Some (mkCandidateBondLessRequest 60 3)) VActive false 0 0 0 0 ProdIdle DstStaked 0 Basic.
Definition round_three : Storage := after [in_round 3].
Lemma bond_less_witness :
  exists c' s', execute_bond_less lessening 1%N 11%N round_three = (Done c', s') /\ c_bond c' = 60.
Proof.
  assert (bond_reachable lessening) as Hr.
  { eapply br_step; [apply (br_new (lessening <| c_request := None |>)); [by split|done]|].
    by apply (bs_schedule _ 60 start _ 3 start). }
  pose proof (bond_less_keeps_minimum lessening (mkCandidateBondLessRequest 60 3) 1%N 11%N
    round_three Hr eq_refl) as Hx.
  replace (round_index round_three) with 3 in Hx by by vm_compute.
  destruct Hx as (c' & s' & Hs & Hb & _). by exists c', s'.
Defined.

(** Candidate 11 of stash 1 with two nominators, leaving, in round 3. *)
Definition leaving : Storage := after [
  join_candidates (SignedOrigin 1%N) 11%N None 100 0;
  nominate (SignedOrigin 21%N) 11%N 20 0 0; nominate (SignedOrigin 22%N) 11%N 30 1 0;
  schedule_leave_candidates (SignedOrigin 11%N) 1; in_round 3].
Definition leaving_candidate : CandidateMetadata :=
  default lessening (CandidateInfo leaving !! 11%N).
Lemma execute_leave_witness :
  exists s', execute_leave_candidates (SignedOrigin 1%N) 2 leaving = (Done tt, s') /\
    Total s' = 0 /\ ~ nominates s' 21%N 11%N.
Proof.
  pose proof (@execute_leave_returns_everything test_config 1%N 11%N leaving_candidate
    (mkNominations [mkBond 22 30; mkBond 21 20] 50) empty_nominations 3 2 (Relay leaving) leaving)
    as Hx.
  replace (round_index leaving <? 3) with false in Hx by by vm_compute.
  destruct Hx as (s' & Hs & _ & Hgone & _ & _ & _ & _ & _ & _ & Ht).
  1-6: by vm_compute.
  - apply (bool_decide_unpack _). by vm_compute.
  - intros o Ho. apply (bool_decide_unpack _).
    apply elem_of_cons in Ho as [->|Ho]; [by vm_compute|].
    apply list_elem_of_singleton in Ho as ->. by vm_compute.
  - by vm_compute.
  - exists s'. split_and!; [exact Hs| |].
    + rewrite Ht. by vm_compute.
    + apply Hgone. apply (bool_decide_unpack _). by vm_compute.
Defined.
