(* ===== verification/RewardTheorems.v ===== *)
(** * Theorems on rewards

    The shares of a round's reward, the progress of its payout, and what a
    payout loses when a validator left or changed its controller. *)

From S2P Require Import Prelude Logic Errors Primitives StakingTypes Nominations Nominator Candidate StakingImpls StakingCalls RelayManager Offences.
Local Open Scope Z_scope.
Local Open Scope frame_scope.

(** ** Shares *)

Section Shares.
Context `{Config} `{!PerbillLaws}.

(** A product rounds up by at most one half, and is monotone. *)
Lemma perbill_mul_le p x : 0 <= p <= ACCURACY -> 0 <= x ->
  2 * ACCURACY * perbill_mul p x <= 2 * p * x + ACCURACY.
Proof. intros Hp Hx. by apply perbill_mul_nearest. Qed.
Lemma perbill_mul_mono p x y : 0 <= p <= ACCURACY -> 0 <= x <= y ->
  perbill_mul p x <= perbill_mul p y.
Proof.
  intros Hp [Hx Hy]. destruct (decide (x = y)) as [->|Hne]; [done|].
  destruct (decide (p = 0)) as [->|Hp0].
  - pose proof (perbill_mul_nearest 0 x ltac:(unfold ACCURACY; lia) Hx).
    pose proof (perbill_mul_nearest 0 y ltac:(unfold ACCURACY; lia) ltac:(lia)).
    unfold ACCURACY in *. lia.
  - pose proof (perbill_mul_nearest p x Hp Hx). pose proof (perbill_mul_nearest p y Hp ltac:(lia)).
    unfold ACCURACY in *. nia.
Qed.

(** A snapshot as [snapshot_validator] takes it of a candidate in its
    invariant: its total is its self-bond and its top nominations. *)
Record snapshot_ok (t : ValidatorSnapshot) : Prop := mkSnapshotOk {
  so_bond : 0 <= vs_bond t;
  so_noms : Forall (fun b => 0 <= b_amount b) (vs_nominations t);
  so_total : vs_total t = vs_bond t + zsum (b_amount <$> vs_nominations t);
  so_positive : 0 < vs_total t
}.
Definition stake_pct (t : ValidatorSnapshot) (a : Balance) : Perbill := from_rational a (vs_total t).

(** The parts of the stake add up to at most one. *)
Lemma stake_pcts t : snapshot_ok t ->
  stake_pct t (vs_bond t) + zsum ((fun b => stake_pct t (b_amount b)) <$> vs_nominations t) <= ACCURACY.
Proof.
  intros [Hb Hn Ht Hp]. unfold stake_pct.
  assert (forall l : list Bond, Forall (fun b => 0 <= b_amount b) l ->
    zsum ((fun b => from_rational (b_amount b) (vs_total t)) <$> l) * vs_total t <=
    zsum (b_amount <$> l) * ACCURACY) as Hl.
  { induction 1 as [|b l Hbl _ IH]; [done|]. rewrite !fmap_cons, !zsum_cons.
    pose proof (from_rational_floor (b_amount b) (vs_total t) Hbl Hp). lia. }
  specialize (Hl _ Hn). pose proof (from_rational_floor (vs_bond t) (vs_total t) Hb Hp).
  unfold ACCURACY in *. nia.
Qed.

Lemma shares_sum t due : snapshot_ok t -> 0 <= due ->
  2 * (perbill_mul (stake_pct t (vs_bond t)) due +
       zsum (nominator_share t due <$> vs_nominations t)) <=
  2 * due + Z.of_nat (length (vs_nominations t)) + 1.
Proof.
  intros Hok Hd. pose proof (stake_pcts t Hok) as Hs. destruct Hok as [Hb Hn Ht Hp].
  assert (forall l : list Bond, Forall (fun b => 0 <= b_amount b) l ->
    2 * ACCURACY * zsum (nominator_share t due <$> l) <=
    2 * zsum ((fun b => stake_pct t (b_amount b)) <$> l) * due + Z.of_nat (length l) * ACCURACY) as Hl.
  { induction 1 as [|b l Hbl _ IH]; [done|]. rewrite !fmap_cons, !zsum_cons. cbn [length].
    pose proof (from_rational_range (b_amount b) (vs_total t) Hbl ltac:(lia)) as Hr.
    pose proof (perbill_mul_le _ due Hr Hd) as Hle.
    change (nominator_share t due b) with (perbill_mul (stake_pct t (b_amount b)) due).
    change (from_rational (b_amount b) (vs_total t)) with (stake_pct t (b_amount b)) in Hle.
    unfold ACCURACY in *. lia. }
  specialize (Hl _ Hn). pose proof (from_rational_range (vs_bond t) (vs_total t) Hb ltac:(lia)) as Hr.
  pose proof (perbill_mul_le _ due Hr Hd). unfold stake_pct in *. unfold ACCURACY in *. nia.
Qed.

(** Of the reward of a validator, its own share (commission and part by
    stake) and those of the nominators of its snapshot exceed the whole by at
    most half a unit for each share, from the rounding of [Perbill]; no share
    is negative and no subtraction wraps. *)
Theorem shares_within_reward rate pts total_points info t :
  snapshot_ok t -> 0 <= rate <= ACCURACY -> 0 <= pts -> 0 < total_points ->
  dp_round_issuance info = dp_total_staking_reward info ->
  0 <= dp_total_staking_reward info -> 2 * dp_total_staking_reward info + 1 < u128_modulus ->
  let '(total, due, mine) := validator_shares rate pts total_points info t in
  0 <= mine /\ 0 <= due <= total /\ total <= dp_total_staking_reward info /\
  Forall (fun b => 0 <= nominator_share t due b) (vs_nominations t) /\
  2 * (mine + zsum (nominator_share t due <$> vs_nominations t)) <=
    2 * total + Z.of_nat (length (vs_nominations t)) + 1.
Proof.
  intros Hok Hrate Hpts Htp Heq Hr Hbig. unfold validator_shares. rewrite Heq.
  set (R := dp_total_staking_reward info) in *.
  pose proof (from_rational_range pts total_points Hpts ltac:(lia)) as Hpct.
  set (pct := from_rational pts total_points) in *.
  pose proof (perbill_mul_bounds rate R Hrate Hr) as Hiss.
  set (iss := perbill_mul rate R) in *.
  pose proof (perbill_mul_bounds pct iss Hpct ltac:(lia)) as Hcom.
  pose proof (perbill_mul_bounds pct R Hpct Hr) as Htot.
  pose proof (perbill_mul_mono pct iss R Hpct Hiss) as Hmono.
  set (com := perbill_mul pct iss) in *. set (total := perbill_mul pct R) in *.
  rewrite u128_sub_small by (unfold u128_modulus in *; lia).
  set (due := total - com) in *.
  pose proof (shares_sum t due Hok ltac:(lia)) as Hsum.
  pose proof (from_rational_range (vs_bond t) (vs_total t) (so_bond _ Hok)
    ltac:(pose proof (so_positive _ Hok); lia)) as Hv.
  pose proof (perbill_mul_bounds _ due Hv ltac:(lia)) as Hmine. unfold stake_pct in Hsum.
  rewrite u128_add_small by (unfold u128_modulus in *; lia).
  split_and!; try lia. eapply Forall_impl; [apply (so_noms _ Hok)|]. intros b Hb. cbn in Hb.
  apply (perbill_mul_bounds (from_rational (b_amount b) (vs_total t)) due); [|lia].
  apply from_rational_range; [done|]. pose proof (so_positive _ Hok). lia.
Qed.
End Shares.

(** ** The payout of a round *)

Section Payout.
Context `{Config}.
Implicit Types s : Storage.

(** The points of round [r], by validator. *)
Definition awarded_in s (r : RoundIndex) : gmap N Z :=
  list_to_map (omap (fun kv : (Z * N) * Z => if decide (kv.1.1 = r) then Some (kv.1.2, kv.2) else None)
    (map_to_list (AwardedPts s))).

Lemma awarded_in_lookup s r v : awarded_in s r !! v = AwardedPts s !! (r, v).
Proof.
  unfold awarded_in. set (l := omap _ _).
  assert (forall x, (v, x) ∈ l <-> AwardedPts s !! (r, v) = Some x) as Hl.
  { intros x. unfold l. rewrite list_elem_of_omap. split.
    - intros ([[r' v'] x'] & Hin%elem_of_map_to_list & Hx). cbn in Hx. case_decide; by simplify_eq.
    - intros Hx. exists ((r, v), x). rewrite elem_of_map_to_list. split; [done|]. cbn.
      by rewrite decide_True. }
  destruct (AwardedPts s !! (r, v)) as [x|] eqn:E.
  - apply elem_of_list_to_map_1'; [|by apply Hl]. intros y Hy%Hl. congruence.
  - apply not_elem_of_list_to_map_1. intros ([v' x] & -> & Hin)%list_elem_of_fmap.
    cbn in *. apply Hl in Hin. congruence.
Qed.
Lemma awarded_validators_perm s r : awarded_validators s r ≡ₚ map_to_list (awarded_in s r).
Proof. apply stable_sort_perm. Qed.
Definition unpaid s r : nat := length (awarded_validators s r).
Lemma unpaid_size s r : unpaid s r = size (awarded_in s r).
Proof. unfold unpaid. by rewrite awarded_validators_perm, length_map_to_list. Qed.
Lemma unpaid_delete s s' r v :
  AwardedPts s' = delete (r, v) (AwardedPts s) -> is_Some (AwardedPts s !! (r, v)) ->
  unpaid s r = S (unpaid s' r).
Proof.
  intros E [x Hx]. rewrite !unpaid_size.
  assert (awarded_in s' r = delete v (awarded_in s r)) as ->.
  { apply map_eq. intros w. rewrite awarded_in_lookup, E. destruct (decide (w = v)) as [->|Hne].
    - by rewrite !lookup_delete_eq.
    - rewrite !lookup_delete_ne by congruence. by rewrite awarded_in_lookup. }
  rewrite map_size_delete_Some; [|rewrite awarded_in_lookup; by eexists].
  assert (size (awarded_in s r) <> 0%nat); [|lia]. intros E0%map_size_empty_inv.
  pose proof (awarded_in_lookup s r v) as Hv. by rewrite E0, lookup_empty, Hx in Hv.
Qed.
Lemma unpaid_head s r v p l :
  awarded_validators s r = (v, p) :: l -> AwardedPts s !! (r, v) = Some p.
Proof.
  intros Hl. rewrite <- awarded_in_lookup. apply elem_of_map_to_list.
  rewrite <- awarded_validators_perm, Hl. set_solver.
Qed.

(** What a payout leaves alone. *)
Definition payout_view s := (AwardedPts s, DelayedPayouts s, Points s).
Lemma validator_payout_frame controller stash reward :
  preserves payout_view (handle_validator_reward_payout controller stash reward).
Proof. frame. Qed.
Lemma nominator_payout_frame controller n reward :
  preserves payout_view (handle_nominator_reward_payout controller n reward).
Proof. frame. Qed.

Lemma expect_ok_frame {A B} (f : Storage -> B) (m : P A) : preserves f m -> preserves f (expect_ok m).
Proof.
  intros Hm. unfold expect_ok. apply preserves_bind; [by apply preserves_attempt|].
  intros [e|a]; [apply preserves_trap|apply preserves_ret].
Qed.

Lemma pay_one_done r info s res s' :
  pay_one_validator_reward r info s = (Done res, s') ->
  DelayedPayouts s' = DelayedPayouts s /\ Points s' = Points s /\
  if default 0 (Points s !! r) =? 0 then res = None
  else match awarded_validators s r with
       | [] => res = None
       | (v, _) :: _ => AwardedPts s' = delete (r, v) (AwardedPts s) /\
                        (is_Some res <-> is_Some (CandidateInfo s !! v))
       end.
Proof.
  unfold pay_one_validator_reward, get, mutate. intros Hs. mrun.
  destruct (_ =? 0); [by mrun|]. mrun. destruct (awarded_validators _ r) as [|[v p] l]; [by mrun|].
  mrun.
  match goal with Hm : match CandidateInfo ?t !! v with _ => _ end _ = _ |- _ =>
    change (CandidateInfo t) with (CandidateInfo s) in Hm;
    destruct (CandidateInfo s !! v) as [c|] eqn:Hc; [|by mrun; fields; split_and!; rewrite ?is_Some_alt]
  end.
  mrun. destruct (validator_shares _ _ _ _ _) as [[total due] mine]. mrun.
  match goal with Hm : ?m _ = (Done _, _) |- _ => assert (preserves payout_view m) as Hp end.
  { destruct (vs_nominations _) as [|b0 bs].
    - apply expect_ok_frame, validator_payout_frame.
    - apply preserves_bind; [apply expect_ok_frame, validator_payout_frame|]. intros _.
      apply preserves_for_each. intros b. case_match; [apply preserves_ret|].
      apply expect_ok_frame, nominator_payout_frame. }
  eapply preserves_done in Hp; [|eassumption]. unfold payout_view in Hp. fields.
  injection Hp as -> -> ->. split_and!; [done|done|done|]. split; intros _; by eexists.
Qed.

(** One block of the payout of round [r]: a validator is paid and its points
    are removed, or the payout is closed. *)
Lemma payout_progress now s s' info :
  let r := u32_sub now RewardPaymentDelay in
  RewardPaymentDelay <= now -> DelayedPayouts s !! r = Some info ->
  handle_delayed_payouts now s = (Done tt, s') ->
  (DelayedPayouts s' = DelayedPayouts s /\ unpaid s r = S (unpaid s' r)) \/
  DelayedPayouts s' !! r = None.
Proof.
  intros r Hnow Hinfo. unfold handle_delayed_payouts, get, mutate.
  rewrite (proj2 (Z.ltb_ge _ _)) by done. fold r. intros Hs. mrun. rewrite Hinfo in *. mrun.
  match goal with Hm : pay_one_validator_reward _ _ _ = _ |- _ =>
    apply pay_one_done in Hm as (E1 & E2 & Hc) end.
  match goal with x : option _ |- _ => destruct x as [y|] end; mrun.
  - left. split; [done|]. destruct (default 0 (Points s !! r) =? 0); [done|].
    destruct (awarded_validators s r) as [|[v p] l] eqn:Ea; [done|]. destruct Hc as [Ha _].
    eapply unpaid_delete; [done|]. exists p. by eapply unpaid_head.
  - right. fields. apply lookup_delete_eq.
Qed.
Lemma payout_closed now s s' :
  DelayedPayouts s !! u32_sub now RewardPaymentDelay = None ->
  handle_delayed_payouts now s = (Done tt, s') -> s' = s.
Proof.
  intros Hn. unfold handle_delayed_payouts, get. case_match; intros Hs; mrun; [done|].
  rewrite Hn in *. by mrun.
Qed.

(** The blocks of a round, as far as the payout is concerned. *)
Definition payout_blocks (n : nat) (now : RoundIndex) : P unit :=
  for_each (seq 0 n) (fun _ => handle_delayed_payouts now).

Lemma payout_stays_closed now (l : list nat) s s' :
  DelayedPayouts s !! u32_sub now RewardPaymentDelay = None ->
  for_each l (fun _ => handle_delayed_payouts now) s = (Done tt, s') -> s' = s.
Proof.
  revert s. induction l as [|x l IH]; intros s Hn Hs; cbn in Hs; mrun; [done|].
  match goal with u : unit |- _ => destruct u end.
  match goal with Hx : handle_delayed_payouts _ _ = _ |- _ => apply payout_closed in Hx as -> end; auto.
Qed.


(** When the next validator to be paid is no candidate any more, the
    payout of the round is closed: its points are dropped, nothing is paid, and
    the points of the validators that come after it are never paid. *)
Theorem payout_abandoned now s info v p rest :
  let r := u32_sub now RewardPaymentDelay in
  RewardPaymentDelay <= now -> DelayedPayouts s !! r = Some info ->
  default 0 (Points s !! r) <> 0 ->
  awarded_validators s r = (v, p) :: rest -> CandidateInfo s !! v = None ->
  exists s', handle_delayed_payouts now s = (Done tt, s') /\
    Balances s' = Balances s /\ CandidateInfo s' = CandidateInfo s /\
    DelayedPayouts s' !! r = None /\ Points s' !! r = None /\
    (forall w, w <> v -> AwardedPts s' !! (r, w) = AwardedPts s !! (r, w)) /\
    (forall n, payout_blocks n now s' = (Done tt, s')).
Proof.
  intros r Hnow Hinfo Hp Ha Hv.
  set (s' := s <| AwardedPts ::= delete (r, v) |> <| DelayedPayouts ::= delete r |>
               <| Points ::= delete r |>).
  assert (DelayedPayouts s' !! r = None) as Hd by apply lookup_delete_eq.
  exists s'. split_and!; try done.
  - unfold handle_delayed_payouts, pay_one_validator_reward, get, mutate.
    rewrite (proj2 (Z.ltb_ge _ _)) by done. fold r. repeat run_step. rewrite Hinfo.
    repeat run_step. rewrite (proj2 (Z.eqb_neq _ _)) by done. repeat run_step. rewrite Ha.
    repeat run_step. reads. rewrite Hv. by repeat run_step.
  - apply lookup_delete_eq.
  - intros w Hw. apply lookup_delete_ne. congruence.
  - intros n. unfold payout_blocks. generalize 0%nat. induction n as [|n IH]; intros k; cbn; [done|].
    apply bind_done. exists tt, s'. split; [|apply IH]. unfold handle_delayed_payouts, get.
    rewrite (proj2 (Z.ltb_ge _ _)) by done. fold r. repeat run_step. by rewrite Hd.
Qed.
End Payout.

(** ** Concrete runs *)

From S2P Require Import Instances.

(** Validator 11 of stash 1 with the nominator 21, who is paid to its account,
    authors a block of round 2; round 3 begins and pays round 2. *)
Definition view : SessionView := mkSessionView [11%N] 1 (fun _ => true) (fun _ => true).
Definition ten_percent : InflationInfo :=
  mkInflationInfo (mkRange 0 0 0) (mkRange 0 0 0) (mkRange 100000000 100000000 100000000).
Definition backed_round (in_round_2 : list (P unit)) : list (P unit) :=
  [ put InflationConfig ten_percent;
    join_candidates (SignedOrigin 1%N) 11%N (Some 31%N) 100 0;
    nominate (SignedOrigin 21%N) 11%N 100 0 0;
    set_nominator_reward_dst (SignedOrigin 21%N) DstAccount;
    new_round view 20 [11%N] []; note_author 11%N ] ++ in_round_2 ++
  [ new_round view 40 [11%N] [] ].

(** When a validator asks for a new controller, its points of the round
    pass to the new account but the snapshot of its nominations does not: the
    whole reward of the round goes to the validator, and the nominator who was
    to receive 9 of 20 gets nothing. *)
Theorem controller_change_takes_nominators_reward :
  reaches (backed_round [] ++ [on_initialize 41]) (fun s =>
    free_of (Balances s) 21%N = 909 /\ (c_bond <$> CandidateInfo s !! 11%N) = Some 111) /\
  reaches (backed_round [set_controller (SignedOrigin 1%N) 12%N] ++ [on_initialize 41]) (fun s =>
    free_of (Balances s) 21%N = 900 /\ (c_bond <$> CandidateInfo s !! 12%N) = Some 120).
Proof. by vm_compute. Qed.

(** Bond 100, nominations of 50 and 25; a tenth of the reward of 1000 is the
    commission. *)
Definition backed_snapshot : ValidatorSnapshot :=
  mkValidatorSnapshot 100 [mkBond 21 50; mkBond 22 25] 175.
Lemma shares_witness :
  let '(total, due, mine) :=
    @validator_shares test_config 100000000 5 10 (mkDelayedPayout 1000 1000 0) backed_snapshot in
  total <= 1000 /\ 2 * (mine + zsum (nominator_share backed_snapshot due <$>
    vs_nominations backed_snapshot)) <= 2 * total + 2 + 1.
Proof.
  assert (snapshot_ok backed_snapshot) as Hok by (split; [done|by repeat constructor|done|done]).
  pose proof (@shares_within_reward test_config perbill_laws 100000000 5 10
    (mkDelayedPayout 1000 1000 0) backed_snapshot Hok) as Hx.
  destruct (validator_shares _ _ _ _ _) as [[total due] mine].
  destruct Hx as (_ & _ & Ht & _ & Hs); [by vm_compute..|]. split; [exact Ht|exact Hs].
Defined.

Definition to_pay : Storage := after (backed_round []).
Definition paid : Storage := (payout_blocks 2 3 to_pay).2.
Lemma paid_run : payout_blocks 2 3 to_pay = (Done tt, paid).
Proof. apply (done_run (payout_blocks 2 3) to_pay). by vm_compute. Qed.

(** The same when candidate 11 has left before the payout. *)
Definition left_unpaid : Storage := after (backed_round [] ++ [mutate CandidateInfo (delete 11%N)]).
Lemma payout_abandoned_witness :
  exists s', handle_delayed_payouts 3 left_unpaid = (Done tt, s') /\
    Balances s' = Balances left_unpaid /\ DelayedPayouts s' !! 2 = None.
Proof.
  destruct (payout_abandoned 3 left_unpaid (mkDelayedPayout 20 20 50000000) 11%N 5 [])
    as (s' & Hs & Hb & _ & Hd & _); [by vm_compute..|].
  exists s'. split_and!; [exact Hs|exact Hb|exact Hd].
Defined.
