(* ===== verification/CccpTheorems.v ===== *)
(** * Socket messages: parsing is total on what the codec returns, and the
    inverse of encoding *)

From S2P Require Import Prelude Cccp.
Local Open Scope Z_scope.

(** A message whose fields have the kinds of the ABI, with integers of at most
    [w n] bits where [n] are declared. *)
Definition message_ok (w : Z -> Z) (m : SocketMessage) : bool :=
  tokens_are w SocketMessage_kinds (SocketMessage_tokens m).

(** The tokens of a list of kinds, one by one. *)
Lemma tokens_are_nil w l : tokens_are w [] l = true -> l = [].
Proof. by destruct l. Qed.
Lemma tokens_are_cons w k ks l :
  tokens_are w (k :: ks) l = true ->
  exists t l', l = t :: l' /\ token_is w k t = true /\ tokens_are w ks l' = true.
Proof. destruct l as [|t l']; [done|]. cbn. intros [? ?]%andb_true_iff. eauto. Qed.
Lemma token_is_tuple w ks t :
  token_is w (KTuple ks) t = true -> exists l, t = TTuple l /\ tokens_are w ks l = true.
Proof. destruct t; try done. eauto. Qed.
Lemma token_is_uint w n t :
  token_is w (KUint n) t = true -> exists v, t = TUint v /\ 0 <= v < 2 ^ w n.
Proof. destruct t; try done. cbn. intros. eexists. split; [done|]. lia. Qed.
Lemma token_is_fixed_bytes w n t :
  token_is w (KFixedBytes n) t = true -> exists b, t = TFixedBytes b /\ length b = n.
Proof. destruct t; try done. cbn. intros ?%Nat.eqb_eq. eauto. Qed.
Lemma token_is_address w t : token_is w KAddress t = true -> exists a, t = TAddress a.
Proof. destruct t; try done. eauto. Qed.
Lemma token_is_bytes w t : token_is w KBytes t = true -> exists b, t = TBytes b.
Proof. destruct t; try done. eauto. Qed.
Lemma token_is_fixed_array w k n t :
  token_is w (KFixedArray k n) t = true ->
  exists l, t = TFixedArray l /\ length l = n /\ forallb (token_is w k) l = true.
Proof. destruct t; try done. cbn. intros [?%Nat.eqb_eq ?]%andb_true_iff. eauto. Qed.

(** Takes tokens of known kinds apart. *)
Ltac open_tokens :=
  repeat match goal with
  | H : tokens_are _ [] _ = true |- _ => apply tokens_are_nil in H as ->
  | H : tokens_are _ (_ :: _) _ = true |- _ =>
      apply tokens_are_cons in H as (? & ? & -> & ? & ?)
  | H : token_is _ (KTuple _) _ = true |- _ => apply token_is_tuple in H as (? & -> & ?)
  | H : token_is _ (KUint _) _ = true |- _ => apply token_is_uint in H as (? & -> & ?)
  | H : token_is _ (KFixedBytes _) _ = true |- _ => apply token_is_fixed_bytes in H as (? & -> & ?)
  | H : token_is _ KAddress _ = true |- _ => apply token_is_address in H as (? & ->)
  | H : token_is _ KBytes _ = true |- _ => apply token_is_bytes in H as (? & ->)
  | H : token_is _ (KFixedArray _ _) _ = true |- _ =>
      apply token_is_fixed_array in H as (? & -> & ? & ?)
  end.

Lemma tokens_of_message w ts :
  tokens_are w SocketMessage_kinds ts = true -> exists m, ts = SocketMessage_tokens m.
Proof.
  intros Hts. unfold SocketMessage_kinds in Hts. open_tokens.
  by eexists (mkSocketMessage (mkRequestID _ _ _) _ (mkInstruction _ _) (mkTaskParams _ _ _ _ _ _)).
Qed.

Lemma try_from_message_tokens m :
  exists msg, SocketMessage_tokens m = [TTuple msg] /\ SocketMessage_try_from_tokens msg = Some m.
Proof. eexists. split; [done|]. by destruct m as [[] ? [] []]. Qed.

Lemma try_from_decoded `{EthAbi} b m :
  abi_decode SocketMessage_kinds b = Some (SocketMessage_tokens m) -> SocketMessage_try_from b = Done m.
Proof.
  intros Hb. unfold SocketMessage_try_from. rewrite Hb.
  destruct (try_from_message_tokens m) as (msg & -> & Hm). by rewrite Hm.
Qed.

(** What a message of the right kinds looks like. *)
Lemma message_widths w m :
  message_ok w m = true ->
  length (rid_chain (sm_req_id m)) = 4%nat /\ length (ins_chain (sm_ins_code m)) = 4%nat
  /\ length (tp_token_idx0 (sm_params m)) = 32%nat /\ 0 <= tp_amount (sm_params m) < 2 ^ w 256.
Proof.
  unfold message_ok, SocketMessage_kinds, SocketMessage_tokens, tokens_are. cbn.
  rewrite !andb_true_iff, !Nat.eqb_eq. intros. destruct_and?. split_and!; try done; lia.
Qed.

Section Laws.
Context `{EthAbiLaws}.

(** C40: A socket message is read back from its own encoding, whenever its
    fields fit the declared kinds (the chains take 4 bytes, the method 16, the
    token indexes 32, the integers their declared number of bits, the
    addresses 160 bits). *)
Theorem socket_message_roundtrip m :
  message_ok exact m = true -> SocketMessage_try_from (SocketMessage_encode m) = Done m.
Proof. intros Hm. by apply try_from_decoded, abi_decode_encode. Qed.

(** What is parsed has the kinds of the ABI; parsing never panics. *)
Lemma try_from_spec b :
  match SocketMessage_try_from b with
  | Done m => message_ok word m = true
  | Fail _ => True
  | Trap => False
  end.
Proof.
  destruct (abi_decode SocketMessage_kinds b) as [ts|] eqn:E.
  - pose proof (abi_decode_kinds _ _ _ E) as Hk. destruct (tokens_of_message _ _ Hk) as [m ->].
    by rewrite (try_from_decoded b m).
  - unfold SocketMessage_try_from. by rewrite E.
Qed.
Lemma try_from_done b m : SocketMessage_try_from b = Done m -> message_ok word m = true.
Proof. intros E. pose proof (try_from_spec b) as Hb. by rewrite E in Hb. Qed.

Lemma message_encode_inj m m' :
  message_ok word m = true -> message_ok word m' = true ->
  SocketMessage_encode m = SocketMessage_encode m' -> m = m'.
Proof.
  intros Hm Hm' E. apply (abi_encode_inj SocketMessage_kinds) in E; [|done..].
  destruct (try_from_message_tokens m) as (msg & E1 & E2), (try_from_message_tokens m') as (? & E3 & E4).
  congruence.
Qed.

(** The answer of the Socket contract has a status. *)
Lemma uints_of_array w n l :
  forallb (token_is w (KUint n)) l = true -> exists vs, mapM to_uint l = Some vs /\ length vs = length l.
Proof.
  induction l as [|t l IH]; cbn [forallb]; [by exists []|].
  intros [Ht Hl]%andb_true_iff. destruct (IH Hl) as (vs & Hvs & Hlen).
  apply token_is_uint in Ht as (v & -> & _). exists (v :: vs). cbn. by rewrite Hvs, <- Hlen.
Qed.
Lemma request_info_spec b :
  match RequestInfo_try_from b with
  | Done r => exists v, head (ri_field r) = Some v
  | Fail _ => True
  | Trap => False
  end.
Proof.
  unfold RequestInfo_try_from. destruct (abi_decode RequestInfo_kinds b) as [ts|] eqn:E; [|done].
  pose proof (abi_decode_kinds _ _ _ E) as Hk. unfold RequestInfo_kinds in Hk. open_tokens.
  match goal with Hf : forallb _ _ = true |- _ => apply uints_of_array in Hf as (vs & Hvs & Hlen) end.
  cbn. unfold to_fixed_array. cbn. rewrite Hvs. unfold H256_from_slice.
  match goal with Hb : length ?b = 32%nat |- context [length ?b] => rewrite Hb end. cbn.
  destruct vs as [|v vs]; [cbn in *; lia|]. by exists v.
Qed.
End Laws.
