(* ===== verification/CoinSelectionTheorems.v ===== *)
(** * Coin selection is exact

    The two searches of [CoinSelection] are one branch and bound over the
    selections of the pool; a search that is not cut by the number of tries
    finds a selection of least cost among all that pay, whatever it prunes. *)

From S2P Require Import Prelude Errors Primitives Cccp BtcRelay CoinSelection.
Local Open Scope Z_scope.

Definition total_value (l : list ScoredUtxo) : Z := zsum (su_effective_value <$> l).
Definition total_weight (l : list ScoredUtxo) : Z := zsum ((us_input_vbytes ∘ su_utxo) <$> l).
Definition total_excess (l : list ScoredUtxo) : Z := zsum (excess_fee <$> l).
(** What a selection costs over its target *)
Definition waste_of (target : Z) (l : list ScoredUtxo) : Z :=
  total_value l - target + total_excess l.

(** No sum of [u64]s over the pool wraps. *)
Record Fits (l : list ScoredUtxo) : Prop := mkFits {
  fits_each : Forall (fun x => 0 <= su_effective_value x /\ 0 <= us_input_vbytes (su_utxo x)) l;
  fits_value : total_value l + total_excess l < u64_max;
  fits_weight : total_weight l < u64_max
}.

(** [l] covers the target within the weight. *)
Definition Pays (target max_weight : Z) (l : list ScoredUtxo) : Prop :=
  target <= total_value l /\ total_weight l <= max_weight.

Lemma total_value_app a b : total_value (a ++ b) = total_value a + total_value b.
Proof. unfold total_value. by rewrite fmap_app, zsum_app. Qed.
Lemma total_weight_app a b : total_weight (a ++ b) = total_weight a + total_weight b.
Proof. unfold total_weight. by rewrite fmap_app, zsum_app. Qed.
Lemma total_excess_app a b : total_excess (a ++ b) = total_excess a + total_excess b.
Proof. unfold total_excess. by rewrite fmap_app, zsum_app. Qed.

Lemma excess_nonneg x : 0 <= excess_fee x.
Proof. unfold excess_fee, sat_sub. lia. Qed.
Lemma total_excess_nonneg l : 0 <= total_excess l.
Proof.
  apply zsum_nonneg, Forall_fmap, Forall_forall. intros x _. apply excess_nonneg.
Qed.
Lemma totals_nonneg l : Fits l -> 0 <= total_value l /\ 0 <= total_weight l.
Proof.
  intros [He _ _]. split; apply zsum_nonneg, Forall_fmap;
    eapply Forall_impl; [done| |done|]; cbn; intros ? []; done.
Qed.

#[export] Instance total_value_perm : Proper ((≡ₚ) ==> eq) total_value.
Proof. intros a b Hp. unfold total_value. by rewrite Hp. Qed.
#[export] Instance total_weight_perm : Proper ((≡ₚ) ==> eq) total_weight.
Proof. intros a b Hp. unfold total_weight. by rewrite Hp. Qed.
#[export] Instance total_excess_perm : Proper ((≡ₚ) ==> eq) total_excess.
Proof. intros a b Hp. unfold total_excess. by rewrite Hp. Qed.
#[export] Instance fits_perm : Proper ((≡ₚ) ==> iff) Fits.
Proof.
  intros a b Hp. split; intros [He Hv Hw]; split; rewrite ?Hp in *; try done;
    by rewrite <- ?Hp in *.
Qed.

Lemma fits_app a b : Fits (a ++ b) -> Fits a /\ Fits b.
Proof.
  intros Hf. pose proof Hf as [[Ha Hb]%Forall_app Hv Hw].
  assert (forall l, Forall (fun x => 0 <= su_effective_value x /\ 0 <= us_input_vbytes (su_utxo x)) l ->
          0 <= total_value l /\ 0 <= total_weight l) as Hnn.
  { intros l Hl. split; apply zsum_nonneg, Forall_fmap;
      eapply Forall_impl; [done| |done|]; cbn; intros ? []; done. }
  pose proof (Hnn a Ha). pose proof (Hnn b Hb).
  pose proof (total_excess_nonneg a). pose proof (total_excess_nonneg b).
  rewrite total_value_app, total_excess_app in Hv. rewrite total_weight_app in Hw.
  split; split; try done; lia.
Qed.
Lemma fits_submseteq a b : a ⊆+ b -> Fits b -> Fits a.
Proof. intros [k ->]%submseteq_Permutation Hf. by apply fits_app in Hf as [? _]. Qed.

(** ** One branch and bound *)

Section Dfs.
Context (target max_weight max_tries stop : Z).
(** the value of a selection is past its bound *)
Context (too_much : Z -> bool).
(** the cost of a selection of that value *)
Context (cost : list ScoredUtxo -> Z -> Z).

Fixpoint search (pool : list ScoredUtxo) (sums : list Z) (c : list ScoredUtxo) (v w : Z)
    (st : Search) : Search :=
  if max_tries <=? tries st then st
  else
    let seen := mkSearch (tries st + 1) (best_selection st) (best st) in
    if u64_add v (hd 0 sums) <? target then seen
    else if too_much v then seen
    else if max_weight <? w then seen
    else if target <=? v then
      if cost c v <? best st then mkSearch (tries st + 1) (fmap (M:=list) su_utxo c) (cost c v)
      else seen
    else if best st =? stop then seen
    else
      match pool with
      | [] => seen
      | x :: rest =>
          let st := search rest (tail sums) (c ++ [x]) (u64_add v (su_effective_value x))
                      (u64_add w (us_input_vbytes (su_utxo x))) seen in
          search rest (tail sums) c v w st
      end.

Definition pays (l : list ScoredUtxo) : Prop :=
  Pays target max_weight l /\ too_much (total_value l) = false.
Definition cost_of (l : list ScoredUtxo) : Z := cost l (total_value l).

Context (too_much_mono : forall v v', v <= v' -> too_much v = true -> too_much v' = true).
Context (cost_mono : forall c l, Fits (c ++ l) -> target <= total_value c -> cost_of c <= cost_of (c ++ l)).
Context (cost_perm : forall l k, Fits l -> l ≡ₚ k -> cost_of l = cost_of k).
Context (stop_least : forall l, Fits l -> target <= total_value l -> stop <= cost_of l).

(** [st'] holds what [st] held or a cheaper selection among [ls]. *)
Definition better (ls : list ScoredUtxo -> Prop) (st st' : Search) : Prop :=
  (best_selection st' = best_selection st /\ best st' = best st) \/
  (exists l, ls l /\ pays l /\ best_selection st' = fmap (M:=list) su_utxo l
             /\ best st' = cost_of l /\ best st' < best st).

Definition extends (c pool l : list ScoredUtxo) : Prop :=
  exists k, sublist k pool /\ l = c ++ k.

Lemma better_trans ls st st' st'' : better ls st st' -> better ls st' st'' -> better ls st st''.
Proof.
  unfold better. intros [[Hs Hb]|(l & ? & ? & Hs & Hl & ?)] [[Hs' Hb']|(l' & ? & ? & ? & ? & ?)].
  - left. rewrite Hs', Hb', Hs, Hb. done.
  - right. exists l'. split_and!; try done; lia.
  - right. exists l. rewrite Hs', Hb', Hs, Hl. split_and!; try done; lia.
  - right. exists l'. split_and!; try done; lia.
Qed.
Lemma better_le ls st st' : better ls st st' -> best st' <= best st.
Proof. intros [[_ ->]|(? & _ & _ & _ & _ & ?)]; lia. Qed.
Lemma better_seen ls st st' :
  better ls (mkSearch (tries st + 1) (best_selection st) (best st)) st' -> better ls st st'.
Proof. done. Qed.
Lemma better_widen (ls ls' : list ScoredUtxo -> Prop) st st' :
  (forall l, ls l -> ls' l) -> better ls st st' -> better ls' st st'.
Proof. intros Hw [?|(l & ? & ?)]; [by left|]. right. exists l. auto. Qed.

Lemma extends_take c x rest l : extends (c ++ [x]) rest l -> extends c (x :: rest) l.
Proof. intros (k & ? & ->). exists (x :: k). rewrite <- app_assoc. by split; [constructor|]. Qed.
Lemma extends_skip c x rest l : extends c rest l -> extends c (x :: rest) l.
Proof. intros (k & ? & ->). exists k. by split; [constructor|]. Qed.
Lemma extends_cases c x rest l :
  extends c (x :: rest) l -> extends (c ++ [x]) rest l \/ extends c rest l.
Proof.
  intros (k & Hk & ->). inversion Hk; subst.
  - left. eexists. split; [done|]. by rewrite <- app_assoc.
  - right. by eexists.
Qed.

Lemma fits_suffix_sums l : Fits l -> hd 0 (suffix_sums l) = total_value l.
Proof.
  induction l as [|x l IH]; [done|]. intros Hf.
  pose proof (fits_app [x] l Hf) as [_ Hl]. cbn [suffix_sums hd]. rewrite IH by done.
  pose proof (totals_nonneg _ Hf). pose proof (fits_value _ Hf).
  pose proof (total_excess_nonneg (x :: l)).
  assert (total_value (x :: l) = su_effective_value x + total_value l) as Hx by done.
  unfold u64_sat_add, u64_max in *. lia.
Qed.

(** What both calls of the search see: the running sums are those of the
    selection, and nothing wraps. *)
Record Running (pool c : list ScoredUtxo) (v w : Z) (sums : list Z) : Prop := mkRunning {
  open_fits : Fits (c ++ pool);
  open_value : v = total_value c;
  open_weight : w = total_weight c;
  open_sums : sums = suffix_sums pool
}.

Lemma open_take x rest c v w sums :
  Running (x :: rest) c v w sums ->
  Running rest (c ++ [x]) (u64_add v (su_effective_value x))
    (u64_add w (us_input_vbytes (su_utxo x))) (tail sums).
Proof.
  intros [Hf -> -> ->].
  assert (Fits ((c ++ [x]) ++ rest)) as Hf' by by rewrite <- app_assoc.
  pose proof (fits_app _ _ Hf') as [Hc _].
  pose proof (totals_nonneg _ Hc) as Hn. pose proof (fits_value _ Hc) as Hv.
  pose proof (fits_weight _ Hc) as Hw. pose proof (total_excess_nonneg (c ++ [x])).
  rewrite total_value_app, total_weight_app in *.
  assert (total_value [x] = su_effective_value x) as Ex by (unfold total_value; cbn; lia).
  assert (total_weight [x] = us_input_vbytes (su_utxo x)) as Ew by (unfold total_weight; cbn; lia).
  unfold u64_max in *. split; [done| | |done].
  - rewrite total_value_app, Ex, u64_add_small; lia.
  - rewrite total_weight_app, Ew, u64_add_small; lia.
Qed.
Lemma open_skip x rest c v w sums :
  Running (x :: rest) c v w sums -> Running rest c v w (tail sums).
Proof.
  intros [Hf -> -> ->]. split; try done.
  eapply fits_submseteq, Hf. apply submseteq_app; [done|]. by apply submseteq_cons.
Qed.

Lemma search_better pool : forall sums c v w st,
  Running pool c v w sums -> better (extends c pool) st (search pool sums c v w st).
Proof.
  induction pool as [|x rest IH]; intros sums c v w st Hr; cbn [search].
  all: destruct (max_tries <=? tries st); [by left|].
  all: destruct (u64_add v (hd 0 sums) <? target); [by left|].
  all: destruct (too_much v) eqn:Hm; [by left|].
  all: destruct (Z.ltb_spec max_weight w); [by left|].
  all: pose proof Hr as [Hf -> -> ->].
  all: destruct (Z.leb_spec target (total_value c)) as [Ht|Ht].
  all: try (destruct (Z.ltb_spec (cost c (total_value c)) (best st)); [|by left]; right;
            exists c; split_and!; try done; exists []; split; [apply sublist_nil_l|by rewrite app_nil_r]).
  all: destruct (best st =? stop); [by left|].
  - by left.
  - eapply better_trans.
    + apply better_seen. eapply better_widen; [|by eapply IH, open_take]. apply extends_take.
    + eapply better_widen; [|by eapply IH, open_skip]. apply extends_skip.
Qed.

(** Whatever the sums, the selection held is made of UTXOs of the pool. *)
Lemma search_elem pool : forall sums c v w st i,
  i ∈ best_selection (search pool sums c v w st) -> i ∈ best_selection st \/ i ∈ su_utxo <$> (c ++ pool).
Proof using Type.
  clear too_much_mono cost_mono cost_perm stop_least.
  induction pool as [|x rest IH]; intros sums c v w st i; cbn [search].
  all: repeat (match goal with |- context [if ?b then _ else _] => destruct b end; cbn [best_selection]);
    try by left.
  - rewrite app_nil_r. by right.
  - rewrite fmap_app. set_solver.
  - intros [[Hi|Hi]%IH|Hi]%IH; [by left|..]; right.
    + by rewrite <- app_assoc in Hi.
    + rewrite fmap_app in *. set_solver.
Qed.

(** The tries of a search that is never cut *)
Definition nodes (n : nat) : Z := 2 ^ (Z.of_nat n + 1) - 1.
Lemma nodes_S n : nodes (S n) = 1 + nodes n + nodes n.
Proof.
  unfold nodes. replace (Z.of_nat (S n) + 1) with (Z.succ (Z.of_nat n + 1)) by lia.
  rewrite Z.pow_succ_r by lia. lia.
Qed.
Lemma nodes_pos n : 1 <= nodes n.
Proof. induction n; [done|]. rewrite nodes_S. lia. Qed.

Lemma search_tries pool : forall sums c v w st,
  tries st <= tries (search pool sums c v w st) <= tries st + nodes (length pool).
Proof.
  induction pool as [|x rest IH]; intros sums c v w st; cbn [search].
  all: try change (nodes (length [])) with 1; rewrite ?length_cons, ?nodes_S.
  2: pose proof (nodes_pos (length rest)).
  all: repeat case_match; cbn [tries]; try lia.
  set (st1 := search rest _ (c ++ [x]) _ _ _).
  pose proof (IH (tail sums) (c ++ [x]) (u64_add v (su_effective_value x))
    (u64_add w (us_input_vbytes (su_utxo x)))
    (mkSearch (tries st + 1) (best_selection st) (best st))) as Hone. fold st1 in Hone. cbn [tries] in Hone.
  pose proof (IH (tail sums) c v w st1). lia.
Qed.

Lemma extends_bounds pool c l :
  Fits (c ++ pool) -> extends c pool l ->
  Fits l /\ total_value c <= total_value l <= total_value (c ++ pool)
  /\ total_weight c <= total_weight l.
Proof.
  intros Hf (k & [j Hk]%sublist_submseteq%submseteq_Permutation & ->).
  rewrite Hk, app_assoc in Hf. rewrite Hk, app_assoc.
  pose proof (fits_app _ _ Hf) as [Hl Hj]. pose proof (fits_app _ _ Hl) as [_ Hk'].
  pose proof (totals_nonneg _ Hj). pose proof (totals_nonneg _ Hk').
  rewrite !total_value_app, !total_weight_app. split; [done|lia].
Qed.

Lemma running_reach pool c v w sums :
  Running pool c v w sums -> u64_add v (hd 0 sums) = total_value (c ++ pool).
Proof.
  intros [Hf -> -> ->]. pose proof (fits_app _ _ Hf) as [Hc Hp].
  rewrite fits_suffix_sums by done.
  pose proof (totals_nonneg _ Hf). pose proof (fits_value _ Hf).
  pose proof (total_excess_nonneg (c ++ pool)). unfold u64_max in *.
  rewrite total_value_app in *. rewrite u64_add_small; lia.
Qed.

Lemma search_least pool : forall sums c v w st,
  Running pool c v w sums -> tries st + nodes (length pool) <= max_tries ->
  forall l, extends c pool l -> pays l -> best (search pool sums c v w st) <= cost_of l.
Proof.
  induction pool as [|x rest IH]; intros sums c v w st Hr Hn l Hl [[Hv Hw] Hm]; cbn [search];
    [pose proof (nodes_pos 0)|pose proof (nodes_pos (length rest))].
  all: rewrite (running_reach _ _ _ _ _ Hr); pose proof Hr as [Hf Ev Ew _]; subst v w.
  all: pose proof (extends_bounds _ _ _ Hf Hl) as (Hfl & [Hc Hp] & Hwl).
  all: cbn [length] in Hn; rewrite ?nodes_S in Hn.
  all: destruct (Z.leb_spec max_tries (tries st)); [change (nodes 0) with 1 in *; lia|].
  all: match goal with |- context [total_value (?c0 ++ ?p) <? target] =>
         destruct (Z.ltb_spec (total_value (c0 ++ p)) target); [lia|] end.
  all: destruct (too_much (total_value c)) eqn:Htm; [rewrite (too_much_mono _ _ Hc Htm) in Hm; done|].
  all: destruct (Z.ltb_spec max_weight (total_weight c)); [lia|].
  all: destruct (Z.leb_spec target (total_value c)) as [Ht|Ht].
  all: try (destruct Hl as (k & _ & ->); pose proof (cost_mono _ _ Hfl Ht) as Hcm;
            unfold cost_of at 1 in Hcm; destruct (Z.ltb_spec (cost c (total_value c)) (best st)); cbn [best]; lia).
  all: destruct (Z.eqb_spec (best st) stop); [cbn [best]; pose proof (stop_least _ Hfl Hv); lia|].
  - destruct Hl as (k & Hk & ->). apply sublist_nil_r in Hk. subst k. rewrite app_nil_r in Hv. lia.
  - set (st1 := search rest _ (c ++ [x]) _ _ _).
    pose proof (open_take _ _ _ _ _ _ Hr) as Hr1. pose proof (open_skip _ _ _ _ _ _ Hr) as Hr2.
    assert (tries st1 <= tries st + 1 + nodes (length rest)) as Ht1 by apply search_tries.
    destruct (extends_cases _ _ _ _ Hl) as [Hl1|Hl2].
    + etrans; [eapply better_le, search_better, Hr2|].
      apply IH; [done|cbn [tries]; lia|done|done].
    + apply IH; [done|lia|done|done].
Qed.

(** The search from the empty selection: whatever it holds pays, and nothing
    that pays is cheaper. *)
Definition start : Search := mkSearch 0 [] u64_max.

Lemma running_start pool : Fits pool -> Running pool [] 0 0 (suffix_sums pool).
Proof. by split. Qed.

Lemma search_sound pool :
  Fits pool -> best_selection (search pool (suffix_sums pool) [] 0 0 start) <> [] ->
  exists l, l ⊆+ pool /\ pays l
    /\ best_selection (search pool (suffix_sums pool) [] 0 0 start) = su_utxo <$> l
    /\ best (search pool (suffix_sums pool) [] 0 0 start) = cost_of l.
Proof.
  intros Hf Hs. destruct (search_better pool _ _ _ _ start (running_start _ Hf))
    as [[He _]|(l & (k & Hk & ->) & Hp & He & Hb & _)]; [by rewrite He in Hs|].
  exists k. split_and!; try done. by apply sublist_submseteq.
Qed.

Lemma search_complete pool :
  Fits pool -> nodes (length pool) <= max_tries -> 0 < target ->
  (forall l, Fits l -> target <= total_value l -> cost_of l < u64_max) ->
  forall l, l ⊆+ pool -> pays l ->
  best_selection (search pool (suffix_sums pool) [] 0 0 start) <> []
  /\ best (search pool (suffix_sums pool) [] 0 0 start) <= cost_of l.
Proof.
  intros Hf Hn Ht Hc l (k & Hlk & Hk)%submseteq_sublist_r Hp.
  assert (Fits l) as Hfl by (eapply fits_submseteq; [|done]; rewrite Hlk; by apply sublist_submseteq).
  rewrite (cost_perm _ _ Hfl Hlk).
  assert (pays k) as Hpk by by (unfold pays, Pays in *; rewrite <- Hlk).
  pose proof (search_least pool _ _ _ _ start (running_start _ Hf) Hn k
    (ex_intro _ k (conj Hk eq_refl)) Hpk) as Hle.
  split; [|done].
  destruct (search_better pool _ _ _ _ start (running_start _ Hf))
    as [[_ Hb]|(l' & (k' & _ & ->) & [[Hv _] _] & -> & _ & _)].
  - rewrite Hb in Hle. rewrite Hlk in Hfl. pose proof (Hc k Hfl (proj1 (proj1 Hpk))). unfold start in Hle. cbn in Hle. lia.
  - cbn. destruct k'; [unfold total_value in Hv; cbn in Hv; lia|done].
Qed.
End Dfs.

(** ** The two searches *)

Section Selections.
Context (target cost_of_change max_weight max_tries : Z).
Context (target_u64 : 0 <= target).

Definition bnb_cost (c : list ScoredUtxo) (v : Z) : Z :=
  u64_add (v - target) (u64_sum (fmap (M:=list) excess_fee c)).
Definition past_change (v : Z) : bool := u64_add target cost_of_change <? v.

Lemma bnb_is_search pool : forall sums c v w st,
  bnb_dfs target cost_of_change max_weight max_tries pool sums c v w st
  = search target max_weight max_tries 0 past_change bnb_cost pool sums c v w st.
Proof.
  induction pool as [|x rest IH]; intros sums c v w [t s b]; [done|].
  cbn [bnb_dfs search tries best_selection best]. by rewrite !IH.
Qed.
Lemma knapsack_is_search limit pool : forall sums c v w st,
  knapsack_dfs target max_weight limit pool sums c v w st
  = search target max_weight limit target (fun _ => false) (fun _ v => v) pool sums c v w st.
Proof.
  induction pool as [|x rest IH]; intros sums c v w [t s b]; [done|].
  cbn [knapsack_dfs search tries best_selection best]. by rewrite !IH.
Qed.

Lemma u64_sum_small l :
  Forall (fun x => 0 <= x) l -> zsum l < u64_modulus -> u64_sum l = zsum l.
Proof.
  intros Hl Hs. unfold u64_sum.
  enough (forall a, 0 <= a -> a + zsum l < u64_modulus -> foldl u64_add a l = a + zsum l)
    as Hall by (rewrite Hall; lia).
  clear Hs. induction Hl as [|x l Hx Hl IH]; intros a Ha Hs; [unfold zsum; cbn; lia|].
  pose proof (zsum_nonneg l Hl). cbn [foldl]. rewrite zsum_cons in *.
  rewrite u64_add_small by lia. rewrite IH; lia.
Qed.

Lemma bnb_cost_waste l :
  Fits l -> target <= total_value l ->
  cost_of bnb_cost l = waste_of target l.
Proof.
  intros Hf Ht. unfold cost_of, bnb_cost, waste_of.
  pose proof (fits_value _ Hf). pose proof (total_excess_nonneg l). unfold u64_max in *.
  rewrite u64_sum_small.
  - fold (total_excess l). rewrite u64_add_small; lia.
  - apply Forall_fmap, Forall_forall. intros x _. apply excess_nonneg.
  - fold (total_excess l). lia.
Qed.

Lemma past_change_mono v v' : v <= v' -> past_change v = true -> past_change v' = true.
Proof. unfold past_change. rewrite !Z.ltb_lt. lia. Qed.
Lemma waste_mono c l :
  Fits (c ++ l) -> target <= total_value c ->
  cost_of bnb_cost c <= cost_of bnb_cost (c ++ l).
Proof.
  intros Hf Ht. pose proof (fits_app _ _ Hf) as [Hc Hl]. pose proof (totals_nonneg _ Hl).
  pose proof (total_excess_nonneg l).
  rewrite !bnb_cost_waste by (done || rewrite total_value_app; lia).
  unfold waste_of. rewrite total_value_app, total_excess_app. lia.
Qed.
Lemma waste_perm l k : Fits l -> l ≡ₚ k -> cost_of bnb_cost l = cost_of bnb_cost k.
Proof.
  intros Hf Hp. unfold cost_of, bnb_cost.
  assert (u64_sum (excess_fee <$> l) = u64_sum (excess_fee <$> k)) as E.
  { assert (Fits k) as Hk by by rewrite <- Hp.
    pose proof (fits_value _ Hf). pose proof (totals_nonneg _ Hf).
    pose proof (fits_value _ Hk). pose proof (totals_nonneg _ Hk).
    unfold total_excess, u64_max in *.
    rewrite !u64_sum_small; [by rewrite Hp|..]; try lia.
    all: apply Forall_fmap, Forall_forall; intros x _; apply excess_nonneg. }
  by rewrite E, Hp.
Qed.
Lemma waste_least l : Fits l -> target <= total_value l -> 0 <= cost_of bnb_cost l.
Proof.
  intros Hf Ht. rewrite bnb_cost_waste by done. unfold waste_of.
  pose proof (total_excess_nonneg l). lia.
Qed.
Lemma waste_small l : Fits l -> target <= total_value l -> cost_of bnb_cost l < u64_max.
Proof.
  intros Hf Ht. rewrite bnb_cost_waste by done. unfold waste_of. pose proof (fits_value _ Hf). lia.
Qed.

(** ** What branch and bound returns *)

(** A selection that needs no change *)
Definition NoChange (l : list ScoredUtxo) : Prop :=
  Pays target max_weight l /\ total_value l <= target + cost_of_change.

Lemma no_change_pays l :
  0 <= target + cost_of_change <= u64_max ->
  NoChange l <-> pays target max_weight past_change l.
Proof.
  intros Hc. unfold NoChange, pays, past_change. rewrite u64_add_small, Z.ltb_ge; [done|].
  unfold u64_max in *. lia.
Qed.

Lemma bnb_result pool :
  Fits pool -> 0 <= target + cost_of_change <= u64_max ->
  match select_coins_bnb target cost_of_change max_weight max_tries pool with
  | Some (selected, strategy) =>
      strategy = Bnb /\
      exists l, l ⊆+ pool /\ NoChange l /\ l <> [] /\ selected = su_utxo <$> l
        /\ (nodes (length pool) <= max_tries -> 0 < target ->
            forall k, k ⊆+ pool -> NoChange k -> waste_of target l <= waste_of target k)
  | None =>
      nodes (length pool) <= max_tries -> 0 < target ->
      forall k, k ⊆+ pool -> ~ NoChange k
  end.
Proof.
  intros Hf Hc. unfold select_coins_bnb.
  set (sorted := stable_sort bnb_leb pool).
  assert (sorted ≡ₚ pool) as Hp by apply stable_sort_perm.
  assert (Fits sorted) as Hs by by rewrite Hp.
  rewrite bnb_is_search. fold start.
  pose proof (search_sound target max_weight max_tries 0 past_change bnb_cost
    sorted Hs) as Hsound.
  pose proof (fun n t => search_complete target max_weight max_tries 0 past_change bnb_cost
    past_change_mono waste_mono waste_perm waste_least sorted Hs n t waste_small) as Hcomplete.
  set (found := search _ _ _ _ _ _ _ _ _ _ _ _) in *.
  assert (length sorted = length pool) as Hlen by by rewrite Hp.
  rewrite Hlen in Hcomplete.
  destruct (best_selection found) as [|u us] eqn:Eb.
  - intros Hn Ht k Hk Hch%no_change_pays; [|done]. rewrite <- Hp in Hk.
    by destruct (Hcomplete Hn Ht k Hk Hch).
  - destruct Hsound as (l & Hl & Hpl & Hsel & Hb); [done|]. split; [done|].
    exists l. rewrite Hp in Hl. split_and!; try done.
    + by apply no_change_pays.
    + by intros ->.
    + intros Hn Ht k Hk Hch. rewrite <- Hp in Hk. pose proof Hch as Hpk.
      apply no_change_pays in Hpk; [|done].
      destruct (Hcomplete Hn Ht k Hk Hpk) as [_ Hle]. rewrite Hb in Hle.
      rewrite !bnb_cost_waste in Hle; [done|..].
      * eapply fits_submseteq; [|exact Hs]. done.
      * apply Hch.
      * eapply fits_submseteq; [exact Hl|done].
      * apply Hpl.
Qed.

(** ** What the knapsack returns *)

Context (change_target : Z).
Context (change_u64 : 0 <= change_target) (limit_u64 : target + change_target <= u64_max).

Record Categorized (seen : list ScoredUtxo) (c : Categories) : Prop := mkCategorized {
  cat_applicable : applicable c ⊆+ seen;
  cat_larger : forall x, lowest_larger c = Some x -> x ∈ seen /\ target <= su_effective_value x;
  cat_exact : forall x, best_exact c = Some x ->
    x ∈ seen /\ target <= su_effective_value x /\ us_input_vbytes (su_utxo x) <= max_weight;
  cat_rest : lowest_larger c = None -> best_exact c = None -> applicable c = seen
}.

Lemma categorize_keeps seen c x :
  Categorized seen c -> Categorized (seen ++ [x]) (categorize target change_target max_weight c x).
Proof.
  intros [Ha Hl He Hr]. destruct c as [a larger exact].
  cbn [applicable lowest_larger best_exact] in *. unfold categorize.
  rewrite u64_add_small by (unfold u64_max in *; lia).
  assert (a ⊆+ seen ++ [x]) as Hax by by apply submseteq_inserts_r.
  assert (x ∈ seen ++ [x]) as Hx by set_solver.
  assert (forall y, y ∈ seen -> y ∈ seen ++ [x]) as Hold by set_solver.
  destruct ((target <=? su_effective_value x) && _ && _) eqn:E1;
    [|destruct (Z.ltb_spec (su_effective_value x) (target + change_target))].
  - rewrite !andb_true_iff, !Z.leb_le in E1. destruct (is_less x exact) eqn:El; split; cbn; try done.
    + intros y Hy. destruct (Hl y Hy). auto.
    + intros y [= <-]. split; [done|lia].
    + intros y Hy. destruct (Hl y Hy). auto.
    + intros y Hy. destruct (He y Hy). auto.
    + intros _ ->. done.
  - split; cbn.
    + by apply submseteq_app.
    + intros y Hy. destruct (Hl y Hy). auto.
    + intros y Hy. destruct (He y Hy). auto.
    + intros H1 H2. by rewrite (Hr H1 H2).
  - destruct (is_less x larger) eqn:El; split; cbn; try done.
    + intros y [= <-]. split; [done|lia].
    + intros y Hy. destruct (He y Hy). auto.
    + intros y Hy. destruct (Hl y Hy). auto.
    + intros y Hy. destruct (He y Hy). auto.
    + intros ->. done.
Qed.
Lemma categorized pool :
  Categorized pool (foldl (categorize target change_target max_weight) (mkCategories [] None None) pool).
Proof.
  induction pool as [|x pool IH] using rev_ind; [by split|].
  rewrite foldl_snoc. by apply categorize_keeps.
Qed.

(** A selection of the pool that pays, as the code returns it *)
Definition Paid (pool : list ScoredUtxo) (selected : list UtxoInfoWithSize) : Prop :=
  exists l, l ⊆+ pool /\ Pays target max_weight l /\ l <> [] /\ selected = su_utxo <$> l.

Lemma paid_single pool x :
  x ∈ pool -> target <= su_effective_value x -> us_input_vbytes (su_utxo x) <= max_weight ->
  Paid pool [su_utxo x].
Proof.
  intros Hx Hv Hw. exists [x]. split_and!; try done.
  - by apply singleton_submseteq_l.
  - unfold Pays, total_value, total_weight. cbn. lia.
Qed.

Lemma knapsack_pays l : Pays target max_weight l <-> pays target max_weight (fun _ => false) l.
Proof. unfold pays. by split; [|intros []]. Qed.

Lemma knapsack_search pool :
  Fits pool ->
  let found := knapsack_dfs target max_weight 100000 pool (suffix_sums pool) [] 0 0 start in
  (best_selection found <> [] -> Paid pool (best_selection found)) /\
  (best_selection found = [] -> nodes (length pool) <= 100000 -> 0 < target ->
   forall k, k ⊆+ pool -> ~ Pays target max_weight k).
Proof.
  intros Hf. cbn. rewrite knapsack_is_search.
  set (cost := fun (_ : list ScoredUtxo) v => v).
  pose proof (search_sound target max_weight 100000 target (fun _ => false) cost pool Hf) as Hsound.
  pose proof (search_complete target max_weight 100000 target (fun _ => false) cost) as Hcomplete.
  set (found := search _ _ _ _ _ _ _ _ _ _ _ _) in *. split.
  - intros Hs. destruct Hsound as (l & ? & Hp%knapsack_pays & Hsel & _); [done|].
    exists l. split_and!; try done.
    intros ->. by rewrite Hsel in Hs.
  - intros Hs Hn Ht k Hk Hp%knapsack_pays.
    destruct (Hcomplete ltac:(done)) with (pool := pool) (l := k) as [? _]; try done.
    + intros c l Hcl _. unfold cost_of, cost. rewrite total_value_app.
      apply fits_app in Hcl as [_ Hl]. pose proof (totals_nonneg _ Hl). lia.
    + intros l l' _ Hl. unfold cost_of, cost. by rewrite Hl.
    + intros l Hl _. unfold cost_of, cost. pose proof (fits_value _ Hl).
      pose proof (total_excess_nonneg l). lia.
Qed.

Lemma single_larger_paid pool o :
  (forall x, o = Some x -> x ∈ pool /\ target <= su_effective_value x) ->
  match single_larger max_weight o with
  | Some (selected, strategy) => strategy = Knapsack /\ Paid pool selected
  | None => Forall (fun x => us_input_vbytes (su_utxo x) <= max_weight) pool -> o = None
  end.
Proof.
  intros Ho. destruct o as [x|]; cbn; [|done]. destruct (Ho x eq_refl) as [Hx Hv].
  destruct (Z.leb_spec (us_input_vbytes (su_utxo x)) max_weight).
  - split; [done|]. by apply paid_single.
  - intros Hw. rewrite Forall_forall in Hw. specialize (Hw x Hx). cbn in Hw. lia.
Qed.

Lemma knapsack_result pool :
  Fits pool ->
  match select_coins_knapsack target change_target max_weight pool with
  | Some (selected, strategy) => strategy = Knapsack /\ Paid pool selected
  | None =>
      Forall (fun x => us_input_vbytes (su_utxo x) <= max_weight) pool ->
      nodes (length pool) <= 100000 -> 0 < target ->
      forall k, k ⊆+ pool -> ~ Pays target max_weight k
  end.
Proof.
  intros Hf. unfold select_coins_knapsack.
  destruct (categorized pool) as [Ha Hl He Hr].
  destruct (foldl _ _ pool) as [a larger exact]. cbn [applicable lowest_larger best_exact] in *.
  destruct exact as [x|].
  { destruct (He x eq_refl) as (? & ? & ?). split; [done|]. by apply paid_single. }
  pose proof (single_larger_paid pool larger Hl) as Hsingle.
  pose proof (fits_submseteq _ _ Ha Hf) as Hfa.
  assert (u64_sum (su_effective_value <$> a) = total_value a) as Eu.
  { apply u64_sum_small.
    - apply Forall_fmap. eapply Forall_impl; [apply Hfa|]. by intros ? [].
    - pose proof (fits_value _ Hfa). pose proof (total_excess_nonneg a).
      unfold total_value, u64_max in *. lia. }
  rewrite Eu.
  destruct (Z.ltb_spec (total_value a) target) as [Hlow|Hlow].
  { destruct (single_larger max_weight larger) as [[sel s]|]; [done|].
    intros Hw _ _ k Hk [Hkv _]. rewrite (Hr (Hsingle Hw) eq_refl) in Hlow.
    apply submseteq_Permutation in Hk as [j Hj]. rewrite Hj in Hlow, Hf.
    pose proof (fits_app _ _ Hf) as [_ Hfj]. pose proof (totals_nonneg _ Hfj).
    rewrite total_value_app in Hlow. lia. }
  set (sorted := stable_sort knapsack_leb a).
  assert (sorted ≡ₚ a) as Hp by apply stable_sort_perm.
  assert (Fits sorted) as Hs by by rewrite Hp.
  destruct (knapsack_search sorted Hs) as [Hfound Hnone]. fold start.
  set (found := knapsack_dfs _ _ _ _ _ _ _ _ _) in *.
  destruct (best_selection found) as [|u us] eqn:Eb.
  - destruct (single_larger max_weight larger) as [[sel s]|]; [done|].
    intros Hw Hn Ht k Hk. specialize (Hr (Hsingle Hw) eq_refl). subst a.
    apply Hnone; try done; [|by rewrite Hp]. by rewrite Hp.
  - assert (Paid pool (u :: us)) as Hpaid.
    { destruct (Hfound ltac:(done)) as (l & Hl' & ?). exists l.
      split; [|done]. etrans; [|exact Ha]. by rewrite <- Hp. }
    destruct larger as [x|]; [|done].
    destruct (Z.leb_spec (us_input_vbytes (su_utxo x)) max_weight); cbn [andb]; [|done].
    destruct (_ <=? best found); [|done]. split; [done|].
    destruct (Hl x eq_refl). by apply paid_single.
Qed.
End Selections.

Lemma single_larger_elem max_weight o selected strategy (pool : list ScoredUtxo) i :
  (forall x, o = Some x -> x ∈ pool) -> single_larger max_weight o = Some (selected, strategy) ->
  i ∈ selected -> i ∈ su_utxo <$> pool.
Proof.
  intros Ho. destruct o as [x|]; cbn; [|done]. destruct (_ <=? _); [|done]. intros [= <- _] ->%list_elem_of_singleton.
  by apply list_elem_of_fmap_2, Ho.
Qed.
Lemma categorize_elem target change_target max_weight pool :
  let c := foldl (categorize target change_target max_weight) (mkCategories [] None None) pool in
  (forall x, x ∈ applicable c -> x ∈ pool) /\ (forall x, lowest_larger c = Some x -> x ∈ pool)
  /\ (forall x, best_exact c = Some x -> x ∈ pool).
Proof.
  induction pool as [|x pool IH] using rev_ind; [by split_and!; [intros ? ?%not_elem_of_nil|..]|].
  cbn zeta. rewrite foldl_snoc. cbn zeta in IH. destruct (foldl _ _ pool) as [a larger exact].
  destruct IH as (Ha & Hl & He). cbn [applicable lowest_larger best_exact] in *. unfold categorize.
  repeat case_match; cbn [applicable lowest_larger best_exact]; split_and!; intros y Hy; set_solver.
Qed.
Lemma select_knapsack_elem target change_target max_weight pool selected strategy i :
  select_coins_knapsack target change_target max_weight pool = Some (selected, strategy) ->
  i ∈ selected -> i ∈ su_utxo <$> pool.
Proof.
  unfold select_coins_knapsack. destruct (categorize_elem target change_target max_weight pool) as (Ha & Hl & He).
  destruct (foldl _ _ pool) as [a larger exact]. cbn [applicable lowest_larger best_exact] in *.
  destruct exact as [x|]. { intros [= <- _] ->%list_elem_of_singleton. by apply list_elem_of_fmap_2, He. }
  destruct (_ <? target); [by apply single_larger_elem|].
  rewrite knapsack_is_search. fold start. set (sorted := stable_sort knapsack_leb a).
  assert (sorted ≡ₚ a) as Hp by apply stable_sort_perm.
  pose proof (search_elem target max_weight 100000 target (fun _ => false) (fun _ v => v)
    sorted (suffix_sums sorted) [] 0 0 start i) as Hin.
  set (found := search _ _ _ _ _ _ _ _ _ _ _ _) in *.
  destruct (best_selection found) as [|u us] eqn:E; [by apply single_larger_elem|].
  assert (i ∈ u :: us -> i ∈ su_utxo <$> pool) as Hsel.
  { intros Hi. destruct (Hin Hi) as [Hn|Hi']; [by apply not_elem_of_nil in Hn|]. cbn [app] in Hi'.
    rewrite Hp in Hi'. apply list_elem_of_fmap in Hi' as (x & -> & Hx). by apply list_elem_of_fmap_2, Ha. }
  destruct larger as [x|]; [|by intros [= <- _]].
  destruct (_ && _); [|by intros [= <- _]].
  intros [= <- _] ->%list_elem_of_singleton. by apply list_elem_of_fmap_2, Hl.
Qed.
Lemma select_coins_elem pool target cost_of_change max_weight max_tries change_target selected strategy i :
  select_coins pool target cost_of_change max_weight max_tries change_target = Some (selected, strategy) ->
  i ∈ selected -> i ∈ su_utxo <$> pool.
Proof.
  unfold select_coins, select_coins_bnb. rewrite bnb_is_search.
  set (sorted := stable_sort bnb_leb pool).
  assert (sorted ≡ₚ pool) as Hp by apply stable_sort_perm.
  pose proof (search_elem target max_weight max_tries 0 (past_change target cost_of_change) (bnb_cost target)
    sorted (suffix_sums sorted) [] 0 0 start i) as Hin. fold start.
  destruct (best_selection (search _ _ _ _ _ _ _ _ _ _ _ _)) as [|u us].
  - clear Hin. apply select_knapsack_elem.
  - intros [= <- _] Hi. destruct (Hin Hi) as [Hn|Hi']; [by apply not_elem_of_nil in Hn|].
    cbn [app] in Hi'. by rewrite Hp in Hi'.
Qed.

(** ** Theorems *)

(** C27: Branch and bound is exact. On a pool whose sums fit in 64 bits, with
    a positive target and enough tries for the whole tree (2^(n+1) - 1), a
    result is a selection of the pool that covers the target within the
    weight, leaves no more than the cost of change, and wastes least among all
    the selections that do; and there is no result only when no selection
    does. None of the cuts of the search, the one after a perfect match and
    the one by the sums of the suffixes included, loses the best selection. *)
Theorem bnb_least_waste pool target cost_of_change max_weight max_tries :
  Fits pool -> 0 < target -> 0 <= target + cost_of_change <= u64_max ->
  nodes (length pool) <= max_tries ->
  match select_coins_bnb target cost_of_change max_weight max_tries pool with
  | Some (selected, strategy) =>
      strategy = Bnb /\
      exists l, l ⊆+ pool /\ NoChange target cost_of_change max_weight l
        /\ selected = su_utxo <$> l
        /\ forall k, k ⊆+ pool -> NoChange target cost_of_change max_weight k ->
             waste_of target l <= waste_of target k
  | None => forall k, k ⊆+ pool -> ~ NoChange target cost_of_change max_weight k
  end.
Proof.
  intros Hf Ht Hc Hn.
  pose proof (bnb_result target cost_of_change max_weight max_tries ltac:(lia) pool Hf Hc) as Hr.
  destruct (select_coins_bnb _ _ _ _ _) as [[selected strategy]|]; [|by apply Hr].
  destruct Hr as (-> & l & ? & ? & _ & -> & Hl). eauto 10.
Qed.


(** ** Runs *)

Definition coin (hash : Z) (value vbytes fee long_term_fee : Z) : ScoredUtxo :=
  mkScoredUtxo (mkUtxoInfoWithSize (Z.to_N hash) (Z.to_N hash) 0 (value + fee) [] vbytes)
    fee long_term_fee value.
Definition coins : list ScoredUtxo := [coin 1 50 70 3 1; coin 2 30 70 3 2; coin 3 21 70 3 2; coin 4 20 70 3 3].

Ltac solve_fits := split; [repeat constructor; done|done..].

Definition best_pair : list ScoredUtxo := [coin 2 30 70 3 2; coin 4 20 70 3 3].

Lemma bnb_least_waste_witness :
  select_coins_bnb 50 2 1000 100 coins = Some (su_utxo <$> best_pair, Bnb) /\
  (exists l, l ⊆+ coins /\ su_utxo <$> best_pair = su_utxo <$> l
    /\ forall k, k ⊆+ coins -> NoChange 50 2 1000 k -> waste_of 50 l <= waste_of 50 k) /\
  (forall k, k ⊆+ coins -> ~ NoChange 52 0 1000 k).
Proof.
  assert (select_coins_bnb 50 2 1000 100 coins = Some (su_utxo <$> best_pair, Bnb)) as E
    by by vm_compute.
  split_and!; [done|..].
  - pose proof (bnb_least_waste coins 50 2 1000 100 ltac:(solve_fits) ltac:(lia) ltac:(done)
      ltac:(by vm_compute)) as Hb.
    rewrite E in Hb. destruct Hb as (_ & l & ? & _ & ? & ?). exists l. by split_and!.
  - pose proof (bnb_least_waste coins 52 0 1000 100 ltac:(solve_fits) ltac:(lia) ltac:(done)
      ltac:(by vm_compute)) as Hb.
    replace (select_coins_bnb 52 0 1000 100 coins)
      with (None (A:=list UtxoInfoWithSize * SelectionStrategy)) in Hb by by vm_compute.
    exact Hb.
Defined.


(** The hypothesis on the single weights is needed: the least UTXO above the
    target is chosen before its weight is looked at, and a lighter one that
    pays is then not tried. *)
Lemma heavy_coin_hides_lighter :
  let pool := [coin 1 10 200 1 1; coin 2 11 50 1 1] in
  select_coins pool 5 1 100 100 1 = None /\ Pays 5 100 [coin 2 11 50 1 1].
Proof. by vm_compute. Qed.
