(* ===== verification/RelayQueueRun.v ===== *)
(** * What the polls of the relay queue do when they succeed

    Inversion lemmas: the checks a successful poll passed, and the storage it
    leaves as an explicit update of the storage it found. *)

From S2P Require Import Prelude Logic Errors Primitives Cccp CccpTheorems RelayQueue.
Local Open Scope Z_scope.
Local Open Scope frame_scope.

Section Runs.
Context {R : Type} `{!Authorities R, !RqConfig}.
Implicit Types (v : RqView R) (s : RqStorage).

(** ** Small steps *)

Lemma map_err_done {A} (o : outcome unit A) e s a s' :
  map_err o e s = (Done a, s') <-> o = Done a /\ s' = s.
Proof. destruct o; cbn [map_err]; solve_run. Qed.

Lemma update_fast_transfer_cap_done a cap amount b s c s' :
  update_fast_transfer_cap a cap amount b s = (Done c, s') ->
  (b = false -> amount <= on_flight_cap cap)
  /\ c = cap <| on_flight_cap := if b then on_flight_cap cap + amount else on_flight_cap cap - amount |>
  /\ s' = s <| AssetCaps ::= <[a := c]> |>.
Proof.
  unfold update_fast_transfer_cap, qmutate. intros Hu. mrun.
  unfold u256_checked_add, u256_checked_sub, u128_try_from in *.
  destruct b; repeat case_match; simplify_eq; split_and!; try done; lia.
Qed.

Lemma add_voter_done voters a s l s' :
  add_voter_to_list voters a s = (Done l, s') ->
  (a ∉ voters) /\ Z.of_nat (length voters) < MAX_AUTHORITIES /\ l = voters ++ [a] /\ s' = s.
Proof.
  unfold add_voter_to_list, try_push. intros Hu. mrun.
  rewrite negb_true_iff, bool_decide_eq_false in *. case_match; simplify_eq. split_and!; try done; lia.
Qed.

(** The counts after the entries [l] of a message are cleared. *)
Definition decreased (l : list (N * N * TransferInfo)) (counts : gmap N Z) : gmap N Z :=
  foldl (fun c kv =>
    match head (ti_on_flight_voters kv.2) with
    | Some submitter => <[submitter := sat_sub (default 0 (c !! submitter)) 1]> c
    | None => c
    end) counts l.

Lemma update_field_id s : s <| PendingTransferCount := PendingTransferCount s |> = s.
Proof. by destruct s. Qed.

Lemma decrease_runs l s :
  for_each l (fun kv => decrease_pending_count kv.2) s
  = (Done tt, s <| PendingTransferCount := decreased l (PendingTransferCount s) |>).
Proof.
  revert s. induction l as [|kv l IH]; intros s; cbn [for_each decreased foldl].
  - unfold ret. by rewrite update_field_id.
  - unfold bind at 1, decrease_pending_count.
    destruct (head (ti_on_flight_voters kv.2)) as [a|]; [|apply IH].
    unfold qmutate, bind, gets, modify, id. rewrite IH. done.
Qed.

(** Whether [a] opened the entry: it is its first voter. *)
Definition opened_by (a : AccountId) (i : TransferInfo) : Z :=
  if bool_decide (head (ti_on_flight_voters i) = Some a) then 1 else 0.

Lemma decreased_count l counts a :
  zsum ((fun kv => opened_by a kv.2) <$> l) <= default 0 (counts !! a) ->
  default 0 (decreased l counts !! a)
  = default 0 (counts !! a) - zsum ((fun kv => opened_by a kv.2) <$> l).
Proof.
  revert counts. induction l as [|kv l IH]; intros counts; [cbn; lia|].
  rewrite fmap_cons, zsum_cons. intros Hle.
  assert (0 <= zsum ((fun kv : N * N * TransferInfo => opened_by a kv.2) <$> l)) as Hpos.
  { apply zsum_nonneg, Forall_forall. intros y (kv' & -> & _)%list_elem_of_fmap.
    unfold opened_by. case_bool_decide; lia. }
  change (decreased (kv :: l) counts) with (decreased l (decreased [kv] counts)).
  assert (default 0 (decreased [kv] counts !! a) = default 0 (counts !! a) - opened_by a kv.2) as Hone.
  { revert Hle. unfold opened_by at 1 3. cbn.
    destruct (head (ti_on_flight_voters kv.2)) as [b|]; cbn; [|by rewrite bool_decide_false; try lia].
    destruct (decide (b = a)) as [->|Hne]; [rewrite bool_decide_true by done|].
    - rewrite lookup_insert_eq. cbn. unfold sat_sub. lia.
    - rewrite bool_decide_false, lookup_insert_ne by congruence. lia. }
  rewrite IH; rewrite Hone; lia.
Qed.

(** ** Approval *)

(** The cap of the asset of a fast transfer, moved by [amount]. *)
Definition move_cap (asset_info : option (AssetId * AssetCapInfo)) (option : TransferOption)
    (amount : Z) (s : RqStorage) : RqStorage :=
  match asset_info, option with
  | Some (a, cap), Fast =>
      s <| AssetCaps ::= <[a := cap <| on_flight_cap := on_flight_cap cap + amount |>]> |>
  | _, _ => s
  end.
Definition approved (h x : H256) (info : TransferInfo) (s : RqStorage) : RqStorage :=
  s <| PendingTransferCount := decreased (pending_prefix s h) (PendingTransferCount s) |>
    <| PendingTransfers ::= filter (fun kv => kv.1.1 <> h) |>
    <| OnFlightTransfers ::= <[h := from_transfer_info info x]> |>.

Lemma approve_transfer_done h x info asset_info option amount s u s' :
  approve_transfer h x info asset_info option amount s = (Done u, s') ->
  s' = approved h x info (move_cap asset_info option amount s).
Proof.
  unfold approve_transfer. intros Ha. mrun_step.
  match goal with H : bind _ _ _ = (Done _, _) |- _ => rename H into Hrest end.
  match goal with H : (match asset_info with _ => _ end) _ = _ |- _ => rename H into Hcap end.
  assert (forall t, bind (gets id) (fun s0 =>
     bind (for_each (pending_prefix s0 h) (fun kv => decrease_pending_count kv.2)) (fun _ =>
     bind (qmutate PendingTransfers (filter (fun kv => kv.1.1 <> h))) (fun _ =>
     qmutate OnFlightTransfers <[h := from_transfer_info info x]>))) t
     = (Done tt, approved h x info t)) as Hrun.
  { intros t. rewrite bind_gets. unfold bind at 1, id. by rewrite decrease_runs. }
  rewrite Hrun in Hrest. simplify_eq. f_equal.
  destruct asset_info as [[a cap]|]; [destruct option|]; cbn in Hcap;
    repeat case_bool_decide; try done.
  - mrun. match goal with H : update_fast_transfer_cap _ _ _ _ _ = _ |- _ =>
      apply update_fast_transfer_cap_done in H as (_ & -> & ->) end. done.
  - by mrun.
  - by mrun.
Qed.

(** The storage after a vote that keeps the transfer pending. *)
Definition still_pending (auth : AccountId) (h x : H256) (info : TransferInfo) (is_new : bool)
    (s : RqStorage) : RqStorage :=
  (if is_new
   then s <| PendingTransferCount ::= <[auth := u32_add (pending_transfer_count s auth) 1]> |>
   else s) <| PendingTransfers ::= <[(h, x) := info]> |>.

Lemma keep_pending_done auth h x info is_new s u s' :
  keep_pending auth h x info is_new s = (Done u, s') -> s' = still_pending auth h x info is_new s.
Proof. unfold keep_pending, qmutate. destruct is_new; intros Hk; by mrun. Qed.

(** ** The two polls *)

Lemma preserves_request {B} (f : RqStorage -> B) v b : preserves f (try_get_request v b).
Proof. frame. Qed.
Lemma preserves_existence {B} (f : RqStorage -> B) v m : preserves f (validate_on_chain_existence v m).
Proof. frame. Qed.
Lemma preserves_requested {B} (f : RqStorage -> B) v m : preserves f (validate_requested v m).
Proof. frame. Qed.
Lemma same_storage {A} (m : RQ A) s r s' : preserves (fun t => t) m -> m s = (r, s') -> s' = s.
Proof. apply preserves_done. Qed.

Lemma parse_done b check s m s' :
  validate_and_parse_socket_message b check s = (Done m, s') ->
  SocketMessage_try_from b = Done m /\ check m = true /\ s' = s.
Proof.
  unfold validate_and_parse_socket_message. intros Hp. mrun.
  match goal with H : map_err _ _ _ = _ |- _ => apply map_err_done in H as [? ->] end. done.
Qed.

(** The transfer of a message, for its first voter. *)
Definition first_transfer (m : SocketMessage) (idx : H256) (option : TransferOption)
    (msg : UnboundedBytes) (auth : AccountId) : TransferInfo :=
  mkTransferInfo (tp_amount (sm_params m)) (rid_sequence (sm_req_id m))
    (from_be_bytes (rid_chain (sm_req_id m))) (from_be_bytes (ins_chain (sm_ins_code m)))
    idx option msg [auth].

(** The checks a successful on-flight poll passed. *)
Record poll_ok v (o : Origin) (auth : AccountId) (msg : UnboundedBytes) (h x : H256) s
    (m : SocketMessage) (idx : H256) (option : TransferOption) (info : TransferInfo) : Prop := mkPollOk {
  po_origin : o = NoneOrigin;
  po_parsed : SocketMessage_try_from msg = Done m;
  po_status : sm_status m = 1;
  po_hash : h = keccak_256 (SocketMessage_encode m);
  po_index : H256_from_slice (tp_token_idx0 (sm_params m)) = Some idx;
  po_not_on_flight : OnFlightTransfers s !! h = None;
  po_not_finalized : FinalizedTransfers s !! h = None;
  po_option : option = match get_asset_info s idx with
                       | Some (_, cap) =>
                           if max_on_flight_cap cap <? on_flight_cap cap + tp_amount (sm_params m)
                           then Standard else Fast
                       | None => Standard
                       end;
  po_chain : validate_requested v m s = (Done tt, s);
  po_info : match PendingTransfers s !! (h, x) with
            | Some p => (auth ∉ ti_on_flight_voters p)
                        /\ Z.of_nat (length (ti_on_flight_voters p)) < MAX_AUTHORITIES
                        /\ info = p <| ti_on_flight_voters := ti_on_flight_voters p ++ [auth] |>
                                    <| ti_option := option |>
            | None => pending_transfer_count s auth < MAX_PENDING_TRANSFERS_PER_RELAYER
                      /\ info = first_transfer m idx option msg auth
            end
}.

(** Whether the votes of [info] are a majority. *)
Definition majority_reached v (voters : list AccountId) : bool :=
  au_majority (rv_relayers v) <=? Z.of_nat (length voters).
Definition is_new s (h x : H256) : bool := negb (bool_decide (is_Some (PendingTransfers s !! (h, x)))).

(** The storage after a successful on-flight poll, its event apart. *)
Definition poll_effect v (auth : AccountId) (h x : H256) (m : SocketMessage) (idx : H256)
    (option : TransferOption) (info : TransferInfo) s : RqStorage :=
  if majority_reached v (ti_on_flight_voters info)
  then approved h x info (move_cap (get_asset_info s idx) option (tp_amount (sm_params m)) s)
  else still_pending auth h x info (is_new s h x) s.

Lemma determine_option_done cap amount s option s' :
  determine_transfer_option cap amount s = (Done option, s') ->
  option = (if max_on_flight_cap cap <? on_flight_cap cap + amount then Standard else Fast) /\ s' = s.
Proof.
  unfold determine_transfer_option, u256_checked_add. intros Hd. mrun.
  destruct (on_flight_cap cap + amount <? 2 ^ 256); simplify_eq.
  destruct (max_on_flight_cap cap <? on_flight_cap cap + amount); by mrun.
Qed.

Lemma absent {A} (o : option A) : negb (bool_decide (is_Some o)) = true -> o = None.
Proof. rewrite negb_true_iff, bool_decide_eq_false. intros Ho. by apply eq_None_not_Some. Qed.

(** The steps of [on_flight_poll]. *)
Lemma gate_done (b c : bool) (e : DispatchError) s u s' :
  (if b then ensure c e else ret tt : RQ unit) s = (Done u, s') -> (b = true -> c = true) /\ s' = s.
Proof. destruct b; intros Hg; by mrun. Qed.
Lemma option_done (asset_info : option (AssetId * AssetCapInfo)) amount s option s' :
  (match asset_info with
   | Some (_, cap) => determine_transfer_option cap amount
   | None => ret Standard
   end : RQ TransferOption) s = (Done option, s') ->
  option = match asset_info with
           | Some (_, cap) =>
               if max_on_flight_cap cap <? on_flight_cap cap + amount then Standard else Fast
           | None => Standard
           end /\ s' = s.
Proof.
  destruct asset_info as [[a cap]|]; [apply determine_option_done|]. intros Ho. by mrun.
Qed.
Lemma u32_try_from_done b n : u32_try_from_be_bytes b = Some n -> n = from_be_bytes b.
Proof. unfold u32_try_from_be_bytes. case_match; congruence. Qed.
Lemma u128_try_from_done n k : u128_try_from n = Some k -> k = n /\ n < u128_modulus.
Proof. unfold u128_try_from. case_match; intros [= <-]. split; [done|lia]. Qed.

Lemma try_push_one (a : AccountId) : try_push MAX_AUTHORITIES a [] = Some [a].
Proof. done. Qed.
Lemma info_done s m idx option msg auth h x t info s' :
  (match PendingTransfers s !! (h, x) with
   | Some pending =>
      let* voters := add_voter_to_list (ti_on_flight_voters pending) auth in
      ret (pending <| ti_on_flight_voters := voters |> <| ti_option := option |>)
  | None =>
      let* voters := ok_or (try_push MAX_AUTHORITIES auth []) (RelayQ RqOutOfRange) in
      ret (mkTransferInfo (tp_amount (sm_params m)) (rid_sequence (sm_req_id m))
             (from_be_bytes (rid_chain (sm_req_id m))) (from_be_bytes (ins_chain (sm_ins_code m)))
             idx option msg voters)
   end : RQ TransferInfo) t = (Done info, s') ->
  match PendingTransfers s !! (h, x) with
  | Some p => (auth ∉ ti_on_flight_voters p)
              /\ Z.of_nat (length (ti_on_flight_voters p)) < MAX_AUTHORITIES
              /\ info = p <| ti_on_flight_voters := ti_on_flight_voters p ++ [auth] |>
                          <| ti_option := option |>
  | None => info = first_transfer m idx option msg auth
  end /\ s' = t.
Proof.
  destruct (PendingTransfers s !! (h, x)) as [p|]; intros Hi; mrun.
  - match goal with H : add_voter_to_list _ _ _ = _ |- _ =>
      apply add_voter_done in H as (? & ? & -> & ->) end. done.
  - match goal with H : try_push _ _ _ = _ |- _ => rewrite try_push_one in H end. by simplify_eq.
Qed.

Lemma on_flight_poll_done v o auth msg h x s u s' :
  on_flight_poll v o (mkOnFlightPollSubmission auth msg h x) s = (Done u, s') ->
  exists m idx option info e,
    poll_ok v o auth msg h x s m idx option info
    /\ s' = (poll_effect v auth h x m idx option info s) <| RqEvents ::= fun l => l ++ [e] |>.
Proof.
  unfold on_flight_poll. intros Hp. mrun_step. destruct o; [done|done|]. cbn [ensure_none] in *. mrun. unfold id in *.
  repeat match goal with
  | H : validate_and_parse_socket_message _ _ _ = _ |- _ => apply parse_done in H as (? & ? & ->)
  | H : u128_try_from _ = Some _ |- _ => apply u128_try_from_done in H as [-> ?]
  | H : u32_try_from_be_bytes _ = Some _ |- _ => apply u32_try_from_done in H as ->
  | H : (_ =? _)%N = true |- _ => apply N.eqb_eq in H
  | H : (if negb _ then ensure _ _ else _) _ = _ |- _ => apply gate_done in H as (? & ->)
  | H : _ = (@Done _ TransferOption _, _) |- _ => apply option_done in H as (? & ->)
  | H : _ = (@Done _ TransferInfo _, _) |- _ => apply info_done in H as (? & ->)
  | u : unit |- _ => destruct u
  end.
  match goal with H : validate_requested _ _ _ = _ |- _ => rename H into Hchain end.
  pose proof (same_storage _ _ _ _ (preserves_requested _ _ _) Hchain). subst.
  match goal with H : rq_deposit _ _ = _ |- _ => apply modify_done in H as -> end.
  match goal with H : (if _ then _ else _) _ = _ |- _ => rename H into Hvote end.
  match goal with H : _ -> (_ <? _) = true |- _ => rename H into Hgate end.
  match goal with H : match PendingTransfers _ !! _ with _ => _ end |- _ => rename H into Hinfo end.
  eexists _, _, _, _, _. split; [split|]; try done.
  - by apply Z.eqb_eq.
  - by apply absent.
  - by apply absent.
  - destruct (PendingTransfers s !! _) as [p|]; [done|]. split; [|done].
    apply Z.ltb_lt, Hgate. done.
  - f_equal. unfold poll_effect, majority_reached. destruct (au_majority _ <=? _).
    + by apply approve_transfer_done in Hvote as ->.
    + by apply keep_pending_done in Hvote as ->.
Qed.

(** The storage after a transfer is finalized: its part of the cap is free. *)
Definition finalized (h : H256) (t : TransferInfoWithTxId)
    (asset_info : option (AssetId * AssetCapInfo)) (amount : Z) s : RqStorage :=
  move_cap asset_info (tx_option t) (- amount)
    (s <| OnFlightTransfers ::= delete h |> <| FinalizedTransfers ::= <[h := t]> |>).

Lemma finalize_transfer_done h t asset_info amount s u s' :
  finalize_transfer h t asset_info amount s = (Done u, s') ->
  s' = finalized h t asset_info amount s.
Proof.
  unfold finalize_transfer, finalized, qmutate. intros Hf. mrun.
  destruct (tx_option t), asset_info as [[a cap]|]; cbn in *; repeat case_bool_decide; try done;
    mrun; try done.
  match goal with H : update_fast_transfer_cap _ _ _ _ _ = _ |- _ =>
    apply update_fast_transfer_cap_done in H as (_ & -> & ->) end. done.
Qed.

(** What the Socket contract has to answer for the status of the message. *)
Definition outcome_agrees (m : SocketMessage) (status : U256) : bool :=
  if is_outbound m (evm_chain_id mod u32_modulus)
  then ((status =? 7) && is_committed m) || ((status =? 8) && is_rollbacked m)
  else ((status =? 5) && (is_accepted m || is_committed m))
       || ((status =? 6) && (is_rejected m || is_rollbacked m)).
Definition is_final (m : SocketMessage) : bool :=
  is_committed m || is_rollbacked m || is_accepted m || is_rejected m.

(** The checks a successful finalize poll passed. *)
Record final_ok v (o : Origin) (auth : AccountId) (msg : UnboundedBytes) s
    (m : SocketMessage) (idx h : H256) (t : TransferInfoWithTxId) : Prop := mkFinalOk {
  fo_origin : o = NoneOrigin;
  fo_parsed : SocketMessage_try_from msg = Done m;
  fo_status : is_final m = true;
  fo_hash : h = keccak_256 (SocketMessage_encode (as_requested m));
  fo_index : H256_from_slice (tp_token_idx0 (sm_params m)) = Some idx;
  fo_not_finalized : FinalizedTransfers s !! h = None;
  fo_on_flight : OnFlightTransfers s !! h = Some t;
  fo_voter : auth ∉ tx_finalization_voters t;
  fo_room : Z.of_nat (length (tx_finalization_voters t)) < MAX_AUTHORITIES;
  fo_chain : exists r status, validate_on_chain_existence v m s = (Done r, s)
             /\ head (ri_field r) = Some status /\ outcome_agrees m status = true
}.

(** Outbound transfers are finalized by one vote, inbound ones by a
    majority. *)
Definition final_effect v (auth : AccountId) (h : H256) (m : SocketMessage) (idx : H256)
    (t : TransferInfoWithTxId) s : RqStorage :=
  let t := t <| tx_finalization_voters := tx_finalization_voters t ++ [auth] |> in
  if is_outbound m (evm_chain_id mod u32_modulus) || majority_reached v (tx_finalization_voters t)
  then finalized h t (get_asset_info s idx) (tp_amount (sm_params m)) s
  else s <| OnFlightTransfers ::= <[h := t]> |>.

Lemma status_is_done r n b : status_is r n = Some b -> exists k, head (ri_field r) = Some k /\ b = (k =? n).
Proof. unfold status_is. destruct (head (ri_field r)) as [k|]; [|done]. intros [= <-]. eauto. Qed.

Lemma finalize_poll_done v o auth msg s u s' :
  finalize_poll v o (mkFinalizePollSubmission auth msg) s = (Done u, s') ->
  exists m idx h t e, final_ok v o auth msg s m idx h t
    /\ s' = (final_effect v auth h m idx t s) <| RqEvents ::= fun l => l ++ [e] |>.
Proof.
  unfold finalize_poll. intros Hp. mrun_step. destruct o; [done|done|]. cbn [ensure_none] in *.
  mrun. unfold id in *.
  match goal with H : (if is_outbound _ _ then _ else _) _ = _ |- _ => rename H into Htail end.
  repeat match goal with
  | H : validate_and_parse_socket_message _ _ _ = _ |- _ => apply parse_done in H as (? & ? & ->)
  | H : add_voter_to_list _ _ _ = _ |- _ => apply add_voter_done in H as (? & ? & -> & ->)
  end.
  match goal with H : validate_on_chain_existence _ _ _ = _ |- _ => rename H into Hchain end.
  pose proof (same_storage _ _ _ _ (preserves_existence _ _ _) Hchain). subst.
  assert (exists status e, head (ri_field x15) = Some status /\ outcome_agrees x1 status = true
    /\ s' = (final_effect v auth (hash_bytes (SocketMessage_encode (as_requested x1))) x1 x7 x13 s)
              <| RqEvents ::= fun l => l ++ [e] |>) as (status & e & Hhead & Hagrees & ->).
  { clear -Htail. unfold outcome_agrees, final_effect, majority_reached, rq_deposit, qmutate,
      ri_is_committed, ri_is_rollbacked, ri_is_accepted, ri_is_rejected in *.
    destruct (is_outbound _ _); mrun; repeat match goal with
    | H : status_is _ _ = Some _ |- _ => apply status_is_done in H as (? & ? & ->); simplify_eq
    | H : finalize_transfer _ _ _ _ _ = _ |- _ => apply finalize_transfer_done in H as ->
    end; [by eauto|].
    match goal with H : (if ?b then _ else _) _ = _ |- _ => destruct b end; mrun; [|by eauto].
    match goal with H : finalize_transfer _ _ _ _ _ = _ |- _ => apply finalize_transfer_done in H as -> end.
    eauto. }
  exists x1, x7. eexists _, x13, e. split; [split|]; try done; [by apply absent|by eauto].
Qed.

End Runs.
