(* ===== verification/RelayQueueInv.v ===== *)
(** * The invariant of the relay queue

    The cap of an asset in use is the sum of its fast transfers in flight; a
    message is in one stage of its life only, and its entries describe it; the
    voters of a transfer are distinct, and the count of a relayer is the number
    of pending entries it opened. *)

From S2P Require Import Prelude Logic Errors Primitives Cccp CccpTheorems RelayQueue RelayQueueRun.
Local Open Scope Z_scope.
Local Open Scope frame_scope.

Section Invariant.
Context {R : Type} `{!Authorities R, !RqConfig, !EthAbiLaws}.
(** Keccak is taken to be free of collisions. *)
Context (keccak_inj : Inj (=) (=) keccak_256).
Implicit Types (v : RqView R) (s : RqStorage) (t : TransferInfoWithTxId) (i : TransferInfo).

(** [h] is the hash of a requested message of [amount] of the asset [idx]. *)
Definition describes (h : H256) (amount : Z) (idx : H256) : Prop :=
  exists m, message_ok word m = true /\ sm_status m = 1 /\ h = keccak_256 (SocketMessage_encode m)
    /\ tp_amount (sm_params m) = amount /\ H256_from_slice (tp_token_idx0 (sm_params m)) = Some idx.

(** What a transfer in flight takes of the cap of the asset [a]. *)
Definition weight (indexes : gmap N AssetId) (a : AssetId) (t : TransferInfoWithTxId) : Z :=
  if bool_decide (tx_option t = Fast /\ indexes !! tx_asset_index_hash t = Some a)
  then tx_amount t else 0.
Definition in_flight s (a : AssetId) : Z := msum (weight (AssetIndexes s) a) (OnFlightTransfers s).

Record caps_ok s : Prop := mkCapsOk {
  k_cap : forall a cap, AssetCaps s !! a = Some cap ->
    on_flight_cap cap = in_flight s a /\ on_flight_cap cap <= max_on_flight_cap cap <= MAX_ON_FLIGHT_CAP;
  k_index : forall idx a, AssetIndexes s !! idx = Some a -> is_Some (AssetCaps s !! a);
  k_hook : forall idx, is_Some (AssetIndexesHookState s !! idx) <-> is_Some (AssetIndexes s !! idx);
  k_amount : forall h t, OnFlightTransfers s !! h = Some t -> 0 <= tx_amount t;
  k_fast : forall h t, OnFlightTransfers s !! h = Some t -> tx_option t = Fast ->
    is_Some (AssetIndexes s !! tx_asset_index_hash t)
}.

Record stages_ok s : Prop := mkStagesOk {
  g_pending : forall h x i, PendingTransfers s !! (h, x) = Some i ->
    OnFlightTransfers s !! h = None /\ FinalizedTransfers s !! h = None
    /\ describes h (ti_amount i) (ti_asset_index_hash i);
  g_on_flight : forall h t, OnFlightTransfers s !! h = Some t ->
    FinalizedTransfers s !! h = None /\ describes h (tx_amount t) (tx_asset_index_hash t)
}.

(** Lists of voters: distinct, in the bound of the list; the voters of an
    approval are at least one. *)
Definition distinct (l : list AccountId) : Prop := NoDup l /\ Z.of_nat (length l) <= MAX_AUTHORITIES.
Definition voters_ok (l : list AccountId) : Prop := distinct l /\ l <> [].
Lemma distinct_snoc l a :
  distinct l -> a ∉ l -> Z.of_nat (length l) < MAX_AUTHORITIES -> distinct (l ++ [a]).
Proof.
  intros [Hl _] Ha Hb. split; [|rewrite length_app; cbn; lia].
  apply NoDup_app. split_and!; [done| |apply NoDup_singleton]. set_solver.
Qed.
Lemma voters_ok_snoc l a :
  distinct l -> a ∉ l -> Z.of_nat (length l) < MAX_AUTHORITIES -> voters_ok (l ++ [a]).
Proof. split; [by apply distinct_snoc|by intros [? ?]%app_nil]. Qed.
Lemma voters_ok_one a : voters_ok [a].
Proof. split; [split; [apply NoDup_singleton|done]|done]. Qed.
Record votes_ok s : Prop := mkVotesOk {
  e_pending : forall k i, PendingTransfers s !! k = Some i -> voters_ok (ti_on_flight_voters i);
  e_on_flight : forall h t, OnFlightTransfers s !! h = Some t ->
    voters_ok (tx_on_flight_voters t) /\ distinct (tx_finalization_voters t);
  e_count : forall a, pending_transfer_count s a = msum (opened_by a) (PendingTransfers s)
    /\ pending_transfer_count s a <= MAX_PENDING_TRANSFERS_PER_RELAYER
}.

Record rq_inv s : Prop := mkRqInv { q_caps : caps_ok s; q_stages : stages_ok s; q_votes : votes_ok s }.

(** The part of the storage the invariant is about. *)
Definition rq_view s :=
  (AssetIndexesHookState s, AssetIndexes s, AssetCaps s, PendingTransfers s, PendingTransferCount s,
   OnFlightTransfers s, FinalizedTransfers s).
Lemma rq_inv_view s s' : rq_view s' = rq_view s -> rq_inv s -> rq_inv s'.
Proof.
  destruct s, s'. unfold rq_view. cbn. intros [= -> -> -> -> -> -> ->] [[] [] []].
  split; split; done.
Qed.

(** ** Messages and their descriptions *)

Lemma from_slice_inj b b' idx :
  H256_from_slice b = Some idx -> H256_from_slice b' = Some idx -> b = b'.
Proof.
  unfold H256_from_slice. repeat case_match; try done. intros [= <-] [= E].
  repeat match goal with H : (_ =? _)%nat = true |- _ => apply Nat.eqb_eq in H end.
  assert (from_be_bytes b' = from_be_bytes b) as Eb.
  { pose proof (from_be_bytes_range b). pose proof (from_be_bytes_range b'). lia. }
  rewrite <- (to_from_be_bytes b), <- (to_from_be_bytes b'). congruence.
Qed.

Lemma as_requested_ok m : message_ok word m = true -> message_ok word (as_requested m) = true.
Proof.
  unfold message_ok, SocketMessage_kinds, SocketMessage_tokens, tokens_are, word. cbn.
  rewrite !andb_true_iff. intros. destruct_and?. split_and?; done.
Qed.
Lemma as_requested_same m : sm_status m = 1 -> as_requested m = m.
Proof. destruct m. cbn. by intros ->. Qed.

(** A message with the hash of a described one has its amount and asset. *)
Lemma describes_agree h amount idx m idx' :
  describes h amount idx -> message_ok word m = true ->
  h = keccak_256 (SocketMessage_encode (as_requested m)) ->
  H256_from_slice (tp_token_idx0 (sm_params m)) = Some idx' ->
  tp_amount (sm_params m) = amount /\ idx' = idx.
Proof.
  intros (m0 & Hm0 & Hs & -> & <- & Hi) Hm E%keccak_inj Hi'.
  apply message_encode_inj in E; [|done|by apply as_requested_ok].
  rewrite E in Hi |- *. cbn in *. rewrite Hi' in Hi. by simplify_eq.
Qed.

Lemma poll_describes v o auth msg h x s m idx option info :
  poll_ok v o auth msg h x s m idx option info -> describes h (tp_amount (sm_params m)) idx.
Proof. intros []. exists m. split_and!; try done. by eapply try_from_done. Qed.

(** ** The parts of the cap *)

Lemma weight_range indexes a t : 0 <= tx_amount t -> 0 <= weight indexes a t <= tx_amount t.
Proof. unfold weight. case_bool_decide; lia. Qed.
Lemma weight_other indexes a t :
  (tx_option t = Fast -> indexes !! tx_asset_index_hash t <> Some a) -> weight indexes a t = 0.
Proof. intros Hn. unfold weight. rewrite bool_decide_false; [done|]. intros [? ?]. by apply Hn. Qed.
Lemma weight_same indexes indexes' a t :
  (tx_option t = Fast -> indexes' !! tx_asset_index_hash t = indexes !! tx_asset_index_hash t) ->
  weight indexes' a t = weight indexes a t.
Proof.
  intros Hsame. unfold weight. destruct (tx_option t); [by rewrite Hsame|].
  by rewrite !bool_decide_false by naive_solver.
Qed.
Lemma weight_fast indexes a t :
  tx_option t = Fast -> indexes !! tx_asset_index_hash t = Some a -> weight indexes a t = tx_amount t.
Proof. intros. unfold weight. by rewrite bool_decide_true. Qed.

Lemma opened_range a i : 0 <= opened_by a i <= 1.
Proof. unfold opened_by. case_bool_decide; lia. Qed.

Lemma on_flight_cap_nonneg s a cap :
  caps_ok s -> AssetCaps s !! a = Some cap -> 0 <= on_flight_cap cap.
Proof.
  intros Hk Ha. destruct (k_cap _ Hk a cap Ha) as [-> _]. apply msum_nonneg.
  intros h t Ht. apply weight_range. by eapply k_amount.
Qed.

(** ** A transfer takes off and lands *)

Lemma get_asset_info_some s idx a cap :
  get_asset_info s idx = Some (a, cap) <-> AssetIndexes s !! idx = Some a /\ AssetCaps s !! a = Some cap.
Proof.
  unfold get_asset_info. destruct (AssetIndexes s !! idx) as [b|]; cbn; [|naive_solver].
  destruct (AssetCaps s !! b) as [c|] eqn:E; cbn; split; naive_solver.
Qed.

(** The option of a transfer of [amount] of the asset [idx]. *)
Definition option_of s (idx : H256) (amount : Z) : TransferOption :=
  match get_asset_info s idx with
  | Some (_, cap) => if max_on_flight_cap cap <? on_flight_cap cap + amount then Standard else Fast
  | None => Standard
  end.

Lemma caps_ok_take_off s s' h t :
  caps_ok s -> OnFlightTransfers s !! h = None -> 0 <= tx_amount t ->
  tx_option t = option_of s (tx_asset_index_hash t) (tx_amount t) ->
  AssetIndexesHookState s' = AssetIndexesHookState s -> AssetIndexes s' = AssetIndexes s ->
  AssetCaps s' = AssetCaps (move_cap (get_asset_info s (tx_asset_index_hash t)) (tx_option t) (tx_amount t) s) ->
  OnFlightTransfers s' = <[h := t]> (OnFlightTransfers s) -> caps_ok s'.
Proof.
  intros Hk Hh Hamount Hopt Eh Ei Ec Ef. destruct Hk as [Kc Ki Kh Ka Kf].
  assert (forall a, in_flight s' a = weight (AssetIndexes s) a t + in_flight s a) as Hfl.
  { intros a. unfold in_flight. rewrite Ei, Ef. by apply msum_insert_new. }
  unfold option_of in Hopt.
  destruct (get_asset_info s (tx_asset_index_hash t)) as [[a0 cap0]|] eqn:Ea.
  - apply get_asset_info_some in Ea as [Ei0 Ec0]. destruct (Kc _ _ Ec0) as [Eu Hm].
    destruct (Z.ltb_spec (max_on_flight_cap cap0) (on_flight_cap cap0 + tx_amount t)) as [Hlt|Hle];
      rewrite Hopt in Ec; cbn in Ec; split; rewrite ?Eh, ?Ei, ?Ef, ?Ec; try done.
    + intros a cap Ha. rewrite Hfl, weight_other by (by rewrite Hopt). by apply Kc.
    + intros h' t' [[<- <-]|[_ Ht]]%lookup_insert_Some; [done|by eapply Ka].
    + intros h' t' [[<- <-]|[_ Ht]]%lookup_insert_Some; [by rewrite Hopt|by eapply Kf].
    + intros a cap [[<- <-]|[Hne Ha]]%lookup_insert_Some; rewrite Hfl.
      * rewrite weight_fast by done. fields. lia.
      * rewrite weight_other by (intros _; congruence). by apply Kc.
    + intros idx a Hidx. destruct (decide (a0 = a)) as [<-|Hne]; [rewrite lookup_insert_eq; eauto|].
      rewrite lookup_insert_ne by done. by eapply Ki.
    + intros h' t' [[<- <-]|[_ Ht]]%lookup_insert_Some; [done|by eapply Ka].
    + intros h' t' [[<- <-]|[_ Ht]]%lookup_insert_Some; [by rewrite Ei0|by eapply Kf].
  - split; rewrite ?Eh, ?Ei, ?Ef, ?Ec; cbn; try done.
    + intros a cap Ha. rewrite Hfl, weight_other by (by rewrite Hopt). by apply Kc.
    + intros h' t' [[<- <-]|[_ Ht]]%lookup_insert_Some; [done|by eapply Ka].
    + intros h' t' [[<- <-]|[_ Ht]]%lookup_insert_Some; [by rewrite Hopt|by eapply Kf].
Qed.

Lemma fast_registered s h t :
  caps_ok s -> OnFlightTransfers s !! h = Some t -> tx_option t = Fast ->
  exists a cap, AssetIndexes s !! tx_asset_index_hash t = Some a /\ AssetCaps s !! a = Some cap.
Proof.
  intros Hk Ht Hf. destruct (k_fast _ Hk _ _ Ht Hf) as [a Ha].
  destruct (k_index _ Hk _ _ Ha) as [cap Hc]. eauto.
Qed.

Lemma caps_ok_land s s' h t :
  caps_ok s -> OnFlightTransfers s !! h = Some t ->
  AssetIndexesHookState s' = AssetIndexesHookState s -> AssetIndexes s' = AssetIndexes s ->
  AssetCaps s' = AssetCaps (move_cap (get_asset_info s (tx_asset_index_hash t)) (tx_option t) (- tx_amount t) s) ->
  OnFlightTransfers s' = delete h (OnFlightTransfers s) -> caps_ok s'.
Proof.
  intros Hk Ht Eh Ei Ec Ef. pose proof Hk as [Kc Ki Kh Ka Kf].
  assert (forall a, in_flight s' a = in_flight s a - weight (AssetIndexes s) a t) as Hfl.
  { intros a. unfold in_flight. rewrite Ei, Ef. by apply msum_delete. }
  assert (forall h' t', delete h (OnFlightTransfers s) !! h' = Some t' -> OnFlightTransfers s !! h' = Some t')
    as Hsub by (by intros h' t' [_ ?]%lookup_delete_Some).
  destruct (tx_option t) eqn:Eo.
  - destruct (fast_registered s h t Hk Ht Eo) as (a0 & cap0 & Ei0 & Ec0).
    pose proof (proj2 (get_asset_info_some _ _ _ _) (conj Ei0 Ec0)) as Ea. rewrite Ea in Ec. cbn in Ec.
    destruct (Kc _ _ Ec0) as [Eu Hm]. pose proof (Ka _ _ Ht).
    split; rewrite ?Eh, ?Ei, ?Ef, ?Ec; eauto.
    + intros a cap [[<- <-]|[Hne Ha]]%lookup_insert_Some; rewrite Hfl.
      * rewrite weight_fast by done. fields. lia.
      * rewrite weight_other, Z.sub_0_r by (intros _; congruence). by apply Kc.
    + intros idx a Hidx. destruct (decide (a0 = a)) as [<-|Hne]; [rewrite lookup_insert_eq; eauto|].
      rewrite lookup_insert_ne by done. by eapply Ki.
  - assert (AssetCaps s' = AssetCaps s) as Ec'
      by (rewrite Ec; by destruct (get_asset_info _ _) as [[? ?]|]).
    split; rewrite ?Eh, ?Ei, ?Ef, ?Ec'; eauto.
    intros a cap Ha. rewrite Hfl, weight_other, Z.sub_0_r by (by rewrite Eo). by apply Kc.
Qed.

Lemma caps_ok_revote s s' h t t' :
  caps_ok s -> OnFlightTransfers s !! h = Some t ->
  tx_amount t' = tx_amount t -> tx_option t' = tx_option t ->
  tx_asset_index_hash t' = tx_asset_index_hash t ->
  AssetIndexesHookState s' = AssetIndexesHookState s -> AssetIndexes s' = AssetIndexes s ->
  AssetCaps s' = AssetCaps s -> OnFlightTransfers s' = <[h := t']> (OnFlightTransfers s) -> caps_ok s'.
Proof.
  intros [Kc Ki Kh Ka Kf] Ht Ea Eo Ex Eh Ei Ec Ef.
  split; rewrite ?Eh, ?Ei, ?Ef, ?Ec; try done.
  - intros a cap Ha. unfold in_flight. rewrite Ei, Ef, (msum_insert_old _ _ _ t) by done.
    assert (weight (AssetIndexes s) a t' = weight (AssetIndexes s) a t) as ->
      by (unfold weight; by rewrite Ea, Eo, Ex).
    destruct (Kc a cap Ha). unfold in_flight in *. split; [lia|done].
  - intros h' t1 [[<- <-]|[_ Hx]]%lookup_insert_Some; [rewrite Ea; by eapply Ka|by eapply Ka].
  - intros h' t1 [[<- <-]|[_ Hx]]%lookup_insert_Some; [rewrite Eo, Ex; by eapply Kf|by eapply Kf].
Qed.
(** ** The on-flight poll *)

(** The entry a successful poll writes. *)
Lemma info_facts v o auth msg h x s m idx option info :
  rq_inv s -> poll_ok v o auth msg h x s m idx option info ->
  ti_amount info = tp_amount (sm_params m) /\ ti_asset_index_hash info = idx
  /\ ti_option info = option /\ voters_ok (ti_on_flight_voters info) /\ 0 <= ti_amount info.
Proof.
  intros Hi Hp. pose proof Hp as []. pose proof (try_from_done _ _ po_parsed) as Hm.
  assert (0 <= tp_amount (sm_params m)) as Hpos by apply (message_widths _ _ Hm).
  destruct (PendingTransfers s !! (h, x)) as [p|] eqn:E.
  - destruct po_info as (Hn & Hroom & ->). destruct (g_pending _ (q_stages _ Hi) _ _ _ E) as (_ & _ & Hd).
    destruct (describes_agree _ _ _ m idx Hd Hm) as [Ha Hx]; [by rewrite as_requested_same|done|].
    destruct (e_pending _ (q_votes _ Hi) _ _ E) as [Hnd Hne]. fields. rewrite <- Ha.
    split_and!; try done. by apply voters_ok_snoc.
  - destruct po_info as [_ ->]. cbn. split_and!; try done. apply voters_ok_one.
Qed.

Lemma filter_prefix_lookup s h k i :
  filter (fun kv : H256 * H256 * TransferInfo => kv.1.1 <> h) (PendingTransfers s) !! k = Some i <->
  PendingTransfers s !! k = Some i /\ k.1 <> h.
Proof. apply map_lookup_filter_Some. Qed.

Lemma rq_inv_approved v o auth msg h x s m idx option info :
  rq_inv s -> poll_ok v o auth msg h x s m idx option info ->
  rq_inv (approved h x info (move_cap (get_asset_info s idx) option (tp_amount (sm_params m)) s)).
Proof.
  intros Hi Hp. destruct (info_facts _ _ _ _ _ _ _ _ _ _ _ Hi Hp) as (Ea & Ex & Eo & Hv & Hpos).
  pose proof (poll_describes _ _ _ _ _ _ _ _ _ _ _ Hp) as Hd. destruct Hp, Hi as [Hk Hs He].
  set (s1 := move_cap _ _ _ s).
  assert (AssetIndexesHookState s1 = AssetIndexesHookState s /\ AssetIndexes s1 = AssetIndexes s
    /\ PendingTransfers s1 = PendingTransfers s /\ PendingTransferCount s1 = PendingTransferCount s
    /\ OnFlightTransfers s1 = OnFlightTransfers s /\ FinalizedTransfers s1 = FinalizedTransfers s)
    as (E1 & E2 & E3 & E4 & E5 & E6).
  { subst s1. unfold move_cap. by repeat case_match. }
  assert (forall k t, <[h := from_transfer_info info x]> (OnFlightTransfers s) !! k = Some t ->
    k = h /\ t = from_transfer_info info x \/ k <> h /\ OnFlightTransfers s !! k = Some t) as Hins.
  { intros k t [[<- <-]|[? ?]]%lookup_insert_Some; auto. }
  split.
  - eapply (caps_ok_take_off s _ h (from_transfer_info info x)); try done; cbn;
      rewrite ?Ea, ?Ex, ?Eo; try done. by rewrite E5.
  - unfold approved. split; fields; rewrite ?E3, ?E5, ?E6.
    + intros k y i [Hk' Hne]%filter_prefix_lookup. cbn in Hne.
      rewrite lookup_insert_ne by done. by apply (g_pending _ Hs) in Hk'.
    + intros k t [[-> ->]|[Hne Ht]]%Hins; [|by apply (g_on_flight _ Hs)].
      cbn. by rewrite Ea, Ex.
  - unfold approved. split; unfold pending_prefix, pending_transfer_count; fields; rewrite ?E3, ?E4, ?E5.
    + intros k i [Hk' _]%filter_prefix_lookup. by eapply e_pending.
    + intros k t [[-> ->]|[Hne Ht]]%Hins; [by split; [|split; [apply NoDup_nil|]]|by eapply e_on_flight].
    + intros a. destruct (e_count _ He a) as [Ec Hc]. unfold pending_transfer_count in Ec, Hc.
      pose proof (msum_filter (opened_by a) (fun kv => kv.1.1 = h) (PendingTransfers s)) as Hsplit.
      cbv beta in Hsplit.
      assert (0 <= msum (opened_by a)
        (filter (fun kv : N * N * TransferInfo => kv.1.1 <> h) (PendingTransfers s))) as Hrest.
      { apply msum_nonneg. intros k i _. apply opened_range. }
      assert (0 <= zsum ((fun kv => opened_by a kv.2) <$>
        filter (fun kv : N * N * TransferInfo => kv.1.1 = h) (map_to_list (PendingTransfers s)))) as Hpre.
      { apply zsum_nonneg, Forall_forall. intros y (kv & -> & _)%list_elem_of_fmap. apply opened_range. }
      rewrite decreased_count by lia. lia.
Qed.

Lemma rq_inv_still_pending v o auth msg h x s m idx option info :
  rq_inv s -> poll_ok v o auth msg h x s m idx option info ->
  rq_inv (still_pending auth h x info (is_new s h x) s).
Proof.
  intros Hi Hp. destruct (info_facts _ _ _ _ _ _ _ _ _ _ _ Hi Hp) as (Ea & Ex & Eo & Hv & Hpos).
  pose proof (poll_describes _ _ _ _ _ _ _ _ _ _ _ Hp) as Hd. destruct Hp, Hi as [Hk Hs He].
  unfold still_pending. split.
  - destruct Hk. by destruct (is_new s h x).
  - destruct Hs. split; [|by destruct (is_new s h x)].
    intros k y i Hl. destruct (is_new s h x); fields;
      (apply lookup_insert_Some in Hl as [[[= <- <-] <-]|[_ Hl]]; [by rewrite Ea, Ex|by eapply g_pending0]).
  - assert (forall a, msum (opened_by a) (<[(h, x) := info]> (PendingTransfers s))
      = pending_transfer_count s a + if is_new s h x then if decide (auth = a) then 1 else 0 else 0) as Hsum.
    { intros a. destruct (e_count _ He a) as [Ec _]. rewrite Ec. unfold is_new.
      destruct (PendingTransfers s !! (h, x)) as [p|] eqn:E.
      - rewrite bool_decide_true by done. cbn. rewrite (msum_insert_old _ _ _ p) by done.
        destruct po_info as (_ & _ & ->). destruct (e_pending _ He _ _ E) as [_ Hne].
        unfold opened_by at 3 2. fields. destruct (ti_on_flight_voters p); [done|]. cbn. lia.
      - rewrite bool_decide_false by (by intros []). cbn. rewrite msum_insert_new by done.
        destruct po_info as [_ ->]. unfold opened_by at 1. cbn.
        case_decide; subst; [rewrite bool_decide_true by done|rewrite bool_decide_false by congruence]; lia. }
    destruct He as [Hep Hef Hec]. split.
    + intros k i Hl. destruct (is_new s h x); fields;
        (apply lookup_insert_Some in Hl as [[_ <-]|[_ Hl]]; [done|by eapply Hep]).
    + by destruct (is_new s h x).
    + intros a. destruct (Hec a) as [Ec Hc]. unfold is_new in *. unfold pending_transfer_count at 1 2.
      destruct (PendingTransfers s !! (h, x)) as [p|] eqn:E.
      * rewrite bool_decide_true in * by done. cbn in *. fields. rewrite Hsum.
        unfold pending_transfer_count in *. lia.
      * rewrite bool_decide_false in * by (by intros []). cbn in *. fields. rewrite Hsum.
        destruct po_info as [Hcap _]. pose proof (msum_nonneg (opened_by auth) (PendingTransfers s)) as Hn.
        destruct (Hec auth) as [Eauth _]. rewrite <- Eauth in Hn.
        assert (0 <= pending_transfer_count s auth) by (apply Hn; intros; apply opened_range).
        unfold MAX_PENDING_TRANSFERS_PER_RELAYER, pending_transfer_count in *. fields.
        rewrite u32_add_small by (unfold u32_modulus; lia).
        destruct (decide (auth = a)) as [<-|Hne]; [rewrite !lookup_insert_eq; cbn; lia|].
        rewrite !lookup_insert_ne by done. lia.
Qed.

Lemma on_flight_poll_inv v o submission s u s' :
  rq_inv s -> on_flight_poll v o submission s = (Done u, s') -> rq_inv s'.
Proof.
  destruct submission as [auth msg h x]. intros Hi Hp.
  apply on_flight_poll_done in Hp as (m & idx & option & info & e & Hok & ->).
  apply (rq_inv_view (poll_effect v auth h x m idx option info s)); [done|].
  unfold poll_effect. destruct (majority_reached _ _).
  - by eapply rq_inv_approved.
  - by eapply rq_inv_still_pending.
Qed.

(** ** The finalize poll *)

(** The message that finalizes a transfer has its amount and its asset. *)
Lemma final_agrees v o auth msg s m idx h t :
  rq_inv s -> final_ok v o auth msg s m idx h t ->
  tp_amount (sm_params m) = tx_amount t /\ idx = tx_asset_index_hash t.
Proof.
  intros Hi []. destruct (g_on_flight _ (q_stages _ Hi) _ _ fo_on_flight) as [_ Hd].
  eapply describes_agree; try done. by eapply try_from_done.
Qed.

Lemma rq_inv_finalized s h t t' :
  rq_inv s -> OnFlightTransfers s !! h = Some t -> FinalizedTransfers s !! h = None ->
  tx_option t' = tx_option t -> tx_amount t' = tx_amount t ->
  rq_inv (finalized h t' (get_asset_info s (tx_asset_index_hash t)) (tx_amount t) s).
Proof.
  intros [Hk Hs He] Ht Hf Eo Ea. unfold finalized. rewrite Eo.
  set (s1 := move_cap _ _ _ _).
  assert (AssetIndexesHookState s1 = AssetIndexesHookState s /\ AssetIndexes s1 = AssetIndexes s
    /\ PendingTransfers s1 = PendingTransfers s /\ PendingTransferCount s1 = PendingTransferCount s
    /\ OnFlightTransfers s1 = delete h (OnFlightTransfers s)
    /\ FinalizedTransfers s1 = <[h := t']> (FinalizedTransfers s)
    /\ AssetCaps s1 = AssetCaps (move_cap (get_asset_info s (tx_asset_index_hash t)) (tx_option t)
                         (- tx_amount t) s)) as (E1 & E2 & E3 & E4 & E5 & E6 & E7).
  { subst s1. unfold move_cap. by repeat case_match. }
  assert (forall k t1, delete h (OnFlightTransfers s) !! k = Some t1 ->
    h <> k /\ OnFlightTransfers s !! k = Some t1) as Hsub by (by intros k t1 ?%lookup_delete_Some).
  clearbody s1. split.
  - by eapply caps_ok_land.
  - split; rewrite ?E3, ?E5, ?E6.
    + intros k y i Hl. destruct (g_pending _ Hs _ _ _ Hl) as (Hn & Hn' & Hd).
      assert (h <> k) as Hne by congruence. by rewrite lookup_delete_ne, lookup_insert_ne.
    + intros k t1 [Hne Hl]%Hsub. rewrite lookup_insert_ne by done. by apply (g_on_flight _ Hs).
  - split; unfold pending_transfer_count; rewrite ?E3, ?E4, ?E5.
    + apply (e_pending _ He).
    + intros k t1 [_ Hl]%Hsub. by eapply e_on_flight.
    + apply (e_count _ He).
Qed.

Lemma rq_inv_final v o auth msg s m idx h t :
  rq_inv s -> final_ok v o auth msg s m idx h t -> rq_inv (final_effect v auth h m idx t s).
Proof.
  intros Hi Hp. destruct (final_agrees _ _ _ _ _ _ _ _ _ Hi Hp) as [Ea ->]. destruct Hp.
  unfold final_effect. destruct (_ || _).
  - rewrite Ea. by apply rq_inv_finalized.
  - destruct Hi as [Hk Hs He].
    assert (forall k t1, <[h := t <| tx_finalization_voters := tx_finalization_voters t ++ [auth] |>]>
      (OnFlightTransfers s) !! k = Some t1 -> OnFlightTransfers s !! k = Some t1 \/ k = h /\
      t1 = t <| tx_finalization_voters := tx_finalization_voters t ++ [auth] |>) as Hins.
    { intros k t1 [[<- <-]|[? ?]]%lookup_insert_Some; auto. }
    split.
    + by apply (caps_ok_revote s _ h t
        (t <| tx_finalization_voters := tx_finalization_voters t ++ [auth] |>)).
    + split; fields.
      * intros k y i Hl. destruct (g_pending _ Hs _ _ _ Hl) as (Hn & Hn' & Hd).
        assert (h <> k) by congruence. by rewrite lookup_insert_ne.
      * intros k t1 [Hl|[-> ->]]%Hins; [by apply (g_on_flight _ Hs)|]. fields.
        by apply (g_on_flight _ Hs).
    + split; [apply (e_pending _ He)| |apply (e_count _ He)]. fields.
      intros k t1 [Hl|[-> ->]]%Hins; [by eapply e_on_flight|]. fields.
      destruct (e_on_flight _ He _ _ fo_on_flight) as [? ?]. split; [done|]. by apply distinct_snoc.
Qed.

Lemma finalize_poll_inv v o submission s u s' :
  rq_inv s -> finalize_poll v o submission s = (Done u, s') -> rq_inv s'.
Proof.
  destruct submission as [auth msg]. intros Hi Hp.
  apply finalize_poll_done in Hp as (m & idx & h & t & e & Hok & ->).
  apply (rq_inv_view (final_effect v auth h m idx t s)); [done|]. by eapply rq_inv_final.
Qed.

End Invariant.
