(* ===== verification/RelayQueueAdmin.v ===== *)
(** * The administration of the relay queue keeps its invariant

    Adding, updating and removing assets and their indexes, and replacing an
    authority in the lists of voters. *)

From S2P Require Import Prelude Logic Errors Primitives Cccp CccpTheorems RelayQueue RelayQueueRun RelayQueueInv.
Local Open Scope Z_scope.
Local Open Scope frame_scope.

(** ** Loops of checks *)

Lemma seen_done (l : list N) (seen seen' : gset N) (s s' : RqStorage) :
  fold_each l seen (fun seen x =>
    do* ensure (negb (bool_decide (x ∈ seen))) (RelayQ RqDuplicateAssetIndex) in
    ret ({[x]} ∪ seen)) s = (Done seen', s') ->
  NoDup l /\ (forall x, x ∈ l -> x ∉ seen) /\ s' = s.
Proof.
  revert seen. induction l as [|y l IH]; intros seen Hf; cbn [fold_each] in Hf; mrun.
  - split_and!; [constructor|set_solver|done].
  - match goal with H : fold_each _ _ _ _ = _ |- _ => apply IH in H as (Hn & Hs & ->) end.
    rewrite negb_true_iff, bool_decide_eq_false in *.
    split_and!; [constructor; [|done]; set_solver|set_solver|done].
Qed.
Lemma no_duplicates_done l (s : RqStorage) u s' :
  ensure_no_duplicates l s = (Done u, s') -> NoDup l /\ s' = s.
Proof.
  unfold ensure_no_duplicates. intros Hl. mrun.
  match goal with H : fold_each _ _ _ _ = _ |- _ => by apply seen_done in H as (? & _ & ->) end.
Qed.

Section Admin.
Context `{!RqConfig}.
Implicit Types (s : RqStorage) (i : AssetIndexInfo).

(** ** Indexes *)

Definition with_index (a : AssetId) s i : RqStorage :=
  s <| AssetIndexes ::= <[aii_hash i := a]> |>
    <| AssetIndexesHookState ::= <[aii_hash i := aii_is_hookable i]> |>.
Definition without_index s (idx : AssetIndexHash) : RqStorage :=
  s <| AssetIndexes ::= delete idx |> <| AssetIndexesHookState ::= delete idx |>.

(** An index unknown so far is given to a registered asset. *)
Lemma rq_inv_with_index s a i :
  rq_inv s -> is_Some (AssetCaps s !! a) -> AssetIndexes s !! aii_hash i = None ->
  rq_inv (with_index a s i).
Proof.
  intros [Hk Hs He] Ha Hi. split; [|by destruct Hs|by destruct He].
  pose proof Hk as [Kc Ki Kh Ka Kf]. unfold with_index.
  assert (forall h t, OnFlightTransfers s !! h = Some t -> tx_option t = Fast ->
    tx_asset_index_hash t <> aii_hash i) as Hne.
  { intros h t Ht Hf E. destruct (Kf _ _ Ht Hf) as [? Hx]. congruence. }
  split; fields; try done.
  - intros b cap Hb. destruct (Kc b cap Hb) as [-> Hm]. split; [|done].
    unfold in_flight. fields. symmetry. apply msum_ext. intros h t Ht. apply weight_same.
    intros Hf. apply lookup_insert_ne. specialize (Hne _ _ Ht Hf). congruence.
  - intros idx b [[<- <-]|[_ Hb]]%lookup_insert_Some; [done|by eapply Ki].
  - intros idx. destruct (decide (aii_hash i = idx)) as [<-|].
    + rewrite !lookup_insert_eq. by split; intros _; eexists.
    + by rewrite !lookup_insert_ne.
  - intros h t Ht Hf. rewrite lookup_insert_ne by (specialize (Hne _ _ Ht Hf); congruence). by eapply Kf.
Qed.

Lemma rq_inv_with_indexes s a l :
  rq_inv s -> is_Some (AssetCaps s !! a) -> NoDup (aii_hash <$> l) ->
  Forall (fun i => AssetIndexes s !! aii_hash i = None) l -> rq_inv (foldl (with_index a) s l).
Proof.
  revert s. induction l as [|i l IH]; intros s Hi Ha Hn Hl; [done|].
  apply NoDup_cons in Hn as [Hni Hn]. inversion_clear Hl as [|? ? H1 H2]. cbn.
  apply IH; [by apply rq_inv_with_index|done|done|].
  rewrite Forall_forall in *. intros j Hj. unfold with_index. fields.
  rewrite lookup_insert_ne; [by apply H2|]. intros E. apply Hni. rewrite E. by apply list_elem_of_fmap_2.
Qed.

(** An index no transfer in flight uses is dropped. *)
Definition idle s (idx : AssetIndexHash) : Prop :=
  forall h t, OnFlightTransfers s !! h = Some t -> tx_asset_index_hash t <> idx.

Lemma rq_inv_without_index s idx : rq_inv s -> idle s idx -> rq_inv (without_index s idx).
Proof.
  intros [Hk Hs He] Hidle. split; [|by destruct Hs|by destruct He].
  pose proof Hk as [Kc Ki Kh Ka Kf]. unfold without_index.
  split; fields; try done.
  - intros b cap Hb. destruct (Kc b cap Hb) as [-> Hm]. split; [|done].
    unfold in_flight. fields. symmetry. apply msum_ext. intros h t Ht. apply weight_same.
    intros _. apply lookup_delete_ne. specialize (Hidle _ _ Ht). congruence.
  - intros j b [_ Hb]%lookup_delete_Some. by eapply Ki.
  - intros j. destruct (decide (idx = j)) as [<-|].
    + rewrite !lookup_delete_eq. done.
    + by rewrite !lookup_delete_ne.
  - intros h t Ht Hf. rewrite lookup_delete_ne by (specialize (Hidle _ _ Ht); congruence). by eapply Kf.
Qed.
Lemma rq_inv_without_indexes s l :
  rq_inv s -> Forall (idle s) l -> rq_inv (foldl without_index s l).
Proof.
  revert s. induction l as [|idx l IH]; intros s Hi Hl; [done|]. inversion_clear Hl.
  cbn. apply IH; [by apply rq_inv_without_index|done].
Qed.

Lemma not_active s l :
  has_active_transfers s l = false -> Forall (idle s) l.
Proof.
  unfold has_active_transfers. intros Hx. apply Forall_forall. intros idx Hidx h t Ht <-.
  apply not_true_iff_false in Hx. apply Hx, existsb_exists. exists (h, t). split.
  - by apply list_elem_of_In, elem_of_map_to_list.
  - by apply bool_decide_eq_true.
Qed.

(** ** Caps *)

(** No transfer in flight counts for an asset without an index. *)
Lemma in_flight_unindexed s a :
  (forall idx, AssetIndexes s !! idx <> Some a) -> in_flight s a = 0.
Proof.
  intros Hn. unfold in_flight.
  apply msum_zero. intros h t _. apply weight_other. intros _. apply Hn.
Qed.

Lemma rq_inv_new_cap s a cap :
  rq_inv s -> on_flight_cap cap = in_flight s a ->
  on_flight_cap cap <= max_on_flight_cap cap <= MAX_ON_FLIGHT_CAP ->
  rq_inv (s <| AssetCaps ::= <[a := cap]> |>).
Proof.
  intros [Hk Hs He] Hu Hm. split; [|by destruct Hs|by destruct He].
  destruct Hk as [Kc Ki Kh Ka Kf]. split; fields; try done.
  - intros b cap' [[<- <-]|[_ Hb]]%lookup_insert_Some; [done|by apply Kc].
  - intros idx b Hb. destruct (decide (a = b)) as [<-|]; [rewrite lookup_insert_eq; eauto|].
    rewrite lookup_insert_ne by done. by eapply Ki.
Qed.
Lemma rq_inv_drop_cap s a :
  rq_inv s -> (forall idx, AssetIndexes s !! idx <> Some a) -> rq_inv (s <| AssetCaps ::= delete a |>).
Proof.
  intros [Hk Hs He] Hn. split; [|by destruct Hs|by destruct He].
  destruct Hk as [Kc Ki Kh Ka Kf]. split; fields; try done.
  - intros b cap [_ Hb]%lookup_delete_Some. by apply Kc.
  - intros idx b Hb. rewrite lookup_delete_ne; [by eapply Ki|]. intros <-. by eapply Hn.
Qed.
(** ** The calls *)

Lemma if_some_inv (J : RqStorage -> Prop) {A} (o : option A) (f : A -> RQ unit) s u s' :
  (forall x s u s', J s -> f x s = (Done u, s') -> J s') ->
  J s -> if_some o f s = (Done u, s') -> J s'.
Proof. intros Hf Hs. destruct o; cbn; [by apply Hf|]. intros Hl. by mrun. Qed.

Lemma rq_inv_event s f : rq_inv s -> rq_inv (s <| RqEvents ::= f |>).
Proof. by apply rq_inv_view. Qed.
Lemma deposit_inv e s u s' : rq_inv s -> rq_deposit e s = (Done u, s') -> rq_inv s'.
Proof. intros Hi Hd. apply modify_done in Hd as ->. by apply rq_inv_event. Qed.

Lemma set_socket_inv o new s u s' : rq_inv s -> set_socket o new s = (Done u, s') -> rq_inv s'.
Proof.
  unfold set_socket, rq_deposit, qput, qmutate. intros Hi Hs. destruct o; [|done|done].
  cbn [ensure_root] in Hs. mrun. apply rq_inv_event.
  match goal with H : match Socket _ with _ => _ end _ = _ |- _ => destruct (Socket _); mrun end;
    by apply (rq_inv_view s).
Qed.

(** The two loops of [add_asset] write what one loop would. *)
Definition put_index (a : AssetId) s i : RqStorage := s <| AssetIndexes ::= <[aii_hash i := a]> |>.
Definition put_hook s i : RqStorage := s <| AssetIndexesHookState ::= <[aii_hash i := aii_is_hookable i]> |>.
Lemma put_index_hook a s i l : foldl (put_index a) (put_hook s i) l = put_hook (foldl (put_index a) s l) i.
Proof. revert s. induction l as [|j l IH]; intros s; [done|]. cbn. by rewrite <- IH. Qed.
Lemma two_loops a s l : foldl put_hook (foldl (put_index a) s l) l = foldl (with_index a) s l.
Proof.
  revert s. induction l as [|i l IH]; intros s; [done|]. cbn. rewrite <- put_index_hook. apply IH.
Qed.

Lemma add_asset_inv o a max_cap l s u s' :
  rq_inv s -> 0 <= max_cap -> add_asset o a max_cap l s = (Done u, s') -> rq_inv s'.
Proof.
  unfold add_asset, ensure_few, qmutate. intros Hi Hpos Hc. destruct o; [|done|done].
  cbn [ensure_root] in Hc. mrun. unfold id in *.
  repeat match goal with
  | H : ensure_no_duplicates _ _ = _ |- _ => apply no_duplicates_done in H as [? ->]
  | H : for_each _ (fun i => ensure _ _) _ = _ |- _ => apply for_each_ensure_done in H as [Hnew ->]
  | H : u128_try_from _ = _ |- _ => apply u128_try_from_done in H as [-> _]
  | H : for_each _ _ _ = _ |- _ =>
      first [ rewrite (for_each_write _ _ (put_index a)) in H by done
            | rewrite (for_each_write _ _ put_hook) in H by done ]; simplify_eq
  end.
  eapply deposit_inv; [|done]. rewrite two_loops.
  match goal with H : negb (bool_decide (is_Some (AssetCaps s !! a))) = true |- _ =>
    apply absent in H as Hfree end.
  apply rq_inv_with_indexes; [|fields; rewrite lookup_insert_eq; eauto|done|].
  - apply rq_inv_new_cap; [done| |cbn; lia]. cbn. symmetry. apply in_flight_unindexed.
    intros idx Hidx. destruct (k_index _ (q_caps _ Hi) _ _ Hidx). congruence.
  - eapply Forall_impl; [done|]. intros i. cbv beta. apply absent.
Qed.

Lemma drop_cap_indexes s a l :
  foldl without_index (s <| AssetCaps ::= delete a |>) l = (foldl without_index s l) <| AssetCaps ::= delete a |>.
Proof. revert s. induction l as [|j l IH]; intros s; [done|]. cbn. by rewrite <- IH. Qed.
Lemma foldl_without_lookup s l idx :
  AssetIndexes (foldl without_index s l) !! idx = if bool_decide (idx ∈ l) then None else AssetIndexes s !! idx.
Proof.
  revert s. induction l as [|j l IH]; intros s; [by rewrite bool_decide_false by set_solver|].
  cbn. rewrite IH. unfold without_index. fields. destruct (decide (j = idx)) as [->|].
  - rewrite lookup_delete_eq, (bool_decide_true (idx ∈ idx :: l)) by set_solver. by case_bool_decide.
  - rewrite lookup_delete_ne by done. do 2 case_bool_decide; set_solver.
Qed.

Lemma remove_asset_inv o a s u s' : rq_inv s -> remove_asset o a s = (Done u, s') -> rq_inv s'.
Proof.
  unfold remove_asset, qmutate. intros Hi Hr. destruct o; [|done|done].
  cbn [ensure_root] in Hr. mrun. unfold id in *.
  match goal with H : for_each _ _ _ = _ |- _ =>
    rewrite (for_each_write _ _ without_index) in H by (intros; reflexivity); simplify_eq end.
  rewrite negb_true_iff in *.
  match goal with H : has_active_transfers _ _ = false |- _ => apply not_active in H as Hidle end.
  eapply deposit_inv; [|done]. rewrite drop_cap_indexes. apply rq_inv_drop_cap.
  - by apply rq_inv_without_indexes.
  - intros idx. rewrite foldl_without_lookup. destruct (bool_decide (idx ∈ _)) eqn:Hn; [done|].
    apply bool_decide_eq_false in Hn. intros Hx. apply Hn.
    apply list_elem_of_fmap. exists (idx, a). split; [done|].
    apply list_elem_of_filter. split; [done|]. by apply elem_of_map_to_list.
Qed.

(** The steps of [update_asset], which keep the asset registered. *)
Definition registered (a : AssetId) s : Prop := rq_inv s /\ is_Some (AssetCaps s !! a).

Lemma update_max_cap_inv a cap n s u s' :
  rq_inv s -> AssetCaps s !! a = Some cap -> update_max_cap a cap n s = (Done u, s') -> registered a s'.
Proof.
  unfold update_max_cap, qmutate. intros Hi Ha Hu. case_match; [done|]. mrun.
  match goal with H : u128_try_from _ = _ |- _ => apply u128_try_from_done in H as [-> _] end.
  split; [|fields; rewrite lookup_insert_eq; eauto].
  destruct (k_cap _ (q_caps _ Hi) _ _ Ha). apply rq_inv_new_cap; [done|done|]. fields. lia.
Qed.
Lemma add_index_inv a i s u s' : registered a s -> add_index a i s = (Done u, s') -> registered a s'.
Proof.
  unfold add_index, qmutate. intros [Hi Ha] Hx. mrun. unfold id in *.
  split; [|done]. apply (rq_inv_with_index s a i); [done|done|]. by apply absent.
Qed.
Lemma update_index_inv a i s u s' : registered a s -> update_index i s = (Done u, s') -> registered a s'.
Proof.
  unfold update_index, qmutate. intros [Hi Ha] Hx. mrun. unfold id in *.
  split; [|done]. rewrite bool_decide_eq_true in *. destruct Hi as [Hk Hs He].
  split; [|by destruct Hs|by destruct He]. destruct Hk as [Kc Ki Kh Ka Kf]. split; fields; try done.
  intros idx. destruct (decide (aii_hash i = idx)) as [<-|]; [|by rewrite lookup_insert_ne].
  rewrite lookup_insert_eq. split; [done|]. eauto.
Qed.
Lemma remove_indexes_inv a l s u s' : registered a s -> remove_indexes a l s = (Done u, s') -> registered a s'.
Proof.
  unfold remove_indexes. intros [Hi Ha] Hr. mrun. unfold id in *.
  match goal with H : for_each l (fun _ => bind _ _) s = _ |- _ => rename H into Hown end.
  apply (preserves_done (fun t => t)) in Hown as ->; [|frame].
  match goal with H : for_each _ _ _ = _ |- _ =>
    rewrite (for_each_write _ _ without_index) in H by (intros; reflexivity); simplify_eq end.
  rewrite negb_true_iff in *. split; [by apply rq_inv_without_indexes, not_active|].
  clear -Ha. revert s Ha. induction l as [|idx l IH]; intros s Ha; [done|]. by apply IH.
Qed.

Lemma if_some_same {A} (o : option A) (f : A -> RQ unit) s u s' :
  (forall x, preserves (fun t => t) (f x)) -> if_some o f s = (Done u, s') -> s' = s.
Proof.
  intros Hf. apply same_storage. destruct o; cbn; [apply Hf|apply preserves_ret].
Qed.

Lemma same_few {A} (o : option (list A)) s u s' :
  if_some o (fun l => ensure_few (length l)) s = (Done u, s') -> s' = s.
Proof. apply if_some_same. frame. Qed.
Lemma same_hashes (o : option (list AssetIndexInfo)) s u s' :
  if_some o (fun l => ensure_no_duplicates (aii_hash <$> l)) s = (Done u, s') -> s' = s.
Proof. apply if_some_same. frame. Qed.
Lemma same_removed (o : option (list N)) s u s' : if_some o ensure_no_duplicates s = (Done u, s') -> s' = s.
Proof. apply if_some_same. frame. Qed.
Lemma same_conflict (o : option (list AssetIndexInfo)) (rem : option (list N)) s u s' :
  if_some o (fun l => if_some rem (ensure_no_conflict l)) s = (Done u, s') -> s' = s.
Proof. apply if_some_same. frame. Qed.

Lemma update_asset_inv o a cap add upd rem s u s' :
  rq_inv s -> update_asset o a cap add upd rem s = (Done u, s') -> rq_inv s'.
Proof.
  unfold update_asset. intros Hi Hu. destruct o; [|done|done]. cbn [ensure_root] in Hu. mrun. unfold id in *.
  repeat match goal with
  | H : if_some _ (fun l => ensure_few _) _ = _ |- _ => apply same_few in H as ->
  | H : if_some _ (fun l => ensure_no_duplicates _) _ = _ |- _ => apply same_hashes in H as ->
  | H : if_some _ ensure_no_duplicates _ = _ |- _ => apply same_removed in H as ->
  | H : if_some _ (fun l => if_some _ _) _ = _ |- _ => apply same_conflict in H as ->
  end.
  eapply deposit_inv; [|done].
  match goal with H : if_some cap _ s = (_, ?s1) |- _ => assert (registered a s1) as Hr end.
  { destruct cap as [n|]; cbn [if_some] in *; [by eapply update_max_cap_inv|]. mrun. split; eauto. }
  match goal with H : if_some add _ _ = (_, ?s2) |- _ => assert (registered a s2) as Hr2 end.
  { eapply if_some_inv; [|exact Hr|done]. intros l t v t' Ht. by eapply for_each_inv; [apply add_index_inv|]. }
  match goal with H : if_some upd _ _ = (_, ?s3) |- _ => assert (registered a s3) as Hr3 end.
  { eapply if_some_inv; [|exact Hr2|done]. intros l t v t' Ht. by eapply for_each_inv; [apply update_index_inv|]. }
  eapply (if_some_inv (registered a)); [|exact Hr3|done]. apply remove_indexes_inv.
Qed.

(** ** Replacement of an authority *)

(** [new] has no vote. *)
Definition fresh (new : AccountId) s : Prop :=
  (forall k (info : TransferInfo), PendingTransfers s !! k = Some info -> new ∉ ti_on_flight_voters info)
  /\ (forall h t, OnFlightTransfers s !! h = Some t -> new ∉ tx_finalization_voters t).

Definition rename (old new a : AccountId) : AccountId := if decide (a = old) then new else a.

Lemma rename_others old new (l : list AccountId) : old ∉ l -> rename old new <$> l = l.
Proof.
  intros Ho. transitivity (id <$> l); [|apply list_fmap_id]. apply list_fmap_ext. intros k x Hx%list_elem_of_lookup_2.
  unfold rename. case_decide; [by subst|done].
Qed.
(** In a list of distinct voters the replacement is a renaming. *)
Lemma replace_voter_map old new (l : list AccountId) :
  distinct l -> replace_voter old new l = rename old new <$> l.
Proof.
  intros [Hn Hb]. unfold replace_voter.
  destruct (list_find _ l) as [[pos y]|] eqn:E.
  - apply list_find_Some in E as (Hp & -> & _).
    apply list_elem_of_split_length in Hp as (l1 & l2 & -> & ->).
    rewrite delete_middle, take_app_length, drop_app_length.
    rewrite !length_app in *. cbn [length] in Hb.
    destruct (Z.ltb_spec (Z.of_nat (length l1 + length l2)) MAX_AUTHORITIES); [|lia].
    apply NoDup_app in Hn as (_ & Hd & [Ho2 _]%NoDup_cons).
    assert (old ∉ l1) as Ho1 by (intros Ho; apply (Hd _ Ho); set_solver).
    rewrite fmap_app, fmap_cons, !rename_others by done. unfold rename. by rewrite decide_True.
  - apply list_find_None in E. symmetry. apply rename_others. rewrite Forall_forall in E. naive_solver.
Qed.

Lemma rename_inj old new (l : list AccountId) :
  NoDup l -> new ∉ l -> NoDup (rename old new <$> l).
Proof.
  intros Hn Hnew. apply NoDup_fmap_2_strong; [|done]. intros x y Hx Hy. unfold rename.
  repeat case_decide; subst; try done; intros ->; done.
Qed.
Lemma distinct_replace old new l :
  distinct l -> new ∉ l -> distinct (replace_voter old new l).
Proof.
  intros Hd Hnew. rewrite replace_voter_map by done. destruct Hd as [Hn Hb].
  split; [by apply rename_inj|by rewrite length_fmap].
Qed.

Lemma opened_by_replace old new a info :
  old <> new -> distinct (ti_on_flight_voters info) -> new ∉ ti_on_flight_voters info ->
  opened_by a (info <| ti_on_flight_voters ::= replace_voter old new |>)
  = if decide (a = old) then 0 else if decide (a = new) then opened_by old info else opened_by a info.
Proof.
  intros Hne Hd Hnew. unfold opened_by. fields. rewrite replace_voter_map by done.
  destruct (ti_on_flight_voters info) as [|b l]; cbn.
  - repeat case_decide; done.
  - assert (b <> new) by set_solver. unfold rename.
    repeat case_decide; subst; repeat case_bool_decide; congruence.
Qed.

Lemma fresh_count new s : votes_ok s -> fresh new s -> pending_transfer_count s new = 0.
Proof.
  intros He [Fp _]. destruct (e_count _ He new) as [-> _]. apply msum_zero.
  intros k info Hl. apply Fp in Hl. unfold opened_by. rewrite bool_decide_false; [done|].
  destruct (ti_on_flight_voters info); [done|]. cbn. intros [= ->]. set_solver.
Qed.

(** The counts after a replacement. *)
Lemma replaced_count old new s a :
  votes_ok s -> old <> new -> fresh new s ->
  pending_transfer_count (replace_authority old new s) a
  = if decide (a = old) then 0
    else if decide (a = new) then pending_transfer_count s old else pending_transfer_count s a.
Proof.
  intros He Hne Hf. pose proof (fresh_count _ _ He Hf) as Hz.
  assert (0 <= pending_transfer_count s old) as Hpos.
  { destruct (e_count _ He old) as [-> _]. apply msum_nonneg. intros. apply opened_range. }
  unfold replace_authority. destruct (Z.ltb_spec 0 (pending_transfer_count s old)) as [Hlt|Hle];
    unfold pending_transfer_count in *; fields.
  - destruct (decide (a = new)) as [->|]; [rewrite lookup_insert_eq, decide_False by done; done|].
    rewrite lookup_insert_ne by done. case_decide; subst; [by rewrite lookup_delete_eq|].
    by rewrite lookup_delete_ne.
  - case_decide; subst; [by rewrite lookup_delete_eq|]. rewrite lookup_delete_ne by done.
    case_decide; subst; [rewrite Hz; lia|done].
Qed.

Lemma replace_authority_inv old new s :
  rq_inv s -> old <> new -> fresh new s -> rq_inv (replace_authority old new s).
Proof.
  intros [Hk Hs He] Hne [Fp Ff].
  set (s' := replace_authority old new s).
  assert (AssetIndexesHookState s' = AssetIndexesHookState s /\ AssetIndexes s' = AssetIndexes s
    /\ AssetCaps s' = AssetCaps s /\ FinalizedTransfers s' = FinalizedTransfers s
    /\ PendingTransfers s' = fmap (fun info => info <| ti_on_flight_voters ::= replace_voter old new |>)
                               (PendingTransfers s)
    /\ OnFlightTransfers s' = fmap (fun info => info <| tx_finalization_voters ::= replace_voter old new |>)
                               (OnFlightTransfers s)
    /\ forall a, pending_transfer_count s' a = if decide (a = old) then 0
         else if decide (a = new) then pending_transfer_count s old else pending_transfer_count s a)
    as (E1 & E2 & E3 & E4 & E5 & E6 & E7).
  { subst s'. split_and!; try (unfold replace_authority; by case_match).
    intros a. by apply replaced_count. }
  clearbody s'. split.
  - destruct Hk as [Kc Ki Kh Ka Kf]. split; rewrite ?E1, ?E2, ?E3, ?E6; try done.
    + intros a cap Ha. destruct (Kc _ _ Ha) as [-> Hm]. split; [|done]. unfold in_flight.
      by rewrite E2, E6, msum_fmap.
    + intros h t Ht. rewrite lookup_fmap in Ht. apply fmap_Some in Ht as (t0 & Ht & ->). apply (Ka _ _ Ht).
    + intros h t Ht. rewrite lookup_fmap in Ht. apply fmap_Some in Ht as (t0 & Ht & ->). apply (Kf _ _ Ht).
  - destruct Hs as [Gp Gf]. split; rewrite ?E4, ?E5, ?E6.
    + intros h x info Hl. rewrite lookup_fmap in Hl. apply fmap_Some in Hl as (i0 & Hl & ->).
      rewrite lookup_fmap. destruct (Gp _ _ _ Hl) as (-> & ? & ?). done.
    + intros h t Hl. rewrite lookup_fmap in Hl. apply fmap_Some in Hl as (t0 & Hl & ->). apply (Gf _ _ Hl).
  - destruct He as [Vp Vf Vc]. split; rewrite ?E5, ?E6.
    + intros k info Hl. rewrite lookup_fmap in Hl. apply fmap_Some in Hl as (i0 & Hl & ->).
      destruct (Vp _ _ Hl) as [Hd Hnil]. fields. split; [by apply distinct_replace; [|eapply Fp]|].
      rewrite replace_voter_map by done. by destruct (ti_on_flight_voters i0).
    + intros h t Hl. rewrite lookup_fmap in Hl. apply fmap_Some in Hl as (t0 & Hl & ->).
      destruct (Vf _ _ Hl) as [Hv Hd]. fields. split; [done|]. by apply distinct_replace; [|eapply Ff].
    + intros a. rewrite E7, msum_fmap.
      erewrite (msum_ext _ (fun info => if decide (a = old) then 0
        else if decide (a = new) then opened_by old info else opened_by a info)).
      2:{ intros k info Hl. apply opened_by_replace; [done| |by eapply Fp]. by destruct (Vp _ _ Hl). }
      case_decide; [|case_decide; apply Vc].
      split; [|done]. symmetry. by apply msum_zero.
Qed.
End Admin.
