(* ===== verification/RelayQueueTheorems.v ===== *)
(** * The relay queue: transfers live once and in the caps

    The calls of the pallet as a step relation, and what holds of every storage
    reached: the caps, the life of a transfer, the majority behind an approval,
    and that a transfer in flight can be finalized. *)

From S2P Require Import Prelude Logic Errors Primitives Cccp CccpTheorems RelayQueue RelayQueueRun RelayQueueInv RelayQueueAdmin.
Local Open Scope Z_scope.
Local Open Scope frame_scope.

Section Steps.
Context {R : Type} `{!Authorities R, !RqConfig, !EthAbiLaws}.
Context (keccak_inj : Inj (=) (=) keccak_256).
Implicit Types (v : RqView R) (s : RqStorage) (t : TransferInfoWithTxId).

(** One extrinsic, or the replacement of a relayer by an account that has no
    vote. What an extrinsic that fails wrote is rolled back. *)
Inductive rq_step : RqStorage -> RqStorage -> Prop :=
| step_unsigned v call s r s' : apply_unsigned v call s = Some (r, s') -> rq_step s s'
| step_set_socket o new s : rq_step s (dispatch (set_socket o new) s).2
| step_add_asset o a max_cap l s : 0 <= max_cap -> rq_step s (dispatch (add_asset o a max_cap l) s).2
| step_remove_asset o a s : rq_step s (dispatch (remove_asset o a) s).2
| step_update_asset o a cap add upd rem s :
    rq_step s (dispatch (update_asset o a cap add upd rem) s).2
| step_replace old new s : old <> new -> fresh new s -> rq_step s (replace_authority old new s).

Definition rq_empty : RqStorage := mkRqStorage None ∅ ∅ ∅ ∅ ∅ ∅ ∅ [].
Definition rq_reachable s : Prop := rtc rq_step rq_empty s.

(** An unsigned call that has run, and what let it in. *)
Lemma apply_unsigned_cases v call s r s' :
  apply_unsigned v call s = Some (r, s') ->
  (exists submission sig, call = CallOnFlightPoll submission sig
    /\ au_is_authority (rv_relayers v) (ofs_authority_id submission) = true
    /\ verify sig (signed_message "OnFlightPoll"
         (scale_encode (ofs_msg submission, ofs_msg_hash submission, ofs_src_tx_id submission)))
         (ofs_authority_id submission) = true
    /\ dispatch (on_flight_poll v NoneOrigin submission) s = (r, s'))
  \/ (exists submission sig, call = CallFinalizePoll submission sig
    /\ au_is_authority (rv_relayers v) (fps_authority_id submission) = true
    /\ verify sig (signed_message "FinalizePoll" (fps_msg submission)) (fps_authority_id submission) = true
    /\ dispatch (finalize_poll v NoneOrigin submission) s = (r, s')).
Proof.
  unfold apply_unsigned, validate_unsigned, verify_authority. intros Hc.
  destruct call as [[auth msg h x] sig|[auth msg] sig|]; [left|right|done].
  - destruct (_ <? _); [done|]. destruct (au_is_authority _ _) eqn:Ea; [|done].
    cbn [negb] in Hc. destruct (verify _ _ _) eqn:Ev; [|done]. cbn [negb] in Hc. simplify_eq.
    by eexists _, _.
  - destruct (au_is_authority _ _) eqn:Ea; [|done].
    cbn [negb] in Hc. destruct (verify _ _ _) eqn:Ev; [|done]. cbn [negb] in Hc. simplify_eq.
    by eexists _, _.
Qed.

Lemma rq_empty_inv : rq_inv rq_empty.
Proof.
  split; split; cbn; try (intros *; by rewrite ?lookup_empty).
Qed.

Lemma rq_step_inv s s' : rq_step s s' -> rq_inv s -> rq_inv s'.
Proof.
  intros Hstep Hi. destruct Hstep as [v call s r s' Hc|o new s|o a cap l s Hpos|o a s|o a cap add upd rem s|].
  - apply apply_unsigned_cases in Hc as [(sub & sig & _ & _ & _ & Hd)|(sub & sig & _ & _ & _ & Hd)];
      apply (f_equal snd) in Hd; cbn in Hd; subst; apply dispatch_inv; try done; intros u s' Hp.
    + by eapply on_flight_poll_inv.
    + by eapply finalize_poll_inv.
  - apply dispatch_inv; [done|]. intros u s'. by apply set_socket_inv.
  - apply dispatch_inv; [done|]. intros u s'. by apply add_asset_inv.
  - apply dispatch_inv; [done|]. intros u s'. by apply remove_asset_inv.
  - apply dispatch_inv; [done|]. intros u s'. by apply update_asset_inv.
  - by apply replace_authority_inv.
Qed.
Lemma rq_reachable_inv s : rq_reachable s -> rq_inv s.
Proof.
  intros Hr. unfold rq_reachable in Hr. pose proof rq_empty_inv as Hi.
  induction Hr as [|x y z Hxy Hyz IH]; [done|]. apply IH. by eapply rq_step_inv.
Qed.


(** ** The life of a transfer *)

(** [t'] is [t] after further votes on its outcome. *)
Definition same_transfer t t' : Prop :=
  exists voters, t' = t <| tx_finalization_voters := voters |>.
(** The transfer [t] of the message [h] is in flight or finalized in [s]. *)
Definition settled (h : H256) t s : Prop :=
  (exists t', OnFlightTransfers s !! h = Some t' /\ same_transfer t t')
  \/ (exists t', FinalizedTransfers s !! h = Some t' /\ same_transfer t t').

Lemma same_transfer_refl t : same_transfer t t.
Proof. exists (tx_finalization_voters t). by destruct t. Qed.
Lemma same_transfer_vote t t' l : same_transfer t t' -> same_transfer t (t' <| tx_finalization_voters := l |>).
Proof. intros [l' ->]. by exists l. Qed.
(** The transfers in flight and the finalized ones. *)
Definition lives s := (OnFlightTransfers s, FinalizedTransfers s).
Lemma dispatch_lives (m : RQ unit) s : preserves lives m -> lives (dispatch m s).2 = lives s.
Proof. intros Hm. specialize (Hm s). unfold dispatch. by destruct (m s) as [[u|e|] s']. Qed.
Lemma settled_lives h t s s' : lives s' = lives s -> settled h t s -> settled h t s'.
Proof. unfold lives, settled. by intros [= -> ->]. Qed.

Lemma approved_lives v auth h x m idx option info s :
  OnFlightTransfers s !! h = None ->
  forall k t, settled k t s -> settled k t (poll_effect v auth h x m idx option info s).
Proof.
  intros Hh k t Hs. unfold poll_effect. case_match; [|by destruct (is_new s h x)].
  assert (OnFlightTransfers (move_cap (get_asset_info s idx) option (tp_amount (sm_params m)) s)
    = OnFlightTransfers s /\ FinalizedTransfers (move_cap (get_asset_info s idx) option
        (tp_amount (sm_params m)) s) = FinalizedTransfers s) as [E1 E2]
    by (unfold move_cap; by repeat case_match).
  unfold settled, approved. fields. rewrite E1, E2. destruct Hs as [(t' & Ht & Hsame)|Hf]; [|by right].
  left. exists t'. split; [|done]. rewrite lookup_insert_ne; [done|]. congruence.
Qed.

Lemma finalized_lives h t asset_info amount s :
  OnFlightTransfers (finalized h t asset_info amount s) = delete h (OnFlightTransfers s)
  /\ FinalizedTransfers (finalized h t asset_info amount s) = <[h := t]> (FinalizedTransfers s).
Proof. unfold finalized, move_cap. by destruct asset_info as [[? ?]|], (tx_option t). Qed.
Lemma final_lives v auth h m idx t0 s :
  OnFlightTransfers s !! h = Some t0 -> FinalizedTransfers s !! h = None ->
  forall k t, settled k t s -> settled k t (final_effect v auth h m idx t0 s).
Proof.
  intros Hh Hf k t Hs. unfold final_effect.
  set (t1 := t0 <| tx_finalization_voters := tx_finalization_voters t0 ++ [auth] |>).
  assert (k = h -> same_transfer t t1) as Ht1.
  { intros ->. destruct Hs as [(t' & Ht & Hsame)|(t' & Ht & _)]; [|congruence].
    simplify_eq. by apply same_transfer_vote. }
  case_match.
  - destruct (finalized_lives h t1 (get_asset_info s idx) (tp_amount (sm_params m)) s) as [E1 E2].
    unfold settled. rewrite E1, E2. destruct (decide (k = h)) as [->|Hne].
    + right. exists t1. rewrite lookup_insert_eq. auto.
    + rewrite lookup_delete_ne, lookup_insert_ne by done. done.
  - unfold settled. fields. destruct (decide (k = h)) as [->|Hne].
    + left. exists t1. rewrite lookup_insert_eq. auto.
    + by rewrite lookup_insert_ne.
Qed.

Lemma finalized_for_ever v auth h m idx t0 s :
  FinalizedTransfers s !! h = None ->
  forall k t, FinalizedTransfers s !! k = Some t ->
  FinalizedTransfers (final_effect v auth h m idx t0 s) !! k = Some t.
Proof.
  intros Hf k t Ht. assert (h <> k) by congruence. unfold final_effect, finalized, move_cap.
  repeat case_match; fields; rewrite ?lookup_insert_ne by done; done.
Qed.

Lemma rq_step_lives s s' :
  rq_step s s' -> rq_inv s -> forall h t,
  (FinalizedTransfers s !! h = Some t -> FinalizedTransfers s' !! h = Some t)
  /\ (settled h t s -> settled h t s').
Proof.
  intros Hstep Hi h t.
  assert (lives s' = lives s -> (FinalizedTransfers s !! h = Some t -> FinalizedTransfers s' !! h = Some t)
    /\ (settled h t s -> settled h t s')) as Hsame.
  { intros E. split; [|by apply settled_lives]. unfold lives in E. injection E as _ ->. done. }
  destruct Hstep as [v call s r s' Hc|o new s|o a cap l s Hpos|o a s|o a cap add upd rem s|old new s];
    try (apply Hsame, dispatch_lives; frame).
  - apply apply_unsigned_cases in Hc
      as [([auth msg k x] & sig & _ & _ & _ & Hd)|([auth msg] & sig & _ & _ & _ & Hd)];
      apply dispatch_cases in Hd as [[u Hd]| ->]; try (by apply Hsame).
    + apply on_flight_poll_done in Hd as (m & idx & option & info & e & Hok & ->).
      split; [intros Hf|by apply approved_lives, (po_not_on_flight _ _ _ _ _ _ _ _ _ _ _ Hok)].
      unfold poll_effect, approved, still_pending, move_cap. clear Hok.
      destruct (majority_reached _ _), (get_asset_info s idx) as [[? ?]|], option, (is_new s k x); exact Hf.
    + apply finalize_poll_done in Hd as (m & idx & k & t0 & e & [] & ->).
      split; [by apply finalized_for_ever|by apply final_lives].
  - assert (FinalizedTransfers (replace_authority old new s) = FinalizedTransfers s) as E1
      by (unfold replace_authority; by destruct (0 <? _)).
    assert (OnFlightTransfers (replace_authority old new s)
      = fmap (fun i => i <| tx_finalization_voters ::= replace_voter old new |>) (OnFlightTransfers s)) as E2
      by (unfold replace_authority; by destruct (0 <? _)).
    unfold settled. rewrite E1, E2. split; [done|]. intros [(t' & Ht & Hs)|Hf]; [left|by right].
    eexists. rewrite lookup_fmap, Ht. split; [done|]. destruct Hs as [l ->]. by eexists.
Qed.

(** The transfer a poll puts in flight. *)
Lemma launched v auth k x s m idx option info e h t :
  OnFlightTransfers s !! h = None ->
  OnFlightTransfers ((poll_effect v auth k x m idx option info s) <| RqEvents ::= e |>) !! h = Some t ->
  h = k /\ t = from_transfer_info info x
  /\ au_majority (rv_relayers v) <= Z.of_nat (length (ti_on_flight_voters info)).
Proof.
  intros Hn. unfold poll_effect, majority_reached.
  destruct (Z.leb_spec (au_majority (rv_relayers v)) (Z.of_nat (length (ti_on_flight_voters info)))) as [Hm|].
  - assert (OnFlightTransfers (move_cap (get_asset_info s idx) option (tp_amount (sm_params m)) s)
      = OnFlightTransfers s) as E by (unfold move_cap; by destruct (get_asset_info s idx) as [[? ?]|], option).
    unfold approved. fields. rewrite E. intros [[-> ->]|[_ ?]]%lookup_insert_Some; [done|congruence].
  - unfold still_pending. destruct (is_new s k x); fields; congruence.
Qed.

(** C10: The life of a transfer. From any reachable storage, along any calls:
    a finalized transfer stays finalized as it is, for ever; a transfer in
    flight stays in flight or becomes finalized, with the same amount, asset,
    option, origin and approving voters; and while a message is in flight or
    finalized it is not pending, nor both at once. A message is thus
    transferred at most once. *)
Theorem transfers_live_once s s' h t :
  rq_reachable s -> rtc rq_step s s' ->
  (FinalizedTransfers s !! h = Some t -> FinalizedTransfers s' !! h = Some t)
  /\ (OnFlightTransfers s !! h = Some t -> settled h t s')
  /\ (forall t', OnFlightTransfers s' !! h = Some t' ->
        FinalizedTransfers s' !! h = None /\ forall x, PendingTransfers s' !! (h, x) = None)
  /\ (forall t' x, FinalizedTransfers s' !! h = Some t' -> PendingTransfers s' !! (h, x) = None).
Proof.
  intros Hr Hsteps. assert (rq_reachable s') as Hr'
    by (unfold rq_reachable in *; by etransitivity).
  assert (forall k x i, PendingTransfers s' !! (k, x) = Some i ->
    OnFlightTransfers s' !! k = None /\ FinalizedTransfers s' !! k = None) as Hp.
  { intros k x i Hx. destruct (g_pending _ (q_stages _ (rq_reachable_inv _ Hr')) _ _ _ Hx) as (? & ? & _). done. }
  assert ((FinalizedTransfers s !! h = Some t -> FinalizedTransfers s' !! h = Some t)
    /\ (settled h t s -> settled h t s')) as [Hf Hs].
  { pose proof (rq_reachable_inv _ Hr) as Hi. clear Hr Hr' Hp.
    induction Hsteps as [|a b c Hab Hbc IH]; [done|].
    destruct (rq_step_lives _ _ Hab Hi h t). apply rq_step_inv in Hab; [|done]. naive_solver. }
  split_and!; [done| | |].
  - intros Ht. apply Hs. left. exists t. split; [done|apply same_transfer_refl].
  - intros t' Ht'. split; [by destruct (g_on_flight _ (q_stages _ (rq_reachable_inv _ Hr')) _ _ Ht')|].
    intros x. destruct (PendingTransfers s' !! (h, x)) eqn:E; [|done]. apply Hp in E as []. congruence.
  - intros t' x Ht'. destruct (PendingTransfers s' !! (h, x)) eqn:E; [|done]. apply Hp in E as []. congruence.
Qed.

(** ** Approval *)

(** C32: A transfer gets in flight only by a vote of a relayer, signed by
    it, on a message in the state REQUESTED which the Socket contract confirms
    (registered with the same content and REQUESTED when it leaves Bifrost,
    unknown when it arrives), and only when the distinct accounts that voted for it
    from the same source transaction, the submitter the last of them, are at
    least the majority of the moment. It is fast only if its asset is
    registered and it fits what is left of the cap. *)
Theorem approval_needs_majority v call s s' h t :
  rq_reachable s -> apply_unsigned v call s = Some (Done tt, s') ->
  OnFlightTransfers s !! h = None -> OnFlightTransfers s' !! h = Some t ->
  exists submission sig m idx,
    call = CallOnFlightPoll submission sig
    /\ au_is_authority (rv_relayers v) (ofs_authority_id submission) = true
    /\ verify sig (signed_message "OnFlightPoll" (scale_encode
         (ofs_msg submission, ofs_msg_hash submission, ofs_src_tx_id submission)))
         (ofs_authority_id submission) = true
    /\ SocketMessage_try_from (ofs_msg submission) = Done m /\ sm_status m = 1
    /\ h = keccak_256 (SocketMessage_encode m)
    /\ validate_requested v m s = (Done tt, s)
    /\ NoDup (tx_on_flight_voters t)
    /\ last (tx_on_flight_voters t) = Some (ofs_authority_id submission)
    /\ au_majority (rv_relayers v) <= Z.of_nat (length (tx_on_flight_voters t))
    /\ tx_src_tx_id t = ofs_src_tx_id submission /\ tx_amount t = tp_amount (sm_params m)
    /\ H256_from_slice (tp_token_idx0 (sm_params m)) = Some idx /\ tx_asset_index_hash t = idx
    /\ (tx_option t = Fast -> exists a cap, get_asset_info s idx = Some (a, cap)
          /\ on_flight_cap cap + tx_amount t <= max_on_flight_cap cap).
Proof.
  intros Hr Hc Hn Ht. pose proof (rq_reachable_inv _ Hr) as Hi.
  apply apply_unsigned_cases in Hc
    as [([auth msg k x] & sig & -> & Ha & Hv & Hd)|([auth msg] & sig & _ & _ & _ & Hd)];
    apply (proj1 (dispatch_done _ _ _ _)) in Hd.
  - apply on_flight_poll_done in Hd as (m & idx & option & info & e & Hok & ->).
    destruct (info_facts keccak_inj _ _ _ _ _ _ _ _ _ _ _ Hi Hok) as (Ea & Ex & Eo & [[Hnd _] _] & _).
    pose proof (launched _ _ _ _ _ _ _ _ _ _ _ _ Hn Ht) as (-> & -> & Hm).
    exists (mkOnFlightPollSubmission auth msg k x), sig, m, idx. cbn.
    destruct Hok as [? ? ? ? ? ? ? Hopt ? Hinfo]. split_and!; try done.
    + destruct (PendingTransfers s !! (k, x)); [destruct Hinfo as (_ & _ & ->)|destruct Hinfo as [_ ->]];
        [apply last_snoc|done].
    + rewrite Eo, Ea, Hopt. destruct (get_asset_info s idx) as [[a cap]|]; [|done].
      destruct (Z.ltb_spec (max_on_flight_cap cap) (on_flight_cap cap + tp_amount (sm_params m))); [done|].
      intros _. eauto.
  - exfalso. apply finalize_poll_done in Hd as (m & idx & k & t0 & e & [] & ->).
    assert (h <> k) as Hne by congruence.
    revert Ht. unfold final_effect. destruct (_ || _); fields.
    + rewrite (proj1 (finalized_lives _ _ _ _ _)), lookup_delete_ne by done. congruence.
    + rewrite lookup_insert_ne by done. congruence.
Qed.
End Steps.
