(* ===== verification/RelayQueueProgress.v ===== *)
(** * The relay queue: polls do not panic, transfers in flight can land *)

From S2P Require Import Prelude Logic Errors Primitives Cccp CccpTheorems RelayQueue RelayQueueRun RelayQueueInv RelayQueueAdmin RelayQueueTheorems.
Local Open Scope Z_scope.
Local Open Scope frame_scope.

Section Progress.
Context {R : Type} `{!Authorities R, !RqConfig, !EthAbiLaws}.
Implicit Types (v : RqView R) (s : RqStorage) (t : TransferInfoWithTxId).

(** ** No panic *)

Lemma safe_map_err {A} (o : outcome unit A) e s (Q : A -> RqStorage -> Prop) :
  match o with Done a => Q a s | Fail _ => True | Trap => False end -> safe (map_err o e) s Q.
Proof. by destruct o. Qed.
Lemma safe_ensure_none o s (Q : unit -> RqStorage -> Prop) : Q tt s -> safe (ensure_none o) s Q.
Proof. by destruct o. Qed.
Lemma safe_parse b check s :
  safe (validate_and_parse_socket_message b check) s (fun m _ => message_ok word m = true).
Proof.
  unfold validate_and_parse_socket_message. repeat safe_step. apply safe_map_err.
  pose proof (try_from_spec b) as Hb. destruct (SocketMessage_try_from b); [|done|done].
  by repeat safe_step.
Qed.
Lemma safe_request v b s : safe (try_get_request v b) s (fun r _ => exists k, head (ri_field r) = Some k).
Proof.
  unfold try_get_request. repeat safe_step; try done. apply safe_map_err.
  match goal with |- context [RequestInfo_try_from ?d] => pose proof (request_info_spec d) end.
  by destruct (RequestInfo_try_from _).
Qed.
Lemma safe_existence v m s :
  safe (validate_on_chain_existence v m) s (fun r _ => exists k, head (ri_field r) = Some k).
Proof.
  unfold validate_on_chain_existence. safe_step. eapply safe_mono; [apply safe_request|]. cbn.
  intros r s' Hk. by repeat safe_step.
Qed.
Lemma safe_status r n s (Q : bool -> RqStorage -> Prop) :
  (exists k, head (ri_field r) = Some k) -> (forall b, Q b s) -> safe (E := DispatchError) (expect (status_is r n)) s Q.
Proof. intros [k Hk] HQ. apply safe_expect. unfold status_is. rewrite Hk. eexists. by split; [|apply HQ]. Qed.
Lemma safe_requested v m s : safe (validate_requested v m) s (fun _ _ => True).
Proof.
  unfold validate_requested, ri_is_requested. destruct (is_outbound _ _); safe_step.
  - eapply safe_mono; [apply safe_existence|]. cbn. intros r s' Hk. safe_step.
    apply safe_status; [done|]. intros b. by safe_step.
  - eapply safe_mono; [apply safe_request|]. cbn. intros r s' Hk. safe_step.
    apply safe_status; [done|]. intros b. by safe_step.
Qed.
Lemma safe_update_cap a cap n b s : safe (update_fast_transfer_cap a cap n b) s (fun _ _ => True).
Proof. unfold update_fast_transfer_cap, qmutate. by repeat safe_step. Qed.
Lemma safe_voter l a s : safe (add_voter_to_list l a) s (fun _ _ => True).
Proof. unfold add_voter_to_list. by repeat safe_step. Qed.
Lemma safe_approve h x info asset_info option n s :
  safe (approve_transfer h x info asset_info option n) s (fun _ _ => True).
Proof.
  unfold approve_transfer. safe_step.
  assert (forall s0, safe (let* s := gets id in
    do* for_each (pending_prefix s h) (fun kv => decrease_pending_count kv.2) in
    do* qmutate PendingTransfers (filter (fun kv => kv.1.1 <> h)) in
    qmutate OnFlightTransfers <[h := from_transfer_info info x]>) s0 (fun _ _ => True)) as Hrest.
  { intros s0. unfold safe. rewrite bind_gets. unfold bind at 1. by rewrite decrease_runs. }
  destruct asset_info as [[a cap]|]; [destruct (bool_decide _)|]; safe_step; try apply Hrest.
  eapply safe_mono; [apply safe_update_cap|]. cbn beta. intros _ s' _. safe_step. apply Hrest.
Qed.
Lemma safe_finalize h t asset_info n s : safe (finalize_transfer h t asset_info n) s (fun _ _ => True).
Proof.
  unfold finalize_transfer, qmutate. repeat safe_step; try done.
  eapply safe_mono; [apply safe_update_cap|done].
Qed.

Lemma safe_determine cap n s : safe (determine_transfer_option cap n) s (fun _ _ => True).
Proof. unfold determine_transfer_option. by repeat safe_step. Qed.
Lemma safe_keep auth h x info b s : safe (keep_pending auth h x info b) s (fun _ _ => True).
Proof. unfold keep_pending, qmutate. by repeat safe_step. Qed.
Lemma safe_deposit e s (Q : unit -> RqStorage -> Prop) : (forall s, Q tt s) -> safe (rq_deposit e) s Q.
Proof. intros HQ. apply HQ. Qed.

(** [safe] of a poll from the lemmas of the parts it calls. *)
Ltac safe_call lemma := eapply safe_mono; [apply lemma|]; cbn beta; intros.
Ltac poll_safe :=
  repeat first
    [ safe_step
    | lazymatch goal with
      | |- safe (validate_requested _ _) _ _ => safe_call safe_requested
      | |- safe (determine_transfer_option _ _) _ _ => safe_call safe_determine
      | |- safe (add_voter_to_list _ _) _ _ => safe_call safe_voter
      | |- safe (approve_transfer _ _ _ _ _ _) _ _ => safe_call safe_approve
      | |- safe (keep_pending _ _ _ _ _) _ _ => safe_call safe_keep
      | |- safe (finalize_transfer _ _ _ _) _ _ => safe_call safe_finalize
      | |- safe (expect (status_is _ _)) _ _ => apply safe_status; [done|intros ?]
      | |- safe (rq_deposit _) _ _ => apply safe_deposit; intros
      | |- safe (qmutate _ _) _ _ => unfold qmutate
      | |- True => exact I
      end ].

(** C39: No submission makes a poll panic, whatever its bytes and whatever
    the storage: the slices the code takes out of a parsed message have the
    lengths it needs, and an answer of the Socket contract that parses has a
    status. *)
Theorem polls_never_panic v o poll final s :
  (on_flight_poll v o poll s).1 <> Trap /\ (finalize_poll v o final s).1 <> Trap.
Proof.
  split; eapply safe_no_trap with (Q := fun _ _ => True).
  - unfold on_flight_poll. safe_step. apply safe_ensure_none.
    destruct poll as [auth msg h x]. safe_step.
    eapply safe_mono; [apply safe_parse|]. cbn beta. intros m s1 Hm.
    destruct (message_widths _ _ Hm) as (_ & _ & Hlen & _).
    repeat safe_step. apply safe_expect. unfold H256_from_slice. rewrite Hlen. eexists. split; [done|].
    poll_safe.
  - unfold finalize_poll. safe_step. apply safe_ensure_none.
    destruct final as [auth msg]. safe_step.
    eapply safe_mono; [apply safe_parse|]. cbn beta. intros m s1 Hm.
    destruct (message_widths _ _ Hm) as (_ & _ & Hlen & _).
    repeat safe_step. apply safe_expect. unfold H256_from_slice. rewrite Hlen. eexists. split; [done|].
    repeat safe_step. eapply safe_mono; [apply safe_existence|]. cbn beta. intros r s2 Hk.
    unfold ri_is_committed, ri_is_rollbacked, ri_is_accepted, ri_is_rejected. poll_safe.
Qed.

(** ** A transfer in flight lands *)

Context (keccak_inj : Inj (=) (=) keccak_256).

Lemma runs_eq {A} (m : RQ A) s a s' (Q : A -> RqStorage -> Prop) : m s = (Done a, s') -> Q a s' -> runs m s Q.
Proof. unfold runs. by intros ->. Qed.
Lemma runs_parse b check m s (Q : SocketMessage -> RqStorage -> Prop) :
  b <> [] -> SocketMessage_try_from b = Done m -> check m = true -> Q m s ->
  runs (validate_and_parse_socket_message b check) s Q.
Proof.
  intros Hb Hm Hc HQ. unfold validate_and_parse_socket_message. rewrite Hm.
  apply runs_bind, runs_ensure; [by rewrite bool_decide_false|].
  apply runs_bind, runs_ret, runs_bind, runs_ensure; [done|]. by apply runs_ret.
Qed.
Lemma runs_status r n k s (Q : bool -> RqStorage -> Prop) :
  head (ri_field r) = Some k -> Q (k =? n) s -> runs (E := DispatchError) (expect (status_is r n)) s Q.
Proof. intros Hk HQ. eapply runs_expect; [unfold status_is; by rewrite Hk|done]. Qed.

(** The part of the cap of a fast transfer is there to be freed. *)
Lemma runs_finalize_transfer h t t' s Q :
  rq_inv s -> OnFlightTransfers s !! h = Some t -> tx_option t' = tx_option t ->
  (forall s', Q tt s') ->
  runs (finalize_transfer h t' (get_asset_info s (tx_asset_index_hash t)) (tx_amount t)) s Q.
Proof.
  intros Hi Ht Eo HQ. unfold finalize_transfer, qmutate. do 2 apply runs_bind, runs_modify.
  rewrite Eo. destruct (tx_option t) eqn:Ef; [|by apply runs_ret].
  rewrite bool_decide_true by done.
  destruct (fast_registered s h t (q_caps _ Hi) Ht Ef) as (a & cap & Hidx & Hcap).
  rewrite (proj2 (get_asset_info_some s _ a cap)) by done.
  destruct (k_cap _ (q_caps _ Hi) _ _ Hcap) as [Hu [Hm Hb]].
  assert (0 <= tx_amount t <= on_flight_cap cap) as Hle.
  { split; [by eapply k_amount, Ht; apply Hi|]. rewrite Hu.
    rewrite <- (weight_fast (AssetIndexes s) a t) by done.
    eapply (msum_le_of (weight (AssetIndexes s) a)); [|done]. intros k t1 Ht1.
    apply weight_range. by eapply k_amount, Ht1; apply Hi. }
  unfold update_fast_transfer_cap, u256_checked_sub, u128_try_from, qmutate.
  unfold MAX_ON_FLIGHT_CAP in Hb.
  repeat (apply runs_bind); apply runs_ok_or with (a := on_flight_cap cap - tx_amount t);
    [by rewrite (proj2 (Z.leb_le _ _)) by lia|].
  repeat (apply runs_bind); apply runs_ok_or with (a := on_flight_cap cap - tx_amount t);
    [by rewrite (proj2 (Z.ltb_lt _ _)) by (unfold u128_modulus; lia)|].
  repeat wp_step. apply HQ.
Qed.

Lemma finalized_cap h t l s a cap :
  caps_ok s -> OnFlightTransfers s !! h = Some t -> AssetCaps s !! a = Some cap ->
  AssetCaps (finalized h (t <| tx_finalization_voters := l |>)
    (get_asset_info s (tx_asset_index_hash t)) (tx_amount t) s) !! a
  = Some (cap <| on_flight_cap := on_flight_cap cap - weight (AssetIndexes s) a t |>).
Proof.
  intros Hk Ht Ha. unfold finalized, move_cap. fields.
  assert (cap <| on_flight_cap := on_flight_cap cap - 0 |> = cap) as E0
    by (destruct cap; unfold update_field; cbn; by rewrite Z.sub_0_r).
  destruct (tx_option t) eqn:Eo.
  - destruct (fast_registered s h t Hk Ht Eo) as (b & c & Hb & Hc).
    rewrite (proj2 (get_asset_info_some s _ b c)) by done. fields.
    destruct (decide (b = a)) as [->|Hne].
    + rewrite lookup_insert_eq, weight_fast by done. simplify_eq. do 2 f_equal. 
    + rewrite lookup_insert_ne, weight_other by (try done; intros _; congruence). by rewrite E0.
  - rewrite weight_other, E0 by (by rewrite Eo). by destruct (get_asset_info _ _) as [[? ?]|].
Qed.

Lemma finalize_runs v auth msg s m t r status :
  rq_inv s -> msg <> [] -> SocketMessage_try_from msg = Done m -> is_final m = true ->
  OnFlightTransfers s !! keccak_256 (SocketMessage_encode (as_requested m)) = Some t ->
  auth ∉ tx_finalization_voters t -> Z.of_nat (length (tx_finalization_voters t)) < MAX_AUTHORITIES ->
  validate_on_chain_existence v m s = (Done r, s) -> head (ri_field r) = Some status ->
  outcome_agrees m status = true ->
  is_outbound m (evm_chain_id mod u32_modulus) = true
    \/ majority_reached v (tx_finalization_voters t ++ [auth]) = true ->
  runs (finalize_poll v NoneOrigin (mkFinalizePollSubmission auth msg)) s (fun _ _ => True).
Proof.
  intros Hi Hne Hm Hfin Ht Hv Hroom Hchain Hhead Hagree Hgo.
  pose proof (try_from_done _ _ Hm) as Hw. destruct (message_widths _ _ Hw) as (L1 & L2 & L3 & _).
  destruct (g_on_flight _ (q_stages _ Hi) _ _ Ht) as [Hnf Hd].
  assert (exists idx, H256_from_slice (tp_token_idx0 (sm_params m)) = Some idx) as [idx Hidx]
    by (unfold H256_from_slice; rewrite L3; eauto).
  destruct (describes_agree keccak_inj _ _ _ m idx Hd Hw eq_refl Hidx) as [Ea ->].
  unfold finalize_poll, ensure_none. apply runs_bind, runs_ret, runs_bind.
  apply (runs_parse _ _ m); [done|done|done|].
  apply runs_bind. eapply runs_ok_or; [unfold u32_try_from_be_bytes; by rewrite L1|].
  apply runs_bind. eapply runs_ok_or; [unfold u32_try_from_be_bytes; by rewrite L2|].
  apply runs_bind. eapply runs_expect; [done|].
  apply runs_bind, runs_gets, runs_bind, runs_ensure.
  { unfold id, hash_bytes. by rewrite Hnf, bool_decide_false by (by intros []). }
  apply runs_bind. eapply runs_ok_or; [exact Ht|].
  apply runs_bind. eapply runs_eq; [exact Hchain|].
  apply runs_bind. unfold add_voter_to_list, try_push.
  apply runs_bind, runs_ensure; [by rewrite bool_decide_false|].
  eapply runs_ok_or; [by rewrite (proj2 (Z.ltb_lt _ _)) by done|].
  cbv zeta. unfold id. fields. rewrite Ea.
  unfold ri_is_committed, ri_is_rollbacked, ri_is_accepted, ri_is_rejected, outcome_agrees in *.
  destruct (is_outbound m _).
  - apply runs_bind. eapply runs_status; [done|]. apply runs_bind. eapply runs_status; [done|].
    apply runs_bind, runs_ensure; [done|]. apply runs_bind. by apply runs_finalize_transfer.
  - apply runs_bind. eapply runs_status; [done|]. apply runs_bind. eapply runs_status; [done|].
    apply runs_bind, runs_ensure; [done|].
    destruct Hgo as [|Hmaj]; [done|]. unfold majority_reached in Hmaj. rewrite Hmaj.
    apply runs_bind. by apply runs_finalize_transfer.
Qed.

(** C31: A transfer in flight can always be finalized. When a relayer that
    has not voted on its outcome submits a final message for it which the
    Socket contract confirms, and the transfer leaves Bifrost or the vote
    completes a majority, the poll succeeds: the transfer moves to the
    finalized ones with the vote, and a fast transfer frees exactly its amount
    of the cap of its asset; the subtraction cannot underflow. *)
Theorem finalization_succeeds v auth msg s m t r status :
  rq_reachable s -> msg <> [] -> SocketMessage_try_from msg = Done m -> is_final m = true ->
  let h := keccak_256 (SocketMessage_encode (as_requested m)) in
  OnFlightTransfers s !! h = Some t ->
  auth ∉ tx_finalization_voters t -> Z.of_nat (length (tx_finalization_voters t)) < MAX_AUTHORITIES ->
  validate_on_chain_existence v m s = (Done r, s) -> head (ri_field r) = Some status ->
  outcome_agrees m status = true ->
  is_outbound m (evm_chain_id mod u32_modulus) = true
    \/ majority_reached v (tx_finalization_voters t ++ [auth]) = true ->
  exists s', finalize_poll v NoneOrigin (mkFinalizePollSubmission auth msg) s = (Done tt, s')
    /\ OnFlightTransfers s' !! h = None
    /\ FinalizedTransfers s' !! h
       = Some (t <| tx_finalization_voters := tx_finalization_voters t ++ [auth] |>)
    /\ forall a cap, AssetCaps s !! a = Some cap -> AssetCaps s' !! a
       = Some (cap <| on_flight_cap := on_flight_cap cap - weight (AssetIndexes s) a t |>).
Proof.
  intros Hr Hne Hm Hfin h Ht Hv Hroom Hchain Hhead Hagree Hgo.
  pose proof (rq_reachable_inv keccak_inj _ Hr) as Hi.
  assert (exists s', finalize_poll v NoneOrigin (mkFinalizePollSubmission auth msg) s = (Done tt, s'))
    as [s' Hrun].
  { pose proof (finalize_runs v auth msg s m t r status) as Hruns.
    apply runs_iff in Hruns as ([] & s' & Hrun & _); try done. by exists s'. }
  exists s'. split; [done|].
  apply finalize_poll_done in Hrun as (m' & idx & h' & t' & e & Hok & ->).
  pose proof (final_agrees keccak_inj _ _ _ _ _ _ _ _ _ Hi Hok) as [Ea ->]. destruct Hok.
  assert (m' = m) as -> by congruence. subst h'. fold h in fo_on_flight |- *.
  assert (t' = t) as -> by congruence. unfold final_effect. fields.
  rewrite (proj2 (orb_true_iff _ _)) by done.
  destruct (finalized_lives h (t <| tx_finalization_voters := tx_finalization_voters t ++ [auth] |>)
    (get_asset_info s (tx_asset_index_hash t)) (tp_amount (sm_params m)) s) as [E1 E2].
  rewrite E1, E2, lookup_delete_eq, lookup_insert_eq. split_and!; [done..|].
  intros a cap Hcap. rewrite Ea. apply finalized_cap; [by apply q_caps|done|done].
Qed.
End Progress.
