(* ===== verification/RelayQueueRuns.v ===== *)
(** * The relay queue on concrete inputs

    A concrete configuration, a transfer that goes through its life, the
    witnesses of the theorems on the relay queue, and the run that shows what
    becomes of the votes of a replaced relayer when the relay manager is not
    wired to the queue. *)

From S2P Require Import Prelude Logic Errors Primitives Cccp CccpTheorems RelayManager RelayQueue RelayQueueRun RelayQueueInv RelayQueueAdmin RelayQueueTheorems RelayQueueProgress Instances BridgeInstances.
Local Open Scope Z_scope.
Local Open Scope frame_scope.

(** ** The configuration *)

Definition zeros (n : nat) : list byte := replicate n x00.
(** A transfer of 100 units out of chain 3068. *)
Definition message (status : U256) : SocketMessage :=
  mkSocketMessage (mkRequestID (to_be_bytes 4 3068) 1 1) status
    (mkInstruction (to_be_bytes 4 1) (zeros 16))
    (mkTaskParams (to_be_bytes 32 7) (zeros 32) 0 5 100 []).
Definition user_request : UserRequest := mkUserRequest (sm_ins_code (message 1)) (sm_params (message 1)).

#[export] Instance rq_config : RqConfig := {
  rq_abi := packed_abi;
  rq_crypto :=
    simple_crypto (numbered_hash [SocketMessage_encode (message 1); UserRequest_encode user_request]);
  scale_encode '(m, h, x) := m ++ to_be_bytes 32 (Z.of_N h) ++ to_be_bytes 32 (Z.of_N x);
  evm_chain_id := 3068
}.
Definition hash_is_injective : Inj (=) (=) keccak_256 := numbered_hash_inj _.

(** The Socket contract answers [status] for the request. *)
Definition answer (status : U256) : list byte :=
  abi_encode [TFixedArray (TUint status :: replicate 31 (TUint 0)); TFixedBytes (to_be_bytes 32 1);
              TUint 0].
Definition view {R} (relayers : R) (status : U256) : RqView R :=
  mkRqView R relayers (fun _ _ => Some (mkCallInfo true (answer status))) 8192.

(** ** The life of a transfer *)

(** Relayers 11 and 12, both needed for a majority. *)
Definition two_relayers : RmStorage Bridge :=
  relay_start <| SelectedRelayers := {[11%N; 12%N]} |> <| RmMajority := 2 |>.
Definition poll (who : AccountId) : OnFlightPollSubmission :=
  mkOnFlightPollSubmission who (SocketMessage_encode (message 1)) 0 77.
Definition final (who : AccountId) : FinalizePollSubmission :=
  mkFinalizePollSubmission who (SocketMessage_encode (message 7)).

Definition sign (who : AccountId) : @Signature rq_crypto := who.

(** The storage after an unsigned call, when it is let in. *)
Definition unsigned {R} `{!Authorities R} (v : RqView R) (call : RqCall) (s : RqStorage) : RqStorage :=
  match apply_unsigned v call s with Some (_, s') => s' | None => s end.
Lemma unsigned_steps {R} `{!Authorities R} (v : RqView R) call s :
  rtc (rq_step (R := R)) s (unsigned v call s).
Proof.
  unfold unsigned. destruct (apply_unsigned v call s) as [[r s']|] eqn:E; [|done].
  eapply rtc_once. by econstructor.
Qed.

Definition q1 : RqStorage := (dispatch (set_socket RootOrigin 9) rq_empty).2.
Definition q2 : RqStorage :=
  (dispatch (add_asset RootOrigin 3 1000 [mkAssetIndexInfo 7 true]) q1).2.
Definition q3 : RqStorage := unsigned (view two_relayers 1) (CallOnFlightPoll (poll 11) (sign 11)) q2.
Definition q4 : RqStorage := unsigned (view two_relayers 1) (CallOnFlightPoll (poll 12) (sign 12)) q3.
Definition q5 : RqStorage := unsigned (view two_relayers 7) (CallFinalizePoll (final 11) (sign 11)) q4.

Abbreviation steps := (rtc (rq_step (R := RmStorage Bridge))).
Lemma q2_reachable : steps rq_empty q2.
Proof.
  eapply rtc_l; [apply (step_set_socket (R := RmStorage Bridge) RootOrigin 9)|].
  apply rtc_once. by apply (step_add_asset (R := RmStorage Bridge)).
Qed.
Lemma q3_reachable : steps rq_empty q3.
Proof. etransitivity; [apply q2_reachable|apply unsigned_steps]. Qed.
Lemma q4_reachable : steps rq_empty q4.
Proof. etransitivity; [apply q3_reachable|apply unsigned_steps]. Qed.
Lemma q5_steps : steps q4 q5.
Proof. apply unsigned_steps. Qed.

Definition transfer : TransferInfoWithTxId :=
  mkTransferInfoWithTxId 100 1 3068 1 7 Fast (SocketMessage_encode (message 1)) [11%N; 12%N] [] 77.
Example q4_in_flight : OnFlightTransfers q4 !! 0%N = Some transfer.
Proof. vm_compute. reflexivity. Qed.
Example q4_cap : AssetCaps q4 !! 3%N = Some (mkAssetCapInfo 1000 100).
Proof. vm_compute. reflexivity. Qed.
Example q5_cap : AssetCaps q5 !! 3%N = Some (mkAssetCapInfo 1000 0).
Proof. vm_compute. reflexivity. Qed.

(** ** The witnesses *)

Lemma roundtrip_witness : SocketMessage_try_from (SocketMessage_encode (message 1)) = Done (message 1).
Proof. apply (socket_message_roundtrip (message 1)). vm_compute. reflexivity. Defined.


Lemma lives_witness : settled 0 transfer q5.
Proof.
  refine (proj1 (proj2 (transfers_live_once (R := RmStorage Bridge) hash_is_injective q4 q5 0 transfer
    q4_reachable q5_steps)) _).
  vm_compute. reflexivity.
Defined.

Lemma approval_witness :
  exists submission sig m, CallOnFlightPoll (poll 12) (sign 12) = CallOnFlightPoll submission sig
    /\ SocketMessage_try_from (ofs_msg submission) = Done m.
Proof.
  destruct (approval_needs_majority hash_is_injective (view two_relayers 1)
    (CallOnFlightPoll (poll 12) (sign 12)) q3 q4 0 transfer) as (sub & sig & m & idx & E & _ & _ & Hm & _).
  - apply q3_reachable.
  - vm_compute. reflexivity.
  - vm_compute. reflexivity.
  - vm_compute. reflexivity.
  - exists sub, sig, m. split; [exact E|exact Hm].
Defined.

Definition info7 : RequestInfo := mkRequestInfo (7 :: replicate 31 0) 1 0.
Lemma finalization_witness :
  exists s', finalize_poll (view two_relayers 7) NoneOrigin (final 11) q4 = (Done tt, s')
    /\ OnFlightTransfers s' !! 0%N = None.
Proof.
  destruct (finalization_succeeds (R := RmStorage Bridge) hash_is_injective (view two_relayers 7) 11
    (SocketMessage_encode (message 7)) q4 (message 7) transfer info7 7) as (s' & Hrun & Hf & _).
  - apply q4_reachable.
  - vm_compute. discriminate.
  - vm_compute. reflexivity.
  - vm_compute. reflexivity.
  - vm_compute. reflexivity.
  - cbn. set_solver.
  - vm_compute. reflexivity.
  - vm_compute. reflexivity.
  - vm_compute. reflexivity.
  - vm_compute. reflexivity.
  - left. vm_compute. reflexivity.
  - exists s'. split; [exact Hrun|exact Hf].
Defined.

Lemma no_panic_witness : (on_flight_poll (view two_relayers 1) NoneOrigin (poll 11) q4).1 <> Trap.
Proof. exact (proj1 (polls_never_panic (view two_relayers 1) NoneOrigin (poll 11) (final 11) q4)). Defined.

(** ** A relayer is replaced while its vote is pending *)

(** The relay manager over the queue and the other bridge pallets: [wired]
    hands the replacement to the queue, as the runtime of the development
    chain does; the others are built with [type RelayQueue = ()]. *)
Definition bridge_over_queue (wired : bool) : RelayEnv (RqStorage * Bridge) := {|
  relay_queue_replace_authority old new q :=
    (if wired then replace_authority old new q.1 else q.1, q.2);
  socket_queue_replace_authority _ _ q := q;
  registration_pool_replace_authority _ _ q := q;
  blaze_replace_authority _ _ q := q;
  members q := br_members q.2;
  put_members l q := (q.1, put_members l q.2);
  prime q := prime q.2;
  put_prime a q := (q.1, put_prime a q.2);
  change_members_sorted a b l q := (q.1, change_members_sorted a b l q.2);
  set_prime a q := (q.1, set_prime a q.2);
  report_offence o q := (q.1, report_offence o q.2)
|}.

Section Replacement.
Context (wired : bool).
#[local] Existing Instance bridge_over_queue.
Let env : RelayEnv (RqStorage * Bridge) := bridge_over_queue wired.
Abbreviation Chain := (RmStorage (RqStorage * Bridge)).

(** A vote of a relayer of the chain on the queue of the chain *)
Definition vote (who : AccountId) : M Chain DispatchError unit := fun s =>
  match apply_unsigned (view s 1) (CallOnFlightPoll (poll who) (sign who)) (Env s).1 with
  | Some (r, q) => (r, s <| Env := (q, (Env s).2) |>)
  | None => (Fail BadOrigin, s)
  end.
Definition chain_start : Chain :=
  mkRmStorage _ 3 1 ∅ [] ∅ ∅ ∅ ∅ ∅ 1 1 ∅ ∅ ∅ true 0 ∅ (q2, mkBridge [] None []) [].
Definition one_session : SessionView := mkSessionView [1%N; 2%N] 5 (fun _ => true) (fun _ => true).

(** Relayers 11 and 12 of the controllers 1 and 2 are selected in round 1, the
    majority is 2. Relayer 11 votes; its controller replaces it by 13, which
    takes effect in round 2. *)
Definition replaced_after_vote : M Chain DispatchError unit :=
  do* @rm_join_relayers _ 11 1 in
  do* @rm_join_relayers _ 12 2 in
  do* rm_refresh_selected_relayers 1 [1%N; 2%N] in
  do* refresh_majority 1 in
  do* set_relayer (SignedOrigin 1) 13 in
  do* vote 11 in
  do* rm_refresh_round 2 in
  @rm_handle_delayed_relayer_sets _ env one_session 2.
End Replacement.

(** A relayer voted for a transfer and is then replaced by its
    controller. When the relay manager is wired to the queue, the vote moves
    to the new account, whose own vote is refused; when it is not, as in the
    runtimes built with [type RelayQueue = ()], the new account votes again
    and the transfer is approved, with a majority of two, by one relayer. *)
Theorem replaced_relayer_votes_again :
  let wired := (bind (replaced_after_vote true) (fun _ => vote 13) chain_start) in
  let unwired := (bind (replaced_after_vote false) (fun _ => vote 13) chain_start) in
  wired.1 = Fail (RelayQ RqAlreadyVoted)
  /\ OnFlightTransfers (Env wired.2).1 !! 0%N = None
  /\ unwired.1 = Done tt
  /\ majority unwired.2 = 2
  /\ tx_on_flight_voters <$> OnFlightTransfers (Env unwired.2).1 !! 0%N = Some [11%N; 13%N].
Proof. vm_compute. split_and!; reflexivity. Qed.
