(* ===== verification/RegistrationPoolInv.v ===== *)
(** * The invariant of the registration pool

    The address of a vault is that of its keys, of which there are as many as
    announced; a bonded address belongs to the vault of its owner, with its
    descriptor, and is no refund address; the users bonded to a refund address
    are registered with it. During a migration the vault of the next round is
    the one the migration waits for. *)

From S2P Require Import Prelude Logic Errors Primitives Cccp BtcRelay RegistrationPool.
Local Open Scope Z_scope.
Local Open Scope frame_scope.

Section Invariant.
Context {Q : Type} `{!SocketQueueManager Q, !RpConfig}.
Implicit Types (v : RpView Q) (s : RpStorage) (vt : MultiSigAccount) (t : BitcoinRelayTarget).

(** [a] is the address, and [descriptor] the descriptor, of the keys. *)
Definition derived (keys : list Public) (descriptor : UnboundedBytes) (a : BoundedBitcoinAddress) : Prop :=
  Z.of_nat (length a) <= ADDRESS_MAX_LENGTH /\
  exists m desc, generate_descriptor m keys = Some desc
    /\ descriptor_address desc bitcoin_network = Some a /\ descriptor = descriptor_to_string desc.
Definition vault_ok vt : Prop := forall a, msa_address vt = Generated a ->
  Z.of_nat (size (msa_pub_keys vt)) = msa_n vt /\ derived (pub_keys vt) (msa_descriptor vt) a.

(** The vault of an owner: the precompile owns the system vault. *)
Definition vault_of s (r : PoolRound) (who : AccountId) : option MultiSigAccount :=
  if decide (who = precompile) then SystemVault s !! r else rt_vault <$> RegistrationPool s !! (r, who).
Definition refund_of s (k : Z * N) : option BoundedBitcoinAddress :=
  rt_refund_address <$> RegistrationPool s !! k.

Record vaults_ok s : Prop := mkVaultsOk {
  v_ok : forall r who vt, vault_of s r who = Some vt -> vault_ok vt;
  v_precompile : forall r, RegistrationPool s !! (r, precompile) = None;
  v_bond : forall r a who, BondedVault s !! (r, a) = Some who ->
    exists vt, vault_of s r who = Some vt /\ msa_address vt = Generated a
      /\ BondedDescriptor s !! (r, a) = Some (msa_descriptor vt);
  v_desc : forall k, is_Some (BondedDescriptor s !! k) -> is_Some (BondedVault s !! k)
}.
Record refunds_ok s : Prop := mkRefundsOk {
  f_apart : forall k, is_Some (BondedVault s !! k) -> bonded_refund s k = [];
  f_nodup : forall k, NoDup (bonded_refund s k);
  f_user : forall r a u, u ∈ bonded_refund s (r, a) -> refund_of s (r, u) = Some a
}.
(** The round of the vault a migration prepares *)
Definition next_round s : PoolRound := u32_add (CurrentRound s) 1.
Definition migration_ok s : Prop :=
  match ServiceState s with
  | PrepareNextSystemVault => exists vt, SystemVault s !! next_round s = Some vt /\ msa_address vt = Pending
  | UTXOTransfer => is_Some (rp_get_system_vault s (next_round s))
  | Normal | SetExecutiveMembers => True
  end.
Record rp_inv s : Prop := mkRpInv {
  p_vaults : vaults_ok s; p_refunds : refunds_ok s; p_migration : migration_ok s
}.

(** The part of the storage the invariant is about. *)
Definition rp_view s :=
  (CurrentRound s, ServiceState s, SystemVault s, RegistrationPool s, BondedVault s, BondedRefund s,
   BondedDescriptor s).
Lemma rp_inv_view s s' : rp_view s' = rp_view s -> rp_inv s -> rp_inv s'.
Proof.
  destruct s, s'. unfold rp_view. cbn. intros [= -> -> -> -> -> -> ->] [[] [] Hm].
  split; [split; done|split; done|exact Hm].
Qed.

(** ** A vault gets keys, and its address *)

(** [s'] has the bonds of [s] and those of [vt], the vault of [who]. *)
Definition bonded_as (r : PoolRound) (who : AccountId) vt s s' : Prop :=
  match msa_address vt with
  | Pending => BondedVault s' = BondedVault s /\ BondedDescriptor s' = BondedDescriptor s
  | Generated a =>
      BondedRefund s !! (r, a) = None
      /\ BondedVault s' = <[(r, a) := who]> (BondedVault s)
      /\ BondedDescriptor s' = <[(r, a) := msa_descriptor vt]> (BondedDescriptor s)
  end.

Lemma vaults_bond s s' r who vt :
  vaults_ok s -> (forall vt0, vault_of s r who = Some vt0 -> msa_address vt0 = Pending) ->
  vault_ok vt -> bonded_as r who vt s s' ->
  (forall r' w, vault_of s' r' w = if decide (r' = r /\ w = who) then Some vt else vault_of s r' w) ->
  (forall r', RegistrationPool s' !! (r', precompile) = None) -> vaults_ok s'.
Proof.
  intros [Vo Vp Vb Vd] Hold Hvt Hbond Hof Hpre. split.
  - intros r' w vt'. rewrite Hof. case_decide; [by intros [= <-]|apply Vo].
  - done.
  - intros r' b w. unfold bonded_as in Hbond. destruct (msa_address vt) as [|a] eqn:Ea.
    + destruct Hbond as [-> ->]. intros Hb. destruct (Vb _ _ _ Hb) as (vt' & Hv & Hg & Hd).
      exists vt'. rewrite Hof. rewrite decide_False; [done|]. intros [-> ->].
      apply Hold in Hv. congruence.
    + destruct Hbond as (_ & -> & ->). intros [[Hk <-]|[Hk Hb]]%lookup_insert_Some.
      * injection Hk as <- <-. exists vt. by rewrite Hof, decide_True, lookup_insert_eq.
      * destruct (Vb _ _ _ Hb) as (vt' & Hv & Hg & Hd). exists vt'.
        rewrite Hof, lookup_insert_ne by done. rewrite decide_False; [done|]. intros [-> ->].
        apply Hold in Hv. congruence.
  - intros k. unfold bonded_as in Hbond. destruct (msa_address vt) as [|a].
    + destruct Hbond as [-> ->]. apply Vd.
    + destruct Hbond as (_ & -> & ->). rewrite !lookup_insert_is_Some. intros [->|[? ?]]; [by left|].
      right. split; [done|]. by apply Vd.
Qed.

Lemma refunds_bond s s' r who vt :
  refunds_ok s -> bonded_as r who vt s s' -> BondedRefund s' = BondedRefund s ->
  (forall k, refund_of s' k = refund_of s k) -> refunds_ok s'.
Proof.
  intros [Fa Fn Fu] Hbond Href Hof. unfold bonded_refund in *.
  split; unfold bonded_refund; rewrite ?Href; [| done |intros; rewrite Hof; by apply Fu].
  intros k. unfold bonded_as in Hbond. destruct (msa_address vt) as [|a].
  - destruct Hbond as [-> _]. apply Fa.
  - destruct Hbond as (Hn & -> & _). rewrite lookup_insert_is_Some.
    intros [<-|[_ Hk]]; [by rewrite Hn|by apply Fa].
Qed.

Lemma vault_of_user s s' r who t :
  SystemVault s' = SystemVault s -> RegistrationPool s' = <[(r, who) := t]> (RegistrationPool s) ->
  who <> precompile ->
  forall r' w, vault_of s' r' w = if decide (r' = r /\ w = who) then Some (rt_vault t) else vault_of s r' w.
Proof.
  intros Es Ep Hne r' w. unfold vault_of. rewrite Es, Ep. destruct (decide (w = precompile)) as [->|].
  - rewrite decide_False by naive_solver. done.
  - destruct (decide (r' = r /\ w = who)) as [[-> ->]|Hn].
    + by rewrite lookup_insert_eq.
    + rewrite lookup_insert_ne; [done|]. intros [= <- <-]. by apply Hn.
Qed.
Lemma vault_of_system s s' r vt :
  SystemVault s' = <[r := vt]> (SystemVault s) -> RegistrationPool s' = RegistrationPool s ->
  forall r' w, vault_of s' r' w = if decide (r' = r /\ w = precompile) then Some vt else vault_of s r' w.
Proof.
  intros Es Ep r' w. unfold vault_of. rewrite Es, Ep. destruct (decide (w = precompile)) as [->|].
  - destruct (decide (r' = r)) as [->|].
    + by rewrite decide_True, lookup_insert_eq.
    + rewrite decide_False by naive_solver. by rewrite lookup_insert_ne.
  - by rewrite decide_False by naive_solver.
Qed.
Lemma pool_precompile s t r who :
  vaults_ok s -> who <> precompile ->
  forall r', <[(r, who) := t]> (RegistrationPool s) !! (r', precompile) = None.
Proof. intros Hv Hne r'. rewrite lookup_insert_ne by congruence. apply Hv. Qed.

(** ** What the helpers leave *)

Lemma bounded_address_done b a : bounded_address b = Some a -> a = b /\ Z.of_nat (length a) <= ADDRESS_MAX_LENGTH.
Proof. unfold bounded_address. destruct (Z.leb_spec (Z.of_nat (length b)) ADDRESS_MAX_LENGTH); naive_solver. Qed.

Lemma generate_done v keys s a d s' :
  generate_vault_address v keys s = (Done (a, d), s') -> derived keys d a /\ s' = s.
Proof.
  unfold generate_vault_address. intros Hg. mrun.
  match goal with H : bounded_address _ = Some _ |- _ => apply bounded_address_done in H as [-> ?] end.
  split; [|done]. split; [done|]. by eexists _, _.
Qed.

Lemma checked_address_done b s a s' : get_checked_bitcoin_address b s = (Done a, s') -> s' = s.
Proof. unfold get_checked_bitcoin_address. intros Hc. by mrun. Qed.

Lemma ensure_normal_done s u s' : ensure_normal s = (Done u, s') -> ServiceState s = Normal /\ s' = s.
Proof. unfold ensure_normal. intros He. mrun. by rewrite bool_decide_eq_true in *. Qed.

Lemma has_false `{Countable K} {V} (m : gmap K V) k : negb (has m k) = true -> m !! k = None.
Proof. unfold has. rewrite negb_true_iff, bool_decide_eq_false, eq_None_not_Some. done. Qed.

(** The storage after the address of a vault is bonded. *)
Definition bond_address r who refund a d s : RpStorage :=
  s <| BondedVault ::= <[(r, a) := who]> |> <| BondedDescriptor ::= <[(r, a) := d]> |>
    <| RpEvents ::= fun l => l ++ [EvVaultGenerated who refund a] |>.
Lemma try_bond_done v vt refund who r s vt' s' :
  try_bond_vault_address v vt refund who r s = (Done vt', s') ->
  exists a d, derived (pub_keys vt) d a /\ a <> refund /\ BondedRefund s !! (r, a) = None
    /\ vt' = set_descriptor d (set_address a vt) /\ s' = bond_address r who refund a d s.
Proof.
  unfold try_bond_vault_address, pmutate, rp_deposit, pmutate. intros Hb.
  mrun_step. destruct x as [a d].
  match goal with H : generate_vault_address _ _ _ = _ |- _ => apply generate_done in H as [Hd ->] end.
  case_bool_decide; [done|]. mrun_step. mrun_step.
  destruct (has (BondedRefund (id s)) (r, a)) eqn:Eh; [done|]. mrun.
  exists a, d. split_and!; try done. apply has_false. unfold id in Eh. by rewrite Eh.
Qed.

Lemma ready_size vt : is_key_generation_ready vt = true -> Z.of_nat (size (msa_pub_keys vt)) = msa_n vt.
Proof. unfold is_key_generation_ready. lia. Qed.

(** A complete vault that is bonded is a vault with its bonds. *)
Lemma try_bond_ok v vt refund who r s vt' s' :
  try_bond_vault_address v vt refund who r s = (Done vt', s') -> is_key_generation_ready vt = true ->
  vault_ok vt' /\ bonded_as r who vt' s s' /\ msa_pub_keys vt' = msa_pub_keys vt.
Proof.
  intros (a & d & Hd & _ & Hn & -> & ->)%try_bond_done Hr. split_and!.
  - intros b [= <-]. cbn. split; [by apply ready_size|]. done.
  - unfold bonded_as. cbn. done.
  - done.
Qed.

Lemma pending_ok vt : msa_address vt = Pending -> vault_ok vt.
Proof. intros Hp a. by rewrite Hp. Qed.
Lemma pending_bonded r who vt s s' :
  msa_address vt = Pending -> BondedVault s' = BondedVault s -> BondedDescriptor s' = BondedDescriptor s ->
  bonded_as r who vt s s'.
Proof. intros Hp. unfold bonded_as. by rewrite Hp. Qed.

Lemma insert_key_done r vt who auth k s vt' s' :
  insert_key r vt who auth k s = (Done vt', s') ->
  msa_address vt = Pending /\ vt' = vt <| msa_pub_keys ::= <[auth := k]> |>
  /\ msa_pub_keys vt !! auth = None /\ is_Some (PublicKey_from_slice k)
  /\ is_key_submitted vt k = false /\ BondedPubKey s !! (r, k) = None
  /\ s' = s <| RpEvents ::= fun l => l ++ [EvVaultKeySubmitted who k] |>.
Proof.
  unfold insert_key, rp_deposit, pmutate. intros Hi. mrun.
  unfold is_pending, is_authority_submitted, try_insert_map, id in *.
  repeat match goal with
  | H : bool_decide _ = true |- _ => apply bool_decide_eq_true in H
  | H : negb (bool_decide _) = true |- _ => apply negb_true_iff, bool_decide_eq_false in H
  | H : negb (has _ _) = true |- _ => apply has_false in H
  | H : negb _ = true |- _ => apply negb_true_iff in H
  end.
  destruct (msa_pub_keys vt !! auth) eqn:Ek; [exfalso; eauto|].
  destruct (Z.of_nat (size (msa_pub_keys vt)) <? MULTI_SIG_MAX_ACCOUNTS); simplify_eq.
  split_and!; done.
Qed.

Lemma take_presubmitted_done r t e s t' s' :
  take_presubmitted r t e s = (Done t', s') ->
  (exists m, s' = s <| PreSubmittedPubKeys := m |>)
  /\ (t' = t \/ exists keys, t' = t <| rt_vault ::= fun vault => vault <| msa_pub_keys := keys |> |>).
Proof.
  unfold take_presubmitted, pmutate. intros Ht. mrun_step. mrun_step.
  destruct (set_pop_first _) as [[k|] keys]; mrun.
  - destruct (has _ _); mrun; split; eauto.
  - split; eauto.
Qed.

(** ** The calls that fill vaults *)

Definition rp_frame s := (CurrentRound s, ServiceState s, SystemVault s, RegistrationPool s, BondedRefund s).
Lemma complete_done v vt refund who r s vt' s' :
  msa_address vt = Pending ->
  (if is_key_generation_ready vt then try_bond_vault_address v vt refund who r else ret vt) s
  = (Done vt', s') ->
  vault_ok vt' /\ bonded_as r who vt' s s' /\ rp_frame s' = rp_frame s.
Proof.
  intros Hp Hc. destruct (is_key_generation_ready vt) eqn:Er.
  - destruct (try_bond_ok _ _ _ _ _ _ _ _ Hc Er) as (? & ? & _).
    apply try_bond_done in Hc as (a & d & _ & _ & _ & _ & ->). done.
  - mrun. split_and!; [by apply pending_ok|by apply pending_bonded|done].
Qed.

Lemma migration_ok_same s s' :
  CurrentRound s' = CurrentRound s -> ServiceState s' = ServiceState s -> SystemVault s' = SystemVault s ->
  migration_ok s -> migration_ok s'.
Proof. unfold migration_ok, next_round, rp_get_system_vault. by intros -> -> ->. Qed.

(** The vault of a registered user, pending so far, is written. *)
Lemma put_user_inv s s' r who t t' :
  rp_inv s -> RegistrationPool s !! (r, who) = Some t -> msa_address (rt_vault t) = Pending ->
  rt_refund_address t' = rt_refund_address t -> vault_ok (rt_vault t') ->
  bonded_as r who (rt_vault t') s s' ->
  rp_frame s' = rp_frame (s <| RegistrationPool ::= <[(r, who) := t']> |>) -> rp_inv s'.
Proof.
  intros [Hv Hf Hm] Ht Hp Hr Hok Hb [= Ec Es Ev Ep Er].
  assert (who <> precompile) as Hne by (intros ->; by rewrite (v_precompile _ Hv) in Ht).
  split.
  - eapply vaults_bond; [done| |exact Hok|exact Hb|by eapply vault_of_user|].
    + intros vt0. unfold vault_of. rewrite decide_False, Ht by done. cbn. congruence.
    + intros r'. rewrite Ep. by apply pool_precompile.
  - eapply refunds_bond; [done|exact Hb|done|]. intros k. unfold refund_of. rewrite Ep. cbn.
    destruct (decide ((r, who) = k)) as [<-|].
    + rewrite lookup_insert_eq, Ht. cbn. by rewrite Hr.
    + by rewrite lookup_insert_ne.
  - by eapply migration_ok_same.
Qed.

Lemma submit_vault_key_inv v o sub s u s' :
  rp_inv s -> submit_vault_key v o sub s = (Done u, s') -> rp_inv s'.
Proof.
  unfold submit_vault_key, pmutate. intros Hi Hs. destruct o; try done. destruct sub as [auth who k pr].
  cbn [ensure_none] in Hs. mrun.
  repeat match goal with
  | H : ensure_normal _ = _ |- _ => apply ensure_normal_done in H as [Hnormal ->]
  | H : insert_key _ _ _ _ _ _ = _ |- _ => apply insert_key_done in H as (Hp & -> & _ & _ & _ & _ & ->)
  | H : (if is_key_generation_ready _ then _ else _) _ = _ |- _ =>
      apply complete_done in H as (Hok & Hb & [= E1 E2 E3 E4 E5]); [|done]
  end.
  unfold id in *. match goal with Hok : vault_ok ?vt, Ht : RegistrationPool s !! _ = Some ?t |- _ =>
    eapply (put_user_inv _ _ _ _ t (t <| rt_vault := vt |>)); [exact Hi|exact Ht|exact Hp|done|exact Hok|exact Hb|] end.
  unfold rp_frame. fields. rewrite E1, E2, E3, E4, E5. done.
Qed.

(** The system vault of a round, pending or absent so far, is written. *)
Lemma put_system_inv s s' r vt :
  vaults_ok s -> refunds_ok s -> (forall vt0, SystemVault s !! r = Some vt0 -> msa_address vt0 = Pending) ->
  vault_ok vt -> bonded_as r precompile vt s s' -> SystemVault s' = <[r := vt]> (SystemVault s) ->
  RegistrationPool s' = RegistrationPool s -> BondedRefund s' = BondedRefund s ->
  vaults_ok s' /\ refunds_ok s'.
Proof.
  intros Hv Hf Hold Hok Hb Es Ep Er. split.
  - eapply vaults_bond; [done| |exact Hok|exact Hb|by eapply vault_of_system|].
    + intros vt0. unfold vault_of. rewrite decide_True by done. apply Hold.
    + intros r'. rewrite Ep. apply Hv.
  - eapply refunds_bond; [done|exact Hb|done|]. intros k. unfold refund_of. by rewrite Ep.
Qed.

(** What a key submitted for the system vault leaves: the vault is that of the
    current round, or during a migration that of the next. *)
Lemma submit_system_done v o sub s u s' :
  submit_system_vault_key v o sub s = (Done u, s') ->
  exists r vt vt', SystemVault s !! r = Some vt /\ msa_address vt = Pending
    /\ ((ServiceState s = Normal /\ r = CurrentRound s)
        \/ (ServiceState s = PrepareNextSystemVault /\ r = next_round s))
    /\ vault_ok vt' /\ bonded_as r precompile vt' s s'
    /\ rp_frame s' = rp_frame (s <| SystemVault ::= <[r := vt']> |> <| ServiceState := ServiceState s' |>)
    /\ ServiceState s' = (if decide (msa_address vt' <> Pending /\ ServiceState s = PrepareNextSystemVault)
                         then UTXOTransfer else ServiceState s).
Proof.
  unfold submit_system_vault_key, pmutate, pput. intros Hs. destruct o; try done.
  destruct sub as [auth who k pr]. cbn [ensure_none] in Hs. do 2 mrun_step.
  match goal with H : gets _ _ = _ |- _ => apply gets_done in H as [-> ->] end. unfold id in *.
  match goal with H : ret _ _ = _ |- _ => apply ret_done in H as [_ ->] end.
  mrun_step. match goal with H : _ _ = (Done ?r, ?s1), H2 : bind _ _ ?s1 = _ |- _ =>
    rename r into tr; assert (s1 = s /\ ((ServiceState s = Normal /\ tr = CurrentRound s)
        \/ (ServiceState s = PrepareNextSystemVault /\ tr = next_round s))) as [-> Hround]
      by (destruct (ServiceState s); mrun; naive_solver); clear H end.
  do 4 mrun_step. destruct (SystemVault s !! tr) as [vt|] eqn:Ev; [|done]. mrun_step.
  match goal with H : insert_key _ _ _ _ _ _ = _ |- _ => apply insert_key_done in H as (Hp & -> & _ & _ & _ & _ & ->) end.
  exists tr, vt. mrun_step.
  match goal with H : (if is_key_generation_ready ?vt then _ else _) _ = _ |- _ =>
    destruct (is_key_generation_ready vt) eqn:Er end.
  - mrun. match goal with H : try_bond_vault_address _ _ _ _ _ _ = _ |- _ =>
      destruct (try_bond_ok _ _ _ _ _ _ _ _ H Er) as (Hok & Hb & _);
      apply try_bond_done in H as (a & d & _ & _ & _ & -> & ->) end.
    case_bool_decide as Hst; mrun; (eexists; split_and!; [done|done|done|exact Hok|exact Hb|unfold rp_frame; done|]).
    + cbn. rewrite decide_True by done. done.
    + cbn. rewrite decide_False by naive_solver. done.
  - mrun. exists (vt <| msa_pub_keys ::= <[auth := k]> |>). split_and!; [done|done|done|apply pending_ok; exact Hp|by apply pending_bonded|done|].
    cbn. rewrite decide_False by naive_solver. done.
Qed.

Lemma submit_system_vault_key_inv v o sub s u s' :
  rp_inv s -> submit_system_vault_key v o sub s = (Done u, s') -> rp_inv s'.
Proof.
  intros [Hv Hf Hm] (r & vt & vt' & Hvt & Hp & Hround & Hok & Hb & [= Ec Ev Ep Er] & Est)%submit_system_done.
  destruct (put_system_inv s s' r vt') as [Hv' Hf']; try done; [congruence|].
  split; [done|done|]. unfold migration_ok, next_round, rp_get_system_vault in *. rewrite Est, Ec, Ev. clear Hb Est.
  destruct Hround as [[Hn ->]|[Hn ->]]; rewrite Hn.
  - by rewrite decide_False by naive_solver.
  - unfold next_round. case_decide as Hg.
    + rewrite lookup_insert_eq. cbn. unfold generated. destruct (msa_address vt'); [naive_solver|done].
    + exists vt'. rewrite lookup_insert_eq. split; [done|]. destruct (msa_address vt'); [done|]. naive_solver.
Qed.

(** ** Registration *)

Lemma attempt_done {A} (m : RPool A) s r s' :
  attempt m s = (Done r, s') ->
  (exists a, r = inr a /\ m s = (Done a, s')) \/ (exists e, r = inl e /\ m s = (Fail e, s')).
Proof. unfold attempt. destruct (m s) as [[a|e|] s1]; intros [= <- <-]; eauto. Qed.

(** A vault whose address cannot be bonded leaves no trace. *)
Lemma generate_frame v keys : preserves id (generate_vault_address v keys).
Proof. unfold generate_vault_address. frame. Qed.
Lemma try_bond_fail v vt refund who r s e s' :
  try_bond_vault_address v vt refund who r s = (Fail e, s') -> s' = s.
Proof.
  unfold try_bond_vault_address, bind at 1. pose proof (generate_frame v (pub_keys vt) s) as Hg.
  destruct (generate_vault_address v (pub_keys vt) s) as [[[a d]|e'|] s1]; cbn in Hg; unfold id in Hg; subst s1;
    intros Ht; [|by simplify_eq|done].
  case_bool_decide; [unfold fail in Ht; by simplify_eq|]. rewrite bind_gets in Ht. unfold id in Ht.
  destruct (has (BondedRefund s) (r, a)); [unfold fail in Ht; by simplify_eq|done].
Qed.

(** [t], the target of a user whose keys are being gathered. *)
Definition gathering (refund : BoundedBitcoinAddress) t : Prop :=
  rt_refund_address t = refund /\ msa_address (rt_vault t) = Pending.
Lemma gather_done r refund l t s t' s' :
  fold_each l t (take_presubmitted r) s = (Done t', s') -> gathering refund t ->
  gathering refund t' /\ exists m, s' = s <| PreSubmittedPubKeys := m |>.
Proof.
  intros Hl Ht.
  refine (fold_each_inv (fun t s' => gathering refund t /\ exists m, s' = s <| PreSubmittedPubKeys := m |>)
    l _ t s t' s' _ (conj Ht (ex_intro _ (PreSubmittedPubKeys s) _)) Hl); [|by destruct s].
  intros b x s1 b' s2 [[Hr Hp] [m ->]] ([m' ->] & [->|[keys ->]])%take_presubmitted_done;
    (split; [done|by exists m']).
Qed.

(** The storage after a user is registered, before the bond of its refund
    address. *)
Lemma complete_user_done v t who refund r s t' s' :
  gathering refund t ->
  (if is_key_generation_ready (rt_vault t) then
     let* result := attempt (try_bond_vault_address v (rt_vault t) (rt_refund_address t) who r) in
     match result with
     | inr vault =>
         do* for_each (pub_keys vault) (fun pub_key => pmutate BondedPubKey <[(r, pub_key) := who]>) in
         ret (t <| rt_vault := vault |>)
     | inl _ =>
         do* rp_deposit (EvVaultPending who refund) in ret (t <| rt_vault ::= clear_pub_keys |>)
     end
   else ret t) s = (Done t', s') ->
  rt_refund_address t' = refund /\ vault_ok (rt_vault t')
  /\ bonded_as r who (rt_vault t') s s' /\ msa_address (rt_vault t') <> Generated refund
  /\ rp_frame s' = rp_frame s.
Proof.
  intros [Hr Hp] Hc. destruct (is_key_generation_ready (rt_vault t)) eqn:Er.
  - mrun_step. match goal with H : attempt _ _ = _ |- _ => apply attempt_done in H as [(vt & -> & Htry)|(e & -> & Htry)] end.
    + destruct (try_bond_ok _ _ _ _ _ _ _ _ Htry Er) as (Hok & Hb & _).
      apply try_bond_done in Htry as (a & d & _ & Hne & _ & -> & ->). mrun.
      match goal with H : for_each _ _ ?s1 = (Done _, ?s2) |- _ =>
        assert (rp_view s2 = rp_view s1) as E by
          (eapply (preserves_done rp_view); [|exact H]; unfold pmutate; frame) end.
      injection E as E1 E2 E3 E4 E5 E6 E7. split_and!; try done.
      * unfold bonded_as in *. cbn in *. by rewrite E5, E7.
      * cbn. congruence.
      * unfold rp_frame. rewrite E1, E2, E3, E4, E6. done.
    + apply try_bond_fail in Htry as ->. unfold rp_deposit, pmutate in *. mrun.
      split_and!; [done|by apply pending_ok|by apply pending_bonded|cbn; by rewrite Hp|done].
  - mrun. split_and!; [done|by apply pending_ok|by apply pending_bonded|by rewrite Hp|done].
Qed.

(** A new user is registered and bonded to its refund address. *)
Lemma register_inv s s' r who refund t :
  rp_inv s -> who <> precompile -> RegistrationPool s !! (r, who) = None ->
  BondedVault s !! (r, refund) = None -> rt_refund_address t = refund -> vault_ok (rt_vault t) ->
  bonded_as r who (rt_vault t) s s' -> msa_address (rt_vault t) <> Generated refund ->
  rp_frame s' = rp_frame (s <| RegistrationPool ::= <[(r, who) := t]> |>
    <| BondedRefund ::= <[(r, refund) := bonded_refund s (r, refund) ++ [who]]> |>) -> rp_inv s'.
Proof.
  intros [Hv [Fa Fn Fu] Hm] Hne Hnew Hnb Hr Hok Hb Hna [= Ec Es Ev Ep Er]. split.
  - eapply vaults_bond; [done| |exact Hok|exact Hb|by eapply vault_of_user|].
    + intros vt0. unfold vault_of. by rewrite decide_False, Hnew.
    + intros r'. rewrite Ep. by apply pool_precompile.
  - assert (who ∉ bonded_refund s (r, refund)) as Hout.
    { intros Hin%Fu. unfold refund_of in Hin. by rewrite Hnew in Hin. }
    assert (forall k, bonded_refund s' k = if decide (k = (r, refund)) then bonded_refund s k ++ [who]
      else bonded_refund s k) as Eb.
    { intros k. unfold bonded_refund at 1. rewrite Er. case_decide as Hk; [subst k; by rewrite lookup_insert_eq|].
      by rewrite lookup_insert_ne by congruence. }
    split.
    + intros k. rewrite Eb. unfold bonded_as in Hb. destruct (msa_address (rt_vault t)) as [|a].
      * destruct Hb as [-> _]. intros Hk. rewrite decide_False; [by apply Fa|]. intros ->.
        rewrite Hnb in Hk. by destruct Hk.
      * destruct Hb as (Hn & -> & _). rewrite lookup_insert_is_Some. intros [<-|[Hka Hk]].
        -- rewrite decide_False by congruence. unfold bonded_refund. by rewrite Hn.
        -- rewrite decide_False; [by apply Fa|]. intros ->. rewrite Hnb in Hk. by destruct Hk.
    + intros k. rewrite Eb. case_decide as Hk; [subst k|apply Fn]. apply NoDup_app.
      split_and!; [apply Fn| |apply NoDup_singleton]. set_solver.
    + intros r' a u. rewrite Eb. unfold refund_of. rewrite Ep. case_decide as Hk.
      * injection Hk as -> ->. intros [Hu| ->%list_elem_of_singleton]%elem_of_app.
        -- rewrite lookup_insert_ne by (intros [= <-]; done). by apply Fu.
        -- rewrite lookup_insert_eq. cbn. by rewrite Hr.
      * intros Hu%Fu. rewrite lookup_insert_ne; [done|]. intros [= <- <-]. unfold refund_of in Hu.
        by rewrite Hnew in Hu.
  - by eapply migration_ok_same.
Qed.

Lemma request_vault_inv v o a s u s' :
  rp_inv s -> o <> SignedOrigin precompile -> request_vault v o a s = (Done u, s') -> rp_inv s'.
Proof.
  unfold request_vault, mutate_refund, pmutate. intros Hi Ho Hs.
  destruct o as [|who|]; cbn [ensure_signed] in Hs; mrun. unfold id in *.
  repeat match goal with
  | H : ensure_normal _ = _ |- _ => apply ensure_normal_done in H as [Hnormal ->]
  | H : get_checked_bitcoin_address _ _ = _ |- _ => apply checked_address_done in H as ->
  | H : negb (has _ _) = true |- _ => apply has_false in H
  end.
  match goal with H : fold_each _ _ _ _ = _ |- _ =>
    eapply gather_done in H as [Ht [m ->]]; [|split; reflexivity] end.
  match goal with H : (if is_key_generation_ready _ then _ else _) _ = _ |- _ =>
    eapply complete_user_done in H as (Hr & Hok & Hb & Hne & [= E1 E2 E3 E4 E5]); [|exact Ht] end.
  eapply (register_inv _ _ _ who); [exact Hi|congruence|eassumption|eassumption|exact Hr|exact Hok|exact Hb|exact Hne|].
  unfold rp_frame, bonded_refund. fields. rewrite E1, E2, E3, E4, E5. done.
Qed.

(** ** The calls that take vaults away *)

Lemma request_system_vault_done v o b s u s' :
  request_system_vault v o b s = (Done u, s') ->
  exists r vt, SystemVault s !! r = None /\ msa_address vt = Pending
    /\ r = (if b then next_round s else CurrentRound s)
    /\ (ServiceState s = Normal \/ ServiceState s = PrepareNextSystemVault)
    /\ rp_view s' = rp_view (s <| SystemVault ::= <[r := vt]> |>).
Proof.
  unfold request_system_vault, rp_deposit, pmutate. intros Hs. destruct o; try done.
  cbn [ensure_root] in Hs. mrun. unfold id in *.
  match goal with H : negb (has _ _) = true |- _ => apply has_false in H end.
  eexists _, (new_multi_sig (get_m v s) (get_n v)). split_and!; [eassumption|done|done| |done].
  destruct (ServiceState s); try done; [by left|by right].
Qed.
(** What a new system vault keeps but for the migration *)
Lemma put_new_system s s' r vt :
  vaults_ok s -> refunds_ok s -> SystemVault s !! r = None -> msa_address vt = Pending ->
  rp_view s' = rp_view (s <| SystemVault ::= <[r := vt]> |> <| ServiceState := ServiceState s' |>) ->
  vaults_ok s' /\ refunds_ok s'.
Proof.
  intros Hv Hf Hn Hp [= E1 E3 E4 E5 E6 E7].
  apply (put_system_inv s s' r vt); try done; [congruence|by apply pending_ok|by apply pending_bonded].
Qed.
Lemma request_system_vault_inv v o b s u s' :
  rp_inv s -> request_system_vault v o b s = (Done u, s') -> rp_inv s'.
Proof.
  intros [Hv Hf Hm] (r & vt & Hn & Hp & Hr & Hst & E)%request_system_vault_done.
  pose proof E as [= E1 E2 E3 E4 E5 E6 E7].
  destruct (put_new_system s s' r vt) as [Hv' Hf']; try done.
  { rewrite E. unfold rp_view. cbn. by rewrite E2. }
  split; [done|done|]. unfold migration_ok, next_round, rp_get_system_vault in *. rewrite E1, E2, E3.
  destruct Hst as [Hst|Hst]; rewrite Hst in *; [done|]. destruct Hm as (vt0 & Hvt & Hp0).
  exists vt0. rewrite lookup_insert_ne; [done|]. intros ->. congruence.
Qed.

Lemma migration_control_done v o s u s' :
  migration_control v o s = (Done u, s') ->
  (ServiceState s = Normal /\ is_ready_for_migrate (pv_socket_queue v) = true
   /\ rp_view s' = rp_view (s <| ServiceState := SetExecutiveMembers |>)
   /\ OngoingVaultMigration s' = OngoingVaultMigration s)
  \/ (ServiceState s = SetExecutiveMembers
      /\ exists vt, SystemVault s !! next_round s = None /\ msa_address vt = Pending
         /\ rp_view s' = rp_view (s <| ServiceState := PrepareNextSystemVault |>
                                    <| SystemVault ::= <[next_round s := vt]> |>))
  \/ (ServiceState s = UTXOTransfer /\ OngoingVaultMigration s <> ∅
      /\ (forall txid b, OngoingVaultMigration s !! txid = Some b -> b = true)
      /\ rp_view s' = rp_view (s <| CurrentRound := next_round s |> <| ServiceState := Normal |>)
      /\ OngoingVaultMigration s' = ∅).
Proof.
  unfold migration_control, rp_deposit, pmutate, pput. intros Hs. destruct o; try done.
  cbn [ensure_root] in Hs. do 2 mrun_step.
  match goal with H : gets _ _ = _ |- _ => apply gets_done in H as [-> ->] end.
  match goal with H : ret _ _ = _ |- _ => apply ret_done in H as [_ ->] end.
  cbn beta iota in *. change (id s) with s in *. destruct (ServiceState s) eqn:Est.
  - left. mrun. done.
  - right; left. mrun.
    match goal with H : request_system_vault _ _ _ _ = _ |- _ =>
      apply request_system_vault_done in H as (r & vt & Hn & Hp & -> & _ & E) end.
    split; [done|]. exists vt. split_and!; [exact Hn|exact Hp|exact E].
  - done.
  - right; right. case_bool_decide as Ho; [done|]. cbn [orb] in *.
    destruct (forallb id (map_to_list (OngoingVaultMigration s)).*2) eqn:Eall; cbn [negb] in *; mrun.
    split_and!; try done. intros txid b Hb. rewrite forallb_forall in Eall.
    change (id b = true). apply Eall, list_elem_of_In. apply list_elem_of_fmap.
    exists (txid, b). split; [done|]. by apply elem_of_map_to_list.
Qed.
Lemma migration_control_inv v o s u s' :
  rp_inv s -> migration_control v o s = (Done u, s') -> rp_inv s'.
Proof.
  intros [Hv Hf Hm] [(Hst & _ & E & _)|[(Hst & vt & Hn & Hp & E)|(Hst & _ & _ & E & _)]]%migration_control_done;
    pose proof E as [= E1 E2 E3 E4 E5 E6 E7].
  - split; [destruct Hv|destruct Hf|]; [..|unfold migration_ok; by rewrite E2].
    + split; unfold vault_of in *; rewrite ?E3, ?E4, ?E5, ?E7; done.
    + split; unfold bonded_refund, refund_of in *; rewrite ?E4, ?E5, ?E6; done.
  - destruct (put_new_system s s' (next_round s) vt) as [Hv' Hf']; try done.
    { rewrite E. unfold rp_view. cbn. by rewrite E2. }
    split; [done|done|]. unfold migration_ok, next_round. rewrite E2, E1, E3.
    exists vt. cbn. by rewrite lookup_insert_eq.
  - split; [destruct Hv|destruct Hf|]; [..|unfold migration_ok; by rewrite E2].
    + split; unfold vault_of in *; rewrite ?E3, ?E4, ?E5, ?E7; done.
    + split; unfold bonded_refund, refund_of in *; rewrite ?E4, ?E5, ?E6; done.
Qed.
End Invariant.
