(* ===== verification/RegistrationPoolOps.v ===== *)
(** * The registration pool: removals, refunds and replacements keep the invariant *)

From S2P Require Import Prelude Logic Errors Primitives Cccp BtcRelay RegistrationPool RegistrationPoolInv.
Local Open Scope Z_scope.
Local Open Scope frame_scope.

Section Ops.
Context {Q : Type} `{!SocketQueueManager Q, !RpConfig}.
Implicit Types (v : RpView Q) (s : RpStorage) (vt : MultiSigAccount) (t : BitcoinRelayTarget).

(** ** Vaults are taken away *)

(** The vaults of the owners that [gone] names, and their bonds, are removed. *)
Lemma vaults_remove s s' (gone : PoolRound -> AccountId -> bool) (gone_bond : Z * list byte -> bool) :
  vaults_ok s ->
  (forall r w, vault_of s' r w = if gone r w then None else vault_of s r w) ->
  (forall r, RegistrationPool s' !! (r, precompile) = None) ->
  (forall k, BondedVault s' !! k = if gone_bond k then None else BondedVault s !! k) ->
  (forall k, BondedDescriptor s' !! k = if gone_bond k then None else BondedDescriptor s !! k) ->
  (forall r w vt a, vault_of s r w = Some vt -> msa_address vt = Generated a ->
     gone r w = true -> gone_bond (r, a) = true) ->
  vaults_ok s'.
Proof.
  intros [Vo Vp Vb Vd] Hof Hpre Hbv Hbd Hgone. split.
  - intros r w vt. rewrite Hof. destruct (gone r w); [done|apply Vo].
  - done.
  - intros r a w. rewrite Hbv. destruct (gone_bond (r, a)) eqn:Eg; [done|]. intros Hb.
    destruct (Vb _ _ _ Hb) as (vt & Hv & Ha & Hd). exists vt. rewrite Hof, Hbd, Eg.
    split_and!; try done. destruct (gone r w) eqn:Ew; [|done].
    by rewrite (Hgone _ _ _ _ Hv Ha Ew) in Eg.
  - intros k. rewrite Hbd, Hbv. destruct (gone_bond k); [by intros []|apply Vd].
Qed.

(** Users and the lists they stand in are removed. *)
Lemma refunds_remove s s' (gone : Z * N -> bool) (gone_bond gone_list : Z * list byte -> bool) :
  refunds_ok s ->
  (forall k, BondedVault s' !! k = if gone_bond k then None else BondedVault s !! k) ->
  (forall k, bonded_refund s' k = if gone_list k then [] else bonded_refund s k) ->
  (forall k, refund_of s' k = if gone k then None else refund_of s k) ->
  (forall r a u, refund_of s (r, u) = Some a -> gone (r, u) = true -> gone_list (r, a) = true) ->
  refunds_ok s'.
Proof.
  intros [Fa Fn Fu] Hbv Hl Hof Hgone. split.
  - intros k. rewrite Hbv, Hl. destruct (gone_bond k); [by intros []|].
    intros Hk%Fa. by destruct (gone_list k).
  - intros k. rewrite Hl. destruct (gone_list k); [constructor|apply Fn].
  - intros r a u. rewrite Hl, Hof. destruct (gone_list (r, a)) eqn:El; [by intros ?%not_elem_of_nil|].
    intros Hu%Fu. destruct (gone (r, u)) eqn:Eu; [|done]. by rewrite (Hgone _ _ _ Hu Eu) in El.
Qed.

Lemma unbond_keys_frame r vt s u s' : unbond_keys r vt s = (Done u, s') -> rp_view s' = rp_view s.
Proof. intros Hu. eapply (preserves_done rp_view); [|exact Hu]. unfold unbond_keys, pmutate. frame. Qed.

Lemma delete_if `{Countable K} {V} (m : gmap K V) i k :
  delete i m !! k = if bool_decide (k = i) then None else m !! k.
Proof. case_bool_decide as E; [subst; apply lookup_delete_eq|by apply lookup_delete_ne]. Qed.
Lemma clear_prefix_lookup `{Countable K} {V} (r : Z) (m : gmap (Z * K) V) k :
  clear_prefix r m !! k = if bool_decide (k.1 = r) then None else m !! k.
Proof.
  unfold clear_prefix. rewrite map_lookup_filter. destruct (m !! k); cbn.
  - case_guard; case_bool_decide; cbn; done.
  - by destruct (bool_decide _).
Qed.

Lemma clear_vault_inv o b s u s' : rp_inv s -> clear_vault o b s = (Done u, s') -> rp_inv s'.
Proof.
  unfold clear_vault, pmutate. intros [Hv Hf Hm] Hs. destruct o; [|done|done]. cbn [ensure_root] in Hs.
  mrun. unfold id in *.
  match goal with H : ensure_normal _ = _ |- _ => apply ensure_normal_done in H as [Hnormal ->] end.
  match goal with H : get_checked_bitcoin_address _ _ = _ |- _ => apply checked_address_done in H as -> end.
  match goal with H : BondedVault s !! (_, ?a) = Some ?w |- _ => rename a into a0, w into who, H into Hb end.
  destruct (v_bond _ Hv _ _ _ Hb) as (vt & Hvt & Hga & Hd).
  match goal with H : (if (who =? _)%N then _ else _) _ = _ |- _ =>
    destruct (N.eqb_spec who precompile) as [->|Hne]; mrun end.
  - match goal with H : unbond_keys _ _ _ = _ |- _ => apply unbond_keys_frame in H as [= E1 E2 E3 E4 E5 E6 E7] end.
    split.
    + apply (vaults_remove s _ (fun r w => bool_decide (r = CurrentRound s) && bool_decide (w = precompile))
        (fun k => bool_decide (k = (CurrentRound s, a0)))); try done.
      * intros r w. unfold vault_of. reads. rewrite E3, E4.
        destruct (decide (w = precompile)) as [->|]; [rewrite (bool_decide_true (precompile = precompile)), andb_true_r by done; apply delete_if|].
        rewrite (bool_decide_false (w = precompile)), andb_false_r by done. done.
      * intros r. reads. rewrite E4. apply Hv.
      * intros k. reads. rewrite E5. apply delete_if.
      * intros k. reads. rewrite E7. apply delete_if.
      * intros r w vt' a Hw Ha [->%bool_decide_eq_true ->%bool_decide_eq_true]%andb_true_iff.
        apply bool_decide_eq_true. congruence.
    + apply (refunds_remove s _ (fun _ => false) (fun k => bool_decide (k = (CurrentRound s, a0))) (fun _ => false)); try done.
      * intros k. reads. rewrite E5. apply delete_if.
      * intros k. unfold bonded_refund. reads. by rewrite E6.
      * intros k. unfold refund_of. reads. by rewrite E4.
    + unfold migration_ok. reads. by rewrite E2, Hnormal.
  - match goal with H : unbond_keys _ _ _ = _ |- _ => apply unbond_keys_frame in H as [= E1 E2 E3 E4 E5 E6 E7] end.
    match goal with H : RegistrationPool s !! _ = Some ?t0 |- _ => rename t0 into t, H into Ht end.
    split.
    + apply (vaults_remove s _ (fun r w => bool_decide ((r, w) = (CurrentRound s, who)))
        (fun k => bool_decide (k = (CurrentRound s, a0)))); try done.
      * intros r w. unfold vault_of. reads. rewrite E3, E4.
        destruct (decide (w = precompile)) as [->|]; [by rewrite bool_decide_false by congruence|].
        rewrite delete_if. by destruct (bool_decide _).
      * intros r. reads. rewrite E4, delete_if. destruct (bool_decide _); [done|apply Hv].
      * intros k. reads. rewrite E5. apply delete_if.
      * intros k. reads. rewrite E7. apply delete_if.
      * intros r w vt' a Hw Ha [= -> ->]%bool_decide_eq_true. apply bool_decide_eq_true. congruence.
    + apply (refunds_remove s _ (fun k => bool_decide (k = (CurrentRound s, who)))
        (fun k => bool_decide (k = (CurrentRound s, a0)))
        (fun k => bool_decide (k = (CurrentRound s, rt_refund_address t)))); try done.
      * intros k. reads. rewrite E5. apply delete_if.
      * intros k. unfold bonded_refund. reads. rewrite E6, delete_if. by destruct (bool_decide _).
      * intros k. unfold refund_of. reads. rewrite E4, delete_if. by destruct (bool_decide _).
      * intros r a w Hr [= -> ->]%bool_decide_eq_true. apply bool_decide_eq_true.
        unfold refund_of in Hr. rewrite Ht in Hr. cbn in Hr. congruence.
    + unfold migration_ok. reads. by rewrite E2, Hnormal.
Qed.

Lemma drop_previous_round_inv o r s u s' : rp_inv s -> drop_previous_round o r s = (Done u, s') -> rp_inv s'.
Proof.
  unfold drop_previous_round, rp_deposit, pmutate. intros [Hv Hf Hm] Hs. destruct o; [|done|done].
  cbn [ensure_root] in Hs. mrun. unfold id in *.
  match goal with H : ensure_normal _ = _ |- _ => apply ensure_normal_done in H as [Hnormal ->] end. split.
  - apply (vaults_remove s _ (fun r' _ => bool_decide (r' = r)) (fun k => bool_decide (k.1 = r))); try done.
    + intros r' w. unfold vault_of. reads. rewrite delete_if, clear_prefix_lookup. cbn [fst].
      by repeat case_match.
    + intros r'. reads. rewrite clear_prefix_lookup. cbn [fst]. case_bool_decide; [done|apply Hv].
    + intros k. reads. apply clear_prefix_lookup.
    + intros k. reads. apply clear_prefix_lookup.
  - apply (refunds_remove s _ (fun k => bool_decide (k.1 = r)) (fun k => bool_decide (k.1 = r))
      (fun k => bool_decide (k.1 = r))); try done.
    + intros k. reads. apply clear_prefix_lookup.
    + intros k. unfold bonded_refund. reads. rewrite clear_prefix_lookup. by case_bool_decide.
    + intros k. unfold refund_of. reads. rewrite clear_prefix_lookup. by case_bool_decide.
  - unfold migration_ok. reads. by rewrite Hnormal.
Qed.
(** ** Vaults that stay as they are, or stay pending *)

Definition same_or_pending (o o' : option MultiSigAccount) : Prop :=
  o' = o \/ exists vt vt', o = Some vt /\ o' = Some vt' /\ msa_address vt = Pending /\ msa_address vt' = Pending.
Lemma vaults_ext s s' :
  vaults_ok s -> (forall r w, same_or_pending (vault_of s r w) (vault_of s' r w)) ->
  (forall r, RegistrationPool s' !! (r, precompile) = None) ->
  BondedVault s' = BondedVault s -> BondedDescriptor s' = BondedDescriptor s -> vaults_ok s'.
Proof.
  intros [Vo Vp Vb Vd] Hof Hpre Ev Ed. split.
  - intros r w vt Hw. destruct (Hof r w) as [E|(vt0 & vt1 & _ & E & _ & Hp)]; rewrite Hw in E.
    + by eapply Vo.
    + simplify_eq. by apply pending_ok.
  - done.
  - intros r a w. rewrite Ev, Ed. intros Hb. destruct (Vb _ _ _ Hb) as (vt & Hvt & Ha & Hd). exists vt.
    destruct (Hof r w) as [E|(vt0 & vt1 & E & _ & Hp & _)]; [by rewrite E|congruence].
  - intros k. rewrite Ev, Ed. apply Vd.
Qed.

(** ** Refund addresses *)

Lemma move_refund_inv r who t new s u s' :
  rp_inv s -> RegistrationPool s !! (r, who) = Some t -> BondedVault s !! (r, new) = None ->
  move_refund r who t new s = (Done u, s') -> rp_inv s'.
Proof.
  unfold move_refund, mutate_refund, pmutate. intros [Hv [Fa Fn Fu] Hm] Ht Hnb Hs. mrun. unfold id in *.
  set (old := rt_refund_address t) in *.
  assert (refund_of s (r, who) = Some old) as Ho by (unfold refund_of; by rewrite Ht).
  match goal with |- rp_inv ?x => set (s' := x) end.
  assert (forall k, bonded_refund s' k =
    let l := if decide (k = (r, old)) then filter (fun u => u <> who) (bonded_refund s k) else bonded_refund s k in
    if decide (k = (r, new)) then l ++ [who] else l) as Eb.
  { intros k. unfold s', bonded_refund. reads. cbn zeta.
    destruct (decide (k = (r, new))) as [->|Hn]; [rewrite lookup_insert_eq|rewrite lookup_insert_ne by congruence].
    - destruct (decide ((r, new) = (r, old))) as [E|]; [by rewrite E, lookup_insert_eq|].
      by rewrite lookup_insert_ne by congruence.
    - destruct (decide (k = (r, old))) as [->|]; [by rewrite lookup_insert_eq|].
      by rewrite lookup_insert_ne by congruence. }
  assert (forall k, refund_of s' k = if decide (k = (r, who)) then Some new else refund_of s k) as Eo.
  { intros k. unfold s', refund_of. reads. case_decide as Hk; [subst; by rewrite lookup_insert_eq|].
    by rewrite lookup_insert_ne by congruence. }
  assert (forall k, NoDup (if decide (k = (r, old)) then filter (fun u => u <> who) (bonded_refund s k)
                           else bonded_refund s k)) as Hnd.
  { intros k. case_decide; [apply NoDup_filter|]; apply Fn. }
  split; [|split|by eapply migration_ok_same].
  - apply (vaults_ext s); try done.
    + intros r' w. left. unfold s', vault_of. reads. case_decide as Hw; [done|].
      destruct (decide ((r, who) = (r', w))) as [[= -> ->]|]; [|by rewrite lookup_insert_ne].
      by rewrite lookup_insert_eq, Ht.
    + intros r'. unfold s'. reads. rewrite lookup_insert_ne; [apply Hv|]. intros [= -> ->].
      by rewrite (v_precompile _ Hv) in Ht.
  - intros k Hk. change (is_Some (BondedVault s !! k)) in Hk. rewrite Eb. cbn zeta.
    rewrite decide_False by (intros ->; rewrite Hnb in Hk; by destruct Hk). rewrite (Fa _ Hk).
    by case_decide.
  - intros k. rewrite Eb. cbn zeta. case_decide as Hk; [|apply Hnd]. apply NoDup_app.
    split_and!; [apply Hnd| |apply NoDup_singleton]. intros u' Hin ->%list_elem_of_singleton. subst k.
    case_decide as Hk; [apply list_elem_of_filter in Hin as [? _]; done|]. apply Fu in Hin. congruence.
  - intros r' a u'. rewrite Eb, Eo. cbn zeta. intros Hin.
    assert ((r', a) = (r, new) /\ u' = who \/ u' <> who /\ u' ∈ bonded_refund s (r', a)
            \/ (r', a) <> (r, old) /\ u' ∈ bonded_refund s (r', a)) as Hc.
    { destruct (decide ((r', a) = (r, old))) as [E|], (decide ((r', a) = (r, new))) as [E'|];
        [apply elem_of_app in Hin as [Hin|Hin%list_elem_of_singleton]|
         |apply elem_of_app in Hin as [Hin|Hin%list_elem_of_singleton]|];
        try (apply list_elem_of_filter in Hin as [? Hin]); tauto. }
    destruct Hc as [[[= -> ->] ->]|[[Hne Hu%Fu]|[Hne Hu%Fu]]]; [by rewrite decide_True|..].
    + rewrite decide_False; [done|]. congruence.
    + rewrite decide_False; [done|]. intros [= -> ->]. congruence.
Qed.

Lemma rp_inv_event s f : rp_inv s -> rp_inv (s <| RpEvents ::= f |>).
Proof. by apply rp_inv_view. Qed.
Lemma rp_inv_refunds s f : rp_inv s -> rp_inv (s <| PendingSetRefunds ::= f |>).
Proof. by apply rp_inv_view. Qed.

Lemma approve_set_refund_inv r x s u s' : rp_inv s -> approve_set_refund r x s = (Done u, s') -> rp_inv s'.
Proof.
  unfold approve_set_refund, rp_deposit, pmutate. intros Hi Hs. mrun. unfold id in *. apply rp_inv_refunds.
  match goal with H : (if has ?m ?k then _ else _) _ = _ |- _ => destruct (has m k) eqn:Eh; mrun; [done|] end.
  apply rp_inv_event.
  match goal with H : move_refund _ _ _ _ _ = _ |- _ => eapply move_refund_inv; [exact Hi| | |exact H] end; [done|].
  apply has_false. unfold id in Eh. by rewrite Eh.
Qed.
Lemma approve_set_refunds_inv o a s u s' : rp_inv s -> approve_set_refunds o a s = (Done u, s') -> rp_inv s'.
Proof.
  unfold approve_set_refunds. intros Hi Hs. destruct o; [done|done|]. cbn [ensure_none] in Hs. mrun.
  match goal with H : ensure_normal _ = _ |- _ => apply ensure_normal_done in H as [_ ->] end.
  eapply for_each_inv; [|exact Hi|eassumption]. intros y s1 u1 s1' Hi1. by apply approve_set_refund_inv.
Qed.

Lemma process_set_refund_inv r w st s u s' : rp_inv s -> process_set_refund r w st s = (Done u, s') -> rp_inv s'.
Proof.
  unfold process_set_refund, rp_deposit, pmutate. intros Hi Hs. mrun. unfold id in *.
  match goal with H : (if has ?m ?k then _ else _) _ = _ |- _ => destruct (has m k) eqn:Eh end.
  - mrun. by apply rp_inv_event.
  - destruct (RegistrationPool s !! (r, w)) as [t|] eqn:Et; mrun; apply rp_inv_event; [|done].
    match goal with H : move_refund _ _ _ _ _ = _ |- _ => eapply move_refund_inv; [exact Hi|exact Et| |exact H] end.
    apply has_false. by rewrite Eh.
Qed.
Lemma process_set_refund_runs r w st s : exists s', process_set_refund r w st s = (Done tt, s').
Proof.
  unfold process_set_refund. rewrite bind_gets. unfold id. destruct (has _ _); [by eexists|].
  destruct (RegistrationPool s !! (r, w)); by eexists.
Qed.
(** A loop whose body returns returns. *)
Lemma for_each_total {A} (l : list A) (f : A -> RPool unit) s :
  (forall x s, exists s', f x s = (Done tt, s')) -> exists s', for_each l f s = (Done tt, s').
Proof.
  intros Hf. revert s. induction l as [|x l IH]; intros s; cbn; [by eexists|].
  destruct (Hf x s) as [s1 E]. unfold bind. rewrite E. apply IH.
Qed.
Lemma process_set_refunds_runs s : exists s', rp_process_set_refunds s = (Done tt, s').
Proof.
  unfold rp_process_set_refunds. rewrite bind_gets. cbv zeta.
  destruct (for_each_total (iter_prefix (PendingSetRefunds (id s)) (CurrentRound (id s)))
    (fun kv => process_set_refund (CurrentRound (id s)) kv.1 kv.2) s) as [s1 E].
  { intros x s1. apply process_set_refund_runs. }
  unfold bind at 1. rewrite E. by eexists.
Qed.
Lemma rp_process_set_refunds_inv s : rp_inv s -> rp_inv (rp_process_set_refunds s).2.
Proof.
  intros Hi. destruct (process_set_refunds_runs s) as [s' E]. rewrite E. cbn.
  unfold rp_process_set_refunds, pmutate in E. mrun. apply rp_inv_refunds. unfold id in *.
  eapply for_each_inv; [|exact Hi|eassumption]. intros [w st] s1 u1 s1' Hi1. by apply process_set_refund_inv.
Qed.

(** ** An authority is replaced *)

Lemma replace_in_vault_done old new vt s vt' s' :
  replace_in_vault old new vt s = (Done vt', s') ->
  s' = s /\ (vt' = vt \/ msa_address vt = Pending /\ msa_address vt' = Pending).
Proof.
  unfold replace_in_vault, is_pending. case_bool_decide; intros Hr; mrun; [|by split; [|left]].
  split; [done|right]. unfold msa_replace_authority in *.
  destruct (replace_key _ _ _ _); cbn in *; simplify_eq. done.
Qed.

(** The system vault and the pool, each vault kept or still pending. *)
Definition vaults_like s s' : Prop :=
  (forall r, same_or_pending (SystemVault s !! r) (SystemVault s' !! r))
  /\ (forall k, same_or_pending (rt_vault <$> RegistrationPool s !! k) (rt_vault <$> RegistrationPool s' !! k)
         /\ refund_of s' k = refund_of s k)
  /\ (CurrentRound s', ServiceState s', BondedVault s', BondedRefund s', BondedDescriptor s')
     = (CurrentRound s, ServiceState s, BondedVault s, BondedRefund s, BondedDescriptor s).
Lemma vaults_like_inv s s' : rp_inv s -> vaults_like s s' -> rp_inv s'.
Proof.
  intros [Hv Hf Hm] (Hsys & Hpool & [= Ec Es Ev Er Ed]). split.
  - apply (vaults_ext s); try done.
    + intros r w. unfold vault_of. case_decide; [apply Hsys|apply Hpool].
    + intros r. destruct (Hpool (r, precompile)) as [_ E]. unfold refund_of in E.
      rewrite (v_precompile _ Hv) in E. by destruct (RegistrationPool s' !! _).
  - destruct Hf as [Fa Fn Fu]. split; unfold bonded_refund in *; rewrite ?Er, ?Ev; [done..|].
    intros r a u Hu. destruct (Hpool (r, u)) as [_ ->]. by apply Fu.
  - unfold migration_ok, next_round, rp_get_system_vault in *. rewrite Es, Ec.
    destruct (Hsys (u32_add (CurrentRound s) 1)) as [->|(vt & vt' & E & -> & Hp & Hp')];
      destruct (ServiceState s); try done; rewrite E in Hm; [by eauto|].
    cbn in Hm. unfold generated in Hm. rewrite Hp in Hm. by destruct Hm.
Qed.
Lemma vaults_like_refl s : vaults_like s s.
Proof. split_and!; try done; intros; [by left|split; [by left|done]]. Qed.
Lemma same_or_pending_trans o1 o2 o3 : same_or_pending o1 o2 -> same_or_pending o2 o3 -> same_or_pending o1 o3.
Proof.
  unfold same_or_pending.
  intros [->|(a & b & -> & -> & ? & ?)] [->|(c & d & E & -> & ? & ?)]; simplify_eq; eauto 10.
Qed.
Lemma vaults_like_trans s1 s2 s3 : vaults_like s1 s2 -> vaults_like s2 s3 -> vaults_like s1 s3.
Proof.
  intros (Hs & Hp & E) (Hs' & Hp' & E'). split_and!; [| |congruence].
  - intros r. by eapply same_or_pending_trans.
  - intros k. destruct (Hp k) as [? ?], (Hp' k) as [? ?]. split; [by eapply same_or_pending_trans|congruence].
Qed.

Lemma iter_prefix_spec {V} (m : gmap (Z * N) V) r :
  NoDup (iter_prefix m r).*1 /\ forall k x, (k, x) ∈ iter_prefix m r <-> m !! (r, k) = Some x.
Proof.
  unfold iter_prefix. split.
  - rewrite <- list_fmap_compose. pose proof (NoDup_fst_map_to_list m) as Hn.
    induction (map_to_list m) as [|[[r' k] x] l IH]; [constructor|].
    apply NoDup_cons in Hn as [Hk Hn]. rewrite filter_cons. case_decide as Hr; [|by apply IH].
    cbn in Hr. subst r'. cbn. constructor; [|by apply IH]. intros Hin. apply Hk.
    apply list_elem_of_fmap in Hin as ([[r' k'] x'] & [= ->] & [Hr Hin]%list_elem_of_filter). cbn in Hr. subst.
    apply list_elem_of_fmap. by exists ((r, k'), x').
  - intros k x. rewrite list_elem_of_fmap. split.
    + intros ([[r' k'] x'] & [= -> ->] & [Hr Hin]%list_elem_of_filter). cbn in Hr. subst.
      by apply elem_of_map_to_list.
    + intros Hk. exists ((r, k), x). split; [done|]. apply list_elem_of_filter.
      split; [done|]. by apply elem_of_map_to_list.
Qed.

Lemma put_vault_like s k t vt :
  RegistrationPool s !! k = Some t ->
  vt = rt_vault t \/ msa_address (rt_vault t) = Pending /\ msa_address vt = Pending ->
  vaults_like s (s <| RegistrationPool ::= <[k := t <| rt_vault := vt |>]> |>).
Proof.
  intros Ht Hvt. split_and!; [by left| |done]. intros k'. unfold refund_of. reads.
  destruct (decide (k = k')) as [<-|]; [|rewrite lookup_insert_ne by done; by split; [left|]].
  rewrite lookup_insert_eq, Ht. split; [|done]. destruct Hvt as [->|[? ?]]; [by left|right].
  by eexists _, _.
Qed.

Lemma replace_loop old new r l s u s' :
  NoDup l.*1 -> (forall k t, (k, t) ∈ l -> RegistrationPool s !! (r, k) = Some t) ->
  for_each l (fun kv =>
    let* vault := replace_in_vault old new (rt_vault kv.2) in
    pmutate RegistrationPool <[(r, kv.1) := kv.2 <| rt_vault := vault |>]>) s = (Done u, s') ->
  vaults_like s s'.
Proof.
  unfold pmutate. revert s. induction l as [|[k t] l IH]; intros s Hn Hl Hf; cbn [for_each] in Hf; mrun.
  { apply vaults_like_refl. }
  match goal with H : replace_in_vault _ _ _ _ = _ |- _ => apply replace_in_vault_done in H as [-> Hvt] end.
  apply NoDup_cons in Hn as [Hk Hn]. eapply vaults_like_trans.
  - eapply put_vault_like; [|exact Hvt]. apply Hl. by left.
  - eapply IH; [done| |eassumption]. intros k' t' Hin. reads. rewrite lookup_insert_ne.
    + apply Hl. by right.
    + intros [= <-]. apply Hk, list_elem_of_fmap. by exists (k, t').
Qed.

Lemma rp_replace_authority_like old new s u s' : rp_replace_authority old new s = (Done u, s') -> vaults_like s s'.
Proof.
  unfold rp_replace_authority, pmutate. intros Hs. mrun. unfold id in *.
  match goal with H : (if bool_decide ?b then _ else _) ?s0 = (Done _, ?s1) |- _ =>
    assert (rp_view s1 = rp_view s) as Eview by (destruct (bool_decide b); mrun; reflexivity); clear H end.
  match goal with H : match SystemVault s !! _ with _ => _ end ?s0 = (Done _, ?s1) |- _ =>
    assert (vaults_like s s1 /\ RegistrationPool s1 = RegistrationPool s) as [Hlike Epool]; [|clear H] end.
  { injection Eview as E1 E2 E3 E4 E5 E6 E7. destruct (SystemVault s !! CurrentRound s) as [vt|] eqn:Ev; mrun.
    - match goal with H : replace_in_vault _ _ _ _ = _ |- _ => apply replace_in_vault_done in H as [-> Hvt] end.
      split; [|done]. split_and!.
      + intros r. reads. rewrite E3. destruct (decide (CurrentRound s = r)) as [<-|].
        * rewrite lookup_insert_eq, Ev. destruct Hvt as [->|[? ?]]; [by left|right; by eexists _, _].
        * rewrite lookup_insert_ne by done. by left.
      + intros k. unfold refund_of. reads. rewrite E4. by split; [left|].
      + reads. congruence.
    - split; [|done]. split_and!; [| |congruence].
      + intros r. rewrite E3. by left.
      + intros k. unfold refund_of. rewrite E4. by split; [left|]. }
  match goal with H : for_each _ _ _ = _ |- _ => rename H into Hl end.
  destruct (iter_prefix_spec (RegistrationPool s) (CurrentRound s)) as [Hn Hin].
  eapply vaults_like_trans; [exact Hlike|]. eapply replace_loop; [exact Hn| |exact Hl].
  intros k t Ht. rewrite Epool. by apply Hin.
Qed.

(** ** The calls that write other storage *)

Lemma rp_view_inv {A} (m : RPool A) s a s' : preserves rp_view m -> rp_inv s -> m s = (Done a, s') -> rp_inv s'.
Proof. intros Hp Hi Hs. eapply rp_inv_view; [|exact Hi]. by eapply (preserves_done rp_view). Qed.
Lemma checked_address_frame b : preserves rp_view (get_checked_bitcoin_address b).
Proof. unfold get_checked_bitcoin_address. frame. Qed.
#[local] Hint Resolve checked_address_frame : frame.
Lemma ensure_normal_frame : preserves rp_view ensure_normal.
Proof. unfold ensure_normal. frame. Qed.
#[local] Hint Resolve ensure_normal_frame : frame.
Lemma request_set_refund_frame o b : preserves rp_view (request_set_refund o b).
Proof. unfold request_set_refund, rp_deposit, pmutate. destruct o; cbn [ensure_signed]; frame. Qed.
Lemma vault_key_presubmission_frame o k : preserves rp_view (vault_key_presubmission o k).
Proof. unfold vault_key_presubmission, rp_deposit, pmutate. destruct o, k; cbn [ensure_none]; frame. Qed.
Lemma set_max_presubmission_frame o m : preserves rp_view (set_max_presubmission o m).
Proof. unfold set_max_presubmission, pput. destruct o; cbn [ensure_root]; frame. Qed.
Lemma set_multi_sig_ratio_frame o m : preserves rp_view (set_multi_sig_ratio o m).
Proof. unfold set_multi_sig_ratio, rp_deposit, pput, pmutate. destruct o; cbn [ensure_root]; frame. Qed.
End Ops.
