(* ===== verification/RegistrationPoolTheorems.v ===== *)
(** * The registration pool: what holds of every storage reached

    The calls as a step relation; the registry is consistent; a migration goes
    round the four states of the service and ends with a new system vault;
    pending refund addresses are settled; the last key makes the vault; what
    the signatures of the executives cover. *)

From S2P Require Import Prelude Logic Errors Primitives Cccp BtcRelay RegistrationPool RegistrationPoolInv RegistrationPoolOps.
Local Open Scope Z_scope.
Local Open Scope frame_scope.

Section Steps.
Context {Q : Type} `{!SocketQueueManager Q, !RpConfig}.
Implicit Types (v : RpView Q) (s : RpStorage) (vt : MultiSigAccount) (t : BitcoinRelayTarget).

(** One extrinsic, or a call of another pallet. What fails is rolled back. No
    account signs for the precompile. *)
Inductive rp_step : RpStorage -> RpStorage -> Prop :=
| rp_step_unsigned v call s r s' : rp_apply_unsigned v call s = Some (r, s') -> rp_step s s'
| rp_step_request_set_refund o b s : rp_step s (dispatch (request_set_refund o b) s).2
| rp_step_request_vault v o b s :
    o <> SignedOrigin precompile -> rp_step s (dispatch (request_vault v o b) s).2
| rp_step_request_system_vault v o b s : rp_step s (dispatch (request_system_vault v o b) s).2
| rp_step_clear_vault o b s : rp_step s (dispatch (clear_vault o b) s).2
| rp_step_migration_control v o s : rp_step s (dispatch (migration_control v o) s).2
| rp_step_drop_previous_round o r s : rp_step s (dispatch (drop_previous_round o r) s).2
| rp_step_set_max_presubmission o m s : rp_step s (dispatch (set_max_presubmission o m) s).2
| rp_step_set_multi_sig_ratio o m s : rp_step s (dispatch (set_multi_sig_ratio o m) s).2
| rp_step_replace_authority old new s : rp_step s (dispatch (rp_replace_authority old new) s).2
| rp_step_process_set_refunds s : rp_step s (rp_process_set_refunds s).2
| rp_step_add_migration_tx txid s : rp_step s (rp_add_migration_tx txid s)
| rp_step_remove_migration_tx txid s : rp_step s (rp_remove_migration_tx txid s)
| rp_step_execute_migration_tx txid s : rp_step s (rp_execute_migration_tx txid s)
| rp_step_change_members l s : rp_step s (rp_change_members_sorted l s).

Definition rp_empty : RpStorage := mkRpStorage 0 ∅ Normal ∅ ∅ ∅ ∅ ∅ ∅ 0 ∅ 0 ∅ ∅ [].
Definition rp_start : RpStorage := rp_genesis_build rp_empty.
Definition rp_reachable s : Prop := rtc rp_step rp_start s.

(** What an unsigned call that is let in runs *)
Definition unsigned_call v (call : RpCall) : RPool unit :=
  match call with
  | CallSubmitVaultKey submission _ => submit_vault_key v NoneOrigin submission
  | CallSubmitSystemVaultKey submission _ => submit_system_vault_key v NoneOrigin submission
  | CallVaultKeyPresubmission submission _ => vault_key_presubmission NoneOrigin submission
  | CallApproveSetRefunds approval _ => approve_set_refunds NoneOrigin approval
  | CallRpOther => fail BadOrigin
  end.
Lemma rp_apply_dispatch v call s r s' :
  rp_apply_unsigned v call s = Some (r, s') -> s' = (dispatch (unsigned_call v call) s).2.
Proof.
  unfold rp_apply_unsigned. destruct (rp_validate_unsigned v call); [done|].
  destruct call; try done; intros [= E]; cbn [unsigned_call]; by rewrite E.
Qed.
Lemma unsigned_call_inv v call s u s' : rp_inv s -> unsigned_call v call s = (Done u, s') -> rp_inv s'.
Proof.
  intros Hi. destruct call; cbn [unsigned_call].
  - by apply submit_vault_key_inv.
  - by apply submit_system_vault_key_inv.
  - by apply rp_view_inv, Hi; apply vault_key_presubmission_frame.
  - by apply approve_set_refunds_inv.
  - done.
Qed.

Lemma rp_start_inv : rp_inv rp_start.
Proof.
  split; [split|split|done]; try done.
  - intros r who vt. unfold vault_of. by case_decide.
  - intros k [x Hx]. done.
  - intros k. constructor.
  - intros r a u Hu. by apply not_elem_of_nil in Hu.
Qed.

Lemma rp_step_inv s s' : rp_step s s' -> rp_inv s -> rp_inv s'.
Proof.
  intros Hstep Hi. destruct Hstep as
    [v call s r s' Hc|o b s|v o b s Ho|v o b s|o b s|v o s|o r s|o m s|o m s|old new s|s|x s|x s|x s|l s];
    try (apply dispatch_inv; [done|]; intros u s').
  - apply rp_apply_dispatch in Hc as ->. apply dispatch_inv; [done|]. intros u s''. by apply unsigned_call_inv.
  - apply rp_view_inv, Hi. apply request_set_refund_frame.
  - by apply request_vault_inv.
  - by apply request_system_vault_inv.
  - by apply clear_vault_inv.
  - by apply migration_control_inv.
  - by apply drop_previous_round_inv.
  - apply rp_view_inv, Hi. apply set_max_presubmission_frame.
  - apply rp_view_inv, Hi. apply set_multi_sig_ratio_frame.
  - intros Hr. eapply vaults_like_inv; [exact Hi|]. by eapply rp_replace_authority_like.
  - by apply rp_process_set_refunds_inv.
  - by apply (rp_inv_view s).
  - by apply (rp_inv_view s).
  - by apply (rp_inv_view s).
  - by apply (rp_inv_view s).
Qed.
Lemma rp_reachable_inv s : rp_reachable s -> rp_inv s.
Proof.
  intros Hr. unfold rp_reachable in Hr. pose proof rp_start_inv as Hi.
  induction Hr as [|x y z Hxy Hyz IH]; [done|]. apply IH. by eapply rp_step_inv.
Qed.

(** C5: The registry is consistent in every storage reached. A bonded
    address belongs to the vault of its owner, and that vault holds exactly as
    many keys as it announced when it was requested; the address and the
    descriptor are those of the keys, for some threshold. No user is bonded to
    it as a refund address. The users bonded to a refund address are distinct,
    and registered with it. *)
Theorem registry_consistent s r a who :
  rp_reachable s -> BondedVault s !! (r, a) = Some who ->
  exists vt, vault_of s r who = Some vt /\ msa_address vt = Generated a
    /\ Z.of_nat (size (msa_pub_keys vt)) = msa_n vt
    /\ derived (pub_keys vt) (msa_descriptor vt) a
    /\ BondedDescriptor s !! (r, a) = Some (msa_descriptor vt)
    /\ bonded_refund s (r, a) = []
    /\ (forall b, NoDup (bonded_refund s (r, b))
          /\ forall u, u ∈ bonded_refund s (r, b) -> refund_of s (r, u) = Some b).
Proof.
  intros Hr Hb. apply rp_reachable_inv in Hr as [Hv Hf _].
  destruct (v_bond _ Hv _ _ _ Hb) as (vt & Hvt & Ha & Hd). exists vt.
  destruct (v_ok _ Hv _ _ _ Hvt _ Ha) as [Hn Hder].
  split_and!; try done; [apply Hf; by eexists|]. intros b. split; [apply Hf|]. intros u. apply Hf.
Qed.

(** ** The migration *)

(** One turn of the service: the states a migration goes through. *)
Inductive turn s s' : Prop :=
| turn_none : ServiceState s' = ServiceState s -> CurrentRound s' = CurrentRound s -> turn s s'
| turn_start : ServiceState s = Normal -> ServiceState s' = SetExecutiveMembers ->
    CurrentRound s' = CurrentRound s -> turn s s'
| turn_prepare : ServiceState s = SetExecutiveMembers -> ServiceState s' = PrepareNextSystemVault ->
    CurrentRound s' = CurrentRound s -> SystemVault s !! next_round s = None ->
    is_Some (SystemVault s' !! next_round s) -> turn s s'
| turn_transfer : ServiceState s = PrepareNextSystemVault -> ServiceState s' = UTXOTransfer ->
    CurrentRound s' = CurrentRound s -> is_Some (rp_get_system_vault s' (next_round s)) -> turn s s'
| turn_end : ServiceState s = UTXOTransfer -> ServiceState s' = Normal ->
    CurrentRound s' = next_round s -> OngoingVaultMigration s <> ∅ ->
    (forall txid b, OngoingVaultMigration s !! txid = Some b -> b = true) ->
    OngoingVaultMigration s' = ∅ -> is_Some (rp_get_system_vault s' (CurrentRound s')) -> turn s s'.

(** The calls that leave the service where it is *)
Definition stage s := (CurrentRound s, ServiceState s).
Lemma turn_stage s s' : stage s' = stage s -> turn s s'.
Proof. intros [= E1 E2]. by apply turn_none. Qed.
Lemma dispatch_preserves {A B} (f : RpStorage -> B) (m : RPool A) s :
  preserves f m -> f (dispatch m s).2 = f s.
Proof. intros Hm. apply dispatch_inv; [done|]. intros u s' Hs. by eapply preserves_done. Qed.
Lemma view_stage {A} (m : RPool A) : preserves rp_view m -> preserves stage m.
Proof. intros Hm s. specialize (Hm s). injection Hm as E1 E2 _ _ _ _ _. unfold stage. by rewrite E1, E2. Qed.

Lemma checked_address_stage b : preserves stage (get_checked_bitcoin_address b).
Proof. apply view_stage, checked_address_frame. Qed.
Lemma ensure_normal_stage : preserves stage ensure_normal.
Proof. unfold ensure_normal. frame. Qed.
Lemma insert_key_stage r vt who a k : preserves stage (insert_key r vt who a k).
Proof. unfold insert_key, rp_deposit, pmutate. frame. Qed.
Lemma try_bond_stage v vt refund who r : preserves stage (try_bond_vault_address v vt refund who r).
Proof. unfold try_bond_vault_address, generate_vault_address, rp_deposit, pmutate. frame. Qed.
Lemma take_presubmitted_stage r t e : preserves stage (take_presubmitted r t e).
Proof. unfold take_presubmitted, pmutate. frame. Qed.
Lemma move_refund_stage r who t b : preserves stage (move_refund r who t b).
Proof. unfold move_refund, mutate_refund, pmutate. frame. Qed.
#[local] Hint Resolve checked_address_stage ensure_normal_stage insert_key_stage try_bond_stage
  take_presubmitted_stage move_refund_stage : frame.

Lemma submit_vault_key_stage v o k : preserves stage (submit_vault_key v o k).
Proof. unfold submit_vault_key, pmutate. destruct o, k; cbn [ensure_none]; frame. Qed.
Lemma request_vault_stage v o b : preserves stage (request_vault v o b).
Proof. unfold request_vault, mutate_refund, rp_deposit, pmutate. destruct o; cbn [ensure_signed]; frame. Qed.
Lemma request_system_vault_stage v o b : preserves stage (request_system_vault v o b).
Proof. unfold request_system_vault, rp_deposit, pmutate. destruct o; cbn [ensure_root]; frame. Qed.
Lemma clear_vault_stage o b : preserves stage (clear_vault o b).
Proof. unfold clear_vault, unbond_keys, pmutate. destruct o; cbn [ensure_root]; frame. Qed.
Lemma drop_previous_round_stage o r : preserves stage (drop_previous_round o r).
Proof. unfold drop_previous_round, rp_deposit, pmutate. destruct o; cbn [ensure_root]; frame. Qed.
Lemma approve_set_refunds_stage o a : preserves stage (approve_set_refunds o a).
Proof. unfold approve_set_refunds, approve_set_refund, rp_deposit, pmutate. destruct o; cbn [ensure_none]; frame. Qed.
Lemma process_set_refunds_stage : preserves stage rp_process_set_refunds.
Proof. unfold rp_process_set_refunds, process_set_refund, rp_deposit, pmutate. frame. Qed.
Lemma replace_authority_stage old new : preserves stage (rp_replace_authority old new).
Proof. unfold rp_replace_authority, replace_in_vault, pmutate. frame. Qed.

Lemma rp_step_turn s s' : rp_inv s -> rp_step s s' -> turn s s'.
Proof.
  intros Hi Hstep. destruct Hstep as
    [v call s r s' Hc|o b s|v o b s Ho|v o b s|o b s|v o s|o r s|o m s|o m s|old new s|s|x s|x s|x s|l s].
  - apply rp_apply_dispatch in Hc as ->. destruct call; cbn [unsigned_call].
    + apply turn_stage, dispatch_preserves, submit_vault_key_stage.
    + apply dispatch_inv; [by apply turn_stage|].
      intros u s' (r0 & vt & vt' & Hvt & Hp & Hround & _ & _ & E & Est)%submit_system_done.
      injection E as Ec Ev _ _. destruct Hround as [[Hn ->]|[Hn ->]]; rewrite Hn in Est.
      * rewrite decide_False in Est by naive_solver. apply turn_none; congruence.
      * case_decide as Hg; [|apply turn_none; congruence]. apply turn_transfer; try done.
        unfold rp_get_system_vault, generated. rewrite Ev, lookup_insert_eq. cbn.
        destruct (msa_address vt'); [naive_solver|done].
    + apply turn_stage, dispatch_preserves, view_stage, vault_key_presubmission_frame.
    + apply turn_stage, dispatch_preserves, approve_set_refunds_stage.
    + by apply turn_stage.
  - apply turn_stage, dispatch_preserves, view_stage, request_set_refund_frame.
  - apply turn_stage, dispatch_preserves, request_vault_stage.
  - apply turn_stage, dispatch_preserves, request_system_vault_stage.
  - apply turn_stage, dispatch_preserves, clear_vault_stage.
  - apply dispatch_inv; [by apply turn_stage|]. intros u s'
      [(Hst & _ & E & _)|[(Hst & vt & Hn & Hp & E)|(Hst & Hne & Hall & E & Ho)]]%migration_control_done;
      injection E as E1 E2 E3 _ _ _ _.
    + by apply turn_start.
    + apply turn_prepare; try done. rewrite E3. cbn. by rewrite lookup_insert_eq.
    + apply turn_end; try done. pose proof (p_migration _ Hi) as Hm. unfold migration_ok in Hm.
      rewrite Hst in Hm. unfold rp_get_system_vault in *. by rewrite E3, E1.
  - apply turn_stage, dispatch_preserves, drop_previous_round_stage.
  - apply turn_stage, dispatch_preserves, view_stage, set_max_presubmission_frame.
  - apply turn_stage, dispatch_preserves, view_stage, set_multi_sig_ratio_frame.
  - apply turn_stage, dispatch_preserves, replace_authority_stage.
  - apply turn_stage, process_set_refunds_stage.
  - by apply turn_stage.
  - by apply turn_stage.
  - by apply turn_stage.
  - by apply turn_stage.
Qed.


(** A migration that cannot go on: the vault of the next round is there
    before the migration prepares it. *)
Definition blocked (r : PoolRound) s : Prop :=
  ServiceState s = SetExecutiveMembers /\ CurrentRound s = r /\ is_Some (SystemVault s !! u32_add r 1).
(** The calls that run in the state [Normal] only *)
Ltac needs_normal :=
  mrun; match goal with H : ensure_normal _ = _ |- _ => by apply ensure_normal_done in H as [? _] end.
Lemma needs_normal_submit v o k s u s' : submit_vault_key v o k s = (Done u, s') -> ServiceState s = Normal.
Proof. unfold submit_vault_key. intros Hs. destruct o, k; cbn [ensure_none] in Hs; needs_normal. Qed.
Lemma needs_normal_request v o b s u s' : request_vault v o b s = (Done u, s') -> ServiceState s = Normal.
Proof. unfold request_vault. intros Hs. destruct o; cbn [ensure_signed] in Hs; needs_normal. Qed.
Lemma needs_normal_clear o b s u s' : clear_vault o b s = (Done u, s') -> ServiceState s = Normal.
Proof. unfold clear_vault. intros Hs. destruct o; cbn [ensure_root] in Hs; needs_normal. Qed.
Lemma needs_normal_drop o r s u s' : drop_previous_round o r s = (Done u, s') -> ServiceState s = Normal.
Proof. unfold drop_previous_round. intros Hs. destruct o; cbn [ensure_root] in Hs; needs_normal. Qed.
Lemma needs_normal_approve o a s u s' : approve_set_refunds o a s = (Done u, s') -> ServiceState s = Normal.
Proof. unfold approve_set_refunds. intros Hs. destruct o; cbn [ensure_none] in Hs; needs_normal. Qed.

(** The service and the system vaults *)
Definition vault_stage s := (stage s, SystemVault s).
Lemma blocked_same r s s' : vault_stage s' = vault_stage s -> blocked r s -> blocked r s'.
Proof. intros [= E1 E2 E3]. unfold blocked. by rewrite E1, E2, E3. Qed.
Lemma view_blocked {A} (m : RPool A) r s : preserves rp_view m -> blocked r s -> blocked r (dispatch m s).2.
Proof.
  intros Hm. apply blocked_same. apply dispatch_preserves. intros s0. specialize (Hm s0).
  injection Hm as E1 E2 E3 _ _ _ _. unfold vault_stage, stage. by rewrite E1, E2, E3.
Qed.
Lemma normal_blocked {A} (m : RPool A) r s :
  (forall u s', m s = (Done u, s') -> ServiceState s = Normal) -> blocked r s -> blocked r (dispatch m s).2.
Proof. intros Hm Hb. apply dispatch_inv; [done|]. intros u s' Hs%Hm. destruct Hb. congruence. Qed.
Lemma process_set_refunds_vaults : preserves vault_stage rp_process_set_refunds.
Proof. unfold rp_process_set_refunds, process_set_refund, move_refund, mutate_refund, rp_deposit, pmutate. frame. Qed.

Lemma rp_step_blocked rd s s' : rp_step s s' -> blocked rd s -> blocked rd s'.
Proof.
  intros Hstep Hb. pose proof Hb as (Hst & Hround & vt0 & Hvt0). destruct Hstep as
    [v call s r s' Hc|o b s|v o b s Ho|v o b s|o b s|v o s|o r s|o m s|o m s|old new s|s|x s|x s|x s|l s].
  - apply rp_apply_dispatch in Hc as ->. destruct call; cbn [unsigned_call].
    + apply normal_blocked, Hb. intros u s'. apply needs_normal_submit.
    + apply dispatch_inv; [done|]. intros u s' (r0 & vt & vt' & _ & _ & [[Hn _]|[Hn _]] & _)%submit_system_done; congruence.
    + apply view_blocked, Hb. apply vault_key_presubmission_frame.
    + apply normal_blocked, Hb. intros u s'. apply needs_normal_approve.
    + done.
  - apply view_blocked, Hb. apply request_set_refund_frame.
  - apply normal_blocked, Hb. intros u s'. apply needs_normal_request.
  - apply dispatch_inv; [done|]. intros u s' (r0 & vt & _ & _ & _ & [Hn|Hn] & _)%request_system_vault_done; congruence.
  - apply normal_blocked, Hb. intros u s'. apply needs_normal_clear.
  - apply dispatch_inv; [done|]. intros u s' [(Hn & _)|[(_ & vt & Hn & _)|(Hn & _)]]%migration_control_done;
      unfold next_round in *; congruence.
  - apply normal_blocked, Hb. intros u s'. apply needs_normal_drop.
  - apply view_blocked, Hb. apply set_max_presubmission_frame.
  - apply view_blocked, Hb. apply set_multi_sig_ratio_frame.
  - apply dispatch_inv; [done|]. intros u s' (Hsys & _ & E)%rp_replace_authority_like. injection E as E1 E2 _ _ _.
    unfold blocked. rewrite E1, E2. split; [done|]. split; [done|].
    destruct (Hsys (u32_add rd 1)) as [->|(? & ? & _ & -> & _)]; by eexists.
  - eapply blocked_same, Hb. apply process_set_refunds_vaults.
  - by apply (blocked_same _ s).
  - by apply (blocked_same _ s).
  - by apply (blocked_same _ s).
  - by apply (blocked_same _ s).
Qed.

(** A system vault for the next round that root requests before the
    migration blocks it for good. The call is accepted in the state [Normal];
    after the migration is started, no sequence of calls leaves the state
    [SetExecutiveMembers] or advances the round: the migration has to request
    that vault itself, which fails as it is there, and no call removes it. *)
Theorem early_vault_blocks_migration v v' s s1 s2 s3 :
  ServiceState s = Normal -> request_system_vault v RootOrigin true s = (Done tt, s1) ->
  migration_control v' RootOrigin s1 = (Done tt, s2) -> rtc rp_step s2 s3 ->
  ServiceState s3 = SetExecutiveMembers /\ CurrentRound s3 = CurrentRound s.
Proof.
  intros Hn (r & vt & _ & _ & -> & _ & E)%request_system_vault_done Hc Hsteps.
  injection E as E1 E2 E3 _ _ _ _. cbn in E1, E2, E3.
  apply migration_control_done in Hc as [(_ & _ & E & _)|[(Hn' & _)|(Hn' & _)]]; [|congruence..].
  injection E as F1 F2 F3 _ _ _ _. cbn in F1, F2, F3.
  assert (blocked (CurrentRound s) s2) as Hb.
  { unfold blocked, next_round in *. rewrite F2, F3, F1, E3, E1, lookup_insert_eq. done. }
  clear -Hsteps Hb. induction Hsteps as [a|a b c Hab Hbc IH]; [by destruct Hb as (? & ? & _)|].
  apply IH. by eapply rp_step_blocked.
Qed.
(** ** Pending refund addresses *)

(** What becomes of the refund address [old] of a user that asked for the one
    of [state]: the new one is refused when it is bonded as a vault. *)
Definition settled_refund (bonded : gmap (Z * list byte) AccountId) (r : PoolRound)
    (state : option SetRefundState) (old : option BoundedBitcoinAddress) : option BoundedBitcoinAddress :=
  match state, old with
  | Some st, Some _ => if has bonded (r, srs_new st) then old else Some (srs_new st)
  | _, _ => old
  end.

Lemma move_refund_effect r who t new s u s' :
  move_refund r who t new s = (Done u, s') ->
  (forall k, refund_of s' k = if decide (k = (r, who)) then Some new else refund_of s k)
  /\ who ∈ bonded_refund s' (r, new)
  /\ (forall k w, w <> who -> w ∈ bonded_refund s k -> w ∈ bonded_refund s' k)
  /\ (BondedVault s', PendingSetRefunds s') = (BondedVault s, PendingSetRefunds s).
Proof.
  unfold move_refund, mutate_refund, pmutate. intros Hs. mrun. unfold id in *. split_and!; [..|done].
  - intros k. unfold refund_of. reads. case_decide as Hk; [subst; by rewrite lookup_insert_eq|].
    by rewrite lookup_insert_ne by congruence.
  - unfold bonded_refund at 1. reads. rewrite lookup_insert_eq. cbn. set_solver.
  - intros k w Hw Hin. unfold bonded_refund at 1. reads.
    destruct (decide (k = (r, new))) as [->|Hn]; [rewrite lookup_insert_eq|rewrite lookup_insert_ne by congruence].
    + cbn. apply elem_of_app. left. unfold bonded_refund at 1. reads.
      destruct (decide ((r, rt_refund_address t) = (r, new))) as [E|]; [rewrite E, lookup_insert_eq|by rewrite lookup_insert_ne].
      cbn. by apply list_elem_of_filter.
    + destruct (decide (k = (r, rt_refund_address t))) as [->|]; [rewrite lookup_insert_eq|by rewrite lookup_insert_ne].
      cbn. by apply list_elem_of_filter.
Qed.

Lemma process_set_refund_effect r w st s u s' :
  process_set_refund r w st s = (Done u, s') ->
  (forall k, refund_of s' k =
     if decide (k = (r, w)) then settled_refund (BondedVault s) r (Some st) (refund_of s k) else refund_of s k)
  /\ (is_Some (refund_of s (r, w)) -> has (BondedVault s) (r, srs_new st) = false -> w ∈ bonded_refund s' (r, srs_new st))
  /\ (forall k w', w' <> w -> w' ∈ bonded_refund s k -> w' ∈ bonded_refund s' k)
  /\ (BondedVault s', PendingSetRefunds s') = (BondedVault s, PendingSetRefunds s).
Proof.
  unfold process_set_refund, rp_deposit, pmutate. intros Hs. mrun. unfold id in *. cbn [settled_refund].
  match goal with H : (if has ?m ?k then _ else _) _ = _ |- _ => destruct (has m k) eqn:Eh end.
  - mrun. split_and!; try done. intros k. unfold refund_of. reads. case_decide; [|done]. by case_match.
  - destruct (RegistrationPool s !! (r, w)) as [t|] eqn:Et; mrun.
    + match goal with H : move_refund _ _ _ _ _ = _ |- _ => apply move_refund_effect in H as (Hr & Hin & Hk & Hf) end.
      split_and!; try done. intros k. specialize (Hr k). unfold refund_of in *. reads. rewrite Hr.
      case_decide; [|done]. subst k. by rewrite Et.
    + split_and!; try done.
      * intros k. unfold refund_of. reads. case_decide; [|done]. subst k. by rewrite Et.
      * unfold refund_of. rewrite Et. by intros [].
Qed.

Lemma process_loop r l s u s' :
  NoDup l.*1 ->
  for_each l (fun kv => process_set_refund r kv.1 kv.2) s = (Done u, s') ->
  (BondedVault s', PendingSetRefunds s') = (BondedVault s, PendingSetRefunds s)
  /\ (forall w st, (w, st) ∈ l ->
       refund_of s' (r, w) = settled_refund (BondedVault s) r (Some st) (refund_of s (r, w))
       /\ (is_Some (refund_of s (r, w)) -> has (BondedVault s) (r, srs_new st) = false ->
           w ∈ bonded_refund s' (r, srs_new st)))
  /\ (forall k, (forall st, k.1 = r -> (k.2, st) ∉ l) -> refund_of s' k = refund_of s k)
  /\ (forall k w, w ∉ l.*1 -> w ∈ bonded_refund s k -> w ∈ bonded_refund s' k).
Proof.
  revert s. induction l as [|[w0 st0] l IH]; intros s Hn Hl; cbn [for_each] in Hl; mrun.
  { split_and!; try done. by intros w st ?%not_elem_of_nil. }
  match goal with H : process_set_refund _ _ _ _ = _ |- _ => apply process_set_refund_effect in H as (Hr & Hin & Hk & [= E1 E2]) end.
  apply NoDup_cons in Hn as [Hw0 Hn].
  match goal with H : for_each _ _ _ = _ |- _ => apply IH in H as ([= E3 E4] & Hl & Hout & Hkeep) end; [|done].
  assert (forall st, (w0, st) ∉ l) as Hw0'.
  { intros st Hi. apply Hw0, list_elem_of_fmap. by exists (w0, st). }
  rewrite E1 in Hl. split_and!; [congruence| | |].
  - intros w st [[= -> ->]|Hi]%elem_of_cons.
    + rewrite Hout by (intros st _; apply Hw0'). rewrite Hr, decide_True by done. split; [done|].
      intros ? ?. apply Hkeep; [done|]. by apply Hin.
    + destruct (Hl w st Hi) as [-> Hb]. assert ((r, w) <> (r, w0)) as Hne.
      { intros [= ->]. by apply (Hw0' st). }
      rewrite Hr, decide_False in * by done. by split.
  - intros k Hk'. rewrite Hout by (intros st ? ?; eapply Hk'; [done|by right]).
    rewrite Hr, decide_False; [done|]. intros ->. eapply Hk'; [done|by left].
  - intros k w Hw Hi. apply not_elem_of_cons in Hw as [? ?]. apply Hkeep; [done|]. by apply Hk.
Qed.
(** The pending refund addresses of the round are all settled at once, in
    any order, and the hook never fails. Afterwards no request of the round is
    left; a registered user that asked for an address has it and is bonded to
    it, unless the address was bonded as a vault meanwhile; every other user,
    and the other rounds, are as they were. *)
Theorem refunds_are_settled s who :
  let r := CurrentRound s in
  exists s', rp_process_set_refunds s = (Done tt, s')
    /\ PendingSetRefunds s' !! (r, who) = None
    /\ refund_of s' (r, who)
       = settled_refund (BondedVault s) r (PendingSetRefunds s !! (r, who)) (refund_of s (r, who))
    /\ (forall st, PendingSetRefunds s !! (r, who) = Some st -> is_Some (refund_of s (r, who)) ->
          has (BondedVault s) (r, srs_new st) = false -> who ∈ bonded_refund s' (r, srs_new st))
    /\ (forall k, k.1 <> r ->
          PendingSetRefunds s' !! k = PendingSetRefunds s !! k /\ refund_of s' k = refund_of s k).
Proof.
  cbv zeta. destruct (process_set_refunds_runs s) as [s' E]. exists s'. split; [done|].
  unfold rp_process_set_refunds, pmutate in E. mrun. unfold id in *.
  match goal with H : for_each _ _ _ = _ |- _ => rename H into Hl end.
  destruct (iter_prefix_spec (PendingSetRefunds s) (CurrentRound s)) as [Hn Hin].
  apply process_loop in Hl as ([= _ Ep] & Hl & Hout & _); [|done].
  split_and!.
  - reads. by rewrite clear_prefix_lookup, bool_decide_true.
  - match goal with |- refund_of (_ ?s1) ?k = ?o => change (refund_of s1 k = o) end.
    destruct (PendingSetRefunds s !! (CurrentRound s, who)) as [st|] eqn:Est.
    + apply Hin in Est. by destruct (Hl _ _ Est) as [-> _].
    + cbn. apply Hout. intros st _ Hi%Hin. cbn in Hi. congruence.
  - intros st Est Hsome Hfree. apply Hin in Est. by apply (Hl _ _ Est).
  - intros k Hk. reads. rewrite clear_prefix_lookup, bool_decide_false, Ep by done. split; [done|].
    unfold refund_of. reads. apply Hout. by intros st Hk'.
Qed.

(** ** The last key *)

Lemma insert_key_runs r vt who auth k s :
  msa_address vt = Pending -> msa_pub_keys vt !! auth = None -> is_key_submitted vt k = false ->
  is_Some (PublicKey_from_slice k) -> BondedPubKey s !! (r, k) = None ->
  Z.of_nat (size (msa_pub_keys vt)) < MULTI_SIG_MAX_ACCOUNTS ->
  insert_key r vt who auth k s = (Done (vt <| msa_pub_keys := <[auth := k]> (msa_pub_keys vt) |>),
    s <| RpEvents ::= fun l => l ++ [EvVaultKeySubmitted who k] |>).
Proof.
  intros Hp Ha Hk Hvalid Hkey Hsize. unfold insert_key, is_pending, is_authority_submitted.
  repeat run_step. rewrite bool_decide_true by done. repeat run_step.
  rewrite Ha, bool_decide_false by (by intros []). cbn [negb]. repeat run_step.
  rewrite Hk. cbn [negb]. repeat run_step. rewrite bool_decide_true by done. repeat run_step. unfold id, has.
  rewrite Hkey, bool_decide_false by (by intros []). cbn [negb]. repeat run_step.
  unfold try_insert_map. rewrite Ha, (proj2 (Z.ltb_lt _ _)) by done. done.
Qed.
Lemma try_bond_runs v vt refund who r s desc a :
  generate_descriptor (get_m v s) (pub_keys vt) = Some desc ->
  descriptor_address desc bitcoin_network = Some a -> Z.of_nat (length a) <= ADDRESS_MAX_LENGTH ->
  a <> refund -> BondedRefund s !! (r, a) = None ->
  try_bond_vault_address v vt refund who r s
  = (Done (set_descriptor (descriptor_to_string desc) (set_address a vt)),
     bond_address r who refund a (descriptor_to_string desc) s).
Proof.
  intros Hdesc Haddr Hlen Hne Href. unfold try_bond_vault_address, generate_vault_address.
  repeat run_step. unfold id. rewrite Hdesc. repeat run_step. rewrite Haddr. repeat run_step.
  unfold bounded_address. rewrite (proj2 (Z.leb_le _ _)) by done. repeat run_step.
  rewrite bool_decide_false by done. repeat run_step. unfold has.
  rewrite Href, bool_decide_false by (by intros []). done.
Qed.

(** The last key makes the vault. When an executive submits for a user
    with a pending vault the one key that is still missing, a valid key that is
    not in use, the call succeeds: the vault of the user has the address of its
    keys, the key and the address are bonded to the user, provided the address
    is no refund address. *)
Theorem last_key_generates_vault v who auth key s t desc a :
  let r := CurrentRound s in let vt := rt_vault t in
  let keys := <[auth := key]> (msa_pub_keys vt) in
  ServiceState s = Normal -> RegistrationPool s !! (r, who) = Some t -> msa_address vt = Pending ->
  msa_pub_keys vt !! auth = None -> is_key_submitted vt key = false ->
  is_Some (PublicKey_from_slice key) -> BondedPubKey s !! (r, key) = None ->
  Z.of_nat (size (msa_pub_keys vt)) + 1 = msa_n vt -> msa_n vt <= MULTI_SIG_MAX_ACCOUNTS ->
  generate_descriptor (get_m v s) (acc_iter keys).*2 = Some desc ->
  descriptor_address desc bitcoin_network = Some a -> Z.of_nat (length a) <= ADDRESS_MAX_LENGTH ->
  a <> rt_refund_address t -> BondedRefund s !! (r, a) = None ->
  exists s', submit_vault_key v NoneOrigin (mkVaultKeySubmission auth who key r) s = (Done tt, s')
    /\ rp_get_vault_address s' who = Some a
    /\ BondedVault s' !! (r, a) = Some who /\ BondedPubKey s' !! (r, key) = Some who
    /\ rp_get_refund_address s' who = Some (rt_refund_address t).
Proof.
  cbv zeta. intros Hst Ht Hp Ha Hk Hvalid Hkey Hsize Hmax Hdesc Haddr Hlen Hne Href.
  set (vt' := (rt_vault t) <| msa_pub_keys := <[auth := key]> (msa_pub_keys (rt_vault t)) |>).
  eassert (submit_vault_key v NoneOrigin _ s = (Done tt, _)) as E; [|eexists; split; [exact E|]].
  - unfold submit_vault_key, ensure_normal. cbn [ensure_none]. repeat run_step.
    unfold id. rewrite bool_decide_true by done. repeat run_step. unfold id. rewrite Z.eqb_refl. repeat run_step.
    rewrite Ht. unfold bind at 1. rewrite insert_key_runs by (done || lia). fold vt'.
    replace (is_key_generation_ready vt') with true.
    2:{ symmetry. unfold is_key_generation_ready. cbn. rewrite map_size_insert, Ha. apply Z.eqb_eq. lia. }
    unfold bind at 1. erewrite try_bond_runs by done. reflexivity.
  - unfold rp_get_vault_address, rp_get_refund_address, bond_address. reads.
    rewrite !lookup_insert_eq. done.
Qed.
(** ** What the executives sign *)

Lemma append_nil_r x : String.append x EmptyString = x.
Proof. induction x as [|c x IH]; [done|]. by apply (f_equal (String c)). Qed.

(** What the signatures of the executives do not cover. A signature of a
    key for one user is valid for any other user and for the system vault; the
    signature of a pre-submission of a single key is valid as the submission
    of that key for any user; and the approval of new refund addresses is
    valid for any addresses of the same users. Whoever sees such a call can
    replay its signature. *)
Theorem signatures_can_be_replayed v auth k r sig :
  (forall who who' tag tag' x, verify_key_submission v (mkVaultKeySubmission auth who k r) sig tag = inr x ->
     exists y, verify_key_submission v (mkVaultKeySubmission auth who' k r) sig tag' = inr y)
  /\ (forall who tag x, verify_key_presubmission v (mkVaultKeyPreSubmission auth [k] r) sig = inr x ->
     exists y, verify_key_submission v (mkVaultKeySubmission auth who k r) sig tag = inr y)
  /\ (forall sets sets' deadline x, sets.*1 = sets'.*1 ->
     verify_set_refunds_approval v (mkSetRefundsApproval auth sets r deadline) sig = inr x ->
     exists y, verify_set_refunds_approval v (mkSetRefundsApproval auth sets' r deadline) sig = inr y).
Proof.
  split_and!.
  - intros who who' tag tag' x. unfold verify_key_submission.
    destruct (is_executive v auth); [|done]. cbn [negb]. destruct (verify sig _ auth); [|done]. by eexists.
  - intros who tag x. unfold verify_key_presubmission, verify_key_submission.
    destruct (is_executive v auth); [|done]. cbn [negb fmap list_fmap concat_strings foldr].
    rewrite append_nil_r. destruct (verify sig _ auth); [|done]. by eexists.
  - intros sets sets' deadline x Hsets. unfold verify_set_refunds_approval. cbn [sra_authority_id sra_deadline].
    destruct (sq_verify_legacy_authority _ auth); [done|]. destruct (deadline <? pv_now v); [done|].
    replace (approval_message (mkSetRefundsApproval auth sets' r deadline))
      with (approval_message (mkSetRefundsApproval auth sets r deadline)).
    + destruct (verify sig _ auth); [|done]. by eexists.
    + unfold approval_message. cbn [sra_refund_sets sra_pool_round sra_deadline].
      pose proof (list_fmap_compose fst (fun a => hex_encode (to_be_bytes 20 (Z.of_N a))) sets) as E.
      pose proof (list_fmap_compose fst (fun a => hex_encode (to_be_bytes 20 (Z.of_N a))) sets') as E'.
      rewrite Hsets, <- E' in E. unfold compose in E. by rewrite E.
Qed.
End Steps.
