(* ===== verification/RegistrationPoolRuns.v ===== *)
(** * The registration pool on concrete inputs

    A concrete configuration with two relay executives, a registration, a
    migration, the witnesses of the theorems on the registration pool, and the
    runs that show what its calls let through. *)

From S2P Require Import Prelude Logic Errors Primitives Cccp BtcRelay RegistrationPool RegistrationPoolInv RegistrationPoolOps RegistrationPoolTheorems BridgeInstances.
Local Open Scope Z_scope.
Local Open Scope frame_scope.

(** ** The configuration *)

#[export] Instance rp_config : RpConfig := {
  rp_lib := simple_btc;
  rp_crypto := recording_crypto (numbered_hash []);
  percent_mul_ceil p n := (p * n + 99) / 100;
  default_multi_sig_ratio := 60;
  bitcoin_network := tt;
  bitcoin_chain_id := 1
}.
(** A socket queue that is ready, with the authority 50. *)
#[export] Instance ready_queue : SocketQueueManager unit := {
  is_ready_for_migrate _ := true;
  sq_verify_authority _ a := if N.eqb a 50 then inr tt else inl BadSigner;
  sq_verify_legacy_authority _ a := if N.eqb a 50 then inr tt else inl BadSigner;
  get_max_fee_rate _ := 1000;
  verify_socket_message _ _ := true;
  get_max_socket_message_bytes _ := 8192
}.
Definition executives : RpView unit := mkRpView unit [1%N; 2%N] tt 10.
Definition text (s : string) : list byte := as_bytes s.
Definition sign (who : AccountId) (message : list byte) : @Signature rp_crypto := (who, message).

(** An unsigned call that has to be valid. *)
Definition unsigned (call : RpCall) : RPool unit := fun s =>
  match rp_apply_unsigned executives call s with Some r => r | None => (Fail BadOrigin, s) end.
(** An executive pre-submits one key, with its signature. *)
Definition presubmission (who : AccountId) (k : Public) : VaultKeyPreSubmission :=
  mkVaultKeyPreSubmission who [k] 1.
Definition presubmission_signature (who : AccountId) (k : Public) : @Signature rp_crypto :=
  sign who (key_message 1 (key_hex k)).
Definition presubmit (who : AccountId) (k : Public) : RPool unit :=
  unsigned (CallVaultKeyPresubmission (presubmission who k) (presubmission_signature who k)).
(** The signature of a pre-submission in a submission for a user. *)
Definition replay (who : AccountId) (k : Public) (user : AccountId) : RPool unit :=
  unsigned (CallSubmitVaultKey (mkVaultKeySubmission who user k 1) (presubmission_signature who k)).
Definition register (user : AccountId) (refund : string) : RPool unit :=
  request_vault executives (SignedOrigin user) (text refund).

Lemma pool_unsigned_steps call s : rtc (rp_step (Q := unit)) s (unsigned call s).2.
Proof.
  unfold unsigned. destruct (rp_apply_unsigned executives call s) as [[r s']|] eqn:E; [|done].
  apply rtc_once. by econstructor.
Qed.

(** ** A registration *)

Definition p1 : RpStorage := (presubmit 1 11 rp_start).2.
Definition p2 : RpStorage := (presubmit 2 12 p1).2.
Definition p3 : RpStorage := (dispatch (register 100 "alice") p2).2.
Definition keys12 : gmap N Public := {[1%N := 11%N; 2%N := 12%N]}.
Definition vault12 : list byte := descriptor_bytes (2, [11%N; 12%N]).

Example p3_vault : rp_get_vault_address p3 100 = Some vault12.
Proof. vm_compute. reflexivity. Qed.
Lemma p2_reachable : rtc (rp_step (Q := unit)) rp_start p2.
Proof. etransitivity; apply pool_unsigned_steps. Qed.
Lemma p3_reachable : rtc (rp_step (Q := unit)) rp_start p3.
Proof. eapply rtc_r; [apply p2_reachable|]. by apply (rp_step_request_vault executives). Qed.

Lemma registry_witness :
  exists vt, vault_of p3 1 100 = Some vt /\ Z.of_nat (size (msa_pub_keys vt)) = msa_n vt.
Proof.
  destruct (registry_consistent (Q := unit) p3 1 vault12 100) as (vt & Hv & _ & Hn & _).
  - exact p3_reachable.
  - vm_compute. reflexivity.
  - exists vt. split; [exact Hv|exact Hn].
Defined.


(** The vault of the next round is requested too early. *)
Definition e1 : RpStorage := (request_system_vault executives RootOrigin true p3).2.
Definition e2 : RpStorage := (migration_control executives RootOrigin e1).2.
Lemma early_vault_witness :
  ServiceState (dispatch (migration_control executives RootOrigin) e2).2 = SetExecutiveMembers.
Proof.
  refine (proj1 (early_vault_blocks_migration executives executives p3 e1 e2 _ _ _ _ _)).
  - vm_compute. reflexivity.
  - vm_compute. reflexivity.
  - vm_compute. reflexivity.
  - apply rtc_once, rp_step_migration_control.
Defined.

Definition desc12 : @Descriptor (@rp_lib rp_config) := (2, [11%N; 12%N]).
(** A user without pre-submitted keys, and the second of its two keys. *)
Definition k1 : RpStorage := (dispatch (register 100 "alice") rp_start).2.
Definition k2 : RpStorage := (replay 1 11 100 k1).2.
Definition one_key : BitcoinRelayTarget :=
  mkBitcoinRelayTarget (text "alice") (mkMultiSigAccount Pending [] {[1%N := 11%N]} 2 2).
Lemma last_key_witness :
  exists s', submit_vault_key executives NoneOrigin (mkVaultKeySubmission 2 100 12 1) k2 = (Done tt, s')
    /\ rp_get_vault_address s' 100 = Some vault12.
Proof.
  destruct (last_key_generates_vault executives 100 2 12 k2 one_key desc12 vault12)
    as (s' & Hrun & Ha & _).
  all: try (vm_compute; reflexivity).
  - vm_compute. by eexists.
  - vm_compute. discriminate.
  - vm_compute. discriminate.
  - vm_compute. discriminate.
  - exists s'. split; [exact Hrun|exact Ha].
Defined.

Definition valid_presubmission : ValidTransaction RpProvides :=
  mkValidTransaction _ "KeyPreSubmission" priority_max
    (ProvidesKeys 1 [11%N] (presubmission_signature 1 11)) true.
Lemma replay_witness :
  exists y, verify_key_submission executives (mkVaultKeySubmission 1 101 11 1)
    (presubmission_signature 1 11) "RegPoolKeySubmission" = inr y.
Proof.
  refine (proj1 (proj2 (signatures_can_be_replayed executives 1 11 1 (presubmission_signature 1 11)))
    101%N "RegPoolKeySubmission" valid_presubmission _).
  unfold valid_presubmission, verify_key_presubmission, presubmission_signature, sign, verify, rp_crypto, rp_config, recording_crypto.
  rewrite bool_decide_true; [|reflexivity]. reflexivity.
Defined.

(** ** Two users, one vault *)

(** Executive 1 pre-submits the key 11, user 101 asks for a vault and gets it
    pending; executive 2 pre-submits 12, user 100 asks for a vault and gets it
    pending. Then anyone replays the two signatures. *)
Definition two_vaults : RPool unit :=
  do* presubmit 1 11 in
  do* register 101 "bob" in
  do* presubmit 2 12 in
  do* register 100 "alice" in
  do* replay 1 11 100 in
  replay 2 12 101.

(** Two users with one vault. When a vault request finds the pre-submitted
    keys of some executives only, the vault stays pending with these keys, but
    they are not bonded to the user. The pre-submission signatures, replayed
    as submissions for another user, put the same keys in both vaults: both
    users are given one and the same address, which is bonded to the second
    only. The executives signed nothing but one pre-submission each. *)
Theorem two_users_one_vault :
  let end_state := two_vaults rp_start in
  end_state.1 = Done tt
  /\ rp_get_vault_address end_state.2 100 = Some vault12
  /\ rp_get_vault_address end_state.2 101 = Some vault12
  /\ BondedVault end_state.2 !! (1, vault12) = Some 101%N.
Proof. vm_compute. split_and!; reflexivity. Qed.

(** ** A vault is cleared *)

(** Two users share a refund address; root clears the vault of the first. *)
Definition shared_refund : RPool unit :=
  do* presubmit 1 11 in
  do* presubmit 2 12 in
  do* register 100 "shared" in
  do* register 101 "shared" in
  clear_vault RootOrigin vault12.

(** The second user is still registered with the address, and no longer bonded
    to it. *)
Lemma clear_vault_unbonds_others :
  let end_state := shared_refund rp_start in
  end_state.1 = Done tt
  /\ rp_get_refund_address end_state.2 101 = Some (text "shared")
  /\ has (BondedRefund end_state.2) (1, text "shared") = false.
Proof. vm_compute. split_and!; reflexivity. Qed.
