(* ===== verification/BlazeInv.v ===== *)
(** * Blaze: what holds of every storage reached

    The calls as a step relation, the atomic changes they make to the UTXOs,
    and the invariants: the voters of a UTXO or a transaction are distinct, the
    outbound pool holds one message a sequence, and, as long as no relayer is
    replaced, the cap on the unconfirmed UTXOs of a relayer. *)

From S2P Require Import Prelude Logic Errors Primitives Cccp BtcRelay CoinSelection Blaze.
Local Open Scope Z_scope.
Local Open Scope frame_scope.

Section Changes.
Implicit Types (s : BzStorage) (u : Utxo).

(** [s'] has the UTXOs of [s], one of them changed, and the counts of [s],
    one of them lowered where an unconfirmed UTXO is confirmed or removed. *)
Definition lowered (voters : list AccountId) s : gmap N Z :=
  match head voters with
  | Some a => <[a := sat_sub (unconfirmed_count s a) 1]> (UnconfirmedUtxoCount s)
  | None => UnconfirmedUtxoCount s
  end.
Definition with_voters (u : Utxo) (voters : list AccountId) : Utxo := u <| u_voters := voters |>.
Definition with_status (u : Utxo) (status : UtxoStatus) : Utxo := u <| u_status := status |>.

Inductive utxo_change s s' : Prop :=
| change_none :
    Utxos s' = Utxos s -> UnconfirmedUtxoCount s' = UnconfirmedUtxoCount s -> utxo_change s s'
| change_vote h u a :
    Utxos s !! h = Some u -> u_status u = Unconfirmed -> a ∉ u_voters u ->
    Z.of_nat (length (u_voters u)) < MAX_AUTHORITIES ->
    Utxos s' = <[h := with_voters u (u_voters u ++ [a])]> (Utxos s) ->
    UnconfirmedUtxoCount s' = UnconfirmedUtxoCount s -> utxo_change s s'
| change_confirm h u a :
    Utxos s !! h = Some u -> u_status u = Unconfirmed -> a ∉ u_voters u ->
    Z.of_nat (length (u_voters u)) < MAX_AUTHORITIES ->
    Utxos s' = <[h := with_status (with_voters u (u_voters u ++ [a])) Available]> (Utxos s) ->
    UnconfirmedUtxoCount s' = lowered (u_voters u ++ [a]) s -> utxo_change s s'
| change_open h u a :
    Utxos s !! h = None -> u_status u = Unconfirmed -> u_voters u = [a] -> us_hash (u_inner u) = h ->
    unconfirmed_count s a < MAX_UNCONFIRMED_UTXOS_PER_RELAYER ->
    Utxos s' = <[h := u]> (Utxos s) ->
    UnconfirmedUtxoCount s' = <[a := u32_add (unconfirmed_count s a) 1]> (UnconfirmedUtxoCount s) ->
    utxo_change s s'
| change_push h u :
    Utxos s !! h = None -> u_status u = Available -> u_voters u = [] -> us_hash (u_inner u) = h ->
    Utxos s' = <[h := u]> (Utxos s) ->
    UnconfirmedUtxoCount s' = UnconfirmedUtxoCount s -> utxo_change s s'
| change_remove h u :
    Utxos s !! h = Some u -> Utxos s' = delete h (Utxos s) ->
    UnconfirmedUtxoCount s' =
      (if bool_decide (u_status u = Unconfirmed) then lowered (u_voters u) s else UnconfirmedUtxoCount s) ->
    utxo_change s s'
| change_mark h u status :
    Utxos s !! h = Some u -> status <> Unconfirmed ->
    Utxos s' = <[h := with_status u status]> (Utxos s) ->
    UnconfirmedUtxoCount s' = UnconfirmedUtxoCount s -> utxo_change s s'.

Definition utxo_changes : relation BzStorage := rtc utxo_change.

(** The rest of the storage *)
Definition other_parts s := (ConfirmedTxs s, OutboundPool s, FeeRates s).

Lemma change_same s s' :
  Utxos s' = Utxos s -> UnconfirmedUtxoCount s' = UnconfirmedUtxoCount s -> utxo_changes s s'.
Proof. intros. by apply rtc_once, change_none. Qed.

Lemma drop_unconfirmed_eq voters s :
  drop_unconfirmed voters s = (Done tt, s <| UnconfirmedUtxoCount := lowered voters s |>).
Proof. unfold drop_unconfirmed, lowered. destruct (head voters); [done|]. by destruct s. Qed.
Lemma drop_unconfirmed_done voters s x s' :
  drop_unconfirmed voters s = (Done x, s') <-> s' = s <| UnconfirmedUtxoCount := lowered voters s |>.
Proof. rewrite drop_unconfirmed_eq. destruct x. split; [by intros [= <-]|by intros ->]. Qed.

Lemma try_push_room {A} (bound : Z) (x : A) l l' :
  try_push bound x l = Some l' -> l' = l ++ [x] /\ Z.of_nat (length l) < bound.
Proof. unfold try_push. destruct (Z.ltb_spec (Z.of_nat (length l)) bound); [|done]. by intros [= <-]. Qed.
End Changes.

(** The run of a call, step by step *)
Ltac inv_run := unfold bz_deposit, bmutate, bput in *; mrun; unfold id in *.
Ltac loop_as Hs := match goal with Hl : for_each _ _ _ = _ |- _ => rename Hl into Hs end.

Section Calls.
Context `{!BzConfig} {R P Q : Type} `{!Authorities R, !PoolManager P, !SocketQueueManager Q}.
Implicit Types (v : BzView R P Q) (s : BzStorage) (u : Utxo).

(** ** Each call is a sequence of changes *)

Lemma set_utxo_status_changes status input s x s' :
  status <> Unconfirmed -> set_utxo_status status input s = (Done x, s') -> utxo_changes s s'.
Proof.
  intros Hst Hs. unfold set_utxo_status in Hs. inv_run.
  destruct (Utxos s !! us_hash input) as [u|] eqn:E; [|inv_run]. inv_run.
  apply rtc_once. by eapply change_mark.
Qed.
Lemma mark_all_changes status inputs s x s' :
  status <> Unconfirmed -> for_each inputs (set_utxo_status status) s = (Done x, s') -> utxo_changes s s'.
Proof.
  intros Hst. apply (for_each_inv (utxo_changes s)); [|done].
  intros i s1 y s2 Hc1 Hc2. etrans; [exact Hc1|]. by eapply set_utxo_status_changes; [|exact Hc2].
Qed.
Lemma lock_utxos_changes txid inputs s x s' : lock_utxos txid inputs s = (Done x, s') -> utxo_changes s s'.
Proof.
  unfold lock_utxos, bmutate. intros Hs. inv_run. etrans; [eapply mark_all_changes; [|eassumption]; done|].
  by apply change_same.
Qed.
Lemma take_pending_changes txid status s x s' :
  status <> Unconfirmed -> take_pending txid status s = (Done x, s') -> utxo_changes s s'.
Proof.
  intros Hst Hs. unfold take_pending in Hs. inv_run. destruct (PendingTxs s !! txid) as [tx|]; [|inv_run].
  inv_run. etrans; [|eapply mark_all_changes; [|eassumption]; done]. by apply change_same.
Qed.

Lemma vote_utxo_changes v a h u s x s' :
  Utxos s !! h = Some u -> vote_utxo v a h u s = (Done x, s') -> utxo_changes s s'.
Proof.
  intros Hu Hs. unfold vote_utxo in Hs.
  case_bool_decide as Hst; cbn [negb] in Hs; [|inv_run; done].
  case_bool_decide as Ha; [inv_run; done|].
  inv_run. 
  match goal with Hp : try_push _ _ _ = Some _ |- _ => apply try_push_room in Hp as [-> Hlen] end.
  apply rtc_once.
  destruct (au_majority _ <=? _); inv_run.
  - match goal with Hd : drop_unconfirmed _ _ = _ |- _ => apply drop_unconfirmed_done in Hd as -> end.
    by eapply change_confirm.
  - by eapply change_vote.
Qed.
Lemma open_utxo_changes a utxo d s x s' :
  Utxos s !! utxo_hash utxo = None -> open_utxo a utxo d s = (Done x, s') -> utxo_changes s s'.
Proof.
  intros Hn Hs. unfold open_utxo in Hs. inv_run.
  destruct (Z.leb_spec MAX_UNCONFIRMED_UTXOS_PER_RELAYER (unconfirmed_count s a)); [inv_run; done|].
  unfold input_size in *. inv_run. case_match; inv_run; [|done].
  apply rtc_once. eapply (change_open _ _ (utxo_hash utxo));
    [done| | | |done|reflexivity|reflexivity]; done.
Qed.
Lemma submit_utxo_changes v a utxo s x s' :
  submit_utxo v a utxo s = (Done x, s') -> utxo_changes s s'.
Proof.
  unfold submit_utxo. intros Hs. destruct (get_bonded_descriptor _ _); inv_run; [|done].
  destruct (Utxos s !! utxo_hash utxo) eqn:E.
  - by eapply vote_utxo_changes.
  - by eapply open_utxo_changes.
Qed.
Lemma submit_utxos_changes v o sub s x s' :
  submit_utxos v o sub s = (Done x, s') -> utxo_changes s s'.
Proof.
  unfold submit_utxos, ensure_activation. intros Hs. destruct o, sub; cbn [ensure_none] in Hs; inv_run.
  eapply (for_each_inv (utxo_changes s)); [|done|done].
  intros i s1 y s2 Hc1 Hc2. etrans; [exact Hc1|]. by eapply submit_utxo_changes.
Qed.

Lemma clear_utxos_changes s x s' : clear_utxos s = (Done x, s') -> utxo_changes s s'.
Proof.
  unfold clear_utxos. intros Hs. inv_run. loop_as Hs.
  apply (for_each_rest (fun l s1 => utxo_changes s s1 /\ NoDup l.*1
    /\ Forall (fun kv => Utxos s1 !! kv.1 = Some kv.2) l)) in Hs; [apply Hs| |].
  - intros [h u] l s1 y s2 (Hc & Hnd & Hl) Hc1. apply NoDup_cons in Hnd as [Hh Hnd].
    apply Forall_cons in Hl as [Hu Hl]. cbn [fst snd] in Hh, Hu.
    assert (Forall (fun kv => kv.1 <> h) l) as Hne.
    { apply Forall_forall. intros kv Hin Heq. apply Hh. rewrite <- Heq. by apply list_elem_of_fmap_2. }
    unfold clear_utxo in Hc1. cbn [fst snd] in Hc1. case_bool_decide as Hused; [inv_run; done|].
    split_and!; [|done|].
    + etrans; [exact Hc|]. apply rtc_once. apply (change_remove _ _ h u); [done|..].
      all: case_bool_decide; inv_run;
        try match goal with Hd : drop_unconfirmed _ _ = _ |- _ => apply drop_unconfirmed_done in Hd as -> end; done.
    + assert (Utxos s2 = delete h (Utxos s1)) as ->.
      { case_bool_decide; inv_run;
        try match goal with Hd : drop_unconfirmed _ _ = _ |- _ => apply drop_unconfirmed_done in Hd as -> end; done. }
      rewrite Forall_forall in *. intros kv Hin. rewrite lookup_delete_ne; [by apply Hl|].
      intros Heq. by apply (Hne kv Hin).
  - split_and!; [done|apply NoDup_fst_map_to_list|]. apply Forall_forall. intros [h u] Hin.
    by apply elem_of_map_to_list.
Qed.
Lemma force_push_changes v o utxos s x s' :
  force_push_utxos v o utxos s = (Done x, s') -> utxo_changes s s'.
Proof.
  unfold force_push_utxos, ensure_activation. intros Hs. destruct o; cbn [ensure_root] in Hs; inv_run.
  match goal with H : clear_utxos _ = _ |- _ => apply clear_utxos_changes in H as Hc end.
  eapply (for_each_inv (utxo_changes s)); [|exact Hc|done].
  intros i s1 y s2 Hc1 Hc2. etrans; [exact Hc1|]. unfold force_push_utxo, input_size in Hc2.
  destruct (get_bonded_descriptor _ _); inv_run; [|done].
  case_bool_decide as Hn; inv_run; [done|]. case_match; inv_run; [|done].
  apply eq_None_not_Some in Hn. apply rtc_once. eapply (change_push _ _ (utxo_hash i));
    [done| | | |reflexivity|reflexivity]; done.
Qed.
Lemma broadcast_poll_changes v o sub s x s' :
  broadcast_poll v o sub s = (Done x, s') -> utxo_changes s s'.
Proof.
  unfold broadcast_poll, ensure_activation. intros Hs. destruct o, sub; cbn [ensure_none] in Hs; inv_run.
  destruct (au_majority _ <=? _); inv_run.
  - match goal with Ht : take_pending _ _ ?s1 = (_, ?s2) |- _ =>
      apply take_pending_changes in Ht; [|done];
      transitivity s1; [by apply change_same|]; transitivity s2; [done|by apply change_same] end.
  - by apply change_same.
Qed.
End Calls.

(** ** The voters and the cap *)

Section Caps.
Implicit Types (s : BzStorage) (u : Utxo).

Definition voters_ok (voters : list AccountId) : Prop :=
  NoDup voters /\ Z.of_nat (length voters) <= MAX_AUTHORITIES.
Definition utxo_ok (h : H256) u : Prop :=
  us_hash (u_inner u) = h /\ voters_ok (u_voters u) /\ (u_status u = Unconfirmed -> u_voters u <> []).
Definition utxos_ok s : Prop := map_Forall utxo_ok (Utxos s).

Lemma voters_ok_push a voters :
  a ∉ voters -> Z.of_nat (length voters) < MAX_AUTHORITIES -> voters_ok voters -> voters_ok (voters ++ [a]).
Proof.
  intros Ha Hl [Hnd _]. split.
  - apply NoDup_app. split_and!; [done| |apply NoDup_singleton]. intros b Hb ->%list_elem_of_singleton. done.
  - rewrite length_app. cbn. lia.
Qed.
Lemma change_utxos_ok s s' : utxo_change s s' -> utxos_ok s -> utxos_ok s'.
Proof.
  intros Hc Hs. unfold utxos_ok in *.
  destruct Hc as [-> _|h u a Hu Hst Ha Hl -> _|h u a Hu Hst Ha Hl -> _|h u a Hn Hst Hv Hh _ -> _
    |h u Hn Hst Hv Hh -> _|h u Hu -> _|h u st Hu Hst -> _]; [done|..].
  1,2: destruct (Hs h u Hu) as (Hh & Hok & _); apply map_Forall_insert_2; [|done];
    split_and!; [done|by apply voters_ok_push|by destruct (u_voters u)].
  - apply map_Forall_insert_2; [|done]. split_and!; [done| |by rewrite Hv].
    rewrite Hv. split; [apply NoDup_singleton|done].
  - apply map_Forall_insert_2; [|done]. split_and!; [done| |by rewrite Hst].
    rewrite Hv. split; [apply NoDup_nil_2|done].
  - by apply map_Forall_delete.
  - destruct (Hs h u Hu) as (Hh & Hok & _). apply map_Forall_insert_2; [|done].
    by split_and!; [..|cbn; congruence].
Qed.
Lemma changes_utxos_ok s s' : utxo_changes s s' -> utxos_ok s -> utxos_ok s'.
Proof. induction 1; [done|]. eauto using change_utxos_ok. Qed.

(** The unconfirmed UTXOs a relayer is the first to have voted for *)
Definition opens (a : AccountId) u : Z :=
  if bool_decide (u_status u = Unconfirmed /\ head (u_voters u) = Some a) then 1 else 0.
Definition opened (a : AccountId) s : Z := msum (opens a) (Utxos s).
Definition capped s : Prop := forall a,
  opened a s <= unconfirmed_count s a <= MAX_UNCONFIRMED_UTXOS_PER_RELAYER.

Lemma opens_range a u : 0 <= opens a u <= 1.
Proof. unfold opens. case_bool_decide; lia. Qed.
Lemma opened_nonneg a s : 0 <= opened a s.
Proof. apply msum_nonneg. intros h u _. apply opens_range. Qed.
Lemma opens_le_opened a s h u : Utxos s !! h = Some u -> opens a u <= opened a s.
Proof. apply msum_le_of. intros h' u' _. apply opens_range. Qed.
Lemma opens_push a b u st :
  u_voters u <> [] -> opens a (with_voters u (u_voters u ++ [b])) = opens a u
  /\ (st <> Unconfirmed -> opens a (with_status (with_voters u (u_voters u ++ [b])) st) = 0).
Proof.
  intros Hv. unfold opens. cbn. split.
  - by destruct (u_voters u).
  - intros Hst. by rewrite bool_decide_eq_false_2 by (intros [? _]; done).
Qed.
Lemma lowered_count voters s s' a :
  UnconfirmedUtxoCount s' = lowered voters s ->
  unconfirmed_count s' a =
    if bool_decide (head voters = Some a) then sat_sub (unconfirmed_count s a) 1 else unconfirmed_count s a.
Proof.
  intros Hc. unfold unconfirmed_count at 1. rewrite Hc. unfold lowered.
  destruct (head voters) as [b|]; [|done]. case_bool_decide as Hb.
  - injection Hb as ->. by rewrite lookup_insert_eq.
  - by rewrite lookup_insert_ne by congruence.
Qed.
Lemma opens_head a u :
  u_status u = Unconfirmed -> opens a u = if bool_decide (head (u_voters u) = Some a) then 1 else 0.
Proof. intros Hst. unfold opens. by repeat case_bool_decide; naive_solver. Qed.

Lemma change_capped s s' : utxo_change s s' -> utxos_ok s -> capped s -> capped s'.
Proof.
  intros Hc Hok Hcap b. specialize (Hcap b). unfold opened in *.
  pose proof (opened_nonneg b s) as Hnn. unfold opened in Hnn.
  destruct Hc as [Hu Hn|h u a Hu Hst Ha Hl Hs Hn|h u a Hu Hst Ha Hl Hs Hn|h u a Hu Hst Hv Hh Hlt Hs Hn
    |h u Hu Hst Hv Hh Hs Hn|h u Hu Hs Hn|h u st Hu Hst Hs Hn].
  - unfold unconfirmed_count. by rewrite Hu, Hn.
  - destruct (Hok h u Hu) as (_ & _ & Hne). unfold unconfirmed_count. rewrite Hs, Hn.
    rewrite (msum_insert_old _ _ _ u) by done. destruct (opens_push b a u Available (Hne Hst)) as [-> _].
    unfold unconfirmed_count in *. lia.
  - destruct (Hok h u Hu) as (_ & _ & Hne). specialize (Hne Hst).
    rewrite (lowered_count _ _ _ b Hn), Hs, (msum_insert_old _ _ _ u) by done.
    destruct (opens_push b a u Available Hne) as [_ ->]; [|done].
    pose proof (opens_le_opened b s h u Hu) as Hle. unfold opened in Hle.
    assert (head (u_voters u ++ [a]) = head (u_voters u)) as Hh by by destruct (u_voters u).
    rewrite Hh. rewrite (opens_head _ _ Hst) in *. unfold sat_sub. case_bool_decide; lia.
  - rewrite Hs, msum_insert_new by done. rewrite (opens_head _ _ Hst), Hv. cbn [head].
    pose proof (Hcap) as [Hc1 Hc2]. unfold unconfirmed_count at 1 2. rewrite Hn.
    unfold MAX_UNCONFIRMED_UTXOS_PER_RELAYER in *. case_bool_decide as Hb.
    + injection Hb as ->. rewrite lookup_insert_eq. cbn [default]. unfold id.
      rewrite u32_add_small; unfold u32_modulus; lia.
    + rewrite lookup_insert_ne by congruence. unfold unconfirmed_count in *. lia.
  - unfold unconfirmed_count. rewrite Hs, Hn, msum_insert_new by done.
    unfold opens at 1. rewrite Hst, bool_decide_eq_false_2 by (by intros [? _]).
    unfold unconfirmed_count in *. lia.
  - rewrite Hs, (msum_delete _ _ _ u) by done.
    pose proof (opens_range b u). pose proof (opens_le_opened b s h u Hu) as Hle. unfold opened in Hle.
    case_bool_decide as Hst.
    + rewrite (lowered_count _ _ _ b Hn). rewrite (opens_head _ _ Hst) in *.
      unfold sat_sub. case_bool_decide; lia.
    + unfold unconfirmed_count in *. rewrite Hn. lia.
  - unfold unconfirmed_count in *. rewrite Hs, Hn, (msum_insert_old _ _ _ u) by done.
    pose proof (opens_range b u).
    assert (opens b (with_status u st) = 0) as ->; [|lia].
    unfold opens. by rewrite bool_decide_eq_false_2 by (by intros [? _]).
Qed.
Lemma changes_capped s s' : utxo_changes s s' -> utxos_ok s -> capped s -> capped s'.
Proof. induction 1; [done|]. eauto using change_utxos_ok, change_capped. Qed.
End Caps.
