(* ===== verification/BlazeTheorems.v ===== *)
(** * Blaze: theorems

    Whatever the calls: a relayer never has more unconfirmed UTXOs open than
    the cap; a UTXO gets available by the votes of a majority only; a broadcast
    poll confirms a transaction and spends its inputs when the majority is
    reached; the outbound pool holds one message a sequence; the fee rate is a
    median of the rates submitted. *)

From S2P Require Import Prelude Logic Errors Primitives Cccp BtcRelay CoinSelection CoinSelectionTheorems Blaze BlazeInv.
Local Open Scope Z_scope.
Local Open Scope frame_scope.

Section Steps.
Context `{!BzConfig} {R P Q : Type} `{!Authorities R, !PoolManager P, !SocketQueueManager Q}.
Implicit Types (v : BzView R P Q) (s : BzStorage) (u : Utxo).

(** One extrinsic, or a call of another pallet other than a replacement. What
    fails is rolled back. *)
Inductive bz_step : BzStorage -> BzStorage -> Prop :=
| bz_step_unsigned v call s r s' : bz_apply_unsigned v call s = Some (r, s') -> bz_step s s'
| bz_step_set_activation o b s : bz_step s (dispatch (set_activation o b) s).2
| bz_step_force_push v o utxos s : bz_step s (dispatch (force_push_utxos v o utxos) s).2
| bz_step_clear_utxos s : bz_step s (dispatch clear_utxos s).2
| bz_step_lock txid inputs s : bz_step s (dispatch (lock_utxos txid inputs) s).2
| bz_step_unlock txid s : bz_step s (dispatch (unlock_utxos txid) s).2
| bz_step_clear_pool targets s : bz_step s (dispatch (clear_outbound_pool targets) s).2
| bz_step_fee_rate v n s : bz_step s (dispatch (try_fee_rate_finalization v n) s).2
| bz_step_clear_fee_rates s : bz_step s (dispatch clear_fee_rates s).2
| bz_step_tolerance b s : bz_step s (dispatch (handle_tolerance_counter b) s).2.

(** The replacement of a relayer by an account that has no vote *)
Definition no_vote (a : AccountId) s : Prop :=
  map_Forall (fun _ u => a ∉ u_voters u) (Utxos s) /\ map_Forall (fun _ t => a ∉ bt_voters t) (PendingTxs s).
Inductive bz_step_any : BzStorage -> BzStorage -> Prop :=
| bz_any_step s s' : bz_step s s' -> bz_step_any s s'
| bz_any_replace old new s :
    no_vote new s -> bz_step_any s (dispatch (bz_replace_authority old new) s).2.

Definition bz_empty : BzStorage := mkBzStorage false 0 ∅ ∅ ∅ ∅ [] ∅ [].
Definition bz_reachable s : Prop := rtc bz_step_any bz_empty s.

(** ** What the calls leave as it was *)

Definition bz_rest s := (PendingTxs s, ConfirmedTxs s, OutboundPool s, FeeRates s).
Definition bz_lists s := (OutboundPool s, FeeRates s).
Definition bz_votes s := (Utxos s, UnconfirmedUtxoCount s, PendingTxs s, ConfirmedTxs s).

Lemma drop_unconfirmed_frame voters : preserves bz_rest (drop_unconfirmed voters).
Proof. intros s. by rewrite drop_unconfirmed_eq. Qed.
Lemma submit_utxos_frame v o sub : preserves bz_rest (submit_utxos v o sub).
Proof.
  assert (forall l, preserves bz_rest (drop_unconfirmed l)) by apply drop_unconfirmed_frame.
  unfold submit_utxos, submit_utxo, vote_utxo, open_utxo, bz_deposit, bmutate. destruct o, sub; frame.
Qed.
Lemma clear_utxos_frame : preserves bz_rest clear_utxos.
Proof.
  assert (forall l, preserves bz_rest (drop_unconfirmed l)) by apply drop_unconfirmed_frame.
  unfold clear_utxos, clear_utxo, bmutate. frame.
Qed.
Lemma force_push_frame v o utxos : preserves bz_rest (force_push_utxos v o utxos).
Proof.
  pose proof clear_utxos_frame as Hc.
  unfold force_push_utxos, force_push_utxo, bz_deposit, bmutate. destruct o; frame.
Qed.
Lemma mark_all_frame status inputs : preserves bz_rest (for_each inputs (set_utxo_status status)).
Proof. unfold set_utxo_status, bmutate. frame. Qed.
Lemma lock_lists txid inputs : preserves bz_lists (lock_utxos txid inputs).
Proof. unfold lock_utxos, set_utxo_status, bmutate. frame. Qed.
Lemma take_pending_lists txid status : preserves bz_lists (take_pending txid status).
Proof. unfold take_pending, set_utxo_status, bmutate. frame. Qed.
Lemma broadcast_poll_lists v o sub : preserves bz_lists (broadcast_poll v o sub).
Proof.
  pose proof (take_pending_lists) as Ht. unfold broadcast_poll, bmutate, bz_deposit. destruct o, sub; frame.
Qed.
Lemma submit_fee_rate_frame v o sub : preserves (fun s => (bz_votes s, OutboundPool s)) (submit_fee_rate v o sub).
Proof. unfold submit_fee_rate, bput, bz_deposit, bmutate. destruct o, sub; frame. Qed.
Lemma fee_rate_finalization_frame v n :
  preserves (fun s => (bz_votes s, OutboundPool s)) (try_fee_rate_finalization v n).
Proof. unfold try_fee_rate_finalization, bmutate. frame. Qed.
Lemma outbound_frame v o sub : preserves (fun s => (bz_votes s, FeeRates s)) (submit_outbound_requests v o sub).
Proof.
  unfold submit_outbound_requests, push_message, parse_message, bput, bz_deposit, bmutate.
  destruct o, sub; frame.
Qed.
Lemma remove_outbound_frame o sub : preserves (fun s => (bz_votes s, FeeRates s)) (remove_outbound_messages o sub).
Proof. unfold remove_outbound_messages, clear_outbound_pool, bmutate. destruct o, sub; frame. Qed.
Lemma tolerance_frame b : preserves (fun s => (bz_votes s, bz_lists s)) (handle_tolerance_counter b).
Proof. unfold handle_tolerance_counter, bput, bz_deposit, bmutate. frame. Qed.

(** ** The cap *)

Definition cap_inv s : Prop := utxos_ok s /\ capped s.
Lemma changes_cap_inv s s' : utxo_changes s s' -> cap_inv s -> cap_inv s'.
Proof. intros Hc [H1 H2]. split; [by eapply changes_utxos_ok|by eapply changes_capped]. Qed.
(** Whatever a call does to the UTXOs, it does by changes. *)
Definition changing {A} (m : Blz A) : Prop := forall s x s', m s = (Done x, s') -> utxo_changes s s'.
Lemma changing_dispatch {A} (m : Blz A) s : changing m -> utxo_changes s (dispatch m s).2.
Proof. intros Hm. apply (dispatch_inv (utxo_changes s)); [done|]. intros x s'. apply Hm. Qed.
Lemma frame_changing {A B} (f : BzStorage -> (gmap N Utxo * gmap N Z * gmap N BTCTransaction * gmap N BTCTransaction) * B)
    (m : Blz A) :
  (forall s, (f s).1 = bz_votes s) -> preserves f m -> changing m.
Proof.
  intros Hf Hm s x s' Hs. pose proof (preserves_done _ _ _ _ _ Hm Hs) as E.
  apply (f_equal fst) in E. rewrite !Hf in E. injection E as ? ? _ _. by apply change_same.
Qed.

Lemma unsigned_changing v call : changing (bz_unsigned_call v call).
Proof.
  destruct call; cbn [bz_unsigned_call].
  - intros s x s'. apply submit_utxos_changes.
  - intros s x s'. apply broadcast_poll_changes.
  - by eapply frame_changing, submit_fee_rate_frame.
  - by eapply frame_changing, outbound_frame.
  - by eapply frame_changing, remove_outbound_frame.
  - intros s x s' Hs. mrun. done.
Qed.
Lemma bz_apply_dispatch v call s r s' :
  bz_apply_unsigned v call s = Some (r, s') ->
  (exists x, bz_validate_unsigned v call = inr x) /\ s' = (dispatch (bz_unsigned_call v call) s).2.
Proof.
  unfold bz_apply_unsigned. destruct (bz_validate_unsigned v call); [done|]. intros [= E]. rewrite E. eauto.
Qed.
Lemma bz_step_changes s s' : bz_step s s' -> utxo_changes s s'.
Proof.
  intros Hs. destruct Hs as [v call s r s' Hs|o b s|v o us s|s|t ins s|t s|ts s|v n s|s|b s].
  - apply bz_apply_dispatch in Hs as [_ ->]. apply changing_dispatch, unsigned_changing.
  - apply changing_dispatch. intros s1 x s2 Hs. unfold set_activation in Hs.
    destruct o, b; cbn [ensure_root] in Hs; inv_run.
    all: by apply change_same.
  - apply changing_dispatch. intros s1 x s2. apply force_push_changes.
  - apply changing_dispatch. intros s1 x s2. apply clear_utxos_changes.
  - apply changing_dispatch. intros s1 x s2. apply lock_utxos_changes.
  - apply changing_dispatch. intros s1 x s2. by apply take_pending_changes.
  - by apply change_same.
  - apply changing_dispatch. by eapply frame_changing, fee_rate_finalization_frame.
  - by apply change_same.
  - apply changing_dispatch. by eapply frame_changing, tolerance_frame.
Qed.

(** ** The voters, the rates and the pool *)

Definition tx_ok (_ : H256) (t : BTCTransaction) : Prop := voters_ok (bt_voters t).
Definition pool_ok s : Prop :=
  exists msgs, Forall2 (fun b m => SocketMessage_try_from b = Done m) (OutboundPool s) msgs
    /\ NoDup (sequence_of <$> msgs).
Record bz_inv s : Prop := mkBzInv {
  bi_utxos : utxos_ok s;
  bi_pending : map_Forall tx_ok (PendingTxs s);
  bi_confirmed : map_Forall tx_ok (ConfirmedTxs s);
  bi_rates : Z.of_nat (size (FeeRates s)) <= MAX_AUTHORITIES;
  bi_pool : pool_ok s
}.

(** The parts that the changes of the UTXOs do not touch *)
Lemma bz_inv_rest s s' : utxos_ok s' -> bz_rest s' = bz_rest s -> bz_inv s -> bz_inv s'.
Proof.
  unfold bz_rest. intros Hu [= E1 E2 E3 E4] [_ H2 H3 H4 H5].
  split; unfold pool_ok; rewrite ?E1, ?E2, ?E3, ?E4; done.
Qed.
Lemma bz_inv_rest_keeps {A} (m : Blz A) s x s' :
  changing m -> preserves bz_rest m -> m s = (Done x, s') -> bz_inv s -> bz_inv s'.
Proof.
  intros Hc Hp Hm Hi. eapply bz_inv_rest; [|by eapply preserves_done|done].
  eapply changes_utxos_ok; [by eapply Hc|apply Hi].
Qed.
Lemma set_pending_inv s s' :
  utxos_ok s' -> map_Forall tx_ok (PendingTxs s') -> map_Forall tx_ok (ConfirmedTxs s') ->
  bz_lists s' = bz_lists s -> bz_inv s -> bz_inv s'.
Proof.
  unfold bz_lists. intros H1 H2 H3 [= E1 E2] [_ _ _ H4 H5]. split; unfold pool_ok; rewrite ?E1, ?E2; done.
Qed.
Lemma set_lists_inv s s' :
  bz_votes s' = bz_votes s -> Z.of_nat (size (FeeRates s')) <= MAX_AUTHORITIES -> pool_ok s' ->
  bz_inv s -> bz_inv s'.
Proof.
  unfold bz_votes. intros [= E1 _ E2 E3] H4 H5 [H1 H2 H3 _ _].
  by split; unfold utxos_ok; rewrite ?E1, ?E2, ?E3.
Qed.

Lemma take_pending_inv txid status s x s' :
  status <> Unconfirmed -> take_pending txid status s = (Done x, s') -> bz_inv s -> bz_inv s'.
Proof.
  intros Hst Hs Hi. eapply set_pending_inv; [| | |by eapply preserves_done; [apply take_pending_lists|]|done].
  - eapply changes_utxos_ok; [by eapply take_pending_changes|apply Hi].
  - unfold take_pending in Hs. inv_run. destruct (PendingTxs s !! txid) as [t|]; inv_run. loop_as Hs.
    pose proof (preserves_done _ _ _ _ _ (mark_all_frame status (bt_inputs t)) Hs) as E.
    injection E as -> _ _ _. cbn. apply map_Forall_delete, Hi.
  - unfold take_pending in Hs. inv_run. destruct (PendingTxs s !! txid) as [t|]; inv_run. loop_as Hs.
    pose proof (preserves_done _ _ _ _ _ (mark_all_frame status (bt_inputs t)) Hs) as E.
    injection E as _ -> _ _. apply Hi.
Qed.
Lemma lock_utxos_inv txid inputs s x s' : lock_utxos txid inputs s = (Done x, s') -> bz_inv s -> bz_inv s'.
Proof.
  intros Hs Hi. eapply set_pending_inv; [| | |by eapply preserves_done; [apply lock_lists|]|done].
  - eapply changes_utxos_ok; [by eapply lock_utxos_changes|apply Hi].
  - unfold lock_utxos in Hs. inv_run. loop_as Hs.
    pose proof (preserves_done _ _ _ _ _ (mark_all_frame Locked inputs) Hs) as E.
    injection E as E _ _ _. cbn. rewrite E. apply map_Forall_insert_2, Hi. split; [apply NoDup_nil_2|done].
  - unfold lock_utxos in Hs. inv_run. loop_as Hs.
    pose proof (preserves_done _ _ _ _ _ (mark_all_frame Locked inputs) Hs) as E.
    injection E as _ E _ _. cbn. rewrite E. apply Hi.
Qed.
Lemma broadcast_poll_inv v o sub s x s' : broadcast_poll v o sub s = (Done x, s') -> bz_inv s -> bz_inv s'.
Proof.
  unfold broadcast_poll, ensure_activation. intros Hs Hi. destruct o, sub; cbn [ensure_none] in Hs; inv_run.
  match goal with Hp : PendingTxs _ !! _ = Some ?t, Hv : try_push _ _ _ = Some _ |- _ =>
    apply try_push_room in Hv as [-> Hlen]; pose proof (bi_pending _ Hi _ _ Hp) as Ht end.
  rewrite negb_true_iff, bool_decide_eq_false in *.
  match goal with Ha : _ ∉ bt_voters ?t |- _ => pose proof (voters_ok_push _ _ Ha Hlen Ht) as Hok end.
  destruct (au_majority _ <=? _); inv_run.
  - match goal with Hp : take_pending _ _ _ = (_, ?s1) |- _ =>
      apply take_pending_inv in Hp; [|done|]; [apply (bz_inv_rest s1); [apply Hp|done|exact Hp]|] end.
    destruct Hi. split; try done. cbn. by apply map_Forall_insert_2.
  - destruct Hi. split; try done. cbn. by apply map_Forall_insert_2.
Qed.

Lemma try_insert_map_size {V} bound k (x : V) (m m' : gmap N V) :
  try_insert_map bound k x m = Some m' -> Z.of_nat (size m) <= bound -> Z.of_nat (size m') <= bound.
Proof.
  unfold try_insert_map. destruct (m !! k) eqn:E.
  - intros [= <-] Hs. by rewrite map_size_insert_Some.
  - destruct (Z.ltb_spec (Z.of_nat (size m)) bound); [|done]. intros [= <-] _.
    rewrite map_size_insert_None by done. lia.
Qed.
Lemma submit_fee_rate_inv v o sub s x s' :
  submit_fee_rate v o sub s = (Done x, s') -> bz_inv s -> bz_inv s'.
Proof.
  intros Hs Hi. pose proof (preserves_done _ _ _ _ _ (submit_fee_rate_frame v o sub) Hs) as E.
  injection E as E1 E2 E3 E4 E5. apply (set_lists_inv s); [unfold bz_votes; congruence| | |done].
  - unfold submit_fee_rate, ensure_activation in Hs. destruct o, sub; cbn [ensure_none] in Hs; inv_run.
    cbn. eapply try_insert_map_size; [done|apply Hi].
  - unfold pool_ok. rewrite E5. apply Hi.
Qed.
Lemma fee_rate_finalization_inv v n s x s' :
  try_fee_rate_finalization v n s = (Done x, s') -> bz_inv s -> bz_inv s'.
Proof.
  intros Hs Hi. pose proof (preserves_done _ _ _ _ _ (fee_rate_finalization_frame v n) Hs) as E.
  injection E as E1 E2 E3 E4 E5. apply (set_lists_inv s); [unfold bz_votes; congruence| | |done].
  - assert (FeeRates s' = filter (fun kv => n <= kv.2.2) (FeeRates s)) as ->.
    { unfold try_fee_rate_finalization in Hs. inv_run. destruct (au_majority _ <=? _); inv_run; [|done].
      destruct (_ <=? _); inv_run; done. }
    pose proof (map_size_filter (fun kv : N * (Z * Z * Z) => n <= kv.2.2) (FeeRates s)).
    pose proof (bi_rates _ Hi). lia.
  - unfold pool_ok. rewrite E5. apply Hi.
Qed.

(** The pool and its sequences as the submission carries them *)
Definition pool_is (acc : list UnboundedBytes * list U256) : Prop :=
  exists msgs, Forall2 (fun b m => SocketMessage_try_from b = Done m) acc.1 msgs
    /\ acc.2 = sequence_of <$> msgs /\ NoDup acc.2.
Lemma push_message_is v a acc message s acc' s' :
  push_message v a acc message s = (Done acc', s') -> pool_is acc -> pool_is acc'.
Proof.
  unfold push_message, parse_message. intros Hs Hacc. destruct acc as [pool sequences].
  case_bool_decide; inv_run; [done|].
  destruct (SocketMessage_try_from message) as [m|e|] eqn:Em; inv_run; [|done].
  case_bool_decide as Hseq; inv_run; [done|].
  destruct (verify_socket_message _ _); cbn [negb] in *; inv_run; [|done].
  destruct Hacc as (msgs & Hall & Hm & Hnd). cbn [fst snd] in *. exists (msgs ++ [m]). cbn [fst snd]. split_and!.
  - by apply Forall2_app; [|constructor].
  - by rewrite Hm, fmap_app.
  - apply NoDup_app. split_and!; [done| |apply NoDup_singleton]. intros q Hq ->%list_elem_of_singleton. done.
Qed.
Lemma pool_sequences_is pool msgs s acc s' sequences :
  Forall2 (fun b m => SocketMessage_try_from b = Done m) pool msgs ->
  fold_each pool sequences (fun sequences m =>
    let* parsed := parse_message m in
    ret (match parsed with Some msg => sequences ++ [sequence_of msg] | None => sequences end)) s
    = (Done acc, s') ->
  acc = sequences ++ (sequence_of <$> msgs) /\ s' = s.
Proof.
  intros Hp. revert sequences. induction Hp as [|b m pool msgs Hb Hp IH]; intros sequences Hs; cbn in Hs; mrun.
  - by rewrite app_nil_r.
  - unfold parse_message in *. rewrite Hb in *. mrun.
    match goal with H : fold_each _ _ _ _ = _ |- _ => apply IH in H as [-> ->] end.
    by rewrite <- app_assoc.
Qed.
Lemma submit_outbound_inv v o sub s x s' :
  submit_outbound_requests v o sub s = (Done x, s') -> bz_inv s -> bz_inv s'.
Proof.
  intros Hs Hi. pose proof (preserves_done _ _ _ _ _ (outbound_frame v o sub) Hs) as E.
  injection E as E1 E2 E3 E4 E5. apply (set_lists_inv s); [unfold bz_votes; congruence| | |done].
  - rewrite E5. apply Hi.
  - unfold submit_outbound_requests in Hs. destruct o, sub; cbn [ensure_none] in Hs; inv_run.
    destruct (bi_pool _ Hi) as (msgs & Hp & Hnd).
    match goal with H : fold_each (OutboundPool _) _ _ _ = _ |- _ =>
      apply (pool_sequences_is _ _ _ _ _ _ Hp) in H as [-> ->] end.
    match goal with H : context [match ?p with (_, _) => _ end] |- _ => destruct p as [pool sequences] end. inv_run.
    match goal with H : fold_each _ _ _ _ = _ |- _ =>
      apply (fold_each_inv (fun acc _ => pool_is acc)) in H as (msgs' & ? & ? & ?) end.
    + exists msgs'. cbn [fst snd] in *. subst. done.
    + intros acc m s1 acc' s2 Hacc Hpush. by eapply push_message_is.
    + exists msgs. by cbn.
Qed.
Lemma Forall2_filter {A B} (T : A -> B -> Prop) (D : A -> Prop) `{!forall x, Decision (D x)} l k :
  Forall2 T l k -> exists k', k' `sublist_of` k /\ Forall2 T (filter D l) k'.
Proof.
  induction 1 as [|x y l k Hxy Hl (k' & Hs & Hf)]; [by exists []|]. rewrite filter_cons. case_decide.
  - exists (y :: k'). by split; constructor.
  - exists k'. split; [by constructor|done].
Qed.
Lemma filter_pool_ok (D : UnboundedBytes -> Prop) `{!forall x, Decision (D x)} s :
  pool_ok s -> pool_ok (s <| OutboundPool ::= filter D |>).
Proof.
  intros (msgs & Hp & Hnd). apply (Forall2_filter _ D) in Hp as (msgs' & Hs & Hp).
  exists msgs'. split; [done|]. eapply sublist_NoDup; [exact Hnd|by apply fmap_sublist].
Qed.
Lemma clear_pool_inv targets s x s' : clear_outbound_pool targets s = (Done x, s') -> bz_inv s -> bz_inv s'.
Proof.
  unfold clear_outbound_pool. intros Hs Hi. inv_run. apply (set_lists_inv s); [done|apply Hi| |done].
  apply filter_pool_ok, Hi.
Qed.

(** ** The replacement of a relayer *)

Lemma filter_ne_length (old : AccountId) (l : list AccountId) :
  old ∈ l -> (length (filter (fun w => w <> old) l) < length l)%nat.
Proof.
  induction l as [|w l IH]; [by intros ?%not_elem_of_nil|]. intros Hin.
  rewrite filter_cons. pose proof (length_filter (fun w => w <> old) l).
  case_decide as Hw; cbn; [|lia]. apply elem_of_cons in Hin as [->|Hin]; [done|]. specialize (IH Hin). lia.
Qed.
Lemma push_instead_ok old new voters :
  old ∈ voters -> new ∉ voters -> voters_ok voters ->
  exists voters', push_instead old new voters = Some voters' /\ voters_ok voters' /\ voters' <> [].
Proof.
  intros Ho Hn [Hnd Hl]. pose proof (filter_ne_length old voters Ho) as Hlt.
  exists (filter (fun w => w <> old) voters ++ [new]). split_and!.
  - unfold push_instead, try_push. rewrite (proj2 (Z.ltb_lt _ _)) by lia. done.
  - apply voters_ok_push; [| |split].
    + intros Hin%list_elem_of_filter. by destruct Hin.
    + lia.
    + by apply NoDup_filter.
    + lia.
  - by destruct (filter _ voters).
Qed.

Lemma replace_utxos_runs old new l s :
  Forall (fun kv => utxo_ok kv.1 kv.2 /\ new ∉ u_voters kv.2) l -> utxos_ok s ->
  runs (for_each l (replace_in_utxo old new)) s (fun _ s' =>
    utxos_ok s' /\ bz_rest s' = bz_rest s).
Proof.
  intros Hl Hs. eapply (runs_for_each (fun l s' =>
    Forall (fun kv => utxo_ok kv.1 kv.2 /\ new ∉ u_voters kv.2) l /\ utxos_ok s' /\ bz_rest s' = bz_rest s));
    [done| |by intros s' (_ & ? & ?)].
  intros [h u] l' s1 (Hl' & Hs1 & E). apply Forall_cons in Hl' as [[(Hh & Hv & Hne) Hn] Hl'].
  cbn [fst snd] in *. unfold replace_in_utxo. cbn [fst snd].
  case_bool_decide as Hst; cbn [andb]; [|by apply runs_ret].
  case_bool_decide as Ho; [|by apply runs_ret].
  destruct (push_instead_ok old new _ Ho Hn Hv) as (voters' & Hp & Hok & Hne').
  apply runs_bind. eapply runs_expect; [unfold utxo_replace_authority; by rewrite Hp|].
  unfold bmutate. apply runs_modify. split_and!; [done| |done].
  by apply map_Forall_insert_2.
Qed.
Lemma replace_txs_runs old new l s :
  Forall (fun kv => tx_ok kv.1 kv.2 /\ new ∉ bt_voters kv.2) l -> map_Forall tx_ok (PendingTxs s) ->
  runs (for_each l (replace_in_tx old new)) s (fun _ s' =>
    map_Forall tx_ok (PendingTxs s') /\ Utxos s' = Utxos s /\ ConfirmedTxs s' = ConfirmedTxs s
    /\ bz_lists s' = bz_lists s).
Proof.
  intros Hl Hs. eapply (runs_for_each (fun l s' =>
    Forall (fun kv => tx_ok kv.1 kv.2 /\ new ∉ bt_voters kv.2) l /\ map_Forall tx_ok (PendingTxs s')
    /\ Utxos s' = Utxos s /\ ConfirmedTxs s' = ConfirmedTxs s /\ bz_lists s' = bz_lists s));
    [done| |by intros s' (_ & ? & ? & ? & ?)].
  intros [h t] l' s1 (Hl' & Hs1 & E). apply Forall_cons in Hl' as [[Hv Hn] Hl'].
  cbn [fst snd] in *. unfold replace_in_tx. cbn [fst snd].
  case_bool_decide as Ho; [|by apply runs_ret].
  destruct (push_instead_ok old new _ Ho Hn Hv) as (voters' & Hp & Hok & _).
  apply runs_bind. eapply runs_expect; [unfold tx_replace_authority; by rewrite Hp|].
  unfold bmutate. apply runs_modify. split; [done|]. split; [|done].
  by apply map_Forall_insert_2.
Qed.
Lemma replace_rate {V} old new (val : V) m :
  m !! old = Some val -> Z.of_nat (size m) <= MAX_AUTHORITIES ->
  exists m', try_insert_map MAX_AUTHORITIES new val (delete old m) = Some m'
    /\ Z.of_nat (size m') <= MAX_AUTHORITIES.
Proof.
  intros Ho Hs. assert (size (delete old m) < size m)%nat as Hlt.
  { rewrite map_size_delete_Some by done. pose proof (map_size_non_empty_iff m). 
    assert (m <> ∅) by (intros ->; done). assert (size m <> 0%nat) by (by apply map_size_non_empty_iff). lia. }
  destruct (try_insert_map MAX_AUTHORITIES new val (delete old m)) as [m'|] eqn:E.
  - exists m'. split; [done|]. eapply try_insert_map_size; [done|lia].
  - unfold try_insert_map in E. destruct (delete old m !! new); [done|].
    destruct (Z.ltb_spec (Z.of_nat (size (delete old m))) MAX_AUTHORITIES); [done|lia].
Qed.
Lemma replace_authority_runs old new s :
  bz_inv s -> no_vote new s -> runs (bz_replace_authority old new) s (fun _ s' => bz_inv s').
Proof.
  intros Hi [Hu Ht]. unfold bz_replace_authority, bmutate, bput.
  repeat wp_step. unfold id.
  apply (runs_mono _ _ (fun _ s1 => Utxos s1 = Utxos s /\ bz_rest s1 = bz_rest s)).
  { destruct (0 <? _); [by apply runs_modify|by apply runs_ret]. }
  intros _ s1 [E1 E2]. apply runs_bind. eapply runs_mono; [apply replace_utxos_runs|].
  { apply Forall_forall. intros [h u] Hin%elem_of_map_to_list. split; [by apply Hi|by apply (Hu h)]. }
  { unfold utxos_ok. rewrite E1. apply Hi. }
  intros _ s2 [Hu2 E3]. rewrite E2 in E3. injection E3 as Ep Ec Eo Ef.
  apply runs_bind. eapply runs_mono; [apply replace_txs_runs|].
  { apply Forall_forall. intros [h t] Hin%elem_of_map_to_list. split; [by apply Hi|by apply (Ht h)]. }
  { rewrite Ep. apply Hi. }
  intros _ s3 (Hp3 & E4 & E5 & E6). injection E6 as Eo3 Ef3.
  assert (bz_inv s3) as Hi3.
  { destruct Hi as [_ _ Hc Hr Hp]. split; try done.
    - unfold utxos_ok. by rewrite E4.
    - by rewrite E5, Ec.
    - by rewrite Ef3, Ef.
    - unfold pool_ok. by rewrite Eo3, Eo. }
  destruct (FeeRates s !! old) as [val|] eqn:Ev; [|by apply runs_ret].
  destruct (replace_rate old new val _ Ev (bi_rates _ Hi)) as (m' & Hm & Hsize).
  apply runs_bind. eapply runs_expect; [done|]. apply runs_modify. by destruct Hi3.
Qed.

(** ** Reachable storages *)

Lemma bz_unsigned_inv v call s x s' : bz_unsigned_call v call s = (Done x, s') -> bz_inv s -> bz_inv s'.
Proof.
  destruct call; cbn [bz_unsigned_call].
  - apply bz_inv_rest_keeps; [intros s1 y s2; apply submit_utxos_changes|apply submit_utxos_frame].
  - apply broadcast_poll_inv.
  - apply submit_fee_rate_inv.
  - apply submit_outbound_inv.
  - unfold remove_outbound_messages, ensure_activation. intros Hs. cbn [ensure_none] in Hs. inv_run.
    by eapply clear_pool_inv.
  - intros Hs. by mrun.
Qed.
Lemma set_activation_inv o b s x s' : set_activation o b s = (Done x, s') -> bz_inv s -> bz_inv s'.
Proof.
  unfold set_activation. intros Hs Hi. destruct o, b; cbn [ensure_root] in Hs; inv_run; by destruct Hi.
Qed.
Lemma tolerance_inv b s x s' : handle_tolerance_counter b s = (Done x, s') -> bz_inv s -> bz_inv s'.
Proof.
  intros Hs Hi. pose proof (preserves_done _ _ _ _ _ (tolerance_frame b) Hs) as E.
  injection E as E1 E2 E3 E4 E5 E6. apply (set_lists_inv s); [unfold bz_votes; congruence| | |done].
  - rewrite E6. apply Hi.
  - unfold pool_ok. rewrite E5. apply Hi.
Qed.
Lemma bz_step_inv s s' : bz_step s s' -> bz_inv s -> bz_inv s'.
Proof.
  intros Hs Hi. destruct Hs as [v call s r s' Hs|o b s|v o us s|s|t ins s|t s|ts s|v n s|s|b s];
    try (apply dispatch_inv; [done|]; intros x s').
  - apply bz_apply_dispatch in Hs as [_ ->]. apply dispatch_inv; [done|]. intros x s'' Hs.
    by eapply bz_unsigned_inv.
  - intros Hs. by eapply set_activation_inv.
  - intros Hs. eapply bz_inv_rest_keeps; [|apply force_push_frame|exact Hs|done].
    intros s1 y s2. apply force_push_changes.
  - intros Hs. eapply bz_inv_rest_keeps; [|apply clear_utxos_frame|exact Hs|done].
    intros s1 y s2. apply clear_utxos_changes.
  - intros Hs. by eapply lock_utxos_inv.
  - intros Hs. by eapply (take_pending_inv t Available); [|exact Hs|].
  - intros Hs. by eapply clear_pool_inv.
  - intros Hs. by eapply fee_rate_finalization_inv.
  - intros Hs. unfold clear_fee_rates in Hs. inv_run. by destruct Hi.
  - intros Hs. by eapply tolerance_inv.
Qed.
Lemma bz_step_any_inv s s' : bz_step_any s s' -> bz_inv s -> bz_inv s'.
Proof.
  intros [s1 s2 Hs|old new s1 Hn] Hi; [by eapply bz_step_inv|].
  pose proof (replace_authority_runs old new s1 Hi Hn) as Hr. unfold runs in Hr. unfold dispatch.
  by destruct (bz_replace_authority old new s1) as [[[]|e|] s2].
Qed.
Lemma bz_empty_inv : bz_inv bz_empty.
Proof. split; try done. exists []. by repeat constructor. Qed.
Lemma bz_reachable_inv s : bz_reachable s -> bz_inv s.
Proof.
  unfold bz_reachable. intros Hr. pose proof bz_empty_inv as Hi.
  induction Hr as [|x y z Hxy Hyz IH]; [done|]. apply IH. by eapply bz_step_any_inv.
Qed.

(** ** The votes on a UTXO *)

(** What a submission of [a] makes of a UTXO *)
Inductive voted (majority : Z) (a : AccountId) : option Utxo -> Utxo -> Prop :=
| voted_same u : voted majority a (Some u) u
| voted_open u : u_status u = Unconfirmed -> u_voters u = [a] -> voted majority a None u
| voted_more u :
    u_status u = Unconfirmed -> a ∉ u_voters u ->
    voted majority a (Some u) (with_voters u (u_voters u ++ [a]))
| voted_confirm u :
    u_status u = Unconfirmed -> a ∉ u_voters u -> majority <= Z.of_nat (length (u_voters u ++ [a])) ->
    voted majority a (Some u) (with_status (with_voters u (u_voters u ++ [a])) Available).

Lemma voted_new majority a o u : voted majority a o u -> a ∉ u_voters u -> o = Some u.
Proof.
  intros Hv Ha. destruct Hv as [u|u _ Hv|u _ _|u _ _ _]; [done|..]; exfalso; apply Ha; [rewrite Hv|..]; cbn; set_solver.
Qed.

(** The UTXOs after the votes of [a] for some of [utxos], the others as they
    were. *)
Definition votes_done (majority : Z) (a : AccountId) (utxos : list UtxoInfo) s s' : Prop :=
  forall h u', Utxos s' !! h = Some u' ->
    voted majority a (Utxos s !! h) u'
    /\ (Utxos s !! h <> Some u' -> exists utxo, utxo ∈ utxos /\ utxo_hash utxo = h).

Lemma votes_insert majority a utxos utxo s s1 s2 u :
  utxo ∈ utxos -> votes_done majority a utxos s s1 ->
  Utxos s2 = <[utxo_hash utxo := u]> (Utxos s1) -> voted majority a (Utxos s !! utxo_hash utxo) u ->
  votes_done majority a utxos s s2.
Proof.
  intros Hin Hd E Hv h u'. rewrite E. destruct (decide (h = utxo_hash utxo)) as [->|Hne].
  - rewrite lookup_insert_eq. intros [= <-]. split; [done|]. by exists utxo.
  - rewrite lookup_insert_ne by congruence. apply Hd.
Qed.
Lemma submit_utxo_votes v a utxos utxo s s1 x s2 :
  utxo ∈ utxos -> (forall h, is_Some (Utxos s !! h) -> is_Some (Utxos s1 !! h)) ->
  votes_done (au_majority (bv_relayers v)) a utxos s s1 ->
  submit_utxo v a utxo s1 = (Done x, s2) ->
  votes_done (au_majority (bv_relayers v)) a utxos s s2
  /\ (forall h, is_Some (Utxos s !! h) -> is_Some (Utxos s2 !! h)).
Proof.
  intros Hin Hkeep Hd Hs. unfold submit_utxo in Hs. destruct (get_bonded_descriptor _ _); inv_run; [|done].
  destruct (Utxos s1 !! utxo_hash utxo) as [u|] eqn:Eu.
  - unfold vote_utxo in *. case_bool_decide as Hst; cbn [negb] in *; [|inv_run; done].
    case_bool_decide as Ha; [inv_run; done|]. inv_run.
    match goal with Hp : try_push _ _ _ = Some _ |- _ => apply try_push_room in Hp as [-> Hlen] end.
    destruct (Hd _ _ Eu) as [Hv _]. pose proof (voted_new _ _ _ _ Hv Ha) as Hold.
    assert (forall s3 u', Utxos s3 = <[utxo_hash utxo := u']> (Utxos s1) ->
      voted (au_majority (bv_relayers v)) a (Utxos s !! utxo_hash utxo) u' ->
      votes_done (au_majority (bv_relayers v)) a utxos s s3
      /\ (forall h, is_Some (Utxos s !! h) -> is_Some (Utxos s3 !! h))) as Hdone.
    { intros s3 u' E Hu'. split; [by eapply votes_insert|]. intros h Hh. rewrite E.
      destruct (decide (h = utxo_hash utxo)) as [->|Hne]; [by rewrite lookup_insert_eq|].
      rewrite lookup_insert_ne by congruence. by apply Hkeep. }
    destruct (Z.leb_spec (au_majority (bv_relayers v)) (Z.of_nat (length (u_voters u ++ [a])))); inv_run.
    + match goal with Hp : drop_unconfirmed _ _ = _ |- _ => apply drop_unconfirmed_done in Hp as -> end.
      eapply Hdone; [reflexivity|]. rewrite Hold. by apply voted_confirm.
    + eapply Hdone; [reflexivity|]. rewrite Hold. by apply voted_more.
  - assert (Utxos s !! utxo_hash utxo = None) as Hnone.
    { destruct (Utxos s !! utxo_hash utxo) eqn:E; [|done]. destruct (Hkeep (utxo_hash utxo)); [by eexists|congruence]. }
    unfold open_utxo, input_size in *. inv_run. destruct (_ <=? _); [inv_run; done|]. inv_run.
    case_match; inv_run; [|done]. split.
    + eapply votes_insert; [done|done|reflexivity|]. rewrite Hnone. by apply voted_open.
    + intros h Hh. cbn. destruct (decide (h = utxo_hash utxo)) as [->|Hne]; [by rewrite lookup_insert_eq|].
      rewrite lookup_insert_ne by congruence. by apply Hkeep.
Qed.
Lemma submit_utxos_votes v o sub s x s' :
  submit_utxos v o sub s = (Done x, s') ->
  votes_done (au_majority (bv_relayers v)) (us_authority_id sub) (us_utxos sub) s s'.
Proof.
  unfold submit_utxos, ensure_activation. intros Hs. destruct o, sub as [a utxos]; cbn [ensure_none] in Hs; inv_run.
  loop_as Hs. cbn [us_authority_id us_utxos].
  apply (for_each_rest (fun l s1 => (forall x, x ∈ l -> x ∈ utxos) /\
    (forall h, is_Some (Utxos s !! h) -> is_Some (Utxos s1 !! h)) /\
    votes_done (au_majority (bv_relayers v)) a utxos s s1)) in Hs; [apply Hs| |].
  - intros utxo l s1 y s2 (Hl & Hk & Hd) Hb.
    destruct (submit_utxo_votes v a utxos utxo s s1 y s2 (Hl utxo ltac:(set_solver)) Hk Hd Hb).
    split_and!; try done. intros z Hz. apply Hl. set_solver.
  - split_and!; try done. intros h u' Hu. rewrite Hu. split; [apply voted_same|done].
Qed.

(** C7: A relayer never has more unconfirmed UTXOs open than the cap. As long
    as no relayer is replaced, whatever the calls, the number of unconfirmed
    UTXOs whose first vote is that of a relayer is at most its
    [UnconfirmedUtxoCount], which is at most 100. *)
Theorem unconfirmed_utxos_capped s a :
  rtc bz_step bz_empty s ->
  0 <= opened a s <= unconfirmed_count s a /\ unconfirmed_count s a <= MAX_UNCONFIRMED_UTXOS_PER_RELAYER.
Proof.
  intros Hr. assert (cap_inv s) as [_ Hc].
  { assert (cap_inv bz_empty) as Hi by (split; [done|intros b; done]).
    induction Hr as [|x y z Hxy Hyz IH]; [done|]. apply IH. by eapply changes_cap_inv, Hi; apply bz_step_changes. }
  destruct (Hc a). pose proof (opened_nonneg a s). lia.
Qed.

Lemma utxo_submission_valid v sub sig x :
  bz_validate_unsigned v (CallSubmitUtxos sub sig) = inr x ->
  au_is_authority (bv_relayers v) (us_authority_id sub) = true
  /\ verify sig (utxos_message (us_utxos sub)) (us_authority_id sub) = true
  /\ Z.of_nat (length (us_utxos sub)) <= MAX_UTXOS_PER_SUBMISSION.
Proof.
  destruct sub as [a utxos]. cbn. destruct (Z.ltb_spec MAX_UTXOS_PER_SUBMISSION (Z.of_nat (length utxos))); [done|].
  unfold bz_verify_authority, bz_verify_signature, and_then.
  destruct (au_is_authority _ _); cbn [negb]; [|done].
  destruct (verify _ _ _); cbn [negb]; [|done]. done.
Qed.

(** C14: A submission makes a UTXO available only as the vote that completes a
    majority. When a submission runs and a UTXO is available after it that was
    not there like that before, the submitter is a relayer that signed the list
    of UTXOs, the UTXO is of that list, it was unconfirmed and the submitter had
    not voted for it; with its vote the voters, who are distinct, are at least
    a majority. *)
Theorem available_by_majority v sub sig s s' h u' :
  bz_reachable s -> bz_apply_unsigned v (CallSubmitUtxos sub sig) s = Some (Done tt, s') ->
  Utxos s' !! h = Some u' -> u_status u' = Available -> Utxos s !! h <> Some u' ->
  au_is_authority (bv_relayers v) (us_authority_id sub) = true
  /\ verify sig (utxos_message (us_utxos sub)) (us_authority_id sub) = true
  /\ (exists utxo, utxo ∈ us_utxos sub /\ utxo_hash utxo = h)
  /\ (exists u, Utxos s !! h = Some u /\ u_status u = Unconfirmed /\ ~ us_authority_id sub ∈ u_voters u
       /\ u_voters u' = u_voters u ++ [us_authority_id sub])
  /\ NoDup (u_voters u') /\ au_majority (bv_relayers v) <= Z.of_nat (length (u_voters u')).
Proof.
  intros Hr Hs Hu Hst Hnew. pose proof (bz_reachable_inv _ Hr) as Hi.
  apply bz_apply_dispatch in Hs as Hx. destruct Hx as [[x Hx] _].
  apply utxo_submission_valid in Hx as Hv. destruct Hv as (Ha & Hsig & _).
  unfold bz_apply_unsigned in Hs. rewrite Hx in Hs. injection Hs as Hs. rewrite dispatch_done in Hs.
  cbn [bz_unsigned_call] in Hs.
  pose proof (bz_unsigned_inv v (CallSubmitUtxos sub sig) _ _ _ Hs Hi) as Hi'.
  destruct (submit_utxos_votes _ _ _ _ _ _ Hs h u' Hu) as [Hvote Hin].
  split_and!; try done; [by apply Hin| |by apply (bi_utxos _ Hi' h u' Hu)|].
  - remember (Utxos s !! h) as o eqn:Eo. destruct Hvote as [u|u Hun _|u Hun _|u Hun Hnot _]; [done| | |].
    + congruence.
    + cbn in Hst. congruence.
    + exists u. by split_and!.
  - remember (Utxos s !! h) as o eqn:Eo. destruct Hvote as [u|u Hun _|u Hun _|u Hun _ Hm]; [done| | |done].
    + congruence.
    + cbn in Hst. congruence.
Qed.

(** ** The status of the inputs of a transaction *)

Lemma mark_all_runs status inputs s :
  (forall i, i ∈ inputs -> is_Some (Utxos s !! us_hash i)) ->
  runs (for_each inputs (set_utxo_status status)) s (fun _ s' =>
    bz_rest s' = bz_rest s /\
    forall h, Utxos s' !! h = (if bool_decide (h ∈ us_hash <$> inputs)
                               then (fun u => with_status u status) <$> Utxos s !! h else Utxos s !! h)).
Proof.
  revert s. induction inputs as [|i inputs IH]; intros s Hin; cbn [for_each].
  - apply runs_ret. split; [done|]. intros h. by rewrite bool_decide_eq_false_2 by apply not_elem_of_nil.
  - apply runs_bind. unfold set_utxo_status at 1. apply runs_bind, runs_gets. unfold id.
    destruct (Hin i ltac:(set_solver)) as [u Hu]. rewrite Hu. unfold bmutate. apply runs_modify.
    eapply runs_mono.
    { apply IH. intros j Hj. cbn. destruct (decide (us_hash i = us_hash j)) as [<-|Hne].
      - by rewrite lookup_insert_eq.
      - rewrite lookup_insert_ne by done. apply Hin. set_solver. }
    intros _ s' [Hr Hs]. split; [done|]. intros h. rewrite Hs. cbn [Utxos]. fields.
    destruct (decide (h = us_hash i)) as [->|Hne].
    + rewrite lookup_insert_eq. rewrite (bool_decide_eq_true_2 (us_hash i ∈ us_hash <$> i :: inputs)) by set_solver.
      rewrite Hu. by case_bool_decide.
    + rewrite lookup_insert_ne by congruence. repeat case_bool_decide; set_solver.
Qed.

(** C29: A broadcast poll spends the inputs when the majority is reached. When
    Blaze is active and the transaction pending, a relayer that has not voted
    for it gets its vote through, if the UTXOs of the inputs are known: below
    the majority the transaction only gains the voter; at the majority it goes
    from the pending to the confirmed transactions with its voters, and of all
    the UTXOs exactly its inputs get used. *)
Theorem broadcast_poll_confirms v sub s t :
  IsActivated s = true -> ConfirmedTxs s !! bs_txid sub = None -> PendingTxs s !! bs_txid sub = Some t ->
  bs_authority_id sub ∉ bt_voters t -> Z.of_nat (length (bt_voters t)) < MAX_AUTHORITIES ->
  (forall i, i ∈ bt_inputs t -> is_Some (Utxos s !! us_hash i)) ->
  let t' := t <| bt_voters := bt_voters t ++ [bs_authority_id sub] |> in
  exists s', broadcast_poll v NoneOrigin sub s = (Done tt, s') /\
    if au_majority (bv_relayers v) <=? Z.of_nat (length (bt_voters t')) then
      PendingTxs s' = delete (bs_txid sub) (PendingTxs s)
      /\ ConfirmedTxs s' = <[bs_txid sub := t']> (ConfirmedTxs s)
      /\ forall h, Utxos s' !! h = if bool_decide (h ∈ us_hash <$> bt_inputs t)
                                   then (fun u => with_status u Used) <$> Utxos s !! h else Utxos s !! h
    else
      PendingTxs s' = <[bs_txid sub := t']> (PendingTxs s)
      /\ ConfirmedTxs s' = ConfirmedTxs s /\ Utxos s' = Utxos s.
Proof.
  intros Hact Hc Hp Ha Hl Hin t'. destruct sub as [a txid]. cbn [bs_txid bs_authority_id] in *.
  cut (runs (broadcast_poll v NoneOrigin (mkBroadcastSubmission a txid)) s (fun _ s' =>
    if au_majority (bv_relayers v) <=? Z.of_nat (length (bt_voters t')) then
      PendingTxs s' = delete txid (PendingTxs s) /\ ConfirmedTxs s' = <[txid := t']> (ConfirmedTxs s)
      /\ forall h, Utxos s' !! h = if bool_decide (h ∈ us_hash <$> bt_inputs t)
                                   then (fun u => with_status u Used) <$> Utxos s !! h else Utxos s !! h
    else PendingTxs s' = <[txid := t']> (PendingTxs s) /\ ConfirmedTxs s' = ConfirmedTxs s
         /\ Utxos s' = Utxos s)).
  { intros ([] & s' & Hs & HQ)%runs_iff. by exists s'. }
  unfold broadcast_poll, ensure_activation, bz_deposit, bmutate. cbn [ensure_none].
  repeat wp_step; [by unfold id; rewrite Hact|by unfold id; rewrite Hc|by rewrite bool_decide_eq_false_2| |].
  { unfold try_push. by rewrite (proj2 (Z.ltb_lt _ _) Hl). }
  cbn [bt_voters]. fields. destruct (au_majority _ <=? _); [|by repeat wp_step].
  unfold take_pending, bmutate. repeat wp_step. unfold id. fields. rewrite Hp. fields. repeat wp_step.
  eapply runs_mono; [by apply mark_all_runs|]. intros _ s' [Hr Hs]. injection Hr as E1 E2 _ _.
  repeat wp_step. fields. by rewrite E1, E2.
Qed.

(** ** The outbound pool *)

Lemma push_messages_add v a messages acc s acc' s' :
  fold_each messages acc (push_message v a) s = (Done acc', s') -> pool_is acc ->
  pool_is acc' /\
  (exists added, acc'.1 = acc.1 ++ added /\ added `sublist_of` messages
     /\ Forall (fun b => verify_socket_message (bv_socket_queue v) b = true) added) /\
  (forall b m, b ∈ messages -> verify_socket_message (bv_socket_queue v) b = true ->
     SocketMessage_try_from b = Done m -> sequence_of m ∈ acc'.2) /\
  (forall q, q ∈ acc.2 -> q ∈ acc'.2).
Proof.
  revert acc s. induction messages as [|b messages IH]; intros acc s Hs Hacc; cbn [fold_each] in Hs; mrun.
  { split_and!; [done| |by intros b m ?%not_elem_of_nil|done]. exists []. by rewrite app_nil_r. }
  match goal with H : push_message _ _ _ _ _ = (Done ?acc1, _), H' : fold_each _ _ _ _ = _ |- _ =>
    pose proof (push_message_is _ _ _ _ _ _ _ H Hacc) as Hacc1; rename H into Hpush;
    destruct (IH _ _ H' Hacc1) as (Hacc' & (added & Ea & Hsub & Hver) & Hseq & Hmono); set (acc0 := acc1) in * end.
  unfold push_message, parse_message in Hpush. destruct acc as [pool sequences].
  assert ((acc0 = (pool, sequences) /\ forall m, verify_socket_message (bv_socket_queue v) b = true ->
             SocketMessage_try_from b = Done m -> sequence_of m ∈ sequences) \/
          (verify_socket_message (bv_socket_queue v) b = true /\ exists m, SocketMessage_try_from b = Done m
             /\ acc0 = (pool ++ [b], sequences ++ [sequence_of m]))) as Hcases.
  { revert Hpush. generalize acc0. clear -Hacc. intros acc0 Hpush.
    case_bool_decide as Hin; mrun.
    - left. split; [done|]. intros m _ Hm. destruct Hacc as (msgs & Hall & Hq & _). cbn [fst snd] in *. subst.
      apply list_elem_of_lookup in Hin as [k Hk].
      destruct (Forall2_lookup_l _ _ _ _ _ Hall Hk) as (m' & Hm' & E). rewrite Hm in E. injection E as <-.
      apply list_elem_of_fmap. exists m. split; [done|]. by eapply list_elem_of_lookup_2.
    - destruct (SocketMessage_try_from b) as [m|e|] eqn:Em; mrun; [|by left].
      case_bool_decide as Hseq; mrun.
      + left. split; [done|]. by intros m' _ [= <-].
      + destruct (verify_socket_message _ _); cbn [negb] in *; mrun; [|by left]. right. split; [done|].
        exists m. split; [done|]. match goal with H : bz_deposit _ _ = _ |- _ => unfold bz_deposit, bmutate in H end.
        mrun. done. }
  destruct Hcases as [[E Hb]|(Hv & m & Hm & E)]; rewrite E in *; cbn [fst snd] in *.
  - split_and!; [done| | |done].
    + exists added. split_and!; [done|by constructor|done].
    + intros b' m' [->|Hb']%elem_of_cons Hv' Hm'; [|by eapply Hseq]. apply Hmono. by eapply Hb.
  - split_and!; [done| | |].
    + exists (b :: added). rewrite Ea, <- app_assoc. split_and!; [done|by constructor|by constructor].
    + intros b' m' [->|Hb']%elem_of_cons Hv' Hm'; [|by eapply Hseq]. apply Hmono.
      rewrite Hm in Hm'. injection Hm' as <-. set_solver.
    + intros q Hq. apply Hmono. set_solver.
Qed.

Lemma submit_outbound_adds v sub s s' :
  pool_ok s -> submit_outbound_requests v NoneOrigin sub s = (Done tt, s') ->
  exists added msgs,
    OutboundPool s' = OutboundPool s ++ added /\ added `sublist_of` ss_messages sub
    /\ Forall (fun b => verify_socket_message (bv_socket_queue v) b = true) added
    /\ Forall2 (fun b m => SocketMessage_try_from b = Done m) (OutboundPool s') msgs
    /\ NoDup (sequence_of <$> msgs)
    /\ forall b m, b ∈ ss_messages sub -> verify_socket_message (bv_socket_queue v) b = true ->
         SocketMessage_try_from b = Done m -> sequence_of m ∈ sequence_of <$> msgs.
Proof.
  intros (msgs & Hp & Hnd) Hs.
  unfold submit_outbound_requests in Hs. destruct sub as [a messages]; cbn [ensure_none] in Hs; inv_run.
  match goal with H : fold_each (OutboundPool _) _ _ _ = _ |- _ =>
    apply (pool_sequences_is _ _ _ _ _ _ Hp) in H as [-> ->] end.
  match goal with H : context [match ?p with (_, _) => _ end] |- _ => destruct p as [pool sequences] end. inv_run.
  match goal with Hf : fold_each messages _ _ _ = _ |- _ =>
    destruct (push_messages_add _ _ _ _ _ _ _ Hf (ex_intro _ msgs (conj Hp (conj eq_refl Hnd))))
      as ((msgs' & Hall & Hq & Hnd') & (added & Ea & Hsub & Hver) & Hseq & _) end.
  cbn [fst snd] in *. subst.
  exists added, msgs'. split_and!; done.
Qed.

(** The outbound pool holds one message a sequence. From a reachable
    storage, a submission that runs appends some of its messages to the pool,
    in their order, each checked by the socket queue; every message of the
    pool parses, and no two have the same sequence; and for each message of the
    submission that the socket queue accepts, the pool holds a message with its
    sequence. *)
Theorem outbound_pool_one_per_sequence v sub s s' :
  bz_reachable s -> submit_outbound_requests v NoneOrigin sub s = (Done tt, s') ->
  exists added msgs,
    OutboundPool s' = OutboundPool s ++ added /\ added `sublist_of` ss_messages sub
    /\ Forall (fun b => verify_socket_message (bv_socket_queue v) b = true) added
    /\ Forall2 (fun b m => SocketMessage_try_from b = Done m) (OutboundPool s') msgs
    /\ NoDup (sequence_of <$> msgs)
    /\ forall b m, b ∈ ss_messages sub -> verify_socket_message (bv_socket_queue v) b = true ->
         SocketMessage_try_from b = Done m -> sequence_of m ∈ sequence_of <$> msgs.
Proof. intros Hr. apply submit_outbound_adds, bi_pool. by apply bz_reachable_inv. Qed.

(** ** The fee rate *)

Lemma filter_none {A} (D : A -> Prop) `{!forall x, Decision (D x)} l :
  (forall x, x ∈ l -> ~ D x) -> filter D l = [].
Proof.
  induction l as [|x l IH]; intros Hl; [done|]. rewrite filter_cons.
  rewrite decide_False by (apply Hl; set_solver). apply IH. set_solver.
Qed.
Lemma median_within (l : list Z) m lo hi :
  stable_sort Z.leb l !! (length l / 2)%nat = Some m ->
  (length l < 2 * length (filter (fun x => (lo <= x <= hi)%Z) l))%nat -> lo <= m <= hi.
Proof.
  intros Hm Hmaj. set (k := (length l / 2)%nat) in *. set (sorted := stable_sort Z.leb l) in *.
  assert (sorted ≡ₚ l) as Hp by apply stable_sort_perm.
  assert (StronglySorted (fun a b => Z.leb a b = true) sorted) as Hs.
  { apply stable_sort_strongly; intros; rewrite ?Z.leb_le in *; lia. }
  rewrite <- Hp in Hmaj. assert (length sorted = length l) as Hlen by by rewrite Hp.
  pose proof (take_drop_middle _ _ _ Hm) as E. rewrite <- E in Hs, Hmaj, Hlen.
  rewrite length_app in Hlen. cbn [length] in Hlen. rewrite !length_app, filter_app, length_app in Hmaj.
  assert (length (take k sorted) = k) as Hk by (rewrite length_take; apply lookup_lt_Some in Hm; lia).
  pose proof (Nat.div_mod (length l) 2 ltac:(done)) as Hdiv. fold k in Hdiv.
  pose proof (Nat.mod_upper_bound (length l) 2 ltac:(done)).
  pose proof (length_filter (fun x => lo <= x <= hi) (take k sorted)).
  pose proof (length_filter (fun x => lo <= x <= hi) (drop (S k) sorted)).
  apply StronglySorted_app in Hs as (Hle & _ & [_ Hge]%StronglySorted_inv). rewrite Forall_forall in Hge.
  cbn [length] in Hmaj. split; apply Z.nlt_ge; intros Hlt.
  - rewrite filter_none, filter_cons, decide_False in Hmaj; cbn [length] in Hmaj; [lia|lia|].
    intros x Hx. specialize (Hle x m Hx ltac:(set_solver)). cbn in Hle. lia.
  - rewrite (filter_none _ (m :: _)) in Hmaj; cbn [length] in Hmaj; [lia|].
    intros x [->|Hx]%elem_of_cons; [lia|]. specialize (Hge x Hx). cbn in Hge. lia.
Qed.
Lemma filter_fmap_length {A B} (f : A -> B) (D : B -> Prop) `{!forall x, Decision (D x)} l :
  length (filter D (f <$> l)) = length (filter (fun x => D (f x)) l).
Proof.
  induction l as [|x l IH]; [done|]. rewrite fmap_cons, !filter_cons. by case_decide; cbn; rewrite IH.
Qed.
Lemma median_rate (f : N * (Z * Z * Z) -> Z) (rates : gmap N (Z * Z * Z)) m lo hi (k : nat) :
  stable_sort Z.leb (f <$> acc_iter rates) !! (k / 2)%nat = Some m -> k = size rates ->
  (size rates < 2 * length (filter (fun kv => (lo <= f kv <= hi)%Z) (map_to_list rates)))%nat ->
  lo <= m <= hi.
Proof.
  intros Hm -> Hmaj.
  assert (length (f <$> acc_iter rates) = size rates) as Hl
    by by rewrite length_fmap, acc_iter_perm, length_map_to_list.
  apply (median_within (f <$> acc_iter rates)); rewrite Hl; [done|].
  by rewrite filter_fmap_length, acc_iter_perm.
Qed.

(** The fee rate is a median of the rates submitted. When a finalization
    gives a pair, the rates that are past their expiry are gone and those that
    are left come from a majority at least of the relayers; the rate is not
    below the long-term rate; and each of the two lies between any bounds
    between which more than half of the rates left lie, whatever the others
    are. *)
Theorem fee_rate_is_median v n s s' lt_fee_rate fee_rate :
  try_fee_rate_finalization v n s = (Done (Some (lt_fee_rate, fee_rate)), s') ->
  FeeRates s' = filter (fun kv => n <= kv.2.2) (FeeRates s)
  /\ au_majority (bv_relayers v) <= Z.of_nat (size (FeeRates s'))
  /\ lt_fee_rate <= fee_rate
  /\ (forall lo hi,
        (size (FeeRates s') < 2 * length (filter (fun kv => (lo <= kv.2.1.2 <= hi)%Z) (map_to_list (FeeRates s'))))%nat ->
        lo <= fee_rate <= hi)
  /\ (forall lo hi,
        (size (FeeRates s') < 2 * length (filter (fun kv => (lo <= kv.2.1.1 <= hi)%Z) (map_to_list (FeeRates s'))))%nat ->
        lo <= lt_fee_rate <= hi).
Proof.
  intros Hs. unfold try_fee_rate_finalization in Hs. inv_run. fields.
  set (rates := filter _ (FeeRates s)) in *.
  assert (length (acc_iter rates) = size rates) as Hsize by (rewrite acc_iter_perm; apply length_map_to_list).
  destruct (Z.leb_spec (au_majority (bv_relayers v)) (Z.of_nat (length (acc_iter rates)))); inv_run.
  match goal with Hl : context [?a <=? ?b] |- _ => destruct (Z.leb_spec a b) end; inv_run.
  change (FeeRates (s <| FeeRates ::= _ |>)) with rates.
  split_and!; [done|by rewrite <- Hsize|done|..]; intros lo hi Hmaj; (eapply median_rate; [done| |exact Hmaj]);
    by rewrite stable_sort_length, length_fmap.
Qed.

(** ** Coins of Blaze *)

Lemma get_utxos_available s i :
  bz_inv s -> i ∈ get_utxos s -> exists u, Utxos s !! us_hash i = Some u /\ u_status u = Available /\ u_inner u = i.
Proof.
  intros Hi Hin. unfold get_utxos in Hin. apply list_elem_of_omap in Hin as ([h u] & Hin & E).
  apply elem_of_map_to_list in Hin. cbn [fst snd] in E. case_bool_decide; [|done]. injection E as <-.
  destruct (bi_utxos _ Hi h u Hin) as [-> _]. by exists u.
Qed.
Lemma lock_available txid inputs s :
  bz_inv s -> (forall i, i ∈ inputs -> i ∈ get_utxos s) ->
  exists s', lock_utxos txid inputs s = (Done tt, s')
    /\ PendingTxs s' = <[txid := mkBTCTransaction inputs []]> (PendingTxs s)
    /\ forall i, i ∈ inputs -> exists u,
         Utxos s !! us_hash i = Some u /\ u_status u = Available /\ u_inner u = i
         /\ Utxos s' !! us_hash i = Some (with_status u Locked).
Proof.
  intros Hi Hin.
  cut (runs (lock_utxos txid inputs) s (fun _ s' =>
    PendingTxs s' = <[txid := mkBTCTransaction inputs []]> (PendingTxs s)
    /\ forall i, i ∈ inputs -> exists u,
         Utxos s !! us_hash i = Some u /\ u_status u = Available /\ u_inner u = i
         /\ Utxos s' !! us_hash i = Some (with_status u Locked))).
  { intros ([] & s' & Hs & HQ)%runs_iff. by exists s'. }
  unfold lock_utxos, bmutate. apply runs_bind. eapply runs_mono.
  { apply mark_all_runs. intros i Hii. destruct (get_utxos_available s i Hi (Hin i Hii)) as (u & Hu & _). by exists u. }
  intros _ s' [Hr Hs]. apply runs_modify. injection Hr as E _ _ _. split; [fields; by rewrite E|].
  intros i Hii. destruct (get_utxos_available s i Hi (Hin i Hii)) as (u & Hu & Hst & Hinner). exists u.
  split_and!; [done..|]. fields. rewrite Hs, Hu, bool_decide_eq_true_2; [done|]. by apply list_elem_of_fmap_2.
Qed.

(** C28: The coins selected can be locked. On a reachable storage, whatever
    selection [select_coins] makes of a pool of UTXOs that [get_utxos] gave,
    with any scores and any bounds, locking it for a transaction succeeds: the
    transaction gets pending with the selection, and each UTXO of it, which was
    available, is locked. *)
Theorem selected_coins_lock s pool target cost_of_change max_weight max_tries change_target
    selected strategy txid :
  bz_reachable s -> (forall x, x ∈ pool -> su_utxo x ∈ get_utxos s) ->
  select_coins pool target cost_of_change max_weight max_tries change_target = Some (selected, strategy) ->
  exists s', lock_utxos txid selected s = (Done tt, s')
    /\ PendingTxs s' = <[txid := mkBTCTransaction selected []]> (PendingTxs s)
    /\ forall i, i ∈ selected -> exists u,
         Utxos s !! us_hash i = Some u /\ u_status u = Available /\ u_inner u = i
         /\ Utxos s' !! us_hash i = Some (with_status u Locked).
Proof.
  intros Hr Hpool Hs. apply lock_available; [by apply bz_reachable_inv|]. intros i Hi.
  eapply select_coins_elem in Hi; [|exact Hs]. apply list_elem_of_fmap in Hi as (x & -> & Hx). by apply Hpool.
Qed.

(** C38: Every storage reached is well formed, replacements included: a UTXO is
    stored under its hash; the voters of UTXOs and of transactions are distinct
    and fit their bound, and an unconfirmed UTXO has one; the rates fit theirs;
    the messages of the pool parse, with distinct sequences. Hence a relayer
    can always be replaced by an account without votes: no bound makes the
    replacement panic. *)
Theorem blaze_well_formed s :
  bz_reachable s ->
  bz_inv s /\ forall old new, no_vote new s ->
    exists s', bz_replace_authority old new s = (Done tt, s') /\ bz_inv s'.
Proof.
  intros Hr%bz_reachable_inv. split; [done|]. intros old new Hn.
  pose proof (replace_authority_runs old new s Hr Hn) as Hs.
  apply runs_iff in Hs as ([] & s' & Hs & Hi). by exists s'.
Qed.
End Steps.
