(* ===== verification/BlazeRuns.v ===== *)
(** * Blaze on concrete inputs

    A concrete configuration over the registration pool of
    [RegistrationPoolRuns], a UTXO from its submission to its spending, the
    witnesses of the theorems on Blaze, and the runs that show what a
    replacement and an activation leave behind. *)

From S2P Require Import Prelude Logic Errors Primitives Cccp BtcRelay RegistrationPool CoinSelection CoinSelectionTheorems Blaze BlazeInv BlazeTheorems BridgeInstances RegistrationPoolTheorems RegistrationPoolRuns.
Local Open Scope Z_scope.
Local Open Scope frame_scope.

(** ** The configuration *)

#[export] Instance bz_config : BzConfig := {
  bz_lib := simple_btc;
  bz_psbt := simple_psbt;
  bz_crypto := simple_crypto (numbered_hash []);
  bz_abi := packed_abi;
  encode_utxo '(txid, vout, amount, address) :=
    to_be_bytes 2 (Z.of_N txid) ++ to_be_bytes 1 vout ++ to_be_bytes 2 amount ++ take 2 address;
  FeeRateExpiration := 10;
  ToleranceThreshold := 3
}.
#[export] Instance pool_manager : @PoolManager (@bz_lib bz_config) RpStorage := @RegistrationPool_manager rp_config.
(** A list of relayers, with the majority of the relay manager. *)
#[export] Instance listed_relayers : Authorities (list N) := {
  au_is_authority l a := bool_decide (a ∈ l);
  au_count l := Z.of_nat (length l);
  au_majority l := Z.of_nat (length l) / 2 + 1
}.
Definition bz_view (relayers : list N) : BzView (list N) RpStorage unit :=
  mkBzView _ _ _ relayers p3 tt 10.
Definition three : BzView (list N) RpStorage unit := bz_view [1%N; 2%N; 3%N].
Definition five : BzView (list N) RpStorage unit := bz_view [1%N; 2%N; 3%N; 4%N; 5%N].
Definition bz_sign (who : AccountId) : @Signature bz_crypto := who.

(** The storage after an unsigned call, when it is let in. *)
Definition bz_unsigned (v : BzView (list N) RpStorage unit) (call : BzCall) (s : BzStorage) : BzStorage :=
  match bz_apply_unsigned v call s with Some (_, s') => s' | None => s end.
Abbreviation bz_steps := (rtc (bz_step (R := list N) (P := RpStorage) (Q := unit))).
Abbreviation bz_run := (bz_reachable (R := list N) (P := RpStorage) (Q := unit)).
Lemma bz_unsigned_steps v call s : bz_steps s (bz_unsigned v call s).
Proof.
  unfold bz_unsigned. destruct (bz_apply_unsigned v call s) as [[r s']|] eqn:E; [|done].
  eapply rtc_once. by econstructor.
Qed.
Lemma bz_steps_run s : bz_steps bz_empty s -> bz_run s.
Proof. apply rtc_subrel. intros x y. apply bz_any_step. Qed.

(** ** The life of a UTXO *)

Definition utxo1 : UtxoInfo := mkUtxoInfo 77 0 5000 vault12.
Definition hash1 : H256 := utxo_hash utxo1.
Definition submission (who : AccountId) : UtxoSubmission := mkUtxoSubmission who [utxo1].
Definition submit (v : BzView (list N) RpStorage unit) (who : AccountId) : BzStorage -> BzStorage :=
  bz_unsigned v (CallSubmitUtxos (submission who) (bz_sign who)).
Definition b1 : BzStorage := (dispatch (set_activation RootOrigin true) bz_empty).2.
Definition b2 : BzStorage := submit three 1 b1.
Definition b3 : BzStorage := submit three 2 b2.
Definition info1 : UtxoInfoWithSize :=
  Eval vm_compute in match get_utxos b3 with i :: _ => i | [] => mkUtxoInfoWithSize 0 0 0 0 [] 0 end.
Definition b4 : BzStorage := (dispatch (lock_utxos 9 [info1]) b3).2.
Definition broadcast (who : AccountId) : BroadcastSubmission := mkBroadcastSubmission who 9.
Definition b5 : BzStorage := bz_unsigned three (CallBroadcastPoll (broadcast 1) (bz_sign 1)) b4.
Definition b6 : BzStorage := bz_unsigned three (CallBroadcastPoll (broadcast 2) (bz_sign 2)) b5.

Definition status_of (s : BzStorage) : option UtxoStatus := u_status <$> Utxos s !! hash1.
Example life_of_a_utxo :
  (fun s => (status_of s, unconfirmed_count s 1, size (PendingTxs s), size (ConfirmedTxs s)))
    <$> [b1; b2; b3; b4; b5; b6]
  = [(None, 0, 0%nat, 0%nat); (Some Unconfirmed, 1, 0%nat, 0%nat); (Some Available, 0, 0%nat, 0%nat);
     (Some Locked, 0, 1%nat, 0%nat); (Some Locked, 0, 1%nat, 0%nat); (Some Used, 0, 0%nat, 1%nat)].
Proof. vm_compute. reflexivity. Qed.

Lemma b1_steps : bz_steps bz_empty b1.
Proof. apply rtc_once, (bz_step_set_activation (R := list N) (P := RpStorage) (Q := unit)). Qed.
Lemma b2_steps : bz_steps bz_empty b2.
Proof. etransitivity; [apply b1_steps|apply bz_unsigned_steps]. Qed.
Lemma b3_steps : bz_steps bz_empty b3.
Proof. etransitivity; [apply b2_steps|apply bz_unsigned_steps]. Qed.
Lemma b4_steps : bz_steps bz_empty b4.
Proof.
  eapply rtc_r; [apply b3_steps|].
  apply (bz_step_lock (R := list N) (P := RpStorage) (Q := unit) 9 [info1]).
Qed.

Lemma capped_witness : opened 1 b2 = 1 /\ 0 <= opened 1 b2 <= unconfirmed_count b2 1.
Proof.
  split; [vm_compute; reflexivity|].
  apply (unconfirmed_utxos_capped (R := list N) (P := RpStorage) (Q := unit) b2 1). exact b2_steps.
Defined.

Lemma available_witness :
  exists u', Utxos b3 !! hash1 = Some u' /\ NoDup (u_voters u')
    /\ au_majority (bv_relayers three) <= Z.of_nat (length (u_voters u')).
Proof.
  destruct (Utxos b3 !! hash1) as [u'|] eqn:E; [|vm_compute in E; discriminate].
  exists u'. split; [reflexivity|].
  apply (available_by_majority three (submission 2) (bz_sign 2) b2 b3 hash1 u').
  - apply bz_steps_run, b2_steps.
  - vm_compute. reflexivity.
  - exact E.
  - vm_compute in E. injection E as <-. reflexivity.
  - vm_compute. vm_compute in E. rewrite <- E. discriminate.
Defined.

Lemma broadcast_witness :
  exists s', broadcast_poll three NoneOrigin (broadcast 2) b5 = (Done tt, s') /\ status_of s' = Some Used.
Proof.
  destruct (PendingTxs b5 !! 9%N) as [t|] eqn:E; [|vm_compute in E; discriminate].
  destruct (broadcast_poll_confirms three (broadcast 2) b5 t) as (s' & Hs & Hres).
  - vm_compute. reflexivity.
  - vm_compute. reflexivity.
  - exact E.
  - vm_compute in E. injection E as <-. cbn. set_solver.
  - vm_compute in E. injection E as <-. vm_compute. reflexivity.
  - vm_compute in E. injection E as <-. cbn [bt_inputs]. intros i Hi%list_elem_of_singleton. subst i.
    vm_compute. by eexists.
  - exists s'. split; [exact Hs|]. vm_compute in E. injection E as <-.
    vm_compute in Hs. injection Hs as <-. vm_compute. reflexivity.
Defined.

(** ** The outbound pool *)

Definition outbound (sequence : Z) : list byte :=
  SocketMessage_encode (mkSocketMessage (mkRequestID (to_be_bytes 4 3068) 1 sequence) 5
    (mkInstruction (to_be_bytes 4 1) (to_be_bytes 16 0))
    (mkTaskParams (to_be_bytes 32 7) (to_be_bytes 32 0) 0 5 100 [])).
Definition outbound_submission : SocketMessagesSubmission :=
  mkSocketMessagesSubmission 1 [outbound 4; outbound 6; outbound 4].
Definition o1 : BzStorage := (submit_outbound_requests three NoneOrigin outbound_submission b1).2.
Lemma outbound_witness :
  length (OutboundPool o1) = 2%nat /\
  exists msgs, Forall2 (fun b m => SocketMessage_try_from b = Done m) (OutboundPool o1) msgs
    /\ NoDup (sequence_of <$> msgs).
Proof.
  split; [vm_compute; reflexivity|].
  destruct (outbound_pool_one_per_sequence three outbound_submission b1 o1) as (added & msgs & _ & _ & _ & H1 & H2 & _).
  - apply bz_steps_run, b1_steps.
  - vm_compute. reflexivity.
  - exists msgs. split; [exact H1|exact H2].
Defined.

(** ** The fee rate *)

(** Three rates, one of them far off. *)
Definition rates : gmap N (Z * Z * Z) := {[1%N := (2, 5, 20); 2%N := (3, 6, 20); 3%N := (900, 1000, 20)]}.
Definition f1 : BzStorage := b1 <| FeeRates := rates |>.
Lemma fee_rate_witness :
  exists s', try_fee_rate_finalization three 11 f1 = (Done (Some (3, 6)), s')
    /\ (5 <= 6 <= 6).
Proof.
  destruct (try_fee_rate_finalization three 11 f1) as [r s'] eqn:E. exists s'.
  assert (r = Done (Some (3, 6))) as -> by (vm_compute in E; congruence). split; [reflexivity|].
  destruct (fee_rate_is_median three 11 f1 s' 3 6 E) as (_ & _ & _ & H1 & _). apply (H1 5 6).
  vm_compute in E. injection E as <-. vm_compute. lia.
Defined.

(** ** Locking what was selected *)

Definition pool1 : list ScoredUtxo := [mkScoredUtxo info1 100 50 4900].
Lemma lock_witness :
  exists s', lock_utxos 9 [info1] b3 = (Done tt, s') /\ PendingTxs s' !! 9%N = Some (mkBTCTransaction [info1] []).
Proof.
  destruct (selected_coins_lock (R := list N) (P := RpStorage) (Q := unit) b3 pool1 4000 10 1000 100 546
              [info1] Knapsack 9) as (s' & Hs & Hp & _).
  - apply bz_steps_run, b3_steps.
  - intros x Hx%list_elem_of_singleton. subst x. vm_compute. set_solver.
  - vm_compute. reflexivity.
  - exists s'. split; [exact Hs|]. rewrite Hp. vm_compute. reflexivity.
Defined.

(** ** Replacements *)

Lemma well_formed_witness : exists s', bz_replace_authority 1 9 b2 = (Done tt, s').
Proof.
  destruct (blaze_well_formed (R := list N) (P := RpStorage) (Q := unit) b2) as [_ Hreplace].
  { apply bz_steps_run, b2_steps. }
  destruct (Hreplace 1%N 9%N) as (s' & Hs & _).
  - split; refine (bool_decide_unpack _ _); vm_compute; exact I.
  - exists s'. exact Hs.
Defined.

(** After a replacement the counts belong to the wrong relayers. Five
    relayers; relayer 1 opens a UTXO and relayer 2 votes for it; relayer 1 is
    replaced by 9, which is put at the end of the voters, while the count of 1
    goes to 9. Relayer 2 is now the first voter, with an open UTXO its count
    does not hold. When relayer 3 completes the majority the count of 2 is
    lowered, and that of 9 stays at one though it has no UTXO open: each such
    replacement takes from what relayer 9 may submit for good. *)
Theorem replacement_misplaces_counts :
  let s1 := submit five 2 (submit five 1 b1) in
  exists s2, bz_replace_authority 1 9 s1 = (Done tt, s2) /\ no_vote 9 s1
    /\ (u_voters <$> Utxos s2 !! hash1) = Some [2%N; 9%N]
    /\ (opened 2 s2, unconfirmed_count s2 2) = (1, 0)
    /\ let s3 := submit (bz_view [2%N; 3%N; 4%N; 5%N; 9%N]) 3 s2 in
       status_of s3 = Some Available /\ (opened 9 s3, unconfirmed_count s3 9) = (0, 1).
Proof.
  cbv zeta. eexists. split; [vm_compute; reflexivity|]. split.
  { split; refine (bool_decide_unpack _ _); vm_compute; exact I. }
  repeat split; vm_compute; reflexivity.
Qed.

(** An activation strands the locked UTXOs. A UTXO is locked for a
    pending transaction; Blaze is deactivated and activated again, which
    clears the pending transactions. The UTXO stays locked: the transaction can
    be neither polled nor unlocked, and votes of all the relayers do not make
    the UTXO available again. *)
Theorem activation_strands_locked_utxos :
  let s1 := (dispatch (set_activation RootOrigin false) b4).2 in
  let s2 := (dispatch (set_activation RootOrigin true) s1).2 in
  IsActivated s2 = true /\ status_of s2 = Some Locked
  /\ (broadcast_poll three NoneOrigin (broadcast 1) s2).1 = Fail (BlazeErr BlUnknownTransaction)
  /\ (unlock_utxos 9 s2).1 = Fail (BlazeErr BlUnknownTransaction)
  /\ status_of (submit three 3 (submit three 2 (submit three 1 s2))) = Some Locked.
Proof. vm_compute. repeat split. Qed.

(** With one relayer, whose vote is a majority, a UTXO never gets available. *)
Lemma single_relayer_never_confirms :
  let v := bz_view [1%N] in
  au_majority (bv_relayers v) = 1
  /\ status_of (submit v 1 (submit v 1 b1)) = Some Unconfirmed
  /\ (u_voters <$> Utxos (submit v 1 b1) !! hash1) = Some [1%N].
Proof. vm_compute. repeat split. Qed.
