(* ===== verification/SocketQueueInv.v ===== *)
(** * The socket queue: what holds of every storage reached

    The atomic changes the calls make to the requests, the rollbacks and the
    bonded messages, and the invariant they keep: a transaction has one request
    at a time, an unapproved rollback has none, and each message of a request
    that pays is bonded to the transaction of that request and to no other. *)

From S2P Require Import Prelude Logic Errors Primitives Cccp BtcRelay SocketQueue.
Local Open Scope Z_scope.
Local Open Scope frame_scope.

Section Changes.
Context `{!EthAbi}.
Implicit Types (q : SqStorage) (t : H256) (r : PsbtRequest) (rr : RollbackRequest).

(** What the atomic changes are about *)
Record Lives : Type := mkLives {
  lv_pending : gmap N PsbtRequest;
  lv_finalized : gmap N PsbtRequest;
  lv_executed : gmap N PsbtRequest;
  lv_rollbacks : gmap N RollbackRequest;
  lv_messages : gmap Z (H256 * SocketMessage)
}.
Definition lives q : Lives :=
  mkLives (PendingRequests q) (FinalizedRequests q) (ExecutedRequests q) (RollbackRequests q)
    (SocketMessages q).
Implicit Types l : Lives.

(** The transaction [t] has the request [r]. *)
Definition has_request l t r : Prop :=
  lv_pending l !! t = Some r \/ lv_finalized l !! t = Some r \/ lv_executed l !! t = Some r.
Definition no_request l t : Prop :=
  lv_pending l !! t = None /\ lv_finalized l !! t = None /\ lv_executed l !! t = None.

(** What a request is for; signatures come later. *)
Definition purpose r : UnboundedBytes * list UnboundedBytes * RequestType :=
  (pr_unsigned_psbt r, pr_socket_messages r, pr_request_type r).
Definition same_purpose r r' : Prop := purpose r' = purpose r.
Definition sm_sequence (m : SocketMessage) : U256 := rid_sequence (sm_req_id m).
Definition bond t (msgs : list SocketMessage) (m : gmap Z (H256 * SocketMessage))
    : gmap Z (H256 * SocketMessage) :=
  foldl (fun m x => <[sm_sequence x := (t, x)]> m) m msgs.
Definition parses (b : UnboundedBytes) (m : SocketMessage) : Prop := SocketMessage_try_from b = Done m.

(** One change: new messages are bonded only when [opens] holds, and rollbacks
    begin in the normal state of the service ([normal]). *)
Inductive change (opens normal : Prop) l : Lives -> Prop :=
| change_open t unsigned bytes msgs :
    opens -> normal -> no_request l t -> lv_rollbacks l !! t = None ->
    Forall2 parses bytes msgs -> NoDup (sm_sequence <$> msgs) ->
    Forall (fun m => lv_messages l !! sm_sequence m = None) msgs ->
    change opens normal l (mkLives (<[t := new_psbt_request unsigned bytes NormalRequest]> (lv_pending l))
                (lv_finalized l) (lv_executed l) (lv_rollbacks l) (bond t msgs (lv_messages l)))
| change_sign t r r' :
    lv_pending l !! t = Some r -> same_purpose r r' ->
    change opens normal l (mkLives (<[t := r']> (lv_pending l)) (lv_finalized l) (lv_executed l) (lv_rollbacks l)
                (lv_messages l))
| change_finalize t r r' :
    lv_pending l !! t = Some r -> same_purpose r r' ->
    change opens normal l (mkLives (delete t (lv_pending l)) (<[t := r']> (lv_finalized l)) (lv_executed l)
                (lv_rollbacks l) (lv_messages l))
| change_execute t r :
    lv_finalized l !! t = Some r ->
    change opens normal l (mkLives (lv_pending l) (delete t (lv_finalized l)) (<[t := r]> (lv_executed l))
                (lv_rollbacks l) (lv_messages l))
| change_roll t rr :
    normal -> no_request l t -> lv_rollbacks l !! t = None -> rr_is_approved rr = false ->
    change opens normal l (mkLives (lv_pending l) (lv_finalized l) (lv_executed l) (<[t := rr]> (lv_rollbacks l))
                (lv_messages l))
| change_vote t rr rr' :
    lv_rollbacks l !! t = Some rr -> rr_is_approved rr = false -> rr_is_approved rr' = false ->
    change opens normal l (mkLives (lv_pending l) (lv_finalized l) (lv_executed l) (<[t := rr']> (lv_rollbacks l))
                (lv_messages l))
| change_approve t rr rr' unsigned :
    lv_rollbacks l !! t = Some rr -> rr_is_approved rr = false -> rr_is_approved rr' = true ->
    change opens normal l (mkLives (<[t := new_psbt_request unsigned [] RollbackOf]> (lv_pending l)) (lv_finalized l)
                (lv_executed l) (<[t := rr']> (lv_rollbacks l)) (lv_messages l))
| change_drop t rr :
    lv_rollbacks l !! t = Some rr -> rr_is_approved rr = false ->
    change opens normal l (mkLives (lv_pending l) (lv_finalized l) (lv_executed l) (delete t (lv_rollbacks l))
                (lv_messages l))
| change_migrate t unsigned :
    ~ normal -> no_request l t ->
    change opens normal l (mkLives (<[t := new_psbt_request unsigned [] Migration]> (lv_pending l)) (lv_finalized l)
                (lv_executed l) (lv_rollbacks l) (lv_messages l))
| change_bump_normal old new r unsigned msgs :
    normal -> lv_executed l !! old = Some r -> pr_request_type r = NormalRequest ->
    no_request l new -> lv_rollbacks l !! new = None -> Forall2 parses (pr_socket_messages r) msgs ->
    change opens normal l (mkLives (<[new := new_psbt_request unsigned (pr_socket_messages r) NormalRequest]> (lv_pending l))
                (lv_finalized l) (delete old (lv_executed l)) (lv_rollbacks l)
                (bond new msgs (lv_messages l)))
| change_bump_migration old new r unsigned :
    lv_executed l !! old = Some r -> pr_request_type r = Migration ->
    no_request l new -> lv_rollbacks l !! new = None ->
    change opens normal l (mkLives (<[new := new_psbt_request unsigned (pr_socket_messages r) Migration]> (lv_pending l))
                (lv_finalized l) (delete old (lv_executed l)) (lv_rollbacks l) (lv_messages l))
| change_bump_rollback old new r rr rr' unsigned :
    normal -> lv_executed l !! old = Some r -> pr_request_type r = RollbackOf ->
    no_request l new -> lv_rollbacks l !! new = None ->
    lv_rollbacks l !! old = Some rr -> rr_is_approved rr' = rr_is_approved rr ->
    change opens normal l (mkLives (<[new := new_psbt_request unsigned (pr_socket_messages r) RollbackOf]> (lv_pending l))
                (lv_finalized l) (delete old (lv_executed l))
                (<[new := rr']> (delete old (lv_rollbacks l))) (lv_messages l)).

Definition queue_changes (opens normal : Prop) q q' : Prop := rtc (change opens normal) (lives q) (lives q').

(** ** The invariant *)

(** The request of a transaction agrees with its rollback: it is a request of
    the rollback once that is approved; before, there is none. Only requests
    that pay have messages. *)
Definition agrees r (rollback : option RollbackRequest) : Prop :=
  match rollback with
  | Some rr => rr_is_approved rr = true
  | None => pr_request_type r <> RollbackOf
  end /\ (pr_request_type r <> NormalRequest -> pr_socket_messages r = []).

(** A transaction has one request at most, and it agrees. *)
Inductive slot_ok : option PsbtRequest -> option PsbtRequest -> option PsbtRequest ->
    option RollbackRequest -> Prop :=
| slot_none o : slot_ok None None None o
| slot_pending r o : agrees r o -> slot_ok (Some r) None None o
| slot_finalized r o : agrees r o -> slot_ok None (Some r) None o
| slot_executed r o : agrees r o -> slot_ok None None (Some r) o.

Definition bonded l : Prop :=
  forall t r b, has_request l t r -> b ∈ pr_socket_messages r ->
    exists m m', parses b m /\ lv_messages l !! sm_sequence m = Some (t, m').

(** A request has a message once. *)
Definition once r : Prop :=
  exists msgs, Forall2 parses (pr_socket_messages r) msgs /\ NoDup (sm_sequence <$> msgs).
Definition all_once l : Prop := forall t r, has_request l t r -> once r.

(** In a migration every rollback is approved. *)
Definition all_approved l : Prop := forall t rr, lv_rollbacks l !! t = Some rr -> rr_is_approved rr = true.

(** In a migration only migrations are signed. *)
Definition only_migrations l : Prop :=
  forall t r, lv_pending l !! t = Some r \/ lv_finalized l !! t = Some r -> pr_request_type r = Migration.

Record lives_ok (normal : Prop) l : Prop := {
  lo_slot t : slot_ok (lv_pending l !! t) (lv_finalized l !! t) (lv_executed l !! t) (lv_rollbacks l !! t);
  lo_bonded : bonded l;
  lo_once : all_once l;
  lo_ready : ~ normal -> all_approved l;
  lo_migrating : ~ normal -> only_migrations l
}.

Lemma bond_lookup t msgs m k :
  bond t msgs m !! k = m !! k \/ exists x, x ∈ msgs /\ sm_sequence x = k /\ bond t msgs m !! k = Some (t, x).
Proof.
  unfold bond. revert m. induction msgs as [|x msgs IH]; intros m; cbn; [by left|].
  destruct (IH (<[sm_sequence x := (t, x)]> m)) as [E|(y & Hy & Hk & E)].
  - rewrite E. destruct (decide (sm_sequence x = k)) as [<-|Hne].
    + right. exists x. rewrite lookup_insert_eq. split_and!; [set_solver|done..].
    + left. by rewrite lookup_insert_ne.
  - right. exists y. split_and!; [set_solver|done..].
Qed.
Lemma bond_in t msgs m x : x ∈ msgs -> exists y, bond t msgs m !! sm_sequence x = Some (t, y).
Proof.
  unfold bond. revert m. induction msgs as [|z msgs IH]; intros m Hx; [by apply elem_of_nil in Hx|].
  cbn. apply elem_of_cons in Hx as [->|Hx]; [|by apply IH].
  destruct (bond_lookup t msgs (<[sm_sequence z := (t, z)]> m) (sm_sequence z)) as [E|(y & _ & _ & E)].
  - unfold bond in E. rewrite E, lookup_insert_eq. eauto.
  - unfold bond in E. rewrite E. eauto.
Qed.
Lemma parses_in bytes msgs b : Forall2 parses bytes msgs -> b ∈ bytes -> exists m, m ∈ msgs /\ parses b m.
Proof.
  intros Hf [i Hi]%list_elem_of_lookup. destruct (Forall2_lookup_l _ _ _ _ _ Hf Hi) as (m & Hm & Hp).
  exists m. split; [by eapply list_elem_of_lookup_2|done].
Qed.
Lemma parses_out bytes msgs m : Forall2 parses bytes msgs -> m ∈ msgs -> exists b, b ∈ bytes /\ parses b m.
Proof.
  intros Hf [i Hi]%list_elem_of_lookup. destruct (Forall2_lookup_r _ _ _ _ _ Hf Hi) as (b & Hb & Hp).
  exists b. split; [by eapply list_elem_of_lookup_2|done].
Qed.
Lemma parses_fun b m m' : parses b m -> parses b m' -> m = m'.
Proof. unfold parses. congruence. Qed.

Lemma agrees_purpose r r' o : same_purpose r r' -> agrees r o -> agrees r' o.
Proof. unfold same_purpose, purpose, agrees. intros [= _ -> ->]. done. Qed.

Ltac at_key i j :=
  destruct (decide (i = j)) as [->|?];
  [rewrite ?lookup_insert_eq, ?lookup_delete_eq in *
  |rewrite ?lookup_insert_ne, ?lookup_delete_ne in * by done].
Ltac at_keys :=
  repeat match goal with
  | |- context [<[?i := _]> _ !! ?j] => at_key i j
  | |- context [delete ?i _ !! ?j] => at_key i j
  end.

Lemma agrees_unapproved r rr : rr_is_approved rr = false -> ~ agrees r (Some rr).
Proof. intros E [E' _]. congruence. Qed.
Lemma agrees_empty r o :
  agrees r o -> pr_request_type r <> NormalRequest -> pr_socket_messages r = [].
Proof. by intros [_ ?]. Qed.

(** [H] is a slot whose contents are known in part. *)
Ltac open_slot H :=
  repeat match goal with
  | E : ?m !! ?t = ?v |- _ =>
      match type of H with context [m !! t] => rewrite E in H end
  end;
  inversion H; subst; clear H;
  repeat match goal with
  | Ha : agrees _ (Some ?rr), E : rr_is_approved ?rr = false |- _ => destruct (agrees_unapproved _ _ E Ha)
  end.

Lemma change_slot opens normal l l' :
  (~ normal -> all_approved l) ->
  (forall t, slot_ok (lv_pending l !! t) (lv_finalized l !! t) (lv_executed l !! t) (lv_rollbacks l !! t)) ->
  change opens normal l l' ->
  forall t, slot_ok (lv_pending l' !! t) (lv_finalized l' !! t) (lv_executed l' !! t) (lv_rollbacks l' !! t).
Proof.
  intros Ha Hs Hc t0. pose proof (Hs t0) as H0.
  destruct Hc; unfold no_request in *; cbn [lv_pending lv_finalized lv_executed lv_rollbacks lv_messages];
    try match goal with E : lv_executed l !! ?old = Some _ |- _ => pose proof (Hs old) as Hold; open_slot Hold end;
    destruct_and?; at_keys; try done; simplify_eq; open_slot H0.
  all: repeat match goal with E : ?m !! ?t = _ |- context [?m !! ?t] => rewrite E end;
       repeat match goal with E : _ = ?m !! ?t |- context [?m !! ?t] => rewrite <- E end.
  all: try (constructor; eapply agrees_purpose; eassumption).
  all: try (constructor; assumption).
  all: repeat match goal with
       | Ha : agrees ?r _, E : pr_request_type ?r = _ |- _ =>
           pose proof (agrees_empty _ _ Ha ltac:(congruence)); destruct Ha
       end.
  all: constructor; split; cbn; intros; try done; try congruence;
       match goal with |- match ?o with _ => _ end => destruct o eqn:?; [by eapply Ha|done] end.
Qed.

(** ** Messages stay bonded *)

Lemma bonded_keep l l' :
  lv_messages l' = lv_messages l ->
  (forall t r, has_request l' t r ->
     pr_socket_messages r = [] \/
     exists r1, has_request l t r1 /\ pr_socket_messages r1 = pr_socket_messages r) ->
  bonded l -> bonded l'.
Proof.
  intros Hm Hk Hb t r b Hr Hin. rewrite Hm.
  destruct (Hk t r Hr) as [E|(r1 & Hr1 & E)].
  - rewrite E in Hin. by apply elem_of_nil in Hin.
  - apply (Hb t r1 b Hr1). by rewrite E.
Qed.
(** New bonds to [t] leave the messages of a request alone whose sequences are
    not bonded again, and bond those of [bytes]. *)
Lemma bonded_new l l' t bytes msgs :
  lv_messages l' = bond t msgs (lv_messages l) -> Forall2 parses bytes msgs ->
  (forall t1 r, has_request l' t1 r -> (t1 = t /\ pr_socket_messages r = bytes) \/
     (has_request l t1 r /\
      forall m m', m ∈ msgs -> lv_messages l !! sm_sequence m = Some (t1, m') -> False)) ->
  bonded l -> bonded l'.
Proof.
  intros Hm Hp Hk Hb t1 r b Hr Hin. rewrite Hm. destruct (Hk t1 r Hr) as [[-> E]|[Hr1 Hn]].
  - rewrite E in Hin. destruct (parses_in _ _ _ Hp Hin) as (m & Hmin & Hpm).
    destruct (bond_in t msgs (lv_messages l) m Hmin) as [y Hy]. eauto.
  - destruct (Hb t1 r b Hr1 Hin) as (m & m' & Hpm & Hl). exists m.
    destruct (bond_lookup t msgs (lv_messages l) (sm_sequence m)) as [E|(x & Hx & Hs & _)].
    + exists m'. by rewrite E.
    + exfalso. eapply (Hn x m'); [done|by rewrite Hs].
Qed.

(** A lookup in a changed map, in a hypothesis *)
Ltac in_maps H :=
  unfold has_request in H; cbn [lv_pending lv_finalized lv_executed] in H;
  rewrite ?lookup_insert_Some, ?lookup_delete_Some in H; destruct_or?; destruct_and?; subst.

Lemma change_bonded opens normal l l' :
  (forall t, slot_ok (lv_pending l !! t) (lv_finalized l !! t) (lv_executed l !! t) (lv_rollbacks l !! t)) ->
  bonded l -> change opens normal l l' -> bonded l'.
Proof.
  intros Hs Hb Hc. destruct Hc as [t unsigned bytes msgs _ _ Hn _ Hp _ Hf|t r r' Hr E|t r r' Hr E|t r Hr| | | | |
    |old new r unsigned msgs _ Hr Ht Hn _ Hp|old new r unsigned Hr Ht Hn _|old new r rr rr' unsigned _ Hr Ht Hn _ Hrr _].
  - eapply (bonded_new l); [reflexivity|exact Hp| |exact Hb]. intros t1 r1 Hreq.
    in_maps Hreq; [by left| | |]; right.
    all: split; [unfold has_request; by eauto|].
    all: intros m m' Hm Hl; pose proof (proj1 (Forall_forall _ _) Hf m Hm); cbn in *; congruence.
  - apply (bonded_keep l); [reflexivity| |exact Hb]. intros t1 r1 Hreq. unfold same_purpose, purpose in E.
    injection E as _ Em _. in_maps Hreq; right; unfold has_request; eauto.
  - apply (bonded_keep l); [reflexivity| |exact Hb]. intros t1 r1 Hreq. unfold same_purpose, purpose in E.
    injection E as _ Em _. in_maps Hreq; right; unfold has_request; eauto.
  - apply (bonded_keep l); [reflexivity| |exact Hb]. intros t1 r1 Hreq. in_maps Hreq; right; unfold has_request; eauto 6.
  - by apply (bonded_keep l); [|intros; right; eauto|].
  - by apply (bonded_keep l); [|intros; right; eauto|].
  - apply (bonded_keep l); [reflexivity| |exact Hb]. intros t1 r1 Hreq.
    in_maps Hreq; [by left|..]; right; unfold has_request; eauto.
  - by apply (bonded_keep l); [|intros; right; eauto|].
  - apply (bonded_keep l); [reflexivity| |exact Hb]. intros t1 r1 Hreq.
    in_maps Hreq; [by left|..]; right; unfold has_request; eauto.
  - eapply (bonded_new l); [reflexivity|exact Hp| |exact Hb]. intros t1 r1 Hreq.
    assert (forall t2 m m', m ∈ msgs -> lv_messages l !! sm_sequence m = Some (t2, m') -> t2 = old) as Hold.
    { intros t2 m m' Hm Hl. destruct (parses_out _ _ _ Hp Hm) as (b & Hbin & Hpb).
      destruct (Hb old r b) as (m1 & m1' & Hp1 & Hl1); [by right; right|done|].
      rewrite (parses_fun _ _ _ Hpb Hp1) in Hl. congruence. }
    pose proof (Hs old) as Hso. in_maps Hreq; [by left|..]; right; (split; [unfold has_request; by eauto|]).
    + intros m m' Hm Hl. assert (t1 = old) as -> by eauto. open_slot Hso.
    + intros m m' Hm Hl. assert (t1 = old) as -> by eauto. open_slot Hso.
    + intros m m' Hm Hl. assert (t1 = old) as -> by eauto. done.
  - apply (bonded_keep l); [reflexivity| |exact Hb]. intros t1 r1 Hreq. pose proof (Hs old) as Hso.
    open_slot Hso. in_maps Hreq; [left; cbn|right; unfold has_request; eauto..].
    match goal with Ha : agrees r _ |- _ => eapply agrees_empty; [exact Ha|congruence] end.
  - apply (bonded_keep l); [reflexivity| |exact Hb]. intros t1 r1 Hreq. pose proof (Hs old) as Hso.
    open_slot Hso. in_maps Hreq; [left; cbn|right; unfold has_request; eauto..].
    match goal with Ha : agrees r _ |- _ => eapply agrees_empty; [exact Ha|congruence] end.
Qed.

(** Every request of a change is one of before, one for the same purpose, an
    empty one, or the one that is opened. *)
Lemma change_once opens normal l l' : all_once l -> change opens normal l l' -> all_once l'.
Proof.
  intros Ho Hc t0 r0 Hr0. assert (forall unsigned ty, once (new_psbt_request unsigned [] ty)) as Hnil.
  { intros. exists []. split; constructor. }
  assert (forall r r', same_purpose r r' -> once r -> once r') as Hsame.
  { unfold same_purpose, purpose, once. intros r r' [= _ -> _]. done. }
  destruct Hc; in_maps Hr0;
    first [ by eapply Ho; unfold has_request; eauto
          | eapply Hsame; [eassumption|]; eapply Ho; unfold has_request; by eauto
          | by apply Hnil
          | by eexists
          | match goal with |- once (new_psbt_request _ (pr_socket_messages ?r) _) => change (once r) end;
            eapply Ho; right; right; eassumption ].
Qed.

Lemma change_ready opens normal l l' :
  (forall t, slot_ok (lv_pending l !! t) (lv_finalized l !! t) (lv_executed l !! t) (lv_rollbacks l !! t)) ->
  (~ normal -> all_approved l) -> change opens normal l l' -> ~ normal -> all_approved l'.
Proof.
  intros Hs Ha Hc Hn. specialize (Ha Hn).
  destruct Hc; unfold all_approved in *; cbn [lv_rollbacks] in *; try done; intros t0 rr0 Hr.
  - apply lookup_insert_Some in Hr as [[<- <-]|[_ Hr]]; [|by eapply Ha].
    match goal with E : _ !! _ = Some _ |- _ => apply Ha in E end. congruence.
  - apply lookup_insert_Some in Hr as [[<- <-]|[_ Hr]]; [done|by eapply Ha].
  - apply lookup_delete_Some in Hr as [_ Hr]. by eapply Ha.
Qed.

Lemma change_migrating opens normal l l' :
  (~ normal -> all_approved l) -> (~ normal -> only_migrations l) -> change opens normal l l' ->
  ~ normal -> only_migrations l'.
Proof.
  intros Ha Hm Hc Hn. specialize (Ha Hn). specialize (Hm Hn).
  destruct Hc; unfold only_migrations in *; cbn [lv_pending lv_finalized] in *; try done; intros t0 r0;
    rewrite ?lookup_insert_Some, ?lookup_delete_Some; intros Hr; destruct_or?; destruct_and?; subst; eauto.
  - match goal with E : same_purpose _ _ |- _ => unfold same_purpose, purpose in E; injection E as _ _ -> end. eauto.
  - match goal with E : same_purpose _ _ |- _ => unfold same_purpose, purpose in E; injection E as _ _ -> end. eauto.
  - match goal with E : _ !! _ = Some rr |- _ => apply Ha in E end. congruence.
Qed.

Lemma change_ok opens normal l l' : lives_ok normal l -> change opens normal l l' -> lives_ok normal l'.
Proof. 
  intros [Hs Hb Ho Ha Hm] Hc. split;
    [by eapply change_slot|by eapply change_bonded|by eapply change_once|by eapply change_ready
    |by eapply change_migrating].
 Qed.
Lemma changes_ok opens normal q q' :
  lives_ok normal (lives q) -> queue_changes opens normal q q' -> lives_ok normal (lives q').
Proof.
  unfold queue_changes. intros Hq Hc. remember (lives q) as l eqn:E. clear E.
  induction Hc as [|x y z Hxy _ IH]; [done|]. apply IH. by eapply change_ok.
Qed.

(** A sequence that is not bonded stays so where no messages are opened. *)
Lemma change_unbonded normal l l' k :
  lives_ok normal l -> change False normal l l' -> lv_messages l !! k = None -> lv_messages l' !! k = None.
Proof.
  intros [_ Hb _ _ _] Hc Hk. destruct Hc as [| | | | | | | | |old new r unsigned msgs _ Hr Ht Hn _ Hp| |]; try done.
  cbn [lv_messages]. destruct (bond_lookup new msgs (lv_messages l) k) as [->|(m & Hm & Hs & _)]; [done|].
  destruct (parses_out _ _ _ Hp Hm) as (b & Hbin & Hpb).
  destruct (Hb old r b) as (m1 & m' & Hp1 & Hl); [by right; right|done|].
  rewrite (parses_fun _ _ _ Hpb Hp1) in Hs. congruence.
Qed.
Lemma changes_unbonded normal q q' k :
  lives_ok normal (lives q) -> queue_changes False normal q q' ->
  SocketMessages q !! k = None -> SocketMessages q' !! k = None.
Proof.
  unfold queue_changes. intros Hq Hc. change (lv_messages (lives q) !! k = None -> lv_messages (lives q') !! k = None).
  induction Hc as [|x y z Hxy _ IH]; [done|]. intros Hk.
  apply IH; [by eapply change_ok|by eapply change_unbonded].
Qed.
End Changes.
