(* ===== verification/SocketQueueOps.v ===== *)
(** * The socket queue: its calls as changes

    What each call of the socket queue does to the requests, the rollbacks and
    the bonded messages, as atomic changes of [SocketQueueInv]; the checks of
    transactions read the storage and leave it as it is. *)

From S2P Require Import Prelude Logic Errors Primitives Cccp BtcRelay SocketQueue SocketQueueInv.
Local Open Scope Z_scope.
Local Open Scope frame_scope.

Lemma sq_map_err_done {S A} (o : outcome unit A) e (s s' : S) (a : A) :
  sq_map_err o e s = (Done a, s') <-> o = Done a /\ s' = s.
Proof. destruct o; cbn; split; try done; [intros [= -> ->]|intros [[= ->] ->]| |]; try done; by intros []. Qed.
Lemma unwrap_done {S A} (m : M S DispatchError A) (s s' : S) (a : A) :
  unwrap m s = (Done a, s') <-> m s = (Done a, s').
Proof.
  unfold unwrap, bind, attempt. destruct (m s) as [[b|e|] s1]; cbn; split; try done; by intros [= -> ->].
Qed.

(** The run of a call, step by step *)
Ltac sq_step :=
  match goal with
  | H : sq_map_err _ _ _ = (Done _, _) |- _ => apply sq_map_err_done in H as [? ->]
  | H : unwrap _ _ = (Done _, _) |- _ => apply (proj1 (unwrap_done _ _ _ _)) in H
  | H : skmutate _ _ _ = (Done _, _) |- _ => unfold skmutate, own in H
  | H : skput _ _ _ = (Done _, _) |- _ => unfold skput, own in H
  | H : sq_deposit _ _ = (Done _, _) |- _ => unfold sq_deposit, skmutate, own in H
  | H : in_pool _ _ = (Done _, _) |- _ => unfold in_pool in H
  | H : in_blaze _ _ = (Done _, _) |- _ => unfold in_blaze in H
  | H : lift sw_blaze _ _ _ = (Done _, _) |- _ => apply lift_done in H as (? & H & ->)
  | H : lift sw_queue _ _ _ = (Done _, _) |- _ => apply lift_done in H as (? & H & ->)
  | _ => mrun_step
  end.
Ltac sq_run := repeat sq_step; unfold id in *; cbn [sw_queue sw_pool sw_blaze fst snd] in *.

Section Calls.
Context `{!SqConfig} {R P B : Type} `{!Authorities R, !PoolManager P, !BlazeManager B}.
Implicit Types (v : SqView R) (w : SqWorld P B).

(** ** What only reads *)

Abbreviation reads_only m := (preserves (fun w : SqWorld P B => w) m).
Lemma reads_done {A} (m : M (SqWorld P B) DispatchError A) w r w' :
  reads_only m -> m w = (r, w') -> w' = w.
Proof. intros Hm. apply (preserves_done _ _ _ _ _ Hm). Qed.
Lemma reads_map_err {A} (o : outcome unit A) e : reads_only (sq_map_err o e).
Proof. destruct o; cbn; frame. Qed.
#[local] Hint Resolve reads_map_err : frame.

Lemma verify_message_reads v b : reads_only (sq_verify_socket_message v b).
Proof. frame. Qed.
Lemma fee_verification_reads psbt : reads_only (try_psbt_fee_verification psbt).
Proof. frame. Qed.
Lemma bump_verification_reads old new ty : reads_only (try_bump_fee_psbt_verification old new ty).
Proof. frame. Qed.
Lemma output_verification_reads v psbt outputs : reads_only (try_psbt_output_verification v psbt outputs).
Proof. frame. Qed.
Lemma tx_info_reads v h : reads_only (try_get_tx_info v h).
Proof. frame. Qed.
Lemma rollback_output_reads sv refund n amount o : reads_only (verify_rollback_output (P:=P) (B:=B) sv refund n amount o).
Proof. frame. Qed.
Lemma filter_reads pool : reads_only (filter_unregistered_outbounds pool).
Proof. unfold unwrap. frame. Qed.
Lemma composite_reads utxos requests target fee_rate strategy :
  reads_only (composite_psbt utxos requests target fee_rate strategy).
Proof. frame. Qed.

(** ** Loops that bond messages *)

Definition with_messages w (m : gmap Z (H256 * SocketMessage)) : SqWorld P B :=
  mkSqWorld _ _ ((sw_queue w) <| SocketMessages := m |>) (sw_pool w) (sw_blaze w).

Lemma bond_each t msgs w u w' :
  for_each msgs (fun msg => skmutate SocketMessages <[rid_sequence (sm_req_id msg) := (t, msg)]>) w
    = (Done u, w') ->
  w' = with_messages w (bond t msgs (SocketMessages (sw_queue w))).
Proof.
  revert w. induction msgs as [|m msgs IH]; intros w Hl; cbn [for_each] in Hl.
  - sq_run. by destruct w as [[] ? ?].
  - apply bind_done in Hl as (? & w1 & H1 & Hl). apply IH in Hl as ->. sq_run. by destruct w as [[] ? ?].
Qed.
(** The loop over the bytes, whatever the parser's error becomes *)
Lemma bond_parsed t bytes (f : UnboundedBytes -> M (SqWorld P B) DispatchError unit) w u w' :
  (forall b w u w', f b w = (Done u, w') -> exists m, parses b m /\
     w' = with_messages w (<[sm_sequence m := (t, m)]> (SocketMessages (sw_queue w)))) ->
  for_each bytes f w = (Done u, w') ->
  exists msgs, Forall2 parses bytes msgs /\ w' = with_messages w (bond t msgs (SocketMessages (sw_queue w))).
Proof.
  intros Hf. revert w. induction bytes as [|b bytes IH]; intros w Hl; cbn [for_each] in Hl.
  - sq_run. exists []. split; [constructor|]. by destruct w as [[] ? ?].
  - apply bind_done in Hl as (? & w1 & H1 & Hl). apply Hf in H1 as (m & Hm & ->).
    apply IH in Hl as (msgs & Hp & ->). exists (m :: msgs). split; [by constructor|].
    by destruct w as [[] ? ?].
Qed.

(** ** The messages of a checked transaction *)

Lemma verify_message_done v b w u w' :
  sq_verify_socket_message v b w = (Done u, w') ->
  w' = w /\ exists m, parses b m /\ SocketMessage_encode m = b /\ is_accepted m = true
    /\ SocketMessages (sw_queue w) !! sm_sequence m = None.
Proof.
  intros Hv. assert (w' = w) as -> by exact (reads_done _ _ _ _ (verify_message_reads v b) Hv).
  split; [done|]. unfold sq_verify_socket_message in Hv. sq_run.
  eexists. split; [eassumption|]. 
  repeat match goal with H : bool_decide _ = true |- _ => apply bool_decide_eq_true_1 in H end.
  repeat match goal with H : _ && _ = true |- _ => apply andb_true_iff in H as [? ?] end.
  split_and!; try done.
Qed.

(** A message that may be paid to the address [to] *)
Definition payable w (to : BoundedBitcoinAddress) (m : SocketMessage) : Prop :=
  SocketMessages (sw_queue w) !! sm_sequence m = None /\ is_accepted m = true
  /\ get_refund_address (sw_pool w) (tp_to (sm_params m)) = Some to.
Definition msgs_ok (a : Msgs) : Prop :=
  Forall2 parses (ms_serialized a) (ms_deserialized a)
  /\ ms_sequences a = sm_sequence <$> ms_deserialized a /\ NoDup (ms_sequences a).
Definition amounts (msgs : list SocketMessage) : Z := zsum ((fun m => tp_amount (sm_params m)) <$> msgs).

Lemma output_messages_done v to bytes acc amount w acc' amount' w' :
  fold_each bytes (acc, amount) (verify_output_message v to) w = (Done (acc', amount'), w') ->
  w' = w /\ (msgs_ok acc -> msgs_ok acc') /\ ms_serialized acc' = ms_serialized acc ++ bytes /\
  exists new, ms_deserialized acc' = ms_deserialized acc ++ new /\ amount' = amount + amounts new
    /\ Forall (payable w to) new.
Proof.
  revert acc amount. induction bytes as [|b bytes IH]; intros acc amount Hf; cbn [fold_each] in Hf.
  - sq_run. rewrite app_nil_r. split_and!; [done..|]. exists []. rewrite app_nil_r. unfold amounts. cbn. split_and!; [done|lia|done].
  - apply bind_done in Hf as ([acc1 amount1] & w1 & H1 & Hf). destruct acc as [des ser seqs]. cbn in H1.
    sq_run. match goal with H : sq_verify_socket_message _ _ _ = _ |- _ => apply verify_message_done in H as [-> Hm] end.
    sq_run. destruct Hm as (m & Hm & _ & Ha & Hn). unfold parses in Hm. simplify_eq/=.
    match goal with H : SocketMessage_try_from b = Done ?x |- _ => assert (m = x) as -> by congruence end.
    repeat match goal with
    | H : bool_decide _ = true |- _ => apply bool_decide_eq_true_1 in H
    | H : negb (bool_decide _) = true |- _ => apply negb_true_iff, bool_decide_eq_false_1 in H
    end; subst.
    match goal with H : u256_checked_add _ _ = Some _ |- _ => unfold u256_checked_add in H; case_match; simplify_eq end.
    apply IH in Hf as (-> & Hok & Es & new & E1 & -> & Hnew). split_and!; [done| |by rewrite Es; cbn; rewrite <- app_assoc|].
    + intros (Hp & Hs & Hd). apply Hok. unfold msgs_ok. cbn [ms_deserialized ms_serialized ms_sequences] in *. split_and!.
      * apply Forall2_app; [done|]. by constructor.
      * by rewrite fmap_app, Hs.
      * apply NoDup_app. split_and!; [done| |apply NoDup_singleton]. intros z Hz ->%list_elem_of_singleton. done.
    + cbn in E1. rewrite <- app_assoc in E1. eexists. split_and!; [exact E1| |].
      * unfold amounts, zsum. cbn. lia.
      * constructor; [|done]. done.
Qed.

(** What an output of a checked transaction pays *)
Definition address_of w (o : TxOut) : option BoundedBitcoinAddress :=
  a ← address_from_script (txo_script_pubkey o) (get_bitcoin_network (sw_pool w));
  bounded_address (address_to_string a).
Definition pays w (system_vault : BoundedBitcoinAddress) (o : TxOut) (msgs : list SocketMessage) : Prop :=
  exists to, address_of w o = Some to /\
    ((to = system_vault /\ msgs = []) \/
     (to <> system_vault /\ txo_value o = amounts msgs /\ Forall (payable w to) msgs)).

Lemma output_address_done o w to w' :
  output_address o w = (Done to, w') -> w' = w /\ address_of w o = Some to.
Proof.
  unfold output_address, try_convert_to_address_from_script, address_of. intros Ho. sq_run.
  split; [done|]. by simplify_option_eq.
Qed.
Lemma verify_outputs_done v sv n m outputs acc w acc' w' :
  fold_each outputs acc (verify_output v sv n m) w = (Done acc', w') ->
  w' = w /\ (msgs_ok acc -> msgs_ok acc') /\
  (forall b, b ∈ ms_serialized acc' -> b ∈ ms_serialized acc \/ exists to bytes, m !! to = Some bytes /\ b ∈ bytes) /\
  exists payments, Forall2 (pays w sv) outputs payments
    /\ ms_deserialized acc' = ms_deserialized acc ++ concat payments.
Proof.
  revert acc. induction outputs as [|o outputs IH]; intros acc Hf; cbn [fold_each] in Hf.
  - sq_run. split_and!; [done..|by left|]. exists []. rewrite app_nil_r. by split.
  - apply bind_done in Hf as (acc1 & w1 & H1 & Hf). unfold verify_output in H1.
    apply bind_done in H1 as (to & w2 & Hto & H1). apply output_address_done in Hto as [-> Hto].
    apply bind_done in H1 as (bytes & w2 & Hb & H1). sq_run. case_bool_decide as Hsv.
    + sq_run. apply IH in Hf as (-> & Hok & Hl & payments & Hp & E). split_and!; [done..|].
      exists ([] :: payments). split; [|done]. constructor; [|done]. eexists. split; [exact Hto|by left].
    + apply bind_done in H1 as ([acc2 amount] & w2 & H1 & H2). apply output_messages_done in H1 as (-> & Hok1 & Es & new & E1 & -> & Hn).
      sq_run. apply IH in Hf as (-> & Hok & Hl & payments & Hp & E). split_and!; [done|by auto| |].
      { intros b [Hin|Hin]%Hl; [|by right]. rewrite Es in Hin. apply elem_of_app in Hin as [Hin|Hin]; [by left|].
        right. eauto. }
      exists (new :: payments). split.
      * constructor; [|done]. exists to. split; [done|]. right. split_and!; [done|lia|done].
      * rewrite E, E1. cbn. by rewrite app_assoc.
Qed.
Lemma output_verification_done v psbt outputs w des ser w' :
  try_psbt_output_verification v psbt outputs w = (Done (des, ser), w') ->
  w' = w /\ Forall2 parses ser des /\ NoDup (sm_sequence <$> des) /\ (forall b, b ∈ ser -> b ∈ concat outputs.*2)
  /\ exists sv payments,
       get_system_vault (sw_pool w) (get_current_round (sw_pool w)) = Some sv
       /\ Forall2 (pays w sv) (unsigned_outputs psbt) payments /\ des = concat payments.
Proof.
  unfold try_psbt_output_verification, current_system_vault. intros Ho. sq_run.
  match goal with H : fold_each _ _ _ _ = _ |- _ => apply verify_outputs_done in H as (-> & Hok & Hl & payments & Hp & E) end.
  destruct Hok as (Hf & Hs & Hd); [split_and!; [constructor|done|constructor]|].
  split_and!; [done|done|by rewrite <- Hs| |].
  { intros b [Hn|(to & bytes & Hm & Hin)]%Hl; [by apply elem_of_nil in Hn|].
    apply elem_of_list_to_map_2 in Hm. apply list_elem_of_In, in_concat. exists bytes.
    split; apply list_elem_of_In; [|done]. apply list_elem_of_fmap. exists (to, bytes). split; [done|].
    by apply list_elem_of_In, in_rev, list_elem_of_In. }
  eexists _, payments. split_and!; [eassumption|done|done].
Qed.
Lemma paid_unbonded w sv outputs payments :
  Forall2 (pays w sv) outputs payments ->
  Forall (fun m => SocketMessages (sw_queue w) !! sm_sequence m = None) (concat payments).
Proof.
  induction 1 as [|o msgs outputs payments Hp _ IH]; cbn; [constructor|]. apply Forall_app. split; [|done].
  destruct Hp as (to & _ & [[_ ->]|(_ & _ & Hm)]); [constructor|]. eapply Forall_impl; [exact Hm|]. by intros m [? _].
Qed.

(** ** The calls *)

Definition normal w : Prop := get_service_state (sw_pool w) = Normal.
Definition w_changes w w' : Prop := queue_changes False (normal w) (sw_queue w) (sw_queue w').

Lemma no_request_done t w u w' :
  ensure_no_request t w = (Done u, w') -> w' = w /\ no_request (lives (sw_queue w)) t.
Proof.
  unfold ensure_no_request, absent. intros Hr. sq_run.
  repeat match goal with H : bool_decide _ = true |- _ => apply bool_decide_eq_true_1 in H end. done.
Qed.
Lemma no_rollback_done t w u w' :
  ensure_no_rollback t w = (Done u, w') -> w' = w /\ RollbackRequests (sw_queue w) !! t = None.
Proof.
  unfold ensure_no_rollback, absent. intros Hr. sq_run.
  repeat match goal with H : bool_decide _ = true |- _ => apply bool_decide_eq_true_1 in H end. done.
Qed.
Lemma service_state_done st w u w' :
  ensure_service_state st w = (Done u, w') -> w' = w /\ get_service_state (sw_pool w) = st.
Proof.
  unfold ensure_service_state. intros Hr. sq_run.
  match goal with H : bool_decide _ = true |- _ => apply bool_decide_eq_true_1 in H end. done.
Qed.
Lemma checked_psbt_done b w p w' :
  try_get_checked_psbt b w = (Done p, w') -> w' = w /\ psbt_deserialize b = Some p.
Proof. unfold try_get_checked_psbt. intros Hr. sq_run. done. Qed.

End Calls.

(** The effects of the checks are known. *)
Ltac checks :=
  repeat match goal with
  | H : ensure_no_request _ _ = (Done _, _) |- _ => apply no_request_done in H as [-> H]
  | H : ensure_no_rollback _ _ = (Done _, _) |- _ => apply no_rollback_done in H as [-> H]
  | H : ensure_service_state _ _ = (Done _, _) |- _ => apply service_state_done in H as [-> H]
  | H : try_get_checked_psbt _ _ = (Done _, _) |- _ => apply checked_psbt_done in H as [-> H]
  | H : try_psbt_fee_verification _ _ = (Done _, _) |- _ =>
      apply (reads_done _ _ _ _ (fee_verification_reads _)) in H as ->
  | H : try_bump_fee_psbt_verification _ _ _ _ = (Done _, _) |- _ =>
      apply (reads_done _ _ _ _ (bump_verification_reads _ _ _)) in H as ->
  | H : try_get_tx_info _ _ _ = (Done _, _) |- _ =>
      apply (reads_done _ _ _ _ (tx_info_reads _ _)) in H as ->
  | H : ensure_none ?o _ = (Done _, _) |- _ => destruct o; cbn [ensure_none] in H
  | H : ensure_root ?o _ = (Done _, _) |- _ => destruct o; cbn [ensure_root] in H
  | _ => progress sq_run
  end.

Section Effects.
Context `{!SqConfig} {R P B : Type} `{!Authorities R, !PoolManager P, !BlazeManager B}.
Implicit Types (v : SqView R) (w : SqWorld P B).

Lemma unsigned_psbt_done v o msg w u w' :
  submit_unsigned_psbt v o msg w = (Done u, w') ->
  exists psbt_obj des ser sv payments,
    get_service_state (sw_pool w) = Normal /\ psbt_deserialize (um_psbt msg) = Some psbt_obj
    /\ let t := convert_txid (compute_txid psbt_obj) in
    no_request (lives (sw_queue w)) t /\ RollbackRequests (sw_queue w) !! t = None
    /\ Forall2 parses ser des /\ NoDup (sm_sequence <$> des)
    /\ (forall b, b ∈ ser -> b ∈ concat (um_outputs msg).*2)
    /\ get_system_vault (sw_pool w) (get_current_round (sw_pool w)) = Some sv
    /\ Forall2 (pays w sv) (unsigned_outputs psbt_obj) payments /\ des = concat payments
    /\ sw_pool w' = sw_pool w
    /\ lives (sw_queue w') =
         let l := lives (sw_queue w) in
         mkLives (<[t := new_psbt_request (um_psbt msg) ser NormalRequest]> (lv_pending l)) (lv_finalized l)
           (lv_executed l) (lv_rollbacks l) (bond t des (lv_messages l)).
Proof.
  unfold submit_unsigned_psbt. destruct msg as [a outputs psbt]. intros Hs.
  checks. destruct_and?.
  match goal with H : try_psbt_output_verification _ _ _ _ = (Done ?x, _) |- _ => destruct x as [des ser];
    apply output_verification_done in H as (-> & Hp & Hd & Hl & sv & payments & Hsv & Hpay & E) end.
  sq_run.
  match goal with H : for_each _ _ _ = _ |- _ => apply bond_each in H as -> end.
  eexists _, (concat payments), ser, sv, payments. by split_and!.
Qed.

Lemma signed_psbt_changes o msg w u w' :
  submit_signed_psbt o msg w = (Done u, w') ->
  w_changes w w' /\ sw_pool w' = sw_pool w.
Proof.
  unfold submit_signed_psbt. destruct msg as [a unsigned signed]. intros Hs.
  checks. unfold try_psbt_combination in *.
  match goal with H : PendingRequests (sw_queue w) !! _ = Some _ |- _ => rename H into Hp end.
  match goal with H : attempt _ _ = (Done ?f, _) |- _ =>
    unfold attempt, try_psbt_finalization, ok_or in H; sq_run; destruct (psbt_finalize _) eqn:Ef in H;
      injection H as <- <-
  end; cbv iota in *.
  - case_bool_decide; sq_run; (split; [|done]); apply rtc_once; by eapply (change_finalize _ _ (lives (sw_queue w)) _ _ _ Hp).
  - sq_run. split; [|done]. apply rtc_once. by eapply (change_sign _ _ (lives (sw_queue w)) _ _ _ Hp).
Qed.

Lemma executed_request_changes v o msg w u w' :
  submit_executed_request v o msg w = (Done u, w') ->
  w_changes w w'.
Proof.
  unfold submit_executed_request. destruct msg as [a t]. intros Hs. checks.
  match goal with H : FinalizedRequests (sw_queue w) !! _ = Some _ |- _ => rename H into Hf end.
  match goal with H : (if is_activated _ then _ else _) _ = (Done ?b, ?w1) |- _ =>
    assert (exists c e, w1 = mkSqWorld _ _
      ((sw_queue w) <| BroadcastConfirmations := c |> <| SqEvents := e |>) (sw_pool w) (sw_blaze w))
      as (c & e & ->) end.
  { destruct (is_activated (sw_blaze w)); unfold confirm_broadcast in *; sq_run.
    - match goal with H : (if (au_majority _ <=? _) then _ else _) _ = _ |- _ => destruct (au_majority _ <=? _) in H end;
        sq_run; destruct (sw_queue w); by eexists _, _.
    - exists (delete t (BroadcastConfirmations (sw_queue w))), (SqEvents (sw_queue w)). by destruct (sw_queue w). }
  match goal with H : (if ?b then _ else _) _ = (Done u, w') |- _ => destruct b end; [|by sq_run; apply rtc_refl].
  case_bool_decide; sq_run; apply rtc_once; by eapply (change_execute _ _ (lives (sw_queue w)) t).
Qed.

(** The part of a call that locks coins *)
Lemma lock_part (c : bool) t p w u w' :
  (if c then lock_inputs t p else ret tt) w = (Done u, w') ->
  exists b, w' = mkSqWorld _ _ (sw_queue w) (sw_pool w) b.
Proof.
  destruct c; unfold lock_inputs; intros Hs; sq_run; [by eexists|]. exists (sw_blaze w). by destruct w.
Qed.

Lemma rollback_request_changes v o msg w u w' :
  submit_rollback_request v o msg w = (Done u, w') -> w_changes w w' /\ sw_pool w' = sw_pool w.
Proof.
  unfold submit_rollback_request. destruct msg as [who txid vout amount unsigned]. intros Hs. checks.
  unfold current_system_vault, try_convert_to_address_from_vec in *. checks.
  match goal with H : for_each _ _ _ = _ |- _ =>
    apply (reads_done _ _ _ _ (preserves_for_each _ _ _ (fun o => rollback_output_reads _ _ _ _ o))) in H as -> end.
  match goal with H : (if is_activated _ then _ else _) _ = _ |- _ => apply lock_part in H as [b ->] end.
  sq_run. split; [|done]. apply rtc_once. by apply (change_roll _ _ (lives (sw_queue w))).
Qed.

Lemma rollback_poll_changes v o msg w u w' :
  submit_rollback_poll v o msg w = (Done u, w') -> w_changes w w' /\ sw_pool w' = sw_pool w.
Proof.
  unfold submit_rollback_poll. destruct msg as [a t yes]. intros Hs. checks.
  match goal with H : RollbackRequests (sw_queue w) !! _ = Some _ |- _ => rename H into Hr end.
  match goal with H : negb (rr_is_approved _) = true |- _ => apply negb_true_iff in H end.
  match goal with H : (if (au_majority _ <=? _) then _ else _) _ = _ |- _ => destruct (au_majority _ <=? _) in H end.
  - sq_run. split; [|done]. apply rtc_once. by eapply (change_approve _ _ (lives (sw_queue w)) _ _ _ _ Hr).
  - sq_run. split; [|done]. apply rtc_once. by eapply (change_vote _ _ (lives (sw_queue w)) _ _ _ Hr).
Qed.

Lemma migration_request_changes o psbt w u w' :
  submit_migration_request o psbt w = (Done u, w') ->
  w_changes w w' /\ exists t, sw_pool w' = add_migration_tx t (sw_pool w).
Proof.
  unfold submit_migration_request. intros Hs. checks.
  match goal with H : output_address _ _ = _ |- _ => apply output_address_done in H as [-> H] end.
  checks. split; [|by eexists]. apply rtc_once. apply (change_migrate _ _ (lives (sw_queue w))); [|done].
  unfold normal. congruence.
Qed.

Lemma drop_rollback_changes o t w u w' :
  drop_pending_rollback_request o t w = (Done u, w') -> w_changes w w' /\ sw_pool w' = sw_pool w.
Proof.
  unfold drop_pending_rollback_request. intros Hs. checks.
  match goal with H : negb (rr_is_approved _) = true |- _ => apply negb_true_iff in H end.
  destruct (is_activated (sw_blaze w)); checks; (split; [|done]); apply rtc_once; by eapply (change_drop _ _ (lives (sw_queue w))).
Qed.

(** What a replacement rebonds, by the type of the request *)
Lemma rebond_done old new unsigned r w u w' :
  rebond_request old new unsigned r w = (Done u, w') ->
  exists q, sw_blaze w' = sw_blaze w /\ sw_queue w' = q /\
  let l := lives (sw_queue w) in
  match pr_request_type r with
  | NormalRequest => sw_pool w' = sw_pool w /\ exists msgs, Forall2 parses (pr_socket_messages r) msgs
      /\ lives q = mkLives (lv_pending l) (lv_finalized l) (lv_executed l) (lv_rollbacks l)
                     (bond new msgs (lv_messages l))
  | Migration => sw_pool w' = add_migration_tx new (remove_migration_tx old (sw_pool w)) /\ lives q = l
  | RollbackOf => sw_pool w' = sw_pool w /\ exists rr rr', lv_rollbacks l !! old = Some rr
      /\ rr_is_approved rr' = rr_is_approved rr
      /\ lives q = mkLives (lv_pending l) (lv_finalized l) (lv_executed l)
                     (<[new := rr']> (delete old (lv_rollbacks l))) (lv_messages l)
  end.
Proof.
  unfold rebond_request. destruct (pr_request_type r); intros Hs; sq_run.
  - match goal with H : for_each _ _ _ = _ |- _ => eapply (bond_parsed new) in H as (msgs & Hp & ->) end.
    { eexists. split_and!; [reflexivity|reflexivity|reflexivity|]. by exists msgs. }
    intros b w0 u0 w1 Hb. sq_run. eexists. by split; [eassumption|].
  - eexists. split_and!; [reflexivity|reflexivity|reflexivity|]. eexists _, (_ <| rr_unsigned_psbt := unsigned |>). split_and!; [eassumption|reflexivity|reflexivity].
  - eexists. by split_and!.
Qed.

Lemma bump_changes o old unsigned w u w' :
  submit_bump_fee_request o old unsigned w = (Done u, w') ->
  w_changes w w' /\
  (sw_pool w' = sw_pool w \/ exists new, sw_pool w' = add_migration_tx new (remove_migration_tx old (sw_pool w))).
Proof.
  unfold submit_bump_fee_request. intros Hs. checks.
  match goal with H : ExecutedRequests (sw_queue w) !! old = Some ?r |- _ => rename H into He; rename r into req end.
  match goal with H : get_service_state _ = _ |- _ => rename H into Hst end.
  match goal with H : rebond_request _ _ _ _ _ = _ |- _ => apply rebond_done in H as (q & Hb & Hq & Hr) end.
  match goal with H : (if is_activated _ then _ else _) _ = (Done _, ?w2) |- _ =>
    assert (exists b, w2 = mkSqWorld _ _ (q <| ExecutedRequests ::= delete old |>) (sw_pool x24) b) as [b ->] end.
  { rewrite <- Hq. destruct (is_activated (sw_blaze w)); [unfold lock_inputs in *|]; checks; by eexists. }
  cbn [sw_queue sw_pool]. unfold w_changes, queue_changes.
  match goal with |- rtc _ _ ?l1 /\ _ =>
    let l := constr:(lives q) in
    change l1 with (mkLives (<[convert_txid (compute_txid x11) := new_psbt_request unsigned
        (pr_socket_messages req) (pr_request_type req)]> (lv_pending l)) (lv_finalized l)
        (delete old (lv_executed l)) (lv_rollbacks l) (lv_messages l)) end.
  destruct (pr_request_type req) eqn:Et.
  - cbn in Hst. destruct Hr as (-> & msgs & Hp & ->). split; [|by left]. apply rtc_once.
    by apply (change_bump_normal _ _ (lives (sw_queue w))).
  - destruct Hr as (-> & rr & rr' & Hrr & Ea & ->). split; [|by left]. apply rtc_once.
    by eapply (change_bump_rollback _ _ (lives (sw_queue w))).
  - destruct Hr as (-> & ->). split; [|right; by eexists]. apply rtc_once.
    by eapply (change_bump_migration _ _ (lives (sw_queue w))).
Qed.

(** A loop over the entries of a map that rewrites each entry it visits *)
Lemma for_each_entries {V} (f : N * V -> M (SqWorld P B) DispatchError unit) (get : SqStorage -> gmap N V)
    (J : SqWorld P B -> Prop) (m : gmap N V) w u w' :
  (forall k x w u w', get (sw_queue w) !! k = Some x -> J w -> f (k, x) w = (Done u, w') ->
     J w' /\ forall k', k' <> k -> get (sw_queue w') !! k' = get (sw_queue w) !! k') ->
  get (sw_queue w) = m -> J w -> for_each (map_to_list m) f w = (Done u, w') -> J w'.
Proof.
  intros Hf Hm HJ Hs.
  eapply (for_each_rest (fun l w => J w /\ NoDup l.*1 /\ forall kv, kv ∈ l -> get (sw_queue w) !! kv.1 = Some kv.2));
    [| |exact Hs].
  - intros [k x] l w1 u1 w2 (HJ1 & Hnd & Hl) Hb. rewrite fmap_cons in Hnd. apply NoDup_cons in Hnd as [Hk Hnd].
    destruct (Hf k x w1 u1 w2 (Hl (k, x) ltac:(left)) HJ1 Hb) as [HJ2 Ho]. split_and!; [done..|].
    intros kv Hkv. rewrite Ho; [apply Hl; by right|]. intros <-. apply Hk. change (kv.1 ∈ l.*1). by apply list_elem_of_fmap_2.
  - split_and!; [done|apply NoDup_fst_map_to_list|]. intros [k x] Hkv. rewrite Hm. by apply elem_of_map_to_list.
Qed.

Lemma replace_authority_changes old new w u w' :
  sq_replace_authority old new w = (Done u, w') -> w_changes w w' /\ sw_pool w' = sw_pool w.
Proof.
  unfold sq_replace_authority. intros Hs. sq_run.
  assert (forall w1, w_changes w w1 -> forall l', change False (normal w) (lives (sw_queue w1)) l' ->
            rtc (change False (normal w)) (lives (sw_queue w)) l') as Hstep.
  { intros w1 Hj1 l' Hl. eapply rtc_r; [exact Hj1|exact Hl]. }
  match goal with H : for_each (map_to_list (PendingRequests _)) _ _ = _ |- _ =>
    eapply (for_each_entries _ PendingRequests (fun w1 => w_changes w w1 /\ sw_pool w1 = sw_pool w
      /\ RollbackRequests (sw_queue w1) = RollbackRequests (sw_queue w))) in H as (Hj1 & Hj2 & Hj3) end.
  2: { intros k r w1 u1 w2 Hk (Hj1 & Hj2 & Hj3) Hb. cbn [fst snd] in Hb. sq_run.
    match goal with H : pr_replace_authority _ _ _ = Some _ |- _ => unfold pr_replace_authority in H;
      apply bind_Some in H as (psbts & _ & [= <-]) end.
    split_and!; [|done|done|]; [|intros k' Hne; by apply lookup_insert_ne].
    eapply Hstep; [exact Hj1|]. by apply (change_sign _ _ (lives (sw_queue w1)) k r). }
  2: done.
  2: by split_and!; [apply rtc_refl| |].
  match goal with H : for_each (map_to_list (RollbackRequests _)) _ _ = _ |- _ =>
    eapply (for_each_entries _ RollbackRequests (fun w1 => w_changes w w1 /\ sw_pool w1 = sw_pool w))
      in H as (Hj4 & Hj5) end.
  2: { intros k rr w1 u1 w2 Hk (Hj6 & Hj7) Hb. unfold replace_in_rollback in Hb. cbn [fst snd] in Hb.
    destruct (rr_is_approved rr) eqn:Ea; sq_run; [done|].
    match goal with H : rr_replace_authority _ _ _ = Some _ |- _ => unfold rr_replace_authority in H;
      apply bind_Some in H as (votes & _ & [= <-]) end.
    split_and!; [|done|]; [|intros k' Hne; by apply lookup_insert_ne].
    eapply Hstep; [exact Hj6|]. by apply (change_vote _ _ (lives (sw_queue w1)) k rr). }
  2: done.
  2: done.
  match goal with H : for_each _ (replace_in_confirmations _ _) ?w1 = _ |- _ =>
    eapply (for_each_inv (fun w2 => w_changes w w2 /\ sw_pool w2 = sw_pool w)) in H; [exact H| |done] end.
  intros kv w1 u1 w2 (Hj6 & Hj7) Hb. unfold replace_in_confirmations in Hb.
  case_bool_decide; sq_run; done.
Qed.
End Effects.
