(* ===== verification/SocketQueueSteps.v ===== *)
(** * The socket queue: its steps, against the interfaces it uses

    What the queue relies on of the registration pool and of Blaze, as laws of
    their interfaces; the start of a block; the step relation of the queue in a
    chain where the other pallets run too; and the invariant of every world
    reached. *)

From S2P Require Import Prelude Logic Errors Primitives Cccp BtcRelay SocketQueue SocketQueueInv SocketQueueOps.
Local Open Scope Z_scope.
Local Open Scope frame_scope.

Lemma filter_ext_in {A} (P Q : A -> Prop) `{!forall x, Decision (P x), !forall x, Decision (Q x)} (l : list A) :
  (forall x, x ∈ l -> P x <-> Q x) -> filter P l = filter Q l.
Proof.
  induction l as [|x l IH]; intros Hl; [done|]. rewrite !filter_cons, IH by (intros; apply Hl; by right).
  pose proof (Hl x ltac:(left)). by repeat case_decide; try tauto.
Qed.

(** The calls of the pool that the queue makes leave the state of the service. *)
Class PoolLaws `{!BtcLib} (P : Type) `{!PoolManager P} : Prop := {
  state_add_migration_tx t p : get_service_state (add_migration_tx t p) = get_service_state p;
  state_remove_migration_tx t p : get_service_state (remove_migration_tx t p) = get_service_state p;
  state_execute_migration_tx t p : get_service_state (execute_migration_tx t p) = get_service_state p;
  state_process_set_refunds p : get_service_state (process_set_refunds p) = get_service_state p
}.
(** The calls of Blaze that the queue makes leave the outbound pool, but for
    the one that clears it. *)
Class BlazeLaws `{!BtcLib, !PsbtLib} (B : Type) `{!BlazeManager B} : Prop := {
  pool_clear_utxos : preserves get_outbound_pool bl_clear_utxos;
  pool_lock_utxos t inputs : preserves get_outbound_pool (bl_lock_utxos t inputs);
  pool_unlock_utxos t : preserves get_outbound_pool (bl_unlock_utxos t);
  pool_extract_utxos psbt : preserves get_outbound_pool (bl_extract_utxos_from_psbt psbt);
  pool_fee_rates n : preserves get_outbound_pool (bl_try_fee_rate_finalization n);
  pool_clear_fee_rates : preserves get_outbound_pool bl_clear_fee_rates;
  pool_tolerance up : preserves get_outbound_pool (bl_handle_tolerance_counter up);
  pool_ensure_activation b : preserves get_outbound_pool (bl_ensure_activation b);
  pool_clear_outbound targets b u b' :
    bl_clear_outbound_pool targets b = (Done u, b') ->
    get_outbound_pool b' = filter (fun x => x ∉ targets) (get_outbound_pool b)
}.

Section Steps.
Context `{!SqConfig} {R P B : Type} `{!Authorities R, !PoolManager P, !BlazeManager B}.
Context `{!PoolLaws P, !BlazeLaws B}.
Implicit Types (v : SqView R) (w : SqWorld P B).

Abbreviation outbound w := (get_outbound_pool (sw_blaze w)).

(** ** The start of a block *)

(** The request of a message of the outbound pool, when its user has a refund
    address *)
Definition outbound_request (p : P) (x : UnboundedBytes) : option (SocketMessage * ScriptBuf) :=
  match SocketMessage_try_from x with
  | Done msg =>
      refund ← get_refund_address p (tp_to (sm_params msg)); a ← address_from_vec refund;
      Some (msg, script_pubkey a)
  | _ => None
  end.
Abbreviation registered p := (fun x => is_Some (outbound_request p x)).

Lemma filter_step x u0 r0 w u1 r1 w' :
  filter_outbound (u0, r0) x w = (Done (u1, r1), w') ->
  w' = w /\ match outbound_request (sw_pool w) x with
             | Some y => u1 = u0 /\ r1 = r0 ++ [y]
             | None => u1 = u0 ++ [x] /\ r1 = r0
             end.
Proof.
  unfold filter_outbound, outbound_request. intros Hf.
  destruct (SocketMessage_try_from x) as [msg|[]|]; sq_run; [|done].
  destruct (get_refund_address (sw_pool w) (tp_to (sm_params msg))) as [refund|]; cbn [mbind option_bind];
    [|by sq_run].
  unfold try_convert_to_address_from_vec in *. remember (address_from_vec refund) as o eqn:Eo. clear Eo.
  sq_run. done.
Qed.
Lemma filter_loop pool u0 r0 w u1 r1 w' :
  fold_each pool (u0, r0) filter_outbound w = (Done (u1, r1), w') ->
  w' = w /\ u1 = u0 ++ filter (fun x => ~ registered (sw_pool w) x) pool
  /\ r1 = r0 ++ omap (outbound_request (sw_pool w)) pool.
Proof.
  revert u0 r0. induction pool as [|x pool IH]; intros u0 r0 Hf; cbn [fold_each] in Hf.
  - sq_run. by rewrite !app_nil_r.
  - apply bind_done in Hf as ([u2 r2] & w1 & H1 & Hf). apply filter_step in H1 as [-> H1].
    apply IH in Hf as (-> & -> & ->). split; [done|]. rewrite filter_cons. cbn [omap list_omap].
    destruct (outbound_request (sw_pool w) x) as [y|]; destruct H1 as [-> ->].
    + rewrite decide_False by (intros Hn; apply Hn; by eexists). by rewrite <- app_assoc.
    + rewrite decide_True by (by intros [? ?]). by rewrite <- app_assoc.
Qed.
Lemma filter_unregistered_done pool w filtered requests w' :
  filter_unregistered_outbounds pool w = (Done (filtered, requests), w') ->
  w' = w /\ filtered = filter (registered (sw_pool w)) pool
  /\ requests = omap (outbound_request (sw_pool w)) pool.
Proof.
  unfold filter_unregistered_outbounds. intros Hf. apply bind_done in Hf as ([u1 r1] & w1 & H1 & Hf).
  apply filter_loop in H1 as (-> & -> & ->). sq_run. split_and!; [done| |done]. cbn [app].
  apply filter_ext_in. intros x Hx. rewrite list_elem_of_filter. split.
  - intros Hn. destruct (outbound_request (sw_pool w) x) eqn:E; [by eexists|]. exfalso. apply Hn.
    split; [|done]. by intros [? ?].
  - by intros Hr [Hn _].
Qed.

Lemma amount_sum_reads requests : preserves (fun w => w) (outbound_amount_sum (P:=P) (B:=B) requests).
Proof. frame. Qed.

(** What a block that composes a transaction does, for the rates [lt fr] *)
Record composed (lt fr : Z) w w' (sum : Z) (selected : list UtxoInfoWithSize)
    (strategy : SelectionStrategy) (psbt : Psbt) (msgs : list SocketMessage) : Prop := {
  cp_pool : filter (registered (sw_pool w)) (outbound w) <> [];
  cp_sum : outbound_amount_sum (omap (outbound_request (sw_pool w)) (outbound w)) w = (Done sum, w);
  cp_select :
    bl_select_coins (omap (score_utxo lt fr) (bl_get_utxos (sw_blaze w)))
      (u64_sat_add sum (u64_mul fr (u64_add 11
        (output_vbytes (omap (outbound_request (sw_pool w)) (outbound w))))))
      (u64_mul 43 fr) 200000 100000 DUST_LIMIT = Some (selected, strategy);
  cp_psbt :
    composite_psbt selected (omap (outbound_request (sw_pool w)) (outbound w)) sum fr strategy w
      = (Done (Some psbt), w);
  cp_msgs : Forall2 parses (filter (registered (sw_pool w)) (outbound w)) msgs;
  cp_lives :
    lives (sw_queue w') =
      let t := convert_txid (compute_txid psbt) in
      let l := lives (sw_queue w) in
      mkLives (<[t := new_psbt_request (psbt_serialize psbt)
                        (filter (registered (sw_pool w)) (outbound w)) NormalRequest]> (lv_pending l))
        (lv_finalized l) (lv_executed l) (lv_rollbacks l) (bond t msgs (lv_messages l));
  cp_state : sw_pool w' = sw_pool w;
  cp_outbound : outbound w' = filter (fun x => x ∉ filter (registered (sw_pool w)) (outbound w)) (outbound w)
}.

Lemma blaze_frame {A} (m : M B DispatchError A) b r b' :
  preserves get_outbound_pool m -> m b = (r, b') -> get_outbound_pool b' = get_outbound_pool b.
Proof. apply preserves_done. Qed.

Lemma record_done psbt filtered selected w u w' :
  record_composed psbt filtered selected w = (Done u, w') ->
  exists msgs, Forall2 parses filtered msgs /\
    lives (sw_queue w') =
      (let t := convert_txid (compute_txid psbt) in
       let l := lives (sw_queue w) in
       mkLives (<[t := new_psbt_request (psbt_serialize psbt) filtered NormalRequest]> (lv_pending l))
         (lv_finalized l) (lv_executed l) (lv_rollbacks l) (bond t msgs (lv_messages l)))
    /\ sw_pool w' = sw_pool w /\ outbound w' = filter (fun x => x ∉ filtered) (outbound w).
Proof.
  unfold record_composed. intros Hs. sq_run.
  match goal with H : for_each _ _ _ = _ |- _ =>
    eapply (bond_parsed (convert_txid (compute_txid psbt))) in H as (msgs & Hp & ->) end.
  2: { intros b w0 u0 w1 Hb. sq_run. eexists. by split; [eassumption|]. }
  sq_run. exists msgs. split_and!; [done|done|done|].
  repeat match goal with
  | H : bl_clear_fee_rates _ = _ |- _ => apply (blaze_frame _ _ _ _ pool_clear_fee_rates) in H
  | H : bl_lock_utxos _ _ _ = _ |- _ => apply (blaze_frame _ _ _ _ (pool_lock_utxos _ _)) in H
  | H : bl_handle_tolerance_counter _ _ = _ |- _ => apply (blaze_frame _ _ _ _ (pool_tolerance _)) in H
  | H : bl_clear_outbound_pool _ _ = _ |- _ => apply pool_clear_outbound in H
  end.
  cbn [with_messages sw_blaze] in *. congruence.
Qed.

(** What a block leaves alone when it composes nothing *)
Definition quiet w w' : Prop :=
  sw_queue w' = sw_queue w /\ sw_pool w' = sw_pool w /\ outbound w' = outbound w.

Lemma tolerance_quiet up w u w' : in_blaze (bl_handle_tolerance_counter up) w = (Done u, w') -> quiet w w'.
Proof.
  intros Hs. sq_run.
  match goal with H : bl_handle_tolerance_counter _ _ = _ |- _ => apply (blaze_frame _ _ _ _ (pool_tolerance _)) in H end.
  done.
Qed.

Lemma pay_done lt fr w u w' :
  pay_outbound_pool lt fr w = (Done u, w') ->
  quiet w w' \/ exists sum selected strategy psbt msgs, composed lt fr w w' sum selected strategy psbt msgs.
Proof.
  unfold pay_outbound_pool. intros Hs.
  apply bind_done in Hs as (w0 & w1 & Hg & Hs). apply gets_done in Hg as [-> ->]. unfold id in Hs.
  case_bool_decide as Hp; [by left; sq_run|].
  apply bind_done in Hs as ([filtered requests] & w1 & Hr1 & Hs).
  apply filter_unregistered_done in Hr1 as (-> & -> & ->).
  case_bool_decide as Hf; [by left; sq_run|].
  apply bind_done in Hs as (sum & w1 & Hr1 & Hs).
  assert (w1 = w) as -> by exact (reads_done _ _ _ _ (amount_sum_reads _) Hr1).
  destruct (_ <=? sum) in Hs; [by left; eapply tolerance_quiet|].
  destruct (bl_select_coins _ _ _ _ _ _) as [[selected strategy]|] eqn:Hsel in Hs; [|by left; eapply tolerance_quiet].
  apply bind_done in Hs as (psbt & w1 & Hr2 & Hs).
  assert (w1 = w) as -> by exact (reads_done _ _ _ _ (composite_reads _ _ _ _ _) Hr2).
  destruct psbt as [psbt|]; [|by left; eapply tolerance_quiet].
  apply record_done in Hs as (msgs & Hm & Hl & Hpool & Ho). right. by exists sum, selected, strategy, psbt, msgs.
Qed.

Lemma on_initialize_done n w u w' :
  sq_on_initialize n w = (Done u, w') ->
  lives (sw_queue w') = lives (sw_queue w) /\ get_service_state (sw_pool w') = get_service_state (sw_pool w)
    /\ outbound w' = outbound w
  \/ exists w1 lt fr sum selected strategy psbt msgs,
       get_service_state (sw_pool w) = Normal /\ sw_queue w1 = sw_queue w /\ outbound w1 = outbound w
       /\ sw_pool w1 = process_set_refunds (sw_pool w)
       /\ composed lt fr w1 w' sum selected strategy psbt msgs.
Proof.
  unfold sq_on_initialize. intros Hs.
  apply bind_done in Hs as (w0 & w1 & Hg & Hs). apply gets_done in Hg as [-> ->]. unfold id in Hs.
  destruct (is_activated (sw_blaze w)); cbn [andb] in Hs; [|left; by sq_run].
  case_bool_decide as Hst; [|left; by sq_run].
  apply bind_done in Hs as (u1 & w1 & Hr & Hs). apply bind_done in Hs as (rates & w2 & Hfee & Hs).
  assert (sw_queue w2 = sw_queue w /\ outbound w2 = outbound w /\ sw_pool w2 = process_set_refunds (sw_pool w))
    as (Eq & Eo & Ep).
  { sq_run. match goal with H : bl_try_fee_rate_finalization _ _ = _ |- _ =>
      apply (blaze_frame _ _ _ _ (pool_fee_rates _)) in H end. done. }
  clear Hr Hfee. destruct rates as [[lt fr]|].
  - apply pay_done in Hs as [(Eq' & Ep' & Eo')|(sum & sel & st & psbt & msgs & Hc)].
    + left. rewrite Eq', Ep', Eo', Eq, Eo, Ep. split_and!; [done|apply state_process_set_refunds|done].
    + right. by exists w2, lt, fr, sum, sel, st, psbt, msgs.
  - left. sq_run. rewrite Eq, Ep, Eo. split_and!; [done|apply state_process_set_refunds|done].
Qed.

(** ** The steps *)

(** The calls but the submission of an unsigned transaction *)
Inductive sq_call : M (SqWorld P B) DispatchError unit -> Prop :=
| call_set_authority o new : sq_call (set_authority o new)
| call_set_socket o new is_bitcoin : sq_call (sq_set_socket o new is_bitcoin)
| call_signed_psbt o msg : sq_call (submit_signed_psbt o msg)
| call_executed_request v o msg : sq_call (submit_executed_request v o msg)
| call_rollback_request v o msg : sq_call (submit_rollback_request v o msg)
| call_rollback_poll v o msg : sq_call (submit_rollback_poll v o msg)
| call_migration_request o psbt : sq_call (submit_migration_request o psbt)
| call_set_max_fee_rate o new : sq_call (set_max_fee_rate o new)
| call_bump o old unsigned : sq_call (submit_bump_fee_request o old unsigned)
| call_drop_rollback o t : sq_call (drop_pending_rollback_request o t)
| call_set_max_bytes o new : sq_call (set_max_socket_message_bytes o new).

(** The entries of a list are distinct messages. *)
Definition distinct (pool : list UnboundedBytes) : Prop :=
  NoDup pool /\ forall b b' m m', b ∈ pool -> b' ∈ pool -> parses b m -> parses b' m' ->
    sm_sequence m = sm_sequence m' -> b = b'.
(** The submission pays no message that waits in the outbound pool. *)
Definition spares_outbound w (msg : UnsignedPsbtMessage) : Prop :=
  forall b b' m m', b ∈ concat (um_outputs msg).*2 -> b' ∈ outbound w -> parses b m -> parses b' m' ->
    sm_sequence m <> sm_sequence m'.
(** The transaction a block composes was not requested before. *)
Definition new_txid w w' : Prop :=
  forall t, PendingRequests (sw_queue w') !! t <> PendingRequests (sw_queue w) !! t ->
    no_request (lives (sw_queue w)) t /\ RollbackRequests (sw_queue w) !! t = None.
(** What the other pallets may do between the steps of the queue: the pool
    leaves its normal state only when the queue is ready, and Blaze takes a
    message into the outbound pool only when the queue accepts it. *)
Record others_ok w (p : P) (b : B) : Prop := {
  oo_state : get_service_state (sw_pool w) = Normal -> get_service_state p <> Normal ->
    sq_is_ready_for_migrate (sw_queue w) = true;
  oo_verified x : x ∈ get_outbound_pool b ->
    x ∈ outbound w \/ exists v u w', sq_verify_socket_message v x w = (Done u, w');
  oo_distinct : distinct (get_outbound_pool b)
}.

Inductive sq_step w : SqWorld P B -> Prop :=
| step_unsigned_psbt v o msg :
    spares_outbound w msg -> sq_step w (dispatch (submit_unsigned_psbt v o msg) w).2
| step_call m : sq_call m -> sq_step w (dispatch m w).2
| step_initialize n u w' : sq_on_initialize n w = (Done u, w') -> new_txid w w' -> sq_step w w'
| step_replace old new u w' : sq_replace_authority old new w = (Done u, w') -> sq_step w w'
| step_others p b : others_ok w p b -> sq_step w (mkSqWorld _ _ (sw_queue w) p b).

(** ** What the calls leave of the other pallets *)

Lemma in_blaze_outbound {A} (m : M B DispatchError A) :
  preserves get_outbound_pool m -> preserves (fun w => outbound w) (in_blaze (P:=P) m).
Proof.
  intros Hm w. specialize (Hm (sw_blaze w)). unfold in_blaze, lift. by destruct (m (sw_blaze w)).
Qed.
Lemma in_blaze_state {A} (m : M B DispatchError A) :
  preserves (fun w => get_service_state (sw_pool w)) (in_blaze (P:=P) m).
Proof. by apply preserves_lift. Qed.
Lemma in_pool_state f :
  (forall p, get_service_state (f p) = get_service_state p) ->
  preserves (fun w => get_service_state (sw_pool w)) (in_pool (B:=B) f).
Proof. intros Hf. apply preserves_modify. intros w. apply Hf. Qed.
Lemma sq_map_err_preserves {A C} (f : SqWorld P B -> C) (o : outcome unit A) e : preserves f (sq_map_err o e).
Proof. destruct o; cbn; frame. Qed.
#[local] Hint Resolve sq_map_err_preserves : frame.

(** The calls into Blaze and into the pool, then the rest by [frame]. *)
Ltac spare_step :=
  first
    [ apply in_blaze_outbound;
      first [ apply pool_clear_utxos | apply pool_lock_utxos | apply pool_unlock_utxos | apply pool_extract_utxos
            | apply pool_clear_fee_rates | apply pool_tolerance | apply pool_ensure_activation ]
    | apply in_blaze_state
    | apply in_pool_state; intros;
      first [ apply state_add_migration_tx | apply state_remove_migration_tx | apply state_execute_migration_tx ]
    | frame_step ].
Ltac spare := repeat (cbv beta; spare_step).

Lemma call_frame m : sq_call m ->
  preserves (fun w => outbound w) m /\ preserves (fun w => get_service_state (sw_pool w)) m.
Proof. destruct 1; split; spare. Qed.
Lemma unsigned_psbt_outbound v o msg : preserves (fun w => outbound w) (submit_unsigned_psbt v o msg).
Proof. spare. Qed.
Lemma replace_outbound old new : preserves (fun w => outbound w) (sq_replace_authority old new).
Proof. spare. Qed.

Lemma call_changes m w u w' : sq_call m -> m w = (Done u, w') -> w_changes w w'.
Proof.
  destruct 1; intros Hs.
  - unfold set_authority in Hs. destruct o; cbn [ensure_root] in Hs; sq_run. apply rtc_refl.
  - unfold sq_set_socket in Hs. destruct o, is_bitcoin; cbn [ensure_root] in Hs; sq_run; apply rtc_refl.
  - by eapply signed_psbt_changes.
  - by eapply executed_request_changes.
  - by eapply rollback_request_changes.
  - by eapply rollback_poll_changes.
  - by eapply migration_request_changes.
  - unfold set_max_fee_rate in Hs. destruct o; cbn [ensure_root] in Hs; sq_run. apply rtc_refl.
  - by eapply bump_changes.
  - by eapply drop_rollback_changes.
  - unfold set_max_socket_message_bytes in Hs. destruct o; cbn [ensure_root] in Hs; sq_run. apply rtc_refl.
Qed.

(** ** The invariant *)

(** The messages of the outbound pool are distinct, and none is bonded. *)
Record outbound_ok q (pool : list UnboundedBytes) : Prop := {
  po_distinct : distinct pool;
  po_unbonded b : b ∈ pool -> exists m, parses b m /\ SocketMessages q !! sm_sequence m = None
}.
Record world_ok w : Prop := {
  wo_lives : lives_ok (normal w) (lives (sw_queue w));
  wo_pool : outbound_ok (sw_queue w) (outbound w)
}.

Lemma outbound_ok_kept q q' pool :
  (forall b m, b ∈ pool -> parses b m -> SocketMessages q !! sm_sequence m = None ->
     SocketMessages q' !! sm_sequence m = None) ->
  outbound_ok q pool -> outbound_ok q' pool.
Proof. intros Hq [Hd Hu]. split; [done|]. intros b Hb. destruct (Hu b Hb) as (m & Hm & Hn). eauto. Qed.

(** A step that opens no request of the messages of a user *)
Lemma closed_step w w' :
  world_ok w -> w_changes w w' -> get_service_state (sw_pool w') = get_service_state (sw_pool w) ->
  outbound w' = outbound w -> world_ok w'.
Proof.
  intros [Hl Hp] Hc Hst Ho. split.
  - unfold normal in *. rewrite Hst. by eapply changes_ok.
  - rewrite Ho. eapply outbound_ok_kept; [|exact Hp]. intros b m _ _. by eapply changes_unbonded.
Qed.

(** One that opens a request of [bytes] *)
Lemma open_step w w' t unsigned bytes msgs :
  world_ok w -> normal w -> get_service_state (sw_pool w') = get_service_state (sw_pool w) ->
  no_request (lives (sw_queue w)) t -> RollbackRequests (sw_queue w) !! t = None ->
  Forall2 parses bytes msgs -> NoDup (sm_sequence <$> msgs) ->
  Forall (fun m => SocketMessages (sw_queue w) !! sm_sequence m = None) msgs ->
  lives (sw_queue w') =
    (let l := lives (sw_queue w) in
     mkLives (<[t := new_psbt_request unsigned bytes NormalRequest]> (lv_pending l)) (lv_finalized l)
       (lv_executed l) (lv_rollbacks l) (bond t msgs (lv_messages l))) ->
  distinct (outbound w') -> (forall b, b ∈ outbound w' -> b ∈ outbound w) ->
  (forall b b' m m', b ∈ bytes -> b' ∈ outbound w' -> parses b m -> parses b' m' ->
     sm_sequence m <> sm_sequence m') ->
  world_ok w'.
Proof.
  intros [Hl [_ Hu]] Hnw Hst Hn Hr Hp Hnd Hf El Hd Hsub Hne. split.
  - unfold normal in *. rewrite Hst, El. eapply change_ok; [exact Hl|]. by apply (change_open True).
  - split; [done|]. intros b Hb. destruct (Hu b (Hsub b Hb)) as (m & Hm & Hnone). exists m. split; [done|].
    change (SocketMessages (sw_queue w')) with (lv_messages (lives (sw_queue w'))). rewrite El. cbn.
    destruct (bond_lookup t msgs (SocketMessages (sw_queue w)) (sm_sequence m)) as [->|(x & Hx & Hs & _)]; [done|].
    exfalso. destruct (parses_out _ _ _ Hp Hx) as (b' & Hb' & Hx'). by eapply (Hne b' b x m).
Qed.

Lemma distinct_sub pool pool' : NoDup pool' -> (forall b, b ∈ pool' -> b ∈ pool) -> distinct pool -> distinct pool'.
Proof. intros Hnd Hs [_ Hi]. split; [done|]. intros b b' m m' Hb Hb'. apply Hi; by apply Hs. Qed.

(** The sequences of distinct messages *)
Lemma distinct_sequences pool msgs : distinct pool -> Forall2 parses pool msgs -> NoDup (sm_sequence <$> msgs).
Proof.
  intros Hd Hp. induction Hp as [|b m pool msgs Hb Hp IH]; [constructor|]. rewrite fmap_cons. apply NoDup_cons.
  pose proof Hd as [[Hnin Hnd]%NoDup_cons Hi]. split.
  - intros (m' & E & Hm')%list_elem_of_fmap. destruct (parses_out _ _ _ Hp Hm') as (b' & Hb' & Hpb').
    apply Hnin. rewrite (Hi b b' m m'); [done|by left|by right|done..].
  - apply IH. eapply distinct_sub; [done| |exact Hd]. intros x Hx. by right.
Qed.

Lemma composed_ok lt fr w w' sum selected strategy psbt msgs :
  world_ok w -> normal w -> new_txid w w' -> composed lt fr w w' sum selected strategy psbt msgs -> world_ok w'.
Proof.
  intros Hw Hnw Ht [Hf _ _ _ Hp El Es Eo]. pose proof Hw as [Hl [Hd Hu]].
  set (t := convert_txid (compute_txid psbt)) in *. set (filtered := filter _ (outbound w)) in *.
  assert (forall b, b ∈ filtered -> b ∈ outbound w) as Hsub by (intros b Hb; by apply list_elem_of_filter in Hb as [_ Hb]).
  assert (Forall (fun m => SocketMessages (sw_queue w) !! sm_sequence m = None) msgs) as Hnone.
  { apply Forall_forall. intros m Hm. destruct (parses_out _ _ _ Hp Hm) as (b & Hb & Hm').
    destruct (Hu b (Hsub b Hb)) as (m' & Hm'' & Hn). by rewrite (parses_fun _ _ _ Hm' Hm''). }
  assert (PendingRequests (sw_queue w') !! t <> PendingRequests (sw_queue w) !! t) as Hne.
  { change (PendingRequests (sw_queue w')) with (lv_pending (lives (sw_queue w'))). rewrite El. cbn [lv_pending].
    rewrite lookup_insert_eq. intros E. destruct filtered as [|b rest] eqn:Ef; [done|].
    destruct (lo_bonded _ _ Hl t _ b (or_introl (eq_sym E)) ltac:(cbn; left)) as (m & m' & Hm & Hb).
    destruct (Hu b (Hsub b ltac:(left))) as (m1 & Hm1 & Hn). rewrite (parses_fun _ _ _ Hm Hm1) in Hb.
    unfold lives in Hb. cbn in Hb. congruence. }
  destruct (Ht t Hne) as [Hnr Hrb].
  assert (NoDup filtered) as Hndf by (apply NoDup_filter, Hd).
  eapply (open_step w w' t); [done|done|by rewrite Es|done|done|exact Hp| |exact Hnone|exact El| | |].
  - eapply distinct_sequences; [|exact Hp]. by eapply distinct_sub.
  - rewrite Eo. eapply distinct_sub; [apply NoDup_filter, Hd| |exact Hd]. intros b Hb. by apply list_elem_of_filter in Hb as [_ Hb].
  - rewrite Eo. intros b Hb. by apply list_elem_of_filter in Hb as [_ Hb].
  - rewrite Eo. intros b b' m m' Hb [Hn Hb']%list_elem_of_filter Hm Hm' E. apply Hn.
    destruct Hd as [_ Hi]. by rewrite <- (Hi b b' m m' (Hsub b Hb) Hb' Hm Hm' E).
Qed.

Lemma ready_approved q : sq_is_ready_for_migrate q = true -> all_approved (lives q).
Proof.
  unfold sq_is_ready_for_migrate. rewrite !andb_true_iff. intros [_ Hf] t rr Hr. rewrite forallb_forall in Hf.
  apply (Hf (t, rr)). apply list_elem_of_In. by apply elem_of_map_to_list.
Qed.

Lemma ready_migrations q : sq_is_ready_for_migrate q = true -> only_migrations (lives q).
Proof.
  unfold sq_is_ready_for_migrate. rewrite !andb_true_iff, !bool_decide_eq_true. intros [[Ep Ef] _] t r.
  cbn. rewrite Ep, Ef, !lookup_empty. by intros [|].
Qed.

Lemma step_ok w w' : world_ok w -> sq_step w w' -> world_ok w'.
Proof.
  intros Hw Hs. destruct Hs as [v o msg Hsp|m Hm|n u w' Hs Ht|old new u w' Hs|p b Ho].
  - apply (dispatch_inv world_ok); [done|]. intros u w' Hs.
    pose proof (preserves_done _ _ _ _ _ (unsigned_psbt_outbound v o msg) Hs) as Eo. cbv beta in Eo.
    apply unsigned_psbt_done in Hs as (psbt & des & ser & sv & payments & Hnw & _ & Hn & Hr & Hp & Hnd & Hl & _ & Hpay & E & Epool & El).
    subst des. eapply (open_step w w'); [done|exact Hnw|by rewrite Epool|exact Hn|exact Hr|exact Hp|exact Hnd| |exact El|..].
    + by eapply paid_unbonded.
    + rewrite Eo. apply Hw.
    + by rewrite Eo.
    + rewrite Eo. intros b b' m m' Hb. apply Hsp. by apply Hl.
  - apply (dispatch_inv world_ok); [done|]. intros u w' Hs. destruct (call_frame m Hm) as [Hf1 Hf2].
    eapply closed_step; [exact Hw|by eapply call_changes| |].
    + by apply (preserves_done _ _ _ _ _ Hf2 Hs).
    + by apply (preserves_done _ _ _ _ _ Hf1 Hs).
  - apply on_initialize_done in Hs as [(El & Es & Eo)|(w1 & lt & fr & sum & sel & st & psbt & msgs & Hnw & Eq & Eo & Ep & Hc)].
    + destruct Hw as [Hl Hp]. split; [unfold normal in *; by rewrite El, Es|]. rewrite Eo.
      eapply outbound_ok_kept; [|exact Hp]. intros b m _ _. change (lv_messages (lives (sw_queue w)) !! sm_sequence m = None ->
        lv_messages (lives (sw_queue w')) !! sm_sequence m = None). by rewrite El.
    + eapply composed_ok; [| | |exact Hc].
      * destruct Hw as [Hl Hp]. split; [unfold normal in *; by rewrite Eq, Ep, state_process_set_refunds|]. by rewrite Eq, Eo.
      * unfold normal. by rewrite Ep, state_process_set_refunds.
      * unfold new_txid in *. by rewrite Eq.
  - pose proof (preserves_done _ _ _ _ _ (replace_outbound old new) Hs) as Eo.
    apply replace_authority_changes in Hs as [Hc Ep]. eapply closed_step; [done|done|by rewrite Ep|exact Eo].
  - destruct Ho as [Ho1 Ho2 Ho3]. pose proof Hw as [[Hs1 Hs2 Hs3 Hs4 Hs5] [_ Hu]]. split.
    + destruct (decide (get_service_state (sw_pool w) = Normal)) as [Hnw|Hnw]; [|by split; auto].
      split; [done|done|done| |]; intros Hn; specialize (Ho1 Hnw Hn); [by apply ready_approved|by apply ready_migrations].
    + split; [done|]. intros x [Hx|(v & u & w' & Hv)]%Ho2; [by apply Hu|].
      apply verify_message_done in Hv as [_ (m & Hm & _ & _ & Hn)]. by exists m.
Qed.

(** ** The worlds reached *)

(** No request, no rollback, no message, an empty outbound pool *)
Definition sq_start w : Prop := lives (sw_queue w) = mkLives ∅ ∅ ∅ ∅ ∅ /\ outbound w = [].
Definition sq_reachable w : Prop := exists w0, sq_start w0 /\ rtc sq_step w0 w.

Lemma start_ok w : sq_start w -> world_ok w.
Proof.
  intros [El Eo]. split.
  - rewrite El. split.
    + intros t. cbn. rewrite !lookup_empty. constructor.
    + unfold bonded, has_request. cbn. setoid_rewrite lookup_empty. naive_solver.
    + unfold all_once, has_request. cbn. setoid_rewrite lookup_empty. naive_solver.
    + intros _ t rr. cbn. by rewrite lookup_empty.
    + intros _ t r. cbn. rewrite !lookup_empty. by intros [|].
  - rewrite Eo. split.
    + split; [constructor|]. by intros b b' m m' Hb%elem_of_nil.
    + by intros b Hb%elem_of_nil.
Qed.
Lemma steps_ok w w' : world_ok w -> rtc sq_step w w' -> world_ok w'.
Proof. intros Hw Hr. induction Hr as [|x y z Hxy _ IH]; [done|]. apply IH. by eapply step_ok. Qed.
Lemma reachable_ok w : sq_reachable w -> world_ok w.
Proof. intros (w0 & H0 & Hr). eapply steps_ok; [by apply start_ok|done]. Qed.
End Steps.
