(* ===== verification/SocketQueueTheorems.v ===== *)
(** * The socket queue: what it guarantees

    In every world the queue and the other pallets reach: each transaction has
    one request, each message is paid by one transaction, a migration signs
    migrations only, an output is rolled back once. And what decides that a
    transaction is executed or a rollback approved: a majority of relayers. *)

From S2P Require Import Prelude Logic Errors Primitives Cccp BtcRelay SocketQueue SocketQueueInv SocketQueueOps SocketQueueSteps.
Local Open Scope Z_scope.
Local Open Scope frame_scope.

Section Theorems.
Context `{!SqConfig} {R P B : Type} `{!Authorities R, !PoolManager P, !BlazeManager B}.
Context `{!PoolLaws P, !BlazeLaws B}.
Implicit Types (v : SqView R) (w : SqWorld P B).

Abbreviation outbound w := (get_outbound_pool (sw_blaze w)).
Abbreviation requested w := (has_request (lives (sw_queue w))).

(** ** One request, one payment *)

Lemma slot_one a b c o :
  slot_ok a b c o ->
  (forall r, a = Some r -> b = None /\ c = None) /\ (forall r, b = Some r -> c = None)
  /\ forall r, a = Some r \/ b = Some r \/ c = Some r -> agrees r o.
Proof. destruct 1; naive_solver. Qed.


Lemma once_eq r b b' m m' :
  once r -> b ∈ pr_socket_messages r -> b' ∈ pr_socket_messages r -> parses b m -> parses b' m' ->
  sm_sequence m = sm_sequence m' -> b = b'.
Proof.
  intros (msgs & Hp & Hnd) [i Hi]%list_elem_of_lookup [j Hj]%list_elem_of_lookup Hb Hb' E.
  destruct (Forall2_lookup_l _ _ _ _ _ Hp Hi) as (x & Hx & Hbx).
  destruct (Forall2_lookup_l _ _ _ _ _ Hp Hj) as (y & Hy & Hby).
  rewrite (parses_fun _ _ _ Hb Hbx), (parses_fun _ _ _ Hb' Hby) in E.
  assert (i = j) as ->; [|congruence].
  eapply (NoDup_lookup (sm_sequence <$> msgs)); [done|rewrite list_lookup_fmap, Hx; reflexivity|].
  by rewrite list_lookup_fmap, Hy, E.
Qed.

Lemma paid_once w t r b m :
  world_ok w -> requested w t r -> b ∈ pr_socket_messages r -> parses b m ->
  (exists m', SocketMessages (sw_queue w) !! sm_sequence m = Some (t, m'))
  /\ (forall t' r' b' m', requested w t' r' -> b' ∈ pr_socket_messages r' -> parses b' m' ->
        sm_sequence m' = sm_sequence m -> t' = t /\ r' = r /\ b' = b)
  /\ forall b' m', b' ∈ outbound w -> parses b' m' -> sm_sequence m' <> sm_sequence m.
Proof.
  intros Hw Hr Hb Hm. pose proof Hw as [[Hs Hbond Ho _ _] [_ Hu]].
  destruct (Hbond t r b Hr Hb) as (x & m1 & Hx & Hl). rewrite (parses_fun _ _ _ Hx Hm) in Hl.
  split_and!; [by eexists| |].
  - intros t' r' b' m' Hr' Hb' Hm' E. destruct (Hbond t' r' b' Hr' Hb') as (x' & m2 & Hx' & Hl').
    rewrite (parses_fun _ _ _ Hx' Hm'), E in Hl'. assert (t' = t) as -> by congruence.
    assert (r' = r) as ->.
    { specialize (Hs t). apply slot_one in Hs as (H1 & H2 & _). clear -H1 H2 Hr Hr'. unfold has_request in *. naive_solver. }
    split_and!; [done|done|]. by eapply (once_eq r b' b m' m); [by eapply Ho|..].
  - intros b' m' Hb' Hm' E. destruct (Hu b' Hb') as (x' & Hx' & Hn).
    rewrite (parses_fun _ _ _ Hx' Hm'), E in Hn. cbn in Hl. congruence.
Qed.



(** ** What an authority may submit *)

(** C11: A payment that the authority submits pays exactly its messages: each
    output goes to the vault of the round, without message, or to an address
    that is the refund address of the user of each message of the output, the
    messages being accepted, new, of distinct sequences, and their amounts
    adding up to the output. The request is recorded with these messages, which
    are bonded to the transaction. *)
Theorem unsigned_psbt_pays_messages v o msg w u w' :
  submit_unsigned_psbt v o msg w = (Done u, w') ->
  exists psbt bytes vault payments,
    psbt_deserialize (um_psbt msg) = Some psbt
    /\ get_system_vault (sw_pool w) (get_current_round (sw_pool w)) = Some vault
    /\ Forall2 (pays w vault) (unsigned_outputs psbt) payments
    /\ Forall2 parses bytes (concat payments) /\ NoDup (sm_sequence <$> concat payments)
    /\ let t := convert_txid (compute_txid psbt) in
    no_request (lives (sw_queue w)) t
    /\ PendingRequests (sw_queue w') !! t = Some (new_psbt_request (um_psbt msg) bytes NormalRequest)
    /\ forall m, m ∈ concat payments -> exists m', SocketMessages (sw_queue w') !! sm_sequence m = Some (t, m').
Proof.
  intros (psbt & des & ser & sv & payments & _ & Hd & Hn & _ & Hp & Hnd & _ & Hv & Hpay & -> & _ & El)%unsigned_psbt_done.
  exists psbt, ser, sv, payments. cbv zeta. split_and!; [done..| |].
  - change (PendingRequests (sw_queue w')) with (lv_pending (lives (sw_queue w'))). rewrite El. apply lookup_insert_eq.
  - intros m Hm. assert (SocketMessages (sw_queue w') = lv_messages (lives (sw_queue w'))) as -> by done. rewrite El.
    by apply bond_in.
Qed.

(** ** What a majority decides *)

(** The finalized request [r] of [t] is executed. *)
Record executes t r w w' : Prop := {
  ex_finalized : FinalizedRequests (sw_queue w') = delete t (FinalizedRequests (sw_queue w));
  ex_executed : ExecutedRequests (sw_queue w') = <[t := r]> (ExecutedRequests (sw_queue w));
  ex_confirmations : BroadcastConfirmations (sw_queue w') = delete t (BroadcastConfirmations (sw_queue w));
  ex_pool : sw_pool w' =
    if bool_decide (pr_request_type r = Migration) then execute_migration_tx t (sw_pool w) else sw_pool w
}.
Definition confirmations w t : gmap N bool := default ∅ (BroadcastConfirmations (sw_queue w) !! t).
(** One more relayer has seen the transaction of [t] broadcast. *)
Record confirms t a w w' : Prop := {
  cf_confirmations :
    BroadcastConfirmations (sw_queue w') = <[t := <[a := true]> (confirmations w t)]> (BroadcastConfirmations (sw_queue w));
  cf_lives : lives (sw_queue w') = lives (sw_queue w);
  cf_pool : sw_pool w' = sw_pool w
}.

Lemma try_insert_new {V} bound k (x : V) m :
  m !! k = None ->
  try_insert_map bound k x m = if Z.of_nat (size m) <? bound then Some (<[k := x]> m) else None.
Proof. unfold try_insert_map. by intros ->. Qed.

(** What [submit_executed_request] does once it is let in *)
Lemma executed_request_runs v a t w r :
  FinalizedRequests (sw_queue w) !! t = Some r ->
  let '(res, w') := dispatch (submit_executed_request v NoneOrigin (mkExecutedPsbtMessage a t)) w in
  if is_activated (sw_blaze w) then
    match confirmations w t !! a with
    | Some _ => res = Fail (SockQ SqBroadcastAlreadyConfirmed) /\ w' = w
    | None =>
        if Z.of_nat (size (confirmations w t)) <? MAX_AUTHORITIES then
          res = Done tt /\
          if au_majority (qv_relayers v) <=? Z.of_nat (size (confirmations w t)) + 1
          then executes t r w w' else confirms t a w w'
        else res = Fail (SockQ SqOutOfRange) /\ w' = w
    end
  else res = Done tt /\ executes t r w w'.
Proof.
  intros Hf. unfold submit_executed_request, dispatch, bind. cbn [ensure_none ret gets id]. rewrite Hf. cbn [ok_or ret].
  destruct (is_activated (sw_blaze w)).
  - unfold confirm_broadcast, bind. cbn [gets id]. fold (confirmations w t).
    destruct (confirmations w t !! a) as [x|] eqn:Ea.
    { rewrite bool_decide_eq_true_2 by eauto. cbn. done. }
    rewrite bool_decide_eq_false_2 by (by intros [? ?]). cbn [negb ensure ret].
    rewrite (try_insert_new _ _ _ _ Ea). destruct (_ <? MAX_AUTHORITIES); [|done]. cbn [ok_or ret].
    assert (Z.of_nat (size (<[a := true]> (confirmations w t))) = Z.of_nat (size (confirmations w t)) + 1) as Es
      by (rewrite map_size_insert_None by done; lia).
    rewrite <- Es. cbn -[size].
    destruct (_ <=? _); cbn -[size]; [case_bool_decide as E|]; cbn -[size]; (split; [done|]); split; cbn; try done.
    all: first [by rewrite bool_decide_eq_true_2 by done|by rewrite bool_decide_eq_false_2 by done].
  - cbn. case_bool_decide as E; cbn; (split; [done|]); split; cbn; try done.
    all: first [by rewrite bool_decide_eq_true_2 by done|by rewrite bool_decide_eq_false_2 by done].
Qed.

(** C15: A majority of relayers decides that a transaction was broadcast. While
    Blaze is active only a relayer may say so, and once: a second confirmation
    fails. The request is executed by the confirmation that makes the number
    of relayers a majority, and only by it; an earlier one is recorded and
    leaves the requests alone. While Blaze is inactive the authority alone
    decides. *)
Theorem executed_by_majority v a t sig w res w' r :
  sq_apply_unsigned v (CallSubmitExecutedRequest (mkExecutedPsbtMessage a t) sig) w = Some (res, w') ->
  FinalizedRequests (sw_queue w) !! t = Some r ->
  let c := confirmations w t in
  if is_activated (sw_blaze w) then
    au_is_authority (qv_relayers v) a = true /\
    match c !! a with
    | Some _ => res = Fail (SockQ SqBroadcastAlreadyConfirmed) /\ w' = w
    | None =>
        if Z.of_nat (size c) <? MAX_AUTHORITIES then
          res = Done tt /\
          if au_majority (qv_relayers v) <=? Z.of_nat (size c) + 1
          then executes t r w w' else confirms t a w w'
        else res = Fail (SockQ SqOutOfRange) /\ w' = w
    end
  else Authority (sw_queue w) = Some a /\ res = Done tt /\ executes t r w w'.
Proof.
  unfold sq_apply_unsigned. cbn [sq_validate_unsigned sq_unsigned_call].
  unfold queue_verify_authority, verify_legacy_authority. intros Hs Hf.
  pose proof (executed_request_runs v a t w r Hf) as Hr. cbv zeta.
  destruct (is_activated (sw_blaze w)).
  - destruct (au_is_authority (qv_relayers v) a); [|done]. destruct (sq_valid _ _ _ _); [done|].
    injection Hs as Hs. by rewrite Hs in Hr.
  - destruct (Authority (sw_queue w)) as [x|]; [|done]. case_bool_decide as E; [subst x|done].
    destruct (sq_valid _ _ _ _); [done|]. injection Hs as Hs. by rewrite Hs in Hr.
Qed.

(** The relayers that vote for a rollback *)
Definition in_favour (votes : gmap N bool) : nat := size (filter (fun kv : N * bool => kv.2 = true) votes).
Lemma yes_votes_count votes : yes_votes votes = Z.of_nat (in_favour votes).
Proof.
  unfold yes_votes, in_favour. rewrite (acc_iter_perm votes). f_equal.
  rewrite <- length_map_to_list, map_filter_alt, map_to_list_to_map; [done|].
  eapply sublist_NoDup; [apply (NoDup_fst_map_to_list votes)|]. apply fmap_sublist, sublist_filter.
Qed.

(** What [submit_rollback_poll] does once it is let in *)
Lemma rollback_poll_runs v a t yes w rr :
  RollbackRequests (sw_queue w) !! t = Some rr ->
  let '(res, w') := dispatch (submit_rollback_poll v NoneOrigin (mkRollbackPollMessage a t yes)) w in
  let votes := <[a := yes]> (rr_votes rr) in
  let approved := au_majority (qv_relayers v) <=? Z.of_nat (in_favour votes) in
  if rr_is_approved rr then res = Fail (SockQ SqRequestAlreadyApproved) /\ w' = w
  else if bool_decide (rr_votes rr !! a = Some yes) then res = Fail (SockQ SqNoWritingSameValue) /\ w' = w
  else match try_insert_map MAX_AUTHORITIES a yes (rr_votes rr) with
       | None => res = Fail (SockQ SqOutOfRange) /\ w' = w
       | Some _ =>
           res = Done tt
           /\ RollbackRequests (sw_queue w') = <[t := rr <| rr_votes := votes |> <| rr_is_approved := approved |>]>
                (RollbackRequests (sw_queue w))
           /\ PendingRequests (sw_queue w') =
                (if approved then <[t := new_psbt_request (rr_unsigned_psbt rr) [] RollbackOf]> else id)
                  (PendingRequests (sw_queue w))
       end.
Proof.
  intros Hr. unfold submit_rollback_poll, dispatch, bind. cbn [ensure_none ret gets id]. rewrite Hr. cbn [ok_or ret].
  destruct rr as [un who txid vout to amount votes approved]. cbn [rr_is_approved rr_votes rr_unsigned_psbt].
  destruct approved; [done|]. cbn [negb ensure ret]. case_bool_decide as Ea; [done|]. cbn [negb ensure ret].
  destruct (try_insert_map MAX_AUTHORITIES a yes votes) as [votes'|] eqn:Ei; [|done]. cbn [ok_or ret].
  assert (votes' = <[a := yes]> votes) as ->.
  { unfold try_insert_map in Ei. repeat case_match; congruence. }
  rewrite yes_votes_count. destruct (_ <=? _); done.
Qed.

(** C19: A majority of relayers decides a rollback. Only a relayer may vote, not
    the same way twice in a row; the vote counts once, in place of an earlier
    one. With its vote the rollback is approved, and its transaction is to be
    signed, exactly when the relayers in favour are a majority. An approved
    rollback takes no further vote. *)
Theorem rollback_by_majority v a t yes sig w res w' rr :
  sq_apply_unsigned v (CallSubmitRollbackPoll (mkRollbackPollMessage a t yes) sig) w = Some (res, w') ->
  RollbackRequests (sw_queue w) !! t = Some rr ->
  let votes := <[a := yes]> (rr_votes rr) in
  let approved := au_majority (qv_relayers v) <=? Z.of_nat (in_favour votes) in
  au_is_authority (qv_relayers v) a = true /\
  if rr_is_approved rr then res = Fail (SockQ SqRequestAlreadyApproved) /\ w' = w
  else if bool_decide (rr_votes rr !! a = Some yes) then res = Fail (SockQ SqNoWritingSameValue) /\ w' = w
  else match try_insert_map MAX_AUTHORITIES a yes (rr_votes rr) with
       | None => res = Fail (SockQ SqOutOfRange) /\ w' = w
       | Some _ =>
           res = Done tt
           /\ RollbackRequests (sw_queue w') = <[t := rr <| rr_votes := votes |> <| rr_is_approved := approved |>]>
                (RollbackRequests (sw_queue w))
           /\ PendingRequests (sw_queue w') =
                (if approved then <[t := new_psbt_request (rr_unsigned_psbt rr) [] RollbackOf]> else id)
                  (PendingRequests (sw_queue w))
       end.
Proof.
  unfold sq_apply_unsigned. cbn [sq_validate_unsigned sq_unsigned_call]. intros Hs Hr.
  pose proof (rollback_poll_runs v a t yes w rr Hr) as Hp. cbv zeta.
  destruct (au_is_authority (qv_relayers v) a); [|done]. cbn [negb] in Hs.
  destruct (sq_valid _ _ _ _); [done|]. injection Hs as Hs. by rewrite Hs in Hp.
Qed.

(** ** An output is rolled back once *)

Definition rolled (k : H256 * U256) w : Prop := is_Some (BondedRollbackOutputs (sw_queue w) !! k).
Abbreviation bonds := (fun w => BondedRollbackOutputs (sw_queue w)).

Lemma own_bonds {A} (m : M SqStorage DispatchError A) :
  preserves BondedRollbackOutputs m -> preserves bonds (own (P:=P) (B:=B) m).
Proof. intros Hm w. specialize (Hm (sw_queue w)). unfold own, lift. by destruct (m (sw_queue w)). Qed.
Ltac bonds_step := first [apply own_bonds; apply preserves_modify; reflexivity | apply sq_map_err_preserves | frame_step].
Ltac same_bonds := repeat (cbv beta; bonds_step).

Lemma keeps_rebond k k' t : keeps (rolled k) (skmutate (P:=P) (B:=B) BondedRollbackOutputs <[k' := t]>).
Proof.
  intros w Hw. unfold rolled in *. cbn. destruct (decide (k' = k)) as [->|Hne].
  - rewrite lookup_insert_eq. eauto.
  - by rewrite lookup_insert_ne.
Qed.
Lemma keeps_reads k {A} (m : M (SqWorld P B) DispatchError A) : preserves bonds m -> keeps (rolled k) m.
Proof. intros Hm w Hw. unfold rolled in *. by rewrite (Hm w). Qed.
Lemma rebond_keeps k old new unsigned r : keeps (rolled k) (rebond_request (P:=P) (B:=B) old new unsigned r).
Proof.
  unfold rebond_request. destruct (pr_request_type r); [apply keeps_reads; same_bonds| |apply keeps_reads; same_bonds].
  repeat (first [apply keeps_rebond | apply keeps_bind; [apply keeps_reads; same_bonds|intros ?]]).
Qed.
Lemma call_keeps k m : sq_call m -> keeps (rolled k) m.
Proof.
  destruct 1; try (apply keeps_reads; same_bonds; fail).
  - unfold submit_rollback_request. destruct msg.
    repeat (first [apply keeps_rebond | apply keeps_bind; [first [apply keeps_rebond|apply keeps_reads; same_bonds]|intros ?]]).
  - unfold submit_bump_fee_request.
    repeat (first [apply rebond_keeps | apply keeps_bind; [first [apply rebond_keeps|apply keeps_reads; same_bonds]|intros ?]]).
    apply keeps_reads; same_bonds.
Qed.
Lemma unsigned_psbt_keeps k v o msg : keeps (rolled k) (submit_unsigned_psbt v o msg).
Proof. apply keeps_reads. same_bonds. Qed.
Lemma replace_keeps k old new : keeps (rolled k) (sq_replace_authority old new).
Proof. apply keeps_reads. same_bonds. Qed.
Lemma initialize_keeps k n : keeps (rolled k) (sq_on_initialize n).
Proof. apply keeps_reads. same_bonds. Qed.
Lemma keeps_dispatch k (m : M (SqWorld P B) DispatchError unit) w :
  keeps (rolled k) m -> rolled k w -> rolled k (dispatch m w).2.
Proof. intros Hm Hw. apply (dispatch_inv (rolled k)); [done|]. intros u w' Hs. specialize (Hm w Hw). by rewrite Hs in Hm. Qed.

Lemma step_keeps k w w' : sq_step w w' -> rolled k w -> rolled k w'.
Proof.
  destruct 1 as [v o msg _|m Hm|n u w' Hs _|old new u w' Hs|p b _]; intros Hw.
  - by apply keeps_dispatch; [apply unsigned_psbt_keeps|].
  - by apply keeps_dispatch; [apply call_keeps|].
  - by eapply keeps_done; [apply (initialize_keeps k n)| |exact Hs].
  - by eapply keeps_done; [apply (replace_keeps k old new)| |exact Hs].
  - done.
Qed.

(** C25: An output is rolled back once. A request to roll back an output is
    refused for ever after a first one for the same output was accepted,
    whatever happens in between: also when the first one was dropped, so that
    a dropped rollback can not be requested again. *)
Theorem rolled_back_once v o msg w u w1 w2 v' o' msg' :
  submit_rollback_request v o msg w = (Done u, w1) -> rtc sq_step w1 w2 ->
  rm_txid msg' = rm_txid msg -> rm_vout msg' = rm_vout msg ->
  forall u' w3, submit_rollback_request v' o' msg' w2 <> (Done u', w3).
Proof.
  intros Hs Hr Et Ev u' w3 Hs'. assert (rolled (rm_txid msg, rm_vout msg) w1) as Hw.
  { destruct msg as [who t vout amount unsigned]. unfold submit_rollback_request in Hs. checks.
    unfold rolled. cbn. rewrite lookup_insert_eq. eauto. }
  assert (rolled (rm_txid msg, rm_vout msg) w2) as Hw2.
  { clear Hs Hs'. induction Hr as [|x y z Hxy _ IH]; [done|]. apply IH. by eapply step_keeps. }
  destruct msg' as [who t vout amount unsigned]. cbn in Et, Ev. subst. unfold submit_rollback_request in Hs'. checks.
  destruct Hw2 as [x Hx].
  repeat match goal with H : bool_decide _ = true |- _ => apply bool_decide_eq_true_1 in H end. congruence.
Qed.
End Theorems.
