(* ===== verification/SocketQueueBlocks.v ===== *)
(** * The socket queue: the transactions it composes and replaces

    The outputs of a transaction composed at the start of a block, against the
    messages it is recorded to pay; and what a replacement of a transaction
    keeps of the one it replaces. *)

From S2P Require Import Prelude Logic Errors Primitives Cccp BtcRelay SocketQueue SocketQueueInv SocketQueueOps SocketQueueSteps.
Local Open Scope Z_scope.
Local Open Scope frame_scope.

(** A transaction keeps the inputs and the outputs it is built from, also when
    the data of its inputs is added; and it can be read back. *)
Class PsbtLaws `{!BtcLib, !PsbtLib} : Prop := {
  built_inputs ins outs p : from_unsigned_tx ins outs = Some p -> unsigned_inputs p = ins;
  built_outputs ins outs p : from_unsigned_tx ins outs = Some p -> unsigned_outputs p = outs;
  with_inputs_inputs l n p : unsigned_inputs (with_inputs l n p) = unsigned_inputs p;
  with_inputs_outputs l n p : unsigned_outputs (with_inputs l n p) = unsigned_outputs p
}.

Section Blocks.
Context `{!SqConfig} {R P B : Type} `{!Authorities R, !PoolManager P, !BlazeManager B}.
Implicit Types (v : SqView R) (w : SqWorld P B) (s : ScriptBuf).

(** ** Merging the amounts by script *)

Definition amount_of (x : SocketMessage * ScriptBuf) : Z := tp_amount (sm_params x.1).
(** What the messages send to the script [s] *)
Definition amount_to s (requests : list (SocketMessage * ScriptBuf)) : Z :=
  zsum (amount_of <$> filter (fun x => x.2 = s) requests).

Lemma merge_entry_keys s n l l' :
  merge_entry s n l = Some l' -> l'.*1 = if bool_decide (s ∈ l.*1) then l.*1 else l.*1 ++ [s].
Proof.
  revert l'. induction l as [|[s0 old] l IH]; intros l' Hm; cbn [merge_entry] in Hm.
  - injection Hm as <-. by rewrite bool_decide_eq_false_2 by apply not_elem_of_nil.
  - case_bool_decide as E.
    + apply bind_Some in Hm as (sum & _ & [= <-]). subst. cbn. by rewrite bool_decide_eq_true_2 by left.
    + apply bind_Some in Hm as (rest & Hr & [= <-]). cbn. rewrite (IH _ Hr).
      case_bool_decide as E1; case_bool_decide as E2; cbn; try done; exfalso.
      * apply E2. by right.
      * apply elem_of_cons in E2 as [->|E2]; [by apply E|by apply E1].
Qed.
Fixpoint value_of s (l : list (ScriptBuf * Z)) : option Z :=
  match l with [] => None | (s0, n) :: rest => if bool_decide (s0 = s) then Some n else value_of s rest end.
Lemma value_of_elem s n l : NoDup l.*1 -> value_of s l = Some n <-> (s, n) ∈ l.
Proof.
  induction l as [|[s0 n0] l IH]; intros Hnd; cbn [value_of].
  - split; [done|]. by intros Hn%elem_of_nil.
  - rewrite fmap_cons in Hnd. apply NoDup_cons in Hnd as [Hn0 Hnd]. cbn [fst] in Hn0. rewrite elem_of_cons, <- IH by done.
    case_bool_decide as E; [subst s0|].
    + split; [intros [= ->]; by left|]. intros [[= ->]|Hin]; [done|]. exfalso.
      apply IH in Hin; [|done]. apply Hn0. apply (list_elem_of_fmap_2 fst) in Hin. done.
    + split; [by right|]. intros [[= -> ->]|?]; done.
Qed.
Lemma merge_entry_value s n l l' s' :
  merge_entry s n l = Some l' ->
  value_of s' l' = if bool_decide (s' = s) then Some (default 0 (value_of s l) + n) else value_of s' l.
Proof.
  revert l'. induction l as [|[s0 old] l IH]; intros l' Hm; cbn [merge_entry] in Hm.
  - injection Hm as <-. cbn [value_of default]. repeat case_bool_decide; try congruence; done.
  - case_bool_decide as E.
    + apply bind_Some in Hm as (sum & Hs & [= <-]). subst s0. unfold u64_checked_add in Hs. case_match; [|done].
      injection Hs as <-. cbn [value_of]. rewrite (bool_decide_eq_true_2 (s = s)) by done.
      repeat case_bool_decide; try congruence. done.
    + apply bind_Some in Hm as (rest & Hr & [= <-]). cbn [value_of]. rewrite (IH _ Hr).
      rewrite (bool_decide_eq_false_2 (s0 = s)) by done. repeat case_bool_decide; try congruence.
Qed.

(** The amounts of the requests merged so far *)
Definition merging (requests : list (SocketMessage * ScriptBuf)) (l : list (ScriptBuf * Z)) : Prop :=
  NoDup l.*1 /\ forall s, value_of s l = if bool_decide (s ∈ requests.*2) then Some (amount_to s requests) else None.

Lemma amount_to_snoc s requests x :
  amount_to s (requests ++ [x]) = amount_to s requests + if bool_decide (x.2 = s) then amount_of x else 0.
Proof.
  unfold amount_to. rewrite filter_app, fmap_app, zsum_app, filter_cons, filter_nil.
  case_decide; case_bool_decide; try congruence; unfold zsum; cbn; lia.
Qed.
Lemma amount_to_none s requests : s ∉ requests.*2 -> amount_to s requests = 0.
Proof.
  intros Hs. unfold amount_to. destruct (filter _ requests) as [|x l] eqn:E; [done|]. exfalso.
  assert (x ∈ x :: l) as Hx by left. rewrite <- E in Hx. apply list_elem_of_filter in Hx as [<- Hx].
  apply Hs. by apply list_elem_of_fmap_2.
Qed.
Lemma merge_step requests l x l' :
  merging requests l -> merge_entry x.2 (amount_of x) l = Some l' -> merging (requests ++ [x]) l'.
Proof.
  intros [Hnd Hv] Hm. split.
  - rewrite (merge_entry_keys _ _ _ _ Hm). case_bool_decide as E; [done|]. apply NoDup_app.
    split_and!; [done| |apply NoDup_singleton]. intros y Hy ->%list_elem_of_singleton. done.
  - intros s. rewrite (merge_entry_value _ _ _ _ s Hm), amount_to_snoc, !Hv, fmap_app.
    destruct (decide (s = x.2)) as [->|Hne].
    + rewrite !(bool_decide_eq_true_2 (x.2 = x.2)) by done. rewrite (bool_decide_eq_true_2 (_ ∈ _ ++ _)) by set_solver.
      case_bool_decide as E; cbn; [done|]. by rewrite amount_to_none.
    + rewrite (bool_decide_eq_false_2 (s = x.2)), (bool_decide_eq_false_2 (x.2 = s)), Z.add_0_r by congruence.
      case_bool_decide as E1; case_bool_decide as E2; try done; exfalso; set_solver.
Qed.

(** The scripts of the requests with what is sent to them *)
Definition merged (requests : list (SocketMessage * ScriptBuf)) (l : list (ScriptBuf * Z)) : Prop :=
  NoDup l.*1 /\ forall s n, (s, n) ∈ l <-> s ∈ requests.*2 /\ n = amount_to s requests.

Lemma as_u64_some n m : as_u64 n = Some m -> m = n /\ n < u64_modulus.
Proof. unfold as_u64. destruct (Z.ltb_spec n u64_modulus); [|done]. intros [= <-]. done. Qed.

Lemma merge_loop past rest l w l' w' :
  merging past l ->
  fold_each rest l (fun merged_output x =>
    let* value := (expect (as_u64 (tp_amount (sm_params x.1))) : M (SqWorld P B) DispatchError Z) in
    expect (merge_entry x.2 value merged_output)) w = (Done l', w') ->
  w' = w /\ merging (past ++ rest) l'.
Proof.
  revert past l. induction rest as [|x rest IH]; intros past l Hm Hr; cbn [fold_each] in Hr.
  - sq_run. by rewrite app_nil_r.
  - apply bind_done in Hr as (l3 & w3 & H3 & Hr). sq_run.
    match goal with H : as_u64 _ = Some ?n |- _ => apply as_u64_some in H as [-> _] end.
    change (x :: rest) with ([x] ++ rest). rewrite app_assoc. eapply IH; [|exact Hr]. by eapply merge_step.
Qed.
Lemma merge_outputs_done requests w l w' :
  merge_outputs requests w = (Done l, w') -> w' = w /\ merged requests l.
Proof.
  unfold merge_outputs. intros Hs. apply bind_done in Hs as (l1 & w1 & Hf & Hs). sq_run.
  eapply (merge_loop []) in Hf as [-> [Hnd Hv]]; [|split; [constructor|done]]. split; [done|].
  assert (NoDup (stable_sort (fun a b : ScriptBuf * Z => ScriptBuf_leb a.1 b.1) l1).*1) as Hnd'.
  { by rewrite (stable_sort_perm _ l1). }
  split; [done|]. intros s n. rewrite (stable_sort_perm _ l1), <- value_of_elem, Hv by done. cbn [app].
  case_bool_decide; naive_solver.
Qed.

(** ** The transaction of a block *)

Context `{!PsbtLaws}.

Definition payments (l : list (ScriptBuf * Z)) : list TxOut :=
  fmap (M:=list) (fun e => mkTxOut e.2 e.1) (filter (fun e => DUST_LIMIT < e.2) l).

(** The change that the knapsack leaves, at the vault of the round *)
Definition change_of utxos (target fee_rate : Z) (outs : list TxOut) : Z :=
  u64_total (fmap (M:=list) us_amount utxos) - target
    - u64_sat_mul fee_rate
        (u64_add (u64_add 11 (u64_total (fmap (M:=list) us_input_vbytes utxos)))
           (u64_add (u64_total (fmap (M:=list) txout_size outs)) 43)).
Definition is_change w utxos target fee_rate strategy outs (change : list TxOut) : Prop :=
  change = [] \/
  exists vault a, strategy = Knapsack /\ DUST_LIMIT < change_of utxos target fee_rate outs
    /\ get_system_vault (sw_pool w) (get_current_round (sw_pool w)) = Some vault
    /\ address_from_vec vault = Some a
    /\ change = [mkTxOut (change_of utxos target fee_rate outs) (script_pubkey a)].

Lemma with_change_done utxos target fee_rate outs w outs' w' :
  with_change utxos target fee_rate outs w = (Done (Some outs'), w') ->
  w' = w /\ exists change, outs' = outs ++ change /\ is_change w utxos target fee_rate Knapsack outs change.
Proof.
  unfold with_change. intros Hs.
  destruct (v ← u64_checked_sub _ target; u64_checked_sub v _) as [c|] eqn:Ec in Hs.
  - assert (c = change_of utxos target fee_rate outs) as ->.
    { clear Hs. apply bind_Some in Ec as (v & Hv & Hc). unfold u64_checked_sub in *. repeat case_match; simplify_eq. done. }
    destruct (Z.ltb_spec DUST_LIMIT (change_of utxos target fee_rate outs)).
    + sq_run. split; [done|].
      match goal with H : Some outs' = _ |- _ => symmetry in H; apply bind_Some in H as (vault & Hv & H);
        apply bind_Some in H as (a & Ha & [= <-]) end.
      eexists. split; [done|]. right. eauto 9.
    + sq_run. split; [done|]. exists []. rewrite app_nil_r. split; [done|by left].
  - sq_run. split; [done|]. exists []. rewrite app_nil_r. split; [done|by left].
Qed.

Lemma composite_done utxos requests target fee_rate strategy w psbt w' :
  composite_psbt utxos requests target fee_rate strategy w = (Done (Some psbt), w') ->
  exists l change, merged requests l /\ payments l <> []
    /\ unsigned_inputs psbt = fmap (M:=list) composed_input utxos
    /\ unsigned_outputs psbt = payments l ++ change
    /\ is_change w utxos target fee_rate strategy (payments l) change.
Proof.
  unfold composite_psbt. intros Hs. apply bind_done in Hs as (l & w1 & Hm & Hs).
  apply merge_outputs_done in Hm as [-> Hm]. fold (payments l) in Hs.
  case_bool_decide as Hl; [by sq_run|]. apply bind_done in Hs as (o & w1 & Ho & Hs).
  destruct o as [outs|]; [|by sq_run].
  assert (w1 = w /\ exists change, outs = payments l ++ change
            /\ is_change w utxos target fee_rate strategy (payments l) change) as (-> & change & -> & Hc).
  { case_bool_decide as Hk; [subst strategy; by apply with_change_done|].
    sq_run. split; [done|]. exists []. rewrite app_nil_r. split; [done|by left]. }
  destruct (from_unsigned_tx _ _) as [p|] eqn:Ef; [|by sq_run]. sq_run.
  exists l, change. split_and!; [done|by intros E; rewrite E in Hl| | |done].
  - rewrite with_inputs_inputs. by eapply built_inputs.
  - rewrite with_inputs_outputs. by eapply built_outputs.
Qed.

Lemma elem_of_payments requests l o :
  merged requests l ->
  o ∈ payments l <->
    txo_script_pubkey o ∈ requests.*2 /\ txo_value o = amount_to (txo_script_pubkey o) requests
    /\ DUST_LIMIT < txo_value o.
Proof.
  intros [_ Hm]. unfold payments. rewrite list_elem_of_fmap. split.
  - intros ([s n] & -> & [Hd Hin]%list_elem_of_filter). apply Hm in Hin as [? ->]. done.
  - intros (Hs & Hv & Hd). exists (txo_script_pubkey o, txo_value o). split; [by destruct o|].
    apply list_elem_of_filter. split; [done|]. by apply Hm.
Qed.
Lemma payments_scripts requests l : merged requests l -> NoDup (txo_script_pubkey <$> payments l).
Proof.
  intros [Hnd _]. unfold payments. rewrite <- list_fmap_compose. eapply sublist_NoDup; [exact Hnd|].
  change (sublist (fst <$> filter (fun e : ScriptBuf * Z => DUST_LIMIT < e.2) l) (fst <$> l)).
  apply fmap_sublist, sublist_filter.
Qed.

(** C9: The transaction of a block pays the outbound pool. When the start of a
    block records a transaction, it is recorded to pay the messages of the pool
    whose users have a refund address, and these leave the pool. Its outputs
    are the payments and possibly one change to the vault of the round. The
    payments are the scripts of the refund addresses, each one once, with the
    sum of the amounts of its messages, for the sums above the dust limit; what
    is not above it is not paid, although the messages count as paid. *)
Theorem block_pays_outbound_pool `{!PoolLaws P, !BlazeLaws B} n w u w' :
  sq_on_initialize n w = (Done u, w') ->
  (lives (sw_queue w') = lives (sw_queue w) /\ get_outbound_pool (sw_blaze w') = get_outbound_pool (sw_blaze w))
  \/ exists psbt paid change,
    let pool := process_set_refunds (sw_pool w) in
    let msgs := filter (fun x => is_Some (outbound_request pool x)) (get_outbound_pool (sw_blaze w)) in
    let requests := omap (outbound_request pool) (get_outbound_pool (sw_blaze w)) in
    PendingRequests (sw_queue w') !! convert_txid (compute_txid psbt)
      = Some (new_psbt_request (psbt_serialize psbt) msgs NormalRequest)
    /\ get_outbound_pool (sw_blaze w') = filter (fun x => x ∉ msgs) (get_outbound_pool (sw_blaze w))
    /\ unsigned_outputs psbt = paid ++ change /\ paid <> [] /\ NoDup (txo_script_pubkey <$> paid)
    /\ (forall o, o ∈ paid <-> txo_script_pubkey o ∈ requests.*2
          /\ txo_value o = amount_to (txo_script_pubkey o) requests /\ DUST_LIMIT < txo_value o)
    /\ (change = [] \/ exists c vault a, DUST_LIMIT < c /\ change = [mkTxOut c (script_pubkey a)]
          /\ get_system_vault pool (get_current_round pool) = Some vault /\ address_from_vec vault = Some a).
Proof.
  intros [(El & _ & Eo)|(w1 & lt & fr & sum & sel & st & psbt & msgs & _ & Eq & Eo & Ep & Hc)]%on_initialize_done.
  - by left.
  - right. destruct Hc as [_ _ _ Hcp _ El _ Eout]. rewrite Eo, Ep in *.
    apply composite_done in Hcp as (l & change & Hm & Hne & _ & Hout & Hch). unfold is_change in Hch. rewrite Ep in Hch.
    exists psbt, (payments l), change. cbv zeta. split_and!; [|done|done|done| |intros o|].
    + change (PendingRequests (sw_queue w')) with (lv_pending (lives (sw_queue w'))). rewrite El. apply lookup_insert_eq.
    + by eapply payments_scripts.
    + by apply elem_of_payments.
    + destruct Hch as [->|(vault & a & _ & Hd & Hv & Ha & ->)]; [by left|right]. eauto 9.
Qed.

(** ** Replacements *)

Lemma outputs_map_loop (outs : list TxOut) (m m' : gmap (list byte) Z) w w' to x :
  fold_each outs m (fun (m : gmap (list byte) Z) output => let* to := output_address output in ret (<[to := txo_value output]> m)) w
    = (Done m', w') ->
  m' !! to = Some x -> m !! to = Some x \/ exists o, o ∈ outs /\ address_of w o = Some to /\ txo_value o = x.
Proof.
  revert m. induction outs as [|o outs IH]; intros m Hf Hx; cbn [fold_each] in Hf; [sq_run; by left|].
  apply bind_done in Hf as (m1 & w1 & H1 & Hf). apply bind_done in H1 as (to' & w2 & Ho & H1).
  apply output_address_done in Ho as [-> Ho]. sq_run. destruct (IH _ Hf Hx) as [Hm|(o' & Hin & ? & ?)].
  - apply lookup_insert_Some in Hm as [[<- <-]|[_ Hm]]; [|by left]. right. exists o. split_and!; [by left|done|done].
  - right. exists o'. split_and!; [by right|done|done].
Qed.

Lemma outputs_map_done (outs : list TxOut) w m w' :
  outputs_map outs w = (Done m, w') ->
  w' = w /\ forall to x, m !! to = Some x -> exists o, o ∈ outs /\ address_of w o = Some to /\ txo_value o = x.
Proof.
  unfold outputs_map. intros Hf. split.
  - eapply reads_done; [|exact Hf]. frame.
  - intros to x Hx. eapply outputs_map_loop in Hf as [Hn|?]; [|done|exact Hx]. by rewrite lookup_empty in Hn.
Qed.
Lemma outputs_checked (outs : list TxOut) (ok : BoundedBitcoinAddress -> TxOut -> bool) e w u w' :
  for_each outs (fun o => let* to := output_address o in ensure (ok to o) e) w = (Done u, w') ->
  Forall (fun o => exists to, address_of w o = Some to /\ ok to o = true) outs.
Proof.
  revert w. induction outs as [|o outs IH]; intros w Hf; cbn [for_each] in Hf; [constructor|].
  apply bind_done in Hf as (x & w1 & H1 & Hf). apply bind_done in H1 as (to & w2 & Ho & H1).
  apply output_address_done in Ho as [-> Ho]. sq_run. constructor; [by exists to|]. by apply IH.
Qed.

(** An output of a replacement, against the outputs [olds] it replaces, when
    the fee grows by [fee_diff] *)
Definition replaces (ty : RequestType) w (vault : BoundedBitcoinAddress) (olds : list TxOut) (fee_diff : Z)
    (o : TxOut) : Prop :=
  exists to, address_of w o = Some to /\
  let old := fun o' => o' ∈ olds /\ address_of w o' = Some to in
  match ty with
  | NormalRequest => to <> vault -> exists o', old o' /\ txo_value o = txo_value o'
  | RollbackOf => to <> vault -> exists o', old o' /\ txo_value o = txo_value o' - fee_diff
  | Migration => exists o', old o' /\ txo_value o <= txo_value o' /\ (to = vault -> txo_value o = txo_value o' - fee_diff)
  end.

Lemma bump_output_replaces (ty : RequestType) w (vault to : BoundedBitcoinAddress) (olds : list TxOut) (m : gmap (list byte) Z) (o : TxOut) (fee_diff : Z) :
  address_of w o = Some to ->
  (forall to x, m !! to = Some x -> exists o, o ∈ olds /\ address_of w o = Some to /\ txo_value o = x) ->
  bump_output_ok ty vault to (m !! to) (txo_value o) fee_diff = true ->
  replaces ty w vault olds fee_diff o.
Proof.
  intros Ho Hm Hok. exists to. split; [done|]. unfold bump_output_ok in Hok.
  destruct (m !! to) as [x|] eqn:E.
  - destruct (Hm to x E) as (o' & Hin & Ha & <-). apply andb_true_iff in Hok as [Hle%Z.leb_le Hok].
    destruct ty; repeat case_bool_decide; destruct (Z.eqb_spec fee_diff (txo_value o' - txo_value o)),
      (Z.eqb_spec (txo_value o) (txo_value o')); cbn in Hok; try done; try intros ?; exists o'; split_and!; try done; lia.
  - apply andb_true_iff in Hok as [Ht%negb_true_iff%bool_decide_eq_false_1 Hv%bool_decide_eq_true_1]. by destruct ty.
Qed.

Lemma bump_verification_done old new ty w u w' :
  try_bump_fee_psbt_verification old new ty w = (Done u, w') ->
  exists vault old_fee new_fee,
    get_system_vault (sw_pool w) (get_current_round (sw_pool w)) = Some vault
    /\ psbt_fee old = Some old_fee /\ psbt_fee new = Some new_fee /\ old_fee < new_fee
    /\ (forall i, i ∈ unsigned_inputs old -> i ∈ unsigned_inputs new)
    /\ Forall (replaces ty w vault (unsigned_outputs old) (new_fee - old_fee)) (unsigned_outputs new).
Proof.
  unfold try_bump_fee_psbt_verification, current_system_vault. intros Hs. sq_run.
  match goal with H : for_each (unsigned_inputs old) _ _ = _ |- _ => apply for_each_ensure_done in H as [Hin ->] end.
  match goal with H : outputs_map _ _ = _ |- _ => apply outputs_map_done in H as [-> Hmap] end.
  match goal with H : for_each (unsigned_outputs new) _ _ = _ |- _ => apply outputs_checked in H as Hout end.
  match goal with H : (_ <? _) = true |- _ => apply Z.ltb_lt in H end.
  eexists _, _, _. split_and!; [eassumption|eassumption|eassumption|done| |].
  - intros i Hi. apply (proj1 (Forall_forall _ _) Hin) in Hi. by apply bool_decide_eq_true_1 in Hi.
  - eapply Forall_impl; [exact Hout|]. intros o (to & Ho & Hok). eapply bump_output_replaces; [exact Ho|exact Hmap|exact Hok].
Qed.

(** C24: A replacement spends what it replaces, for a higher fee. When an
    executed request is replaced, the new transaction spends every input of the
    old one, and its fee is higher. In a payment, each output of it that does
    not go to the vault has the amount of an output of the old one to the same
    address; in a rollback, that amount less the difference of the fees; in a
    migration, every output goes where one of the old one goes. The new
    transaction is to be signed, for the same messages, in place of the old
    one. *)
Theorem replacement_of_executed o old_txid unsigned w u w' :
  submit_bump_fee_request o old_txid unsigned w = (Done u, w') ->
  exists r old new vault old_fee new_fee,
    ExecutedRequests (sw_queue w) !! old_txid = Some r
    /\ psbt_deserialize (pr_unsigned_psbt r) = Some old /\ psbt_deserialize unsigned = Some new
    /\ get_system_vault (sw_pool w) (get_current_round (sw_pool w)) = Some vault
    /\ psbt_fee old = Some old_fee /\ psbt_fee new = Some new_fee /\ old_fee < new_fee
    /\ (forall i, i ∈ unsigned_inputs old -> i ∈ unsigned_inputs new)
    /\ Forall (replaces (pr_request_type r) w vault (unsigned_outputs old) (new_fee - old_fee)) (unsigned_outputs new)
    /\ let t := convert_txid (compute_txid new) in
    t <> old_txid /\ no_request (lives (sw_queue w)) t
    /\ ExecutedRequests (sw_queue w') = delete old_txid (ExecutedRequests (sw_queue w))
    /\ PendingRequests (sw_queue w') =
         <[t := new_psbt_request unsigned (pr_socket_messages r) (pr_request_type r)]> (PendingRequests (sw_queue w)).
Proof.
  unfold submit_bump_fee_request. intros Hs. sq_run.
  match goal with H : try_bump_fee_psbt_verification _ _ _ _ = _ |- _ =>
    pose proof (bump_verification_done _ _ _ _ _ _ H) as (vault & old_fee & new_fee & Hv) end.
  checks.
  match goal with H : rebond_request _ _ _ ?r _ = _ |- _ => apply rebond_done in H as (q & Hb & Hq & Hr); rename r into req end.
  assert (PendingRequests q = PendingRequests (sw_queue w) /\ ExecutedRequests q = ExecutedRequests (sw_queue w)) as [Ep Ee].
  { destruct (pr_request_type req).
    - destruct Hr as (_ & msgs & _ & E). by injection E.
    - destruct Hr as (_ & rr & rr' & _ & _ & E). by injection E.
    - destruct Hr as (_ & E). by injection E. }
  match goal with H : (if is_activated _ then _ else _) _ = (Done _, ?w2) |- _ =>
    assert (exists b p, w2 = mkSqWorld _ _ (q <| ExecutedRequests ::= delete old_txid |>) p b) as (b & p & ->) end.
  { rewrite <- Hq. destruct (is_activated (sw_blaze w)); [unfold lock_inputs in *|]; checks; by eexists _, _. }
  match goal with H : negb (N.eqb _ _) = true |- _ => apply negb_true_iff, N.eqb_neq in H end.
  destruct_and?. eexists _, _, _, vault, old_fee, new_fee. cbv zeta. cbn [sw_queue].
  split_and!; try eassumption; fields; [by rewrite Ee|by rewrite Ep].
Qed.
End Blocks.
