(* ===== verification/Bridge.v ===== *)
(** * The bridge: the socket queue, the registration pool and Blaze together

    The three pallets of the Bitcoin bridge over one state, with the steps of
    each: what the queue assumes of the other two holds of them, so that every
    world the bridge reaches is one of [SocketQueueSteps]. *)

From S2P Require Import Prelude Logic Errors Primitives Cccp BtcRelay RegistrationPool RegistrationPoolInv CoinSelection CoinSelectionTheorems Blaze BlazeInv BlazeTheorems RegistrationPoolTheorems SocketQueue SocketQueueInv SocketQueueOps SocketQueueSteps SocketQueueTheorems SocketQueueBlocks.
Local Open Scope Z_scope.
Local Open Scope frame_scope.

(** The configuration of the three pallets: the libraries are the same. *)
Class BridgeConfig := {
  #[global] bg_queue :: SqConfig;
  bg_encode_utxo : H256 * Z * Z * BoundedBitcoinAddress -> UnboundedBytes;
  bg_fee_rate_expiration : Z;
  bg_tolerance_threshold : Z;
  bg_percent_mul_ceil : Z -> Z -> Z;
  bg_multi_sig_ratio : Z;
  bg_network : Network;
  bg_bitcoin_chain_id : Z
}.
#[export] Instance bridge_bz `{!BridgeConfig} : BzConfig := {
  bz_lib := sq_lib; bz_psbt := sq_psbt; bz_crypto := sq_crypto; bz_abi := sq_abi;
  encode_utxo := bg_encode_utxo; FeeRateExpiration := bg_fee_rate_expiration;
  ToleranceThreshold := bg_tolerance_threshold
}.
#[export] Instance bridge_rp `{!BridgeConfig} : RpConfig := {
  rp_lib := sq_lib; rp_crypto := sq_crypto; percent_mul_ceil := bg_percent_mul_ceil;
  default_multi_sig_ratio := bg_multi_sig_ratio; bitcoin_network := bg_network;
  bitcoin_chain_id := bg_bitcoin_chain_id
}.
#[export] Instance bridge_pool `{!BridgeConfig} : @PoolManager sq_lib RpStorage :=
  @RegistrationPool_manager bridge_rp.
#[export] Instance bridge_blaze_pool `{!BridgeConfig} : @PoolManager (@bz_lib bridge_bz) RpStorage | 10 := bridge_pool.
#[export] Instance bridge_blaze `{!BridgeConfig} {R : Type} `{!Authorities R} :
  @BlazeManager sq_lib sq_psbt (R * BzStorage) := @Blaze_manager bridge_bz R _.

(** ** The two pallets keep the laws of their interfaces *)

Section Laws.
Context `{!BridgeConfig} {R : Type} `{!Authorities R}.

Lemma process_set_refunds_state : preserves ServiceState rp_process_set_refunds.
Proof. frame. Qed.
#[export] Instance pool_laws : PoolLaws RpStorage.
Proof. split; intros; try done. apply process_set_refunds_state. Qed.

Abbreviation outbound := (fun b : R * BzStorage => OutboundPool b.2).
Lemma with_relayers_outbound {A} (m : Blz A) : preserves OutboundPool m -> preserves outbound (with_relayers m).
Proof. intros Hm b. specialize (Hm b.2). unfold with_relayers, lift. by destruct (m b.2). Qed.
Lemma blaze_laws_hold : BlazeLaws (R * BzStorage).
Proof.
  split.
  - apply with_relayers_outbound. frame.
  - intros. apply with_relayers_outbound. frame.
  - intros. apply with_relayers_outbound. frame.
  - intros. apply with_relayers_outbound. frame.
  - intros n b. apply with_relayers_outbound. frame.
  - apply with_relayers_outbound. frame.
  - intros. apply with_relayers_outbound. frame.
  - intros. apply with_relayers_outbound. frame.
  - intros targets [r b] u b' Hs. unfold bl_clear_outbound_pool, bridge_blaze, Blaze_manager, with_relayers in Hs.
    unfold clear_outbound_pool, bmutate in Hs. by injection Hs as _ <-.
Qed.
#[export] Instance blaze_laws : BlazeLaws (R * BzStorage) := blaze_laws_hold.

(** ** The steps of the bridge *)

Abbreviation World := (SqWorld RpStorage (R * BzStorage)).
Implicit Types (w : World) (v : SqView R).

(** The view of the pool and of Blaze: the queue is the one of the world. *)
Definition pool_view v w (executives : list AccountId) (now : BlockNumber) : RpView (SqView R * World) :=
  mkRpView _ executives (v, w) now.
Definition blaze_view v w (now : BlockNumber) : BzView R RpStorage (SqView R * World) :=
  mkBzView _ _ _ (sw_blaze w).1 (sw_pool w) (v, w) now.

(** The calls of the pool that are not unsigned *)
Inductive pool_call (pv : RpView (SqView R * World)) : RPool unit -> Prop :=
| pool_request_set_refund o b : pool_call pv (request_set_refund o b)
| pool_request_vault o b : pool_call pv (request_vault pv o b)
| pool_request_system_vault o b : pool_call pv (request_system_vault pv o b)
| pool_clear_vault o b : pool_call pv (clear_vault o b)
| pool_migration_control o : pool_call pv (migration_control pv o)
| pool_drop_previous_round o r : pool_call pv (drop_previous_round o r)
| pool_set_max_presubmission o m : pool_call pv (set_max_presubmission o m)
| pool_set_multi_sig_ratio o m : pool_call pv (set_multi_sig_ratio o m)
| pool_replace old new : pool_call pv (rp_replace_authority old new).
(** Those of Blaze *)
Inductive blaze_call (bv : BzView R RpStorage (SqView R * World)) : Blz unit -> Prop :=
| blaze_set_activation o b : blaze_call bv (set_activation o b)
| blaze_force_push o utxos : blaze_call bv (force_push_utxos bv o utxos)
| blaze_replace old new : blaze_call bv (bz_replace_authority old new).

Definition set_pool w (p : RpStorage) : World := mkSqWorld _ _ (sw_queue w) p (sw_blaze w).
Definition set_blaze w (b : BzStorage) : World := mkSqWorld _ _ (sw_queue w) (sw_pool w) ((sw_blaze w).1, b).
Definition set_relayers w (r : R) : World := mkSqWorld _ _ (sw_queue w) (sw_pool w) (r, (sw_blaze w).2).

Inductive bridge_step w : World -> Prop :=
| bridge_queue_unsigned v call r w' :
    sq_apply_unsigned v call w = Some (r, w') ->
    (forall msg sig, call = CallSubmitUnsignedPsbt msg sig -> spares_outbound w msg) -> bridge_step w w'
| bridge_queue_call m : sq_call m -> bridge_step w (dispatch m w).2
| bridge_initialize n u w' : sq_on_initialize n w = (Done u, w') -> new_txid w w' -> bridge_step w w'
| bridge_queue_replace old new u w' : sq_replace_authority old new w = (Done u, w') -> bridge_step w w'
| bridge_pool_unsigned v executives now call r p :
    rp_apply_unsigned (pool_view v w executives now) call (sw_pool w) = Some (r, p) -> bridge_step w (set_pool w p)
| bridge_pool_call v executives now m :
    pool_call (pool_view v w executives now) m -> bridge_step w (set_pool w (dispatch m (sw_pool w)).2)
| bridge_change_members l : bridge_step w (set_pool w (rp_change_members_sorted l (sw_pool w)))
| bridge_blaze_unsigned v now call r b :
    bz_apply_unsigned (blaze_view v w now) call (sw_blaze w).2 = Some (r, b) -> bridge_step w (set_blaze w b)
| bridge_blaze_call v now m :
    blaze_call (blaze_view v w now) m -> bridge_step w (set_blaze w (dispatch m (sw_blaze w).2).2)
| bridge_relayers r : bridge_step w (set_relayers w r).

(** ** The pool leaves its normal state when the queue is ready *)

Lemma normal_kept {A} (m : RPool A) p u p' :
  preserves ServiceState m -> m p = (Done u, p') -> ServiceState p = Normal -> ServiceState p' = Normal.
Proof. intros Hm Hs Hp. rewrite <- Hp. by apply (preserves_done _ _ _ _ _ Hm Hs). Qed.
Lemma submit_vault_key_state pv o sub : preserves ServiceState (submit_vault_key (Q := SqView R * World) pv o sub).
Proof. frame. Qed.
Lemma pool_unsigned_state pv call p u p' :
  unsigned_call (Q := SqView R * World) pv call p = (Done u, p') -> ServiceState p = Normal -> ServiceState p' = Normal.
Proof.
  destruct call as [sub sig|sub sig|sub sig|app sig|]; cbn [unsigned_call].
  - apply normal_kept, submit_vault_key_state.
  - intros (r & vt & vt' & _ & _ & _ & _ & _ & _ & ->)%submit_system_done ->. by rewrite decide_False by naive_solver.
  - apply normal_kept. frame.
  - apply normal_kept. frame.
  - done.
Qed.
Lemma pool_call_state pv m p u p' :
  pool_call pv m -> m p = (Done u, p') -> ServiceState p = Normal -> ServiceState p' <> Normal ->
  is_ready_for_migrate (pv_socket_queue pv) = true.
Proof.
  intros Hm Hs Hp Hn. destruct Hm;
    try (exfalso; apply Hn; revert Hs Hp; apply normal_kept; frame; fail).
  unfold migration_control, bind in Hs. destruct o; [|done..]. cbn [ensure_root ret gets id] in Hs.
  unfold id in Hs. rewrite Hp in Hs. by destruct (is_ready_for_migrate _).
Qed.

(** ** Blaze takes distinct messages that the queue accepts *)

Lemma pool_is_distinct (pool : list UnboundedBytes) :
  (exists msgs, Forall2 parses pool msgs /\ NoDup (sm_sequence <$> msgs)) ->
  distinct pool /\ forall b, b ∈ pool -> exists m, parses b m.
Proof.
  intros (msgs & Hp & Hnd). split; [split|].
  - clear -Hp Hnd. induction Hp as [|b m pool msgs Hb Hp IH]; [constructor|].
    rewrite fmap_cons in Hnd. apply NoDup_cons in Hnd as [Hn Hnd]. apply NoDup_cons. split; [|by apply IH].
    intros Hin. destruct (parses_in _ _ _ Hp Hin) as (m' & Hm' & Hb'). apply Hn.
    rewrite (parses_fun _ _ _ Hb Hb'). by apply list_elem_of_fmap_2.
  - intros b b' m m' Hb Hb' Hm Hm' E. apply (once_eq (mkPsbtRequest [] [] [] ∅ pool NormalRequest) b b' m m'); try done.
    by exists msgs.
  - intros b Hb. destruct (parses_in _ _ _ Hp Hb) as (m & _ & Hm). eauto.
Qed.
Lemma distinct_pool_is (pool : list UnboundedBytes) :
  distinct pool -> (forall b, b ∈ pool -> exists m, parses b m) ->
  exists msgs, Forall2 parses pool msgs /\ NoDup (sm_sequence <$> msgs).
Proof.
  intros Hd Hp. assert (exists msgs, Forall2 parses pool msgs) as [msgs Hm].
  { clear Hd. induction pool as [|b pool IH]; [by exists []|].
    destruct (Hp b ltac:(left)) as [m Hm]. destruct IH as [msgs Hms]; [intros b' Hb'; apply Hp; by right|].
    exists (m :: msgs). by constructor. }
  exists msgs. split; [done|]. by eapply distinct_sequences.
Qed.

Lemma blaze_outbound_done v w now sub b' :
  world_ok w -> submit_outbound_requests (blaze_view v w now) NoneOrigin sub (sw_blaze w).2 = (Done tt, b') ->
  distinct (OutboundPool b') /\ forall x, x ∈ OutboundPool b' ->
    x ∈ OutboundPool (sw_blaze w).2 \/ exists v u w', sq_verify_socket_message v x w = (Done u, w').
Proof.
  intros [_ [Hd Hu]] Hs.
  assert (pool_ok (sw_blaze w).2) as Hok.
  { apply distinct_pool_is; [exact Hd|]. intros b Hb. destruct (Hu b Hb) as (m & Hm & _). eauto. }
  destruct (submit_outbound_adds _ _ _ _ Hok Hs)
    as (added & msgs & Eo & _ & Hv & Hp & Hnd & _).
  split; [by apply pool_is_distinct; eauto|]. intros x. rewrite Eo. intros [Hx|Hx]%elem_of_app; [by left|right].
  apply (proj1 (Forall_forall _ _) Hv) in Hx. cbn in Hx. exists v.
  destruct (sq_verify_socket_message v x w) as [[u|e|] w'] eqn:E; [by exists u, w'|done..].
Qed.

(** ** The bridge refines the queue against its interfaces *)

Lemma others_pool w p : world_ok w ->
  (ServiceState (sw_pool w) = Normal -> ServiceState p <> Normal -> sq_is_ready_for_migrate (sw_queue w) = true) ->
  sq_step (R := R) w (set_pool w p).
Proof. intros [_ [Hd Hu]] Hs. apply step_others. split; [exact Hs|by left|exact Hd]. Qed.
Lemma others_same_outbound w b : world_ok w ->
  (forall x, x ∈ OutboundPool b.2 -> x ∈ OutboundPool (sw_blaze w).2) -> NoDup (OutboundPool b.2) ->
  sq_step (R := R) w (mkSqWorld _ _ (sw_queue w) (sw_pool w) b).
Proof.
  intros [_ [Hd Hu]] Hs Hnd. apply step_others. split; [done|by left; apply Hs|]. by eapply distinct_sub.
Qed.

Lemma blaze_unsigned_step v w now call u b :
  world_ok w -> bz_unsigned_call (blaze_view v w now) call (sw_blaze w).2 = (Done u, b) ->
  sq_step (R := R) w (set_blaze w b).
Proof.
  intros Hw Hs. assert (forall m : Blz unit, preserves OutboundPool m -> m (sw_blaze w).2 = (Done u, b) ->
    sq_step (R := R) w (set_blaze w b)) as Hsame.
  { intros m Hm Hm'. pose proof (preserves_done _ _ _ _ _ Hm Hm') as E.
    apply others_same_outbound; cbn; rewrite ?E; [done|done|apply Hw]. }
  destruct call as [sub sig|sub sig|sub sig|sub sig|sub sig|]; cbn [bz_unsigned_call] in Hs.
  - eapply Hsame; [|exact Hs]. frame.
  - eapply Hsame; [|exact Hs]. frame.
  - eapply Hsame; [|exact Hs]. frame.
  - destruct u. destruct (blaze_outbound_done _ _ _ _ _ Hw Hs) as [Hd Hv]. apply step_others. split; [done|exact Hv|exact Hd].
  - assert (OutboundPool b = filter (fun x => x ∉ ss_messages sub) (OutboundPool (sw_blaze w).2)) as E.
    { unfold remove_outbound_messages, clear_outbound_pool, ensure_activation, bmutate in Hs.
      cbn [ensure_none] in Hs. mrun. done. }
    apply others_same_outbound; cbn; rewrite ?E; [done| |apply NoDup_filter, Hw].
    intros x Hx. by apply list_elem_of_filter in Hx as [_ Hx].
  - eapply Hsame; [|exact Hs]. frame.
Qed.
Lemma blaze_call_outbound bv m : blaze_call bv m -> preserves OutboundPool m.
Proof. destruct 1; frame. Qed.

Lemma bridge_step_refines w w' : world_ok w -> bridge_step w w' -> rtc (sq_step (R := R)) w w'.
Proof.
  intros Hw Hs. destruct Hs as [v call r w' Hs Hsp|m Hm|n u w' Hs Ht|old new u w' Hs|v ex now call r p Hs
    |v ex now m Hm|l|v now call r b Hs|v now m Hm|r].
  - unfold sq_apply_unsigned in Hs. destruct (sq_validate_unsigned v w call); [done|]. injection Hs as Hs.
    assert (w' = (dispatch (sq_unsigned_call v call) w).2) as -> by by rewrite Hs.
    destruct call as [msg sig|msg sig|msg sig|msg sig|]; cbn [sq_unsigned_call]; [apply rtc_once..|done].
    + apply step_unsigned_psbt. by eapply Hsp.
    + apply step_call, call_signed_psbt.
    + apply step_call, call_executed_request.
    + apply step_call, call_rollback_poll.
  - by apply rtc_once, step_call.
  - apply rtc_once. by eapply step_initialize.
  - apply rtc_once. by eapply step_replace.
  - apply rp_apply_dispatch in Hs as ->. apply rtc_once, others_pool; [done|]. intros Hp Hn. exfalso. apply Hn.
    apply (dispatch_inv (fun p => ServiceState p = Normal)); [done|]. intros u p' Hs. by eapply pool_unsigned_state.
  - apply rtc_once, others_pool; [done|]. intros Hp Hn.
    destruct (dispatch m (sw_pool w)) as [r p'] eqn:Ed. cbn in Hn.
    apply dispatch_cases in Ed as [[u Hs]| ->]; [|done]. by eapply (pool_call_state _ _ _ _ _ Hm Hs).
  - by apply rtc_once, others_pool.
  - apply bz_apply_dispatch in Hs as [_ ->].
    destruct (dispatch _ (sw_blaze w).2) as [r' b'] eqn:Ed. cbn.
    apply dispatch_cases in Ed as [[u Hs]| ->]; apply rtc_once; [by eapply blaze_unsigned_step|].
    apply others_same_outbound; [done|done|apply Hw].
  - apply rtc_once. assert (OutboundPool (dispatch m (sw_blaze w).2).2 = OutboundPool (sw_blaze w).2) as E.
    { apply (dispatch_inv (fun b => OutboundPool b = OutboundPool (sw_blaze w).2)); [done|]. intros u b Hs.
      by apply (preserves_done _ _ _ _ _ (blaze_call_outbound _ _ Hm) Hs). }
    apply others_same_outbound; cbn; rewrite ?E; [done|done|apply Hw].
  - apply rtc_once, others_same_outbound; [done|done|apply Hw].
Qed.

(** The bridge starts with nothing requested; any pool and relayers. *)
Definition bridge_start w : Prop :=
  lives (sw_queue w) = mkLives ∅ ∅ ∅ ∅ ∅ /\ OutboundPool (sw_blaze w).2 = [].
Definition bridge_reachable w : Prop := exists w0, bridge_start w0 /\ rtc bridge_step w0 w.

End Laws.
