(* ===== verification/SocketQueueRuns.v ===== *)
(** * The socket queue on concrete inputs

    A bridge with three relayers and two users, the witnesses of the theorems
    on the queue, and the runs that show what its calls let through. *)

From S2P Require Import Prelude Logic Errors Primitives Cccp BtcRelay RegistrationPool CoinSelection CoinSelectionTheorems Blaze BlazeTheorems BridgeInstances RegistrationPoolTheorems SocketQueue SocketQueueInv SocketQueueOps SocketQueueSteps SocketQueueTheorems SocketQueueBlocks Bridge.
Local Open Scope Z_scope.
Local Open Scope frame_scope.

(** ** The configuration *)

Definition runs_queue : SqConfig := {|
  sq_lib := simple_btc;
  sq_psbt := simple_psbt;
  sq_crypto := simple_crypto (fun b => Z.to_N (checksum b));
  sq_abi := packed_abi;
  from_sat_per_vb rate := rate <=? 10000;
  DefaultMaxFeeRate := 1000;
  DefaultMaxSocketMessageBytes := 8192;
  ChainId := 49088
|}.
#[export] Instance runs_bridge : BridgeConfig := {
  bg_queue := runs_queue;
  bg_encode_utxo '(txid, vout, amount, address) :=
    to_be_bytes 2 (Z.of_N txid) ++ to_be_bytes 1 vout ++ to_be_bytes 8 amount ++ take 2 address;
  bg_fee_rate_expiration := 10;
  bg_tolerance_threshold := 3;
  bg_percent_mul_ceil p n := (p * n + 99) / 100;
  bg_multi_sig_ratio := 60;
  bg_network := tt;
  bg_bitcoin_chain_id := 1
}.
(** A list of relayers, with the majority of the relay manager. *)
#[export] Instance runs_relayers : Authorities (list N) := {
  au_is_authority l a := bool_decide (a ∈ l);
  au_count l := Z.of_nat (length l);
  au_majority l := Z.of_nat (length l) / 2 + 1
}.

(** ** The start *)

Definition text (s : string) : list byte := as_bytes s.
Definition system_vault : list byte := descriptor_bytes (2, [21%N; 22%N]).
Definition next_vault : list byte := descriptor_bytes (2, [31%N; 32%N]).
Definition user_vault : list byte := descriptor_bytes (2, [11%N; 12%N]).
Definition vault_at (a : list byte) : MultiSigAccount := mkMultiSigAccount (Generated a) [] ∅ 2 2.
Definition pool0 : RpStorage :=
  (rp_start <| SystemVault := {[1 := vault_at system_vault; 2 := vault_at next_vault]} |>
     <| RegistrationPool := {[(1, 100%N) := mkBitcoinRelayTarget (text "alice") (vault_at user_vault);
                              (1, 200%N) := mkBitcoinRelayTarget (text "bob") (new_multi_sig 2 2)]} |>
     <| BondedDescriptor := {[(1, system_vault) := descriptor_bytes (2, [21%N; 22%N])]} |>).
Definition queue0 : SqStorage :=
  mkSqStorage (Some 70%N) (Some 71%N) (Some 50%N) ∅ ∅ ∅ ∅ ∅ ∅ ∅ 1000 8192 ∅ [].
Abbreviation RunWorld := (SqWorld RpStorage (list N * BzStorage)).
Definition w0 : RunWorld := mkSqWorld _ _ queue0 pool0 ([1%N; 2%N; 3%N], bz_empty).

(** A message of [amount] to the user [to], and what the contract of the socket
    answers about the messages it knows *)
Definition outbound_message (sequence : Z) (to : N) (amount : Z) : SocketMessage :=
  mkSocketMessage (mkRequestID (to_be_bytes 4 49088) 1 sequence) 5
    (mkInstruction (to_be_bytes 4 1) (to_be_bytes 16 0))
    (mkTaskParams (default [] (expected_token_idx0 49088)) (to_be_bytes 32 0) 0 to amount []).
Definition accepted_info (m : SocketMessage) : list byte :=
  abi_encode [TFixedArray (TUint 5 :: replicate 31 (TUint 0));
              TFixedBytes (to_be_bytes 32 (Z.of_N (sq_hash_bytes
                (UserRequest_encode (mkUserRequest (sm_ins_code m) (sm_params m))))));
              TUint 0].
Definition known : list SocketMessage :=
  [outbound_message 1 100 60000; outbound_message 2 200 20000; outbound_message 3 100 500].
Definition get_request_data (m : SocketMessage) : list byte :=
  text "8dac2204" ++ encode_req_id m.
Definition evm (source target : AccountId) (data : list byte) : option (list byte) :=
  if N.eqb target 70 then
    accepted_info <$> List.find (fun m => bool_decide (data = get_request_data m)) known
  else Some (abi_encode [TAddress 0; TUint 0; TUint 0; TTuple [TFixedBytes (to_be_bytes 4 1); TUint 0; TUint 0]]).
Definition view : SqView (list N) := mkSqView _ [1%N; 2%N; 3%N] [1%N; 2%N] evm.

Definition bytes_of (sequence : Z) (to : N) (amount : Z) : list byte :=
  SocketMessage_encode (outbound_message sequence to amount).
Definition pay1 : list byte := bytes_of 1 100 60000.
Definition pay2 : list byte := bytes_of 2 200 20000.

(** ** A payment, from its submission to its replacement *)

(** A transaction that spends [amount] sent to the vault at the output [n] of a
    transaction, with the signatures [signers] *)
Definition tx_of (n : Z) (amount : Z) (outs : list (Z * list byte)) (signers : list byte) : SimplePsbt :=
  mkSimplePsbt [(to_be_bytes 32 9, n)] [(amount, (2, [21%N; 22%N]))] outs signers false.
Definition sign_as (who : N) : @Signature (@sq_crypto (@bg_queue runs_bridge)) := who.
Definition txid_of (p : SimplePsbt) : H256 := convert_txid (compute_txid (p : @Psbt simple_btc simple_psbt)).
Definition run (m : M RunWorld DispatchError unit) (w : RunWorld) : RunWorld := (dispatch m w).2.
Definition payment (signers : list byte) : SimplePsbt :=
  tx_of 0 100000 [(60000, text "alice"); (39000, system_vault)] signers.
Definition t1 : H256 := txid_of (payment []).
Definition payment_message : UnsignedPsbtMessage :=
  mkUnsignedPsbtMessage 50 [(text "alice", [pay1]); (system_vault, [])] (simple_serialize (payment [])).
Definition signed (who : AccountId) (signer : byte) : SignedPsbtMessage :=
  mkSignedPsbtMessage who (simple_serialize (payment [])) (simple_serialize (payment [signer])).
Definition w1 : RunWorld := run (submit_unsigned_psbt view NoneOrigin payment_message) w0.
Definition w2 : RunWorld := run (submit_signed_psbt NoneOrigin (signed 1 x01)) w1.
Definition w3 : RunWorld := run (submit_signed_psbt NoneOrigin (signed 2 x02)) w2.
Definition w4 : RunWorld := run (submit_executed_request view NoneOrigin (mkExecutedPsbtMessage 50 t1)) w3.
Definition cheaper : SimplePsbt := tx_of 0 100000 [(60000, text "alice"); (38000, system_vault)] [].
Definition w5 : RunWorld := run (submit_bump_fee_request RootOrigin t1 (simple_serialize cheaper)) w4.
Definition stage (w : RunWorld) : nat * nat * nat :=
  (size (PendingRequests (sw_queue w)), size (FinalizedRequests (sw_queue w)), size (ExecutedRequests (sw_queue w))).
Example life_of_a_payment :
  stage <$> [w0; w1; w2; w3; w4; w5]
  = [(0, 0, 0); (1, 0, 0); (1, 0, 0); (0, 1, 0); (0, 0, 1); (1, 0, 0)]%nat.
Proof. vm_compute. reflexivity. Qed.

Abbreviation run_reachable := (sq_reachable (R := list N) (P := RpStorage) (B := list N * BzStorage)).
Abbreviation run_step := (sq_step (R := list N) (P := RpStorage) (B := list N * BzStorage)).
Lemma w0_start : sq_start w0.
Proof. by split. Qed.
Lemma w1_steps : rtc run_step w0 w1.
Proof.
  apply rtc_once. unfold w1, run. apply step_unsigned_psbt.
  intros b b' m m' _ Hb'. exfalso. by apply elem_of_nil in Hb'.
Qed.
(** One more call *)
Lemma call_steps w m : rtc run_step w0 w -> sq_call (R := list N) m -> rtc run_step w0 (run m w).
Proof. intros Hw Hm. eapply rtc_r; [exact Hw|]. by apply step_call. Qed.
Lemma w2_steps : rtc run_step w0 w2.
Proof. apply call_steps; [exact w1_steps|apply call_signed_psbt]. Qed.
Lemma w3_steps : rtc run_step w0 w3.
Proof. apply call_steps; [exact w2_steps|apply call_signed_psbt]. Qed.
Lemma w4_steps : rtc run_step w0 w4.
Proof. apply call_steps; [exact w3_steps|apply call_executed_request]. Qed.
Lemma run_reaches w : rtc run_step w0 w -> run_reachable w.
Proof. intros Hw. exists w0. split; [exact w0_start|exact Hw]. Qed.

Definition request_of (p : SimplePsbt) (msgs : list (list byte)) : PsbtRequest :=
  new_psbt_request (simple_serialize p) msgs NormalRequest.
Lemma w1_pending : PendingRequests (sw_queue w1) !! t1 = Some (request_of (payment []) [pay1]).
Proof. vm_compute. reflexivity. Qed.



Lemma pays_witness :
  exists psbt bytes vault payments,
    psbt_deserialize (um_psbt payment_message) = Some psbt
    /\ Forall2 (pays w0 vault) (unsigned_outputs psbt) payments
    /\ Forall2 parses bytes (concat payments).
Proof.
  destruct (unsigned_psbt_pays_messages view NoneOrigin payment_message w0 tt w1)
    as (psbt & bytes & vault & payments & Hd & _ & Hpay & Hp & _).
  - vm_compute. reflexivity.
  - exists psbt, bytes, vault, payments. split; [exact Hd|]. split; [exact Hpay|exact Hp].
Defined.

(** The authority alone says that the transaction was broadcast. *)
Definition finalized1 : PsbtRequest :=
  Eval vm_compute in default (request_of (payment []) []) (FinalizedRequests (sw_queue w3) !! t1).
Lemma w3_finalized : FinalizedRequests (sw_queue w3) !! t1 = Some finalized1.
Proof. vm_compute. reflexivity. Qed.
Lemma executed_witness : ExecutedRequests (sw_queue w4) = {[t1 := finalized1]}.
Proof.
  pose proof (executed_by_majority view 50 t1 (sign_as 50) w3 (Done tt) w4 finalized1) as Hx.
  cbv zeta in Hx. lazymatch type of Hx with _ -> _ -> if ?c then _ else _ =>
    assert (c = false) as Ea by (vm_compute; reflexivity); rewrite Ea in Hx end.
  assert (executes t1 finalized1 w3 w4) as He.
  { refine (proj2 (proj2 (Hx _ w3_finalized))). vm_compute. reflexivity. }
  rewrite (ex_executed _ _ _ _ He). vm_compute. reflexivity.
Defined.

Lemma bump_witness :
  exists r old new vault old_fee new_fee, ExecutedRequests (sw_queue w4) !! t1 = Some r /\ old_fee < new_fee
    /\ Forall (replaces (pr_request_type r) w4 vault (unsigned_outputs old) (new_fee - old_fee)) (unsigned_outputs new).
Proof.
  destruct (replacement_of_executed RootOrigin t1 (simple_serialize cheaper) w4 tt w5)
    as (r & old & new & vault & old_fee & new_fee & Hr & _ & _ & _ & _ & _ & Hlt & _ & Hall & _).
  - vm_compute. reflexivity.
  - exists r, old, new, vault, old_fee, new_fee. split; [exact Hr|]. split; [exact Hlt|exact Hall].
Defined.

(** The outputs of users can be left out of a replacement: it passes the
    checks, and the request is still recorded to pay the message. *)
Definition unpaid : SimplePsbt := tx_of 0 100000 [(39000, system_vault)] [].
Definition w5' : RunWorld := run (submit_bump_fee_request RootOrigin t1 (simple_serialize unpaid)) w4.
Example replacement_drops_payment :
  PendingRequests (sw_queue w5') !! txid_of unpaid = Some (request_of unpaid [pay1])
  /\ sps_outputs unpaid = [(39000, system_vault)].
Proof. split; vm_compute; reflexivity. Qed.

(** ** A rollback *)

Definition rollback_tx : SimplePsbt := tx_of 1 5000 [(4000, text "alice")] [].
Definition t2 : H256 := txid_of rollback_tx.
Definition rollback_message (p : SimplePsbt) : RollbackPsbtMessage :=
  mkRollbackPsbtMessage 100 5 0 5000 (simple_serialize p).
Definition poll (who : AccountId) (yes : bool) : RollbackPollMessage := mkRollbackPollMessage who t2 yes.
Definition r1 : RunWorld := run (submit_rollback_request view RootOrigin (rollback_message rollback_tx)) w0.
Definition r2 : RunWorld := run (submit_rollback_poll view NoneOrigin (poll 1 true)) r1.
Definition r3 : RunWorld := run (submit_rollback_poll view NoneOrigin (poll 2 true)) r2.
Example life_of_a_rollback :
  (fun w : RunWorld => (rr_is_approved <$> RollbackRequests (sw_queue w) !! t2, size (PendingRequests (sw_queue w))))
    <$> [w0; r1; r2; r3] = [(None, 0); (Some false, 0); (Some false, 0); (Some true, 1)]%nat.
Proof. vm_compute. reflexivity. Qed.

Lemma r1_done : submit_rollback_request view RootOrigin (rollback_message rollback_tx) w0 = (Done tt, r1).
Proof. vm_compute. reflexivity. Qed.
Definition pending_rollback : RollbackRequest :=
  mkRollbackRequest (simple_serialize rollback_tx) 100 5 0 user_vault 5000 {[1%N := true]} false.
Lemma rollback_witness :
  PendingRequests (sw_queue r3) = {[t2 := new_psbt_request (simple_serialize rollback_tx) [] RollbackOf]}.
Proof.
  assert (RollbackRequests (sw_queue r2) !! t2 = Some pending_rollback) as Hr by (vm_compute; reflexivity).
  destruct (rollback_by_majority view 2 t2 true (sign_as 2) r2 (Done tt) r3 pending_rollback) as [_ Hp].
  - vm_compute. reflexivity.
  - exact Hr.
  - cbv zeta in Hp. assert (rr_is_approved pending_rollback = false) as Ea by reflexivity. rewrite Ea in Hp.
    rewrite bool_decide_eq_false_2 in Hp by (vm_compute; discriminate).
    assert (exists votes, try_insert_map MAX_AUTHORITIES 2 true (rr_votes pending_rollback) = Some votes) as [votes Ei]
      by (eexists; vm_compute; reflexivity).
    rewrite Ei in Hp. destruct Hp as (_ & _ & Hp). rewrite Hp. vm_compute. reflexivity.
Defined.

Definition rollback_tx2 : SimplePsbt := tx_of 2 5000 [(4500, text "alice")] [].
(** The first rollback is dropped. *)
Definition r1_dropped : RunWorld := run (drop_pending_rollback_request RootOrigin t2) r1.
Lemma rolled_back_once_witness :
  RollbackRequests (sw_queue r1_dropped) = ∅
  /\ (submit_rollback_request view RootOrigin (rollback_message rollback_tx2) r1_dropped).1 <> Done tt.
Proof.
  split; [vm_compute; reflexivity|]. intros E.
  destruct (submit_rollback_request view RootOrigin (rollback_message rollback_tx2) r1_dropped) as [res w'] eqn:Es.
  cbn [fst] in E. rewrite E in Es.
  refine (rolled_back_once view RootOrigin (rollback_message rollback_tx) w0 tt r1 r1_dropped view RootOrigin
    (rollback_message rollback_tx2) r1_done _ _ _ tt w' Es).
  - apply rtc_once. unfold r1_dropped, run. apply step_call, call_drop_rollback.
  - reflexivity.
  - reflexivity.
Defined.

(** The signature of a vote holds for ever: after the relayer 1 has changed
    its vote, anybody can submit its first vote again. *)
Definition unsigned_run (call : SqCall) (w : RunWorld) : option RunWorld := snd <$> sq_apply_unsigned view call w.
Definition first_vote : SqCall := CallSubmitRollbackPoll (poll 1 true) (sign_as 1).
Definition second_vote : SqCall := CallSubmitRollbackPoll (poll 1 false) (sign_as 1).
Definition vote_of (w : RunWorld) : option bool :=
  RollbackRequests (sw_queue w) !! t2 ≫= fun rr => rr_votes rr !! 1%N.
Example votes_can_be_replayed :
  (a ← unsigned_run first_vote r1; b ← unsigned_run second_vote a; c ← unsigned_run first_vote b;
   Some (vote_of a, vote_of b, vote_of c)) = Some (Some true, Some false, Some true).
Proof. vm_compute. reflexivity. Qed.

(** ** A migration *)

Definition moving : RunWorld := mkSqWorld _ _ queue0 (pool0 <| ServiceState := UTXOTransfer |>) (sw_blaze w0).
Definition migration_tx : SimplePsbt := tx_of 3 70000 [(69000, next_vault)] [].
Definition m1 : RunWorld := run (submit_migration_request RootOrigin (simple_serialize migration_tx)) moving.

(** ** A block that pays the outbound pool *)

Definition blaze_run (call : BzCall) (w : RunWorld) : RunWorld :=
  match bz_apply_unsigned (blaze_view view w 1) call (sw_blaze w).2 with
  | Some (_, b) => set_blaze w b
  | None => w
  end.
Definition activate (on : bool) (w : RunWorld) : RunWorld :=
  set_blaze w (dispatch (set_activation RootOrigin on) (sw_blaze w).2).2.
Definition bz_sign_as (who : N) : @Signature (@bz_crypto (@bridge_bz runs_bridge)) := who.
Definition coin_of (n amount : Z) : UtxoInfo := mkUtxoInfo (Z.to_N n) 0 amount system_vault.
(** The relayers 1 and 2 report a coin and the fee rate. *)
Definition report (amount rate : Z) (w : RunWorld) : RunWorld :=
  foldl (fun w call => blaze_run call w) w
    [CallSubmitUtxos (mkUtxoSubmission 1 [coin_of 8 amount]) (bz_sign_as 1);
     CallSubmitUtxos (mkUtxoSubmission 2 [coin_of 8 amount]) (bz_sign_as 2);
     CallSubmitFeeRate (mkFeeRateSubmission 1 rate rate 1) (bz_sign_as 1);
     CallSubmitFeeRate (mkFeeRateSubmission 2 rate rate 1) (bz_sign_as 2)].
Definition offer (messages : list (list byte)) (w : RunWorld) : RunWorld :=
  blaze_run (CallSubmitOutboundRequests (mkSocketMessagesSubmission 1 messages) (bz_sign_as 1)) w.
Definition block (w : RunWorld) : RunWorld := (sq_on_initialize 5 w).2.
Lemma simple_psbt_laws_hold : @PsbtLaws simple_btc simple_psbt.
Proof.
  split; try done; intros ins outs p; unfold from_unsigned_tx; cbn [simple_psbt];
    destruct (forallb _ outs) eqn:Ef; try done; intros [= <-]; [done|].
  cbn. rewrite forallb_forall in Ef. rewrite <- list_fmap_compose.
  rewrite <- (list_fmap_id outs) at 2. apply list_fmap_ext. intros i o Ho. cbn.
  specialize (Ef o (proj1 (list_elem_of_In _ _) (list_elem_of_lookup_2 _ _ _ Ho))).
  destruct o as [n [d|b]]; [done|]. done.
Qed.
#[export] Instance runs_psbt_laws : @PsbtLaws (@sq_lib (@bg_queue runs_bridge)) (@sq_psbt (@bg_queue runs_bridge)) :=
  simple_psbt_laws_hold.

Definition b1 : RunWorld := report 100000 10 (offer [pay1; pay2] (activate true w0)).
Definition b2 : RunWorld := block b1.
Definition pending_outputs (w : RunWorld) : list (list (list byte) * option (list (Z * list byte))) :=
  fmap (M:=list) (fun kv => (pr_socket_messages kv.2, sps_outputs <$> simple_deserialize (pr_unsigned_psbt kv.2)))
    (map_to_list (PendingRequests (sw_queue w))).
Example block_pays_and_clears :
  pending_outputs b2 = [([pay1; pay2], Some [(20000, text "bob"); (60000, text "alice"); (18240, system_vault)])]
  /\ OutboundPool (sw_blaze b2).2 = [].
Proof. split; vm_compute; reflexivity. Qed.

Lemma b2_done : sq_on_initialize 5 b1 = (Done tt, b2).
Proof. vm_compute. reflexivity. Qed.
Lemma lives_pending q q' : lives q' = lives q -> PendingRequests q' = PendingRequests q.
Proof. by intros [= E]. Qed.
Lemma block_witness :
  exists psbt paid change, unsigned_outputs psbt = paid ++ change /\ paid <> []
    /\ NoDup (txo_script_pubkey <$> paid).
Proof.
  destruct (block_pays_outbound_pool 5 b1 tt b2 b2_done) as [[El _]|(psbt & paid & change & _ & _ & Ho & Hne & Hnd & _)].
  - exfalso. apply lives_pending in El. assert (size (PendingRequests (sw_queue b2)) = 1%nat) as E2 by (vm_compute; reflexivity).
    assert (size (PendingRequests (sw_queue b1)) = 0%nat) as E1 by (vm_compute; reflexivity).
    rewrite El, E1 in E2. discriminate E2.
  - exists psbt, paid, change. split; [exact Ho|]. split; [exact Hne|]. exact Hnd.
Defined.

(** A message whose amount is not above the dust limit leaves the pool and is
    recorded as paid, without an output. *)
Definition dust : list byte := bytes_of 3 100 500.
Example dust_is_not_paid :
  pending_outputs (block (report 100000 10 (offer [pay2; dust] (activate true w0))))
  = [([pay2; dust], Some [(20000, text "bob"); (77880, system_vault)])].
Proof. vm_compute. reflexivity. Qed.

(** ** A message that is paid twice *)

(** Blaze takes the message, it is deactivated, the authority submits a payment
    of the same message, and Blaze is active again when the block comes: the
    message, still in the outbound pool, is paid by a second transaction. *)
Definition d1 : RunWorld := activate false (offer [pay1] (activate true w0)).
Definition d2 : RunWorld := run (submit_unsigned_psbt view NoneOrigin payment_message) d1.
Definition d3 : RunWorld := report 90000 10 (activate true d2).
Definition d4 : RunWorld := block d3.
Example paid_twice :
  (fun x : list (list byte) * option (list (Z * list byte)) => (x.1, head <$> x.2)) <$> pending_outputs d4
  = [([pay1], Some (Some (60000, text "alice"))); ([pay1], Some (Some (60000, text "alice")))].
Proof. vm_compute. reflexivity. Qed.

(** ** The bridge *)

Definition payment_call : SqCall := CallSubmitUnsignedPsbt payment_message (sign_as 50).
Lemma payment_applied : sq_apply_unsigned view payment_call w0 = Some (Done tt, w1).
Proof. vm_compute. reflexivity. Qed.

(** A rollback that refunds nobody: both outputs go to the system vault. *)
Definition empty_rollback : SimplePsbt := tx_of 4 5000 [(2000, system_vault); (2500, system_vault)] [].
Example rollback_pays_nobody :
  RollbackRequests (sw_queue (run (submit_rollback_request view RootOrigin (rollback_message empty_rollback)) w0))
    !! txid_of empty_rollback = Some (mkRollbackRequest (simple_serialize empty_rollback) 100 5 0 user_vault 5000 ∅ false).
Proof. vm_compute. reflexivity. Qed.
