(* ===== verification/FeeInv.v ===== *)
(** * Fees: the world they are paid in, and the storage of the pallet

    The behaviour of the EVM and of the balances the theorems on fees rely on
    ([FeeWorldLaws]: the accepted tokens move exactly what a transfer says and
    the calls of one kind of money leave the other alone), what the registry
    promises ([RegistryLaws]), the pure reading of the conversion, and the
    invariant of the storage. *)

From S2P Require Import Prelude Errors Primitives Cccp OracleRegistry FeePayment FeePrecompile.
Local Open Scope Z_scope.
Local Open Scope frame_scope.

(** ** Money *)

(** The balances after [x] went from one holder to another *)
Definition moved {K} `{!EqDecision K} (bal : K -> Z) (from to : K) (x : Z) (a : K) : Z :=
  bal a - (if decide (a = from) then x else 0) + (if decide (a = to) then x else 0).

Lemma moved_0 {K} `{!EqDecision K} (bal : K -> Z) from to a : moved bal from to 0 a = bal a.
Proof. unfold moved. repeat case_decide; lia. Qed.

(** [token_balance w t a]: what [a] holds of the token [t]; [native w a]: its
    free balance; [standard t]: [t] is an ERC20 contract that keeps the laws. *)
Class FeeWorld (W : Type) := {
  token_balance : W -> H160 -> H160 -> Z;
  native : W -> AccountId -> Z;
  standard : H160 -> Prop
}.

Section Money.
Context {W : Type} `{!FeeWorld W}.

Record same_money (w w' : W) : Prop := {
  sm_tokens t a : token_balance w' t a = token_balance w t a;
  sm_native a : native w' a = native w a
}.
Record transfers (w w' : W) (t from to : H160) (x : Z) : Prop := {
  tr_token a : token_balance w' t a = moved (token_balance w t) from to x a;
  tr_others t' a : t' <> t -> token_balance w' t' a = token_balance w t' a;
  tr_native a : native w' a = native w a
}.
(** [x] of the native currency left the account [a]. *)
Record withdraws (w w' : W) (a : AccountId) (x : Z) : Prop := {
  wd_native b : native w' b = native w b - (if decide (b = a) then x else 0);
  wd_tokens t b : token_balance w' t b = token_balance w t b
}.

#[export] Instance same_money_refl : Reflexive same_money.
Proof. done. Qed.
#[export] Instance same_money_trans : Transitive same_money.
Proof. intros w1 w2 w3 [H1 N1] [H2 N2]. split; intros; [by rewrite H2, H1|by rewrite N2, N1]. Qed.

Lemma same_then_withdraws w1 w2 w3 a x : same_money w1 w2 -> withdraws w2 w3 a x -> withdraws w1 w3 a x.
Proof. intros [H1 N1] [N2 H2]. split; intros; [by rewrite N2, N1|by rewrite H2, H1]. Qed.
Lemma transfers_0 w t from to : transfers w w t from to 0.
Proof. split; [|done..]. intros a. by rewrite moved_0. Qed.

(** An [H160] is a number of 20 bytes. *)
Definition is_h160 (a : H160) : Prop := (a < 2 ^ 160)%N.

(** The documented behaviour of the EVM with standard tokens and of the
    balances pallet. *)
Class FeeWorldLaws `{!FeeConfig, !Runner W, !FeeCurrency W} : Prop := {
  collector_address : is_h160 FeeCollectorAddress;
  token_nonneg w t a : standard t -> 0 <= token_balance w t a;
  balance_of_spec w t a : standard t -> is_h160 a -> token_balance w t a < 2 ^ 256 ->
    view_call w a t (encode_balance_of a) ERC20_VIEW_GAS_LIMIT =
      Some (mkCallInfo true (to_be_bytes 32 (token_balance w t a)));
  transfer_succeeds w t from to x : standard t -> is_h160 to -> x < 2 ^ 256 ->
    0 < x <= token_balance w t from ->
    exists data w',
      call_as_internal_call w from t (encode_transfer to x) ERC20_TRANSFER_GAS_LIMIT =
        (Some (mkCallInfo true data), w') /\
      check_bool_return data = true /\ transfers w w' t from to x;
  (** a transfer of more than the balance fails, returns [false] or is an error *)
  transfer_refused w t from to x : standard t -> is_h160 to -> token_balance w t from < x < 2 ^ 256 ->
    exists result w',
      call_as_internal_call w from t (encode_transfer to x) ERC20_TRANSFER_GAS_LIMIT = (result, w') /\
      (forall i, result = Some i -> ci_succeed i && check_bool_return (ci_value i) = false) /\
      same_money w w';
  fee_withdraw_spec w a x i w' : fee_withdraw w a x = Some (i, w') -> i = x /\ withdraws w w' a x
}.
End Money.

(** What the pallet relies on of the registry: an answer is a [U256]. *)
Class RegistryLaws (R W : Type) `{!OracleRegistryManager R W} : Prop := {
  answer_range r w t d : get_latest_round_data r w t = Some d -> 0 <= rd_answer d < 2 ^ 256
}.

Lemma word_range i data : 0 <= word i data < 2 ^ 256.
Proof.
  unfold word. pose proof (from_be_bytes_range (take 32 (drop (32 * i) data))) as H.
  rewrite length_take in H. split; [apply H|].
  eapply Z.lt_le_trans; [apply H|]. change (2 ^ 256) with (256 ^ 32).
  apply Z.pow_le_mono_r; lia.
Qed.

#[export] Instance registry_laws {W} `{!Runner W} : RegistryLaws OrStorage W.
Proof.
  split. intros r w t d. cbn. unfold or_latest_round_data, aggregator_return.
  intros H. repeat (apply bind_Some in H as (? & _ & H)). case_match; [done|].
  injection H as <-. apply word_range.
Qed.

(** ** Runs that stay within a relation *)

Section Runs.
Context {S : Type} (Rel : S -> S -> Prop) `{!PreOrder Rel}.
(** However [m] ends, the state it leaves is related to the one it found. *)
Definition stays {E A} (m : M S E A) : Prop := forall s, Rel s (m s).2.

Lemma stays_ret {E A} (a : A) : stays (E:=E) (ret a). Proof. intros s. cbn. reflexivity. Qed.
Lemma stays_fail {E A} (e : E) : stays (A:=A) (fail e). Proof. intros s. cbn. reflexivity. Qed.
Lemma stays_gets {E A} (g : S -> A) : stays (E:=E) (gets g). Proof. intros s. cbn. reflexivity. Qed.
Lemma stays_ensure {E} b (e : E) : stays (ensure b e).
Proof. destruct b; intros s; cbn; reflexivity. Qed.
Lemma stays_ok_or {E A} (o : option A) (e : E) : stays (ok_or o e).
Proof. destruct o; intros s; cbn; reflexivity. Qed.
Lemma stays_expect {E A} (o : option A) : stays (E:=E) (expect o).
Proof. destruct o; intros s; cbn; reflexivity. Qed.
Lemma stays_modify {E} (g : S -> S) : (forall s, Rel s (g s)) -> stays (E:=E) (modify g).
Proof. intros Hg s. apply Hg. Qed.
Lemma stays_bind {E A C} (m : M S E A) (k : A -> M S E C) :
  stays m -> (forall a, stays (k a)) -> stays (bind m k).
Proof.
  intros Hm Hk s. unfold bind. specialize (Hm s).
  destruct (m s) as [[a|e|] s1]; cbn in *; [|done..]. by transitivity s1; [|apply Hk].
Qed.
Lemma stays_map_err {E E' A} (g : E -> E') (m : M S E A) : stays m -> stays (map_err g m).
Proof. intros Hm s. unfold map_err. specialize (Hm s). by destruct (m s) as [[a|e|] s1]. Qed.
Lemma stays_result_of {E E' A} (m : M S E A) : stays m -> stays (result_of (E':=E') m).
Proof. intros Hm s. unfold result_of. specialize (Hm s). by destruct (m s) as [[a|e|] s1]. Qed.
Lemma stays_dispatch {E A} (m : M S E A) s : stays m -> Rel s (dispatch m s).2.
Proof. intros Hm. unfold dispatch. specialize (Hm s). destruct (m s) as [[a|e|] s1]; cbn; [done|reflexivity..]. Qed.
Lemma stays_run {E A} (m : M S E A) s r s' : stays m -> m s = (r, s') -> Rel s s'.
Proof. intros Hm Hr. specialize (Hm s). by rewrite Hr in Hm. Qed.
End Runs.

(** The part [f] of the state is kept. *)
Definition same_by {S B} (f : S -> B) (s s' : S) : Prop := f s' = f s.
#[export] Instance same_by_preorder {S B} (f : S -> B) : PreOrder (same_by f).
Proof. unfold same_by. split; [done|intros ???; congruence]. Qed.
Abbreviation keeps f := (stays (same_by f)).

Lemma err_mapped_done {S E E' A} (f : E -> E') (m : M S E A) s a s' :
  map_err f m s = (Done a, s') <-> m s = (Done a, s').
Proof. unfold map_err. destruct (m s) as [[?|?|] ?]; split; congruence. Qed.
Lemma map_err_trap {S E E' A} (f : E -> E') (m : M S E A) s s' :
  map_err f m s = (Trap, s') <-> m s = (Trap, s').
Proof. unfold map_err. destruct (m s) as [[?|?|] ?]; split; congruence. Qed.

Lemma bind_trap {S E A B} (m : M S E A) (k : A -> M S E B) s s' :
  bind m k s = (Trap, s') -> m s = (Trap, s') \/ exists a s1, m s = (Done a, s1) /\ k a s1 = (Trap, s').
Proof. unfold bind. destruct (m s) as [[a|e|] s1]; [by right; exists a, s1|done|by left; simplify_eq]. Qed.
Lemma ok_or_trap {S E A} (o : option A) (e : E) (s s' : S) : ok_or o e s <> (Trap, s').
Proof. by destruct o. Qed.
Lemma ensure_trap {S E} b (e : E) (s s' : S) : ensure b e s <> (Trap, s').
Proof. by destruct b. Qed.
Lemma bind_run {S E A B} (m : M S E A) (k : A -> M S E B) s a s1 : m s = (Done a, s1) -> bind m k s = k a s1.
Proof. unfold bind. by intros ->. Qed.
(** The sources of a panic *)
Ltac trapped :=
  repeat match goal with
  | H : bind _ _ _ = (Trap, _) |- _ => apply bind_trap in H as [H|(? & ? & ? & H)]
  | H : map_err _ _ _ = (Trap, _) |- _ => apply map_err_trap in H
  | H : ok_or _ _ _ = (Trap, _) |- _ => by apply ok_or_trap in H
  | H : ensure _ _ _ = (Trap, _) |- _ => by apply ensure_trap in H
  | H : gets _ _ = (Trap, _) |- _ => discriminate H
  | H : ret _ _ = (Trap, _) |- _ => discriminate H
  end.

(** [m] does not see the update [g] of the state. *)
Section Blind.
Context {S : Type} (g : S -> S).
Definition blind {E A} (m : M S E A) : Prop := forall s, m (g s) = ((m s).1, g (m s).2).

Lemma blind_ret {E A} (a : A) : blind (E:=E) (ret a). Proof. done. Qed.
Lemma blind_ensure {E} b (e : E) : blind (ensure b e). Proof. by destruct b. Qed.
Lemma blind_ok_or {E A} (o : option A) (e : E) : blind (ok_or o e). Proof. by destruct o. Qed.
Lemma blind_expect {E A} (o : option A) : blind (E:=E) (expect o). Proof. by destruct o. Qed.
Lemma blind_bind {E A B} (m : M S E A) (k : A -> M S E B) :
  blind m -> (forall a, blind (k a)) -> blind (bind m k).
Proof. intros Hm Hk s. unfold bind. rewrite Hm. destruct (m s) as [[a|e|] s1]; cbn; [apply Hk|done..]. Qed.
Lemma blind_state {E B} (k : S -> M S E B) :
  (forall s, k (g s) = k s) -> (forall s, blind (k s)) -> blind (bind (gets id) k).
Proof. intros He Hk s. cbv [bind gets]. unfold id. rewrite He. apply Hk. Qed.
Lemma blind_map_err {E E' A} (f : E -> E') (m : M S E A) : blind m -> blind (map_err f m).
Proof. intros Hm s. unfold map_err. rewrite Hm. by destruct (m s) as [[a|e|] s1]. Qed.
End Blind.

(** [stays Rel m], by the structure of [m]; the updates are computed. *)
Ltac keep :=
  repeat first
    [ apply stays_ret; exact _ | apply stays_fail; exact _ | apply stays_gets; exact _
    | apply stays_ensure; exact _ | apply stays_ok_or; exact _ | apply stays_expect; exact _
    | apply stays_map_err | apply stays_result_of
    | apply stays_bind; [exact _| |intros ?]
    | apply stays_modify; intros ?; reflexivity
    | progress cbv beta zeta
    | progress unfold ensure_fresh | progress unfold transfer_from_user | progress unfold transfer_to_user
    | progress unfold run_transfer | progress unfold refund_token | progress unfold correct_native_fee
    | progress unfold correct_erc20_fee | progress unfold check_rate_limit | progress unfold ensure_signed
    | match goal with |- stays _ (match ?x with _ => _ end) => destruct x end
    | match goal with |- stays _ (let '_ := ?x in _) => destruct x end ].

Section Storage.
Context {R W : Type} `{!FeeConfig, !GasCosts, !Runner W, !FeeCurrency W, !OracleRegistryManager R W}.
Implicit Types (v : FpView R) (s : FpStorage W).

(** ** Prices and conversion *)

Lemma convert_reads_only v fee t : keeps (fun s => s) (convert_native_to_token_with_prices (W:=W) v fee t).
Proof. keep. Qed.

Lemma oracle_price_positive v id max s p s' :
  get_oracle_price_from_registry v id max s = (Done p, s') -> 0 < p.
Proof.
  unfold get_oracle_price_from_registry. intros Hrun. mrun.
  match goal with H : negb (_ =? 0) = true |- _ => apply negb_true_iff, Z.eqb_neq in H end. lia.
Qed.

Lemma aggregator_price_positive `{!RegistryLaws R W} v t max s p s' :
  get_aggregator_price_from_registry v t max s = (Done p, s') -> 0 < p.
Proof.
  unfold get_aggregator_price_from_registry. intros Hrun. mrun.
  match goal with Hr : get_latest_round_data _ _ _ = Some _ |- _ => apply answer_range in Hr end.
  match goal with Hn : negb (_ =? 0) = true |- 0 < ?q =>
    apply negb_true_iff, Z.eqb_neq in Hn; enough (0 <= q) by lia end.
  match goal with Hif : (if ?b then _ else _) _ = (Done _, _) |- _ => destruct b; mrun end;
    match goal with Hp : u256_pow10 ?e = Some _ |- _ =>
      unfold u256_pow10 in Hp; pose proof (Z.pow_nonneg 10 e); case_match; simplify_eq end.
  - unfold u256_saturating_mul. nia.
  - apply Z_div_nonneg_nonneg; lia.
Qed.

Lemma token_price_positive `{!RegistryLaws R W} v t max s p s' :
  get_token_price_via_registry v t max s = (Done p, s') -> 0 < p.
Proof.
  unfold get_token_price_via_registry. intros Hrun. mrun.
  case_match; [by eapply aggregator_price_positive|by eapply oracle_price_positive].
Qed.

Lemma bfc_price_positive v s p s' : get_bfc_usd_price v s = (Done p, s') -> 0 < p.
Proof.
  unfold get_bfc_usd_price. intros Hrun. mrun.
  match goal with Hp : map_err _ _ _ = _ |- _ => apply err_mapped_done, oracle_price_positive in Hp end. done.
Qed.

Lemma u128_pow10_small d : 0 <= d <= 38 -> u128_pow10 d = 10 ^ d.
Proof.
  intros Hd. apply Z.mod_small. split; [apply Z.pow_nonneg; lia|].
  eapply Z.le_lt_trans; [apply (Z.pow_le_mono_r 10 d 38); lia|done].
Qed.

(** The checked computation: a floor, defined while the product fits. *)
Lemma token_amount_spec fee np tp d : 0 <= fee -> 0 <= np -> 0 < tp -> 0 <= d <= 18 ->
  token_amount_of fee np tp d =
    if fee * np * 10 ^ d <? 2 ^ 256 then Some (fee * np * 10 ^ d / (tp * 10 ^ 18)) else None.
Proof.
  intros Hf Hn Ht Hd. unfold token_amount_of, u256_checked_mul, u256_checked_div.
  rewrite !u128_pow10_small by lia. pose proof (Z.pow_pos_nonneg 10 d).
  destruct (Z.ltb_spec (fee * np) (2 ^ 256)) as [Hm|Hm]; cbn [mbind option_bind].
  - destruct (_ <? _); cbn [mbind option_bind]; [|done].
    rewrite (proj2 (Z.eqb_neq tp 0)) by lia. cbn [mbind option_bind].
    rewrite (proj2 (Z.eqb_neq (10 ^ 18) 0)) by done. by rewrite Z.div_div by lia.
  - rewrite (proj2 (Z.ltb_ge _ _)); [done|]. nia.
Qed.

Definition decimals_ok s : Prop := map_Forall (fun _ c => 0 <= decimals c <= 18) (AcceptedFeeTokens s).


(** A conversion that succeeds: the prices it read and the floor it returns *)
Record converted v fee t s (cv_config : FeeTokenConfig) x tp np : Prop := {
  cv_accepted : AcceptedFeeTokens s !! t = Some cv_config;
  cv_enabled : enabled cv_config = true;
  cv_native_price : get_bfc_usd_price v s = (Done np, s);
  cv_token_price : get_token_price_via_registry v t (max_staleness_seconds cv_config) s = (Done tp, s);
  cv_positive : 0 < np /\ 0 < tp;
  cv_fits : fee * np * 10 ^ decimals cv_config < 2 ^ 256;
  cv_amount : x = fee * np * 10 ^ decimals cv_config / (tp * 10 ^ 18);
  cv_range : 0 <= x < 2 ^ 256
}.

Lemma convert_done `{!RegistryLaws R W} v fee t s x tp np s' : decimals_ok s -> 0 <= fee ->
  convert_native_to_token_with_prices v fee t s = (Done (x, tp, np), s') ->
  s' = s /\ exists config, converted v fee t s config x tp np.
Proof.
  intros Hd Hfee Hrun. pose proof (stays_run _ _ _ _ _ (convert_reads_only v fee t) Hrun) as Hs. cbv in Hs. subst s'.
  split; [done|]. unfold convert_native_to_token_with_prices in Hrun. mrun.
  match goal with Hc : AcceptedFeeTokens _ !! _ = Some ?c |- _ =>
    pose proof (Hd _ _ Hc) as Hdec; cbn in Hdec end.
  match goal with Hb : get_bfc_usd_price _ _ = (_, ?s1), Ht : map_err _ _ _ = (_, ?s2) |- _ =>
    pose proof Hb as Hnp; apply (stays_run (same_by (fun s => s))) in Hb; [cbv in Hb; subst s1|keep];
    apply err_mapped_done in Ht; pose proof Ht as Htp end.
  pose proof (token_price_positive _ _ _ _ _ _ Htp).
  pose proof (bfc_price_positive _ _ _ _ Hnp).
  match goal with Ha : token_amount_of _ _ _ _ = Some _ |- _ =>
    rewrite token_amount_spec in Ha by lia; case_match; simplify_eq end.
  rename select ((_ <? _) = true) into Hlt. apply Z.ltb_lt in Hlt.
  eexists. split; try done.
  match goal with Hx : 0 <= decimals ?c <= 18 |- _ => pose proof (Z.pow_nonneg 10 (decimals c)) end.
  split; [apply Z.div_pos; nia|]. eapply Z.le_lt_trans; [|apply Hlt]. apply Z.div_le_upper_bound; nia.
Qed.

(** ** Transfers *)

Lemma world_same s : s <| World := World s |> = s.
Proof. by destruct s. Qed.

Lemma run_transfer_spec `{!FeeWorld W, !FeeWorldLaws} from t to x s : standard t -> is_h160 to -> 0 <= x < 2 ^ 256 ->
  exists w',
    (x <= token_balance (World s) t from /\
     run_transfer from t to x s = (Done tt, (s <| World := w' |>)) /\
     transfers (World s) w' t from to x) \/
    (token_balance (World s) t from < x /\
     run_transfer from t to x s = (Fail tt, (s <| World := w' |>)) /\
     same_money (World s) w').
Proof.
  intros Hst Hto Hx. unfold run_transfer. destruct (Z.eqb_spec x 0) as [->|Hn].
  - exists (World s). left. split; [by apply token_nonneg|]. rewrite world_same.
    split; [done|apply transfers_0].
  - cbv [bind gets id]. destruct (Z.le_gt_cases x (token_balance (World s) t from)) as [Hle|Hgt].
    + destruct (transfer_succeeds (World s) t from to x Hst Hto) as (d & w' & -> & Hb & Ht); [lia..|].
      exists w'. left. cbn. by rewrite Hb.
    + destruct (transfer_refused (World s) t from to x Hst Hto) as (r & w' & -> & Hr & Hs); [lia|].
      exists w'. right. split; [done|]. split; [|done].
      destruct r as [i|]; cbn; [by rewrite (Hr i)|done].
Qed.

(** ** The steps of the pallet *)

Inductive FeeCall : Type :=
| CAddFeeToken (token : H160) (config : FeeTokenConfig)
| CRemoveFeeToken (token : H160)
| CUpdateFeeToken (token : H160) (config : FeeTokenConfig)
| CSetUserFeeToken (token : option H160)
| CWithdrawCollectedFees (token to : H160) (amount : U256).
Definition run_fee_call (o : Origin) (c : FeeCall) : M (FpStorage W) DispatchError unit :=
  match c with
  | CAddFeeToken token config => add_fee_token o token config
  | CRemoveFeeToken token => remove_fee_token o token
  | CUpdateFeeToken token config => update_fee_token o token config
  | CSetUserFeeToken token => set_user_fee_token o token
  | CWithdrawCollectedFees token to amount => withdraw_collected_fees o token to amount
  end.
(** [decimals] is a [u8] *)
Definition fee_call_ok (c : FeeCall) : Prop :=
  match c with
  | CAddFeeToken _ config | CUpdateFeeToken _ config => 0 <= decimals config
  | _ => True
  end.
(** A fee to settle was withdrawn in this block. *)
Definition outstanding s (who : H160) (l : LiquidityInfo) : Prop :=
  match l with
  | LiERC20Withdrawn _ _ _ tx_index _ _ => is_Some (PendingFeePayments s !! (who, tx_index))
  | _ => True
  end.

(** What happens to the storage at one view: a new block, an extrinsic, a
    call of the precompile, the three parts of a charge, or the execution of
    something else in the EVM or the balances. *)
Inductive FeeLabel : Type :=
| LBlock (n : BlockNumber)
| LCall (o : Origin) (c : FeeCall)
| LSet (caller token : H160) (gas : Z) (logs : list (H160 * H160))
| LClear (caller : H160) (gas : Z) (logs : list (H160 * H160))
| LWithdraw (who : H160) (fee : U256)
| LCorrect (who : H160) (corrected_fee base_fee : U256) (l : LiquidityInfo)
| LPay (tip : LiquidityInfo)
| LWorld (w : W).
Definition fee_run v (l : FeeLabel) s : FpStorage W :=
  match l with
  | LBlock n => (fp_on_initialize n s).2
  | LCall o c => (dispatch (run_fee_call o c) s).2
  | LSet caller token gas logs =>
      pc_storage (dispatch (pc_set_user_fee_token v caller token) (mkPcState s gas logs)).2
  | LClear caller gas logs => pc_storage (dispatch (pc_clear_user_fee_token v caller) (mkPcState s gas logs)).2
  | LWithdraw who fee => (withdraw_fee v who fee s).2
  | LCorrect who corrected_fee base_fee l => (correct_and_deposit_fee who corrected_fee base_fee l s).2
  | LPay tip => (pay_priority_fee v tip s).2
  | LWorld w => s <| World := w |>
  end.
(** What the runner and the types guarantee: fees are not negative, a block
    has fewer than [2^32 - 1] transactions, a fee is settled in its block. *)
Definition label_ok s (l : FeeLabel) : Prop :=
  match l with
  | LCall _ c => fee_call_ok c
  | LWithdraw _ fee => 0 <= fee /\ CurrentTxIndex s < u32_modulus - 1
  | LCorrect who _ _ l => outstanding s who l
  | _ => True
  end.
Definition fee_step v (l : FeeLabel) s s' : Prop := label_ok s l /\ s' = fee_run v l s.

(** ** The invariant *)

Record fee_ok s : Prop := {
  fo_decimals : decimals_ok s;
  fo_index : 0 <= CurrentTxIndex s < u32_modulus;
  (** the payments of the block are numbered, below the counter *)
  fo_below u i : is_Some (PendingFeePayments s !! (u, i)) -> 0 <= i < CurrentTxIndex s;
  (** a number has one payer *)
  fo_owner u1 u2 i : is_Some (PendingFeePayments s !! (u1, i)) -> is_Some (PendingFeePayments s !! (u2, i)) ->
    u1 = u2
}.

Definition settings s := (AcceptedFeeTokens s, UserFeeToken s, LastFeeTokenUpdate s).
Definition counters s := (CurrentTxIndex s, PendingFeePayments s).

(** [s'] differs from [s] outside the settings and at most by the payment
    [(who, i)] *)
Definition pays (who : H160) (i : Z) s s' : Prop :=
  settings s' = settings s /\ CurrentTxIndex s' = CurrentTxIndex s /\
  forall k, k <> (who, i) -> PendingFeePayments s' !! k = PendingFeePayments s !! k.
#[export] Instance pays_preorder who i : PreOrder (pays who i).
Proof.
  unfold pays. split; [done|]. intros s1 s2 s3 (H1 & H2 & H3) (H4 & H5 & H6).
  split_and!; [congruence..|]. intros k Hk. by rewrite H6, H3.
Qed.

Lemma pays_other who i s s' : settings s' = settings s -> counters s' = counters s -> pays who i s s'.
Proof. intros Hs [= Hi Hp]. split_and!; [done..|]. by rewrite Hp. Qed.
Lemma pays_insert who i x s : pays who i s (s <| PendingFeePayments ::= <[(who, i) := x]> |>).
Proof. split_and!; [done..|]. intros k Hk. by apply lookup_insert_ne. Qed.


Lemma withdraw_native_stays who i a fee : stays (pays who i) (withdraw_native_fee a fee).
Proof. keep. apply stays_modify. intros s. by apply pays_other. Qed.

(** [stays (pays who i) m]: the remaining updates touch the world, the events
    or the payment [(who, i)]. *)
Ltac pay :=
  keep; apply stays_modify; intros ?; first [by apply pays_other | apply pays_insert].

Lemma withdraw_erc20_stays v who fee t i : stays (pays who i) (withdraw_erc20_fee v who fee t i).
Proof. unfold withdraw_erc20_fee. pay. Qed.
Lemma correct_stays who corrected_fee base_fee l i :
  (forall t x n j p q, l = LiERC20Withdrawn t x n j p q -> j = i) ->
  stays (pays who i) (correct_and_deposit_fee who corrected_fee base_fee l).
Proof.
  intros Hl. destruct l; try (unfold correct_and_deposit_fee; pay).
  rewrite (Hl _ _ _ _ _ _ eq_refl). unfold correct_and_deposit_fee. pay.
Qed.

(** The invariant reads the accepted tokens and the counters only. *)
Definition book s := (AcceptedFeeTokens s, counters s).
Lemma fee_ok_same s s' : same_by book s s' -> fee_ok s -> fee_ok s'.
Proof.
  intros [= Ha Hi Hp] [H1 H2 H3 H4].
  by split; unfold decimals_ok in *; rewrite ?Ha, ?Hi, ?Hp.
Qed.

Lemma pay_keeps v tip : keeps book (pay_priority_fee v tip).
Proof. unfold pay_priority_fee. keep. Qed.
Lemma set_keeps v caller token : keeps (book ∘ pc_storage) (pc_set_user_fee_token v caller token).
Proof. keep. Qed.
Lemma clear_keeps v caller : keeps (book ∘ pc_storage) (pc_clear_user_fee_token v caller).
Proof. keep. Qed.

Lemma call_decimals o c s s' : fee_call_ok c -> run_fee_call o c s = (Done tt, s') -> decimals_ok s -> decimals_ok s'.
Proof.
  intros Hc Hrun Hd. destruct c; cbn in Hrun, Hc.
  - unfold add_fee_token, ensure_fee_admin, fp_deposit, fp_mutate in Hrun. mrun.
    rename select ((_ <=? 18) = true) into Hle. apply Z.leb_le in Hle.
    apply map_Forall_insert_2; cbn; [lia|done].
  - unfold remove_fee_token, ensure_fee_admin, fp_deposit, fp_mutate in Hrun. mrun. by apply map_Forall_delete.
  - unfold update_fee_token, ensure_fee_admin, fp_deposit, fp_mutate in Hrun. mrun.
    rename select ((_ <=? 18) = true) into Hle. apply Z.leb_le in Hle.
    apply map_Forall_insert_2; cbn; [lia|done].
  - assert (keeps AcceptedFeeTokens (run_fee_call o (CSetUserFeeToken token))) as Hk.
    { cbn. keep. }
    pose proof (stays_run _ _ _ _ _ Hk Hrun) as He. unfold decimals_ok. by rewrite He.
  - assert (keeps AcceptedFeeTokens (run_fee_call o (CWithdrawCollectedFees token to amount))) as Hk.
    { cbn. keep. }
    pose proof (stays_run _ _ _ _ _ Hk Hrun) as He. unfold decimals_ok. by rewrite He.
Qed.
Lemma call_counters o c : keeps counters (run_fee_call o c).
Proof.
  destruct c; cbn; keep.
Qed.

(** A payment at the number of an earlier one of the same payer, or at the
    counter before it moves on *)
Lemma fee_ok_pays who i s s1 s' : fee_ok s -> settings s1 = settings s -> PendingFeePayments s1 = PendingFeePayments s ->
  CurrentTxIndex s <= CurrentTxIndex s1 < u32_modulus ->
  (is_Some (PendingFeePayments s !! (who, i)) \/ i = CurrentTxIndex s /\ i < CurrentTxIndex s1) ->
  pays who i s1 s' -> fee_ok s'.
Proof.
  intros [Hd Hi Hb Ho] Hs1 Hp1 Hr Hwho (Hs & Hi' & Hp).
  assert (forall u j, is_Some (PendingFeePayments s' !! (u, j)) ->
    is_Some (PendingFeePayments s !! (u, j)) \/ (u, j) = (who, i)) as Hin.
  { intros u j Hj. destruct (decide ((u, j) = (who, i))) as [E|E]; [by right|left].
    by rewrite Hp, Hp1 in Hj. }
  assert (forall j u, is_Some (PendingFeePayments s !! (u, j)) -> j = i -> u = who) as Hlast.
  { intros j u Hj ->. destruct Hwho as [Hw|[-> _]]; [by eapply Ho|]. specialize (Hb _ _ Hj). lia. }
  split.
  - unfold decimals_ok. by replace (AcceptedFeeTokens s') with (AcceptedFeeTokens s)
      by (unfold settings in *; congruence).
  - lia.
  - intros u j Hj. rewrite Hi'. destruct (Hin _ _ Hj) as [Hj'|[= -> ->]].
    + specialize (Hb _ _ Hj'). lia.
    + destruct Hwho as [Hw|[-> ?]]; [specialize (Hb _ _ Hw)|]; lia.
  - intros u1 u2 j H1 H2.
    destruct (Hin _ _ H1) as [H1'|E1], (Hin _ _ H2) as [H2'|E2]; simplify_eq; eauto using eq_sym.
Qed.

Lemma step_fee_ok v l s s' : fee_step v l s s' -> fee_ok s -> fee_ok s'.
Proof.
  intros [Hl ->] Hok. destruct l as [n|o c|caller token gas logs|caller gas logs
    |who fee|who cf bf l|tip|w]; cbn [fee_run label_ok] in *.
  - split; cbn; [apply Hok|done| |].
    + intros u i. by rewrite lookup_empty, is_Some_alt.
    + intros u1 u2 i. by rewrite lookup_empty, is_Some_alt.
  - pose proof (stays_dispatch _ _ s (call_counters o c)) as [= Hi Hp].
    destruct Hok as [H1 H2 H3 H4]. split; rewrite ?Hi; try done.
    + unfold dispatch. destruct (run_fee_call o c s) as [[[]|?|] ?] eqn:E; [by eapply call_decimals|done..].
    + intros u i. rewrite Hp. apply H3.
    + intros u1 u2 i. rewrite Hp. apply H4.
  - eapply fee_ok_same, Hok. apply (stays_dispatch _ _ (mkPcState s gas logs) (set_keeps v caller token)).
  - eapply fee_ok_same, Hok. apply (stays_dispatch _ _ (mkPcState s gas logs) (clear_keeps v caller)).
  - unfold withdraw_fee. cbv [bind gets id fp_put modify].
    set (s1 := s <| CurrentTxIndex := u32_sat_add (CurrentTxIndex s) 1 |>).
    assert (CurrentTxIndex s1 = CurrentTxIndex s + 1) as Hi by (cbn in *; unfold u32_sat_add; lia).
    pose proof (fo_index _ Hok).
    destruct Hl. apply (fee_ok_pays who (CurrentTxIndex s) s s1); [done..|lia|right; lia|].
    enough (stays (pays who (CurrentTxIndex s))
      (if fee =? 0 then ret LiNone
       else if negb (is_erc20_fee_enabled v) then withdraw_native_fee who fee
       else match UserFeeToken s !! who with
            | Some token => withdraw_erc20_fee v who fee token (CurrentTxIndex s)
            | None => withdraw_native_fee who fee
            end)) as Hst by apply (Hst s1).
    repeat case_match; auto using stays_ret, withdraw_native_stays, withdraw_erc20_stays with typeclass_instances.
  - destruct l as [| |t x n i p q|].
    3: { eapply (fee_ok_pays who i s s); [done..|pose proof (fo_index _ Hok); lia|by left|].
         apply correct_stays. by intros ? ? ? ? ? ? [= -> -> -> -> -> ->]. }
    all: apply (fee_ok_same s); [|done].
    all: match goal with |- same_by book ?s0 (?m ?s0).2 =>
           enough (stays (same_by book) m) as Hk by apply Hk end.
    all: unfold correct_and_deposit_fee; keep.
  - eapply fee_ok_same, Hok. apply pay_keeps.
  - by apply (fee_ok_same s).
Qed.

Definition fee_genesis (w : W) : FpStorage W := mkFpStorage ∅ ∅ ∅ 0 ∅ w [].
Lemma genesis_fee_ok w : fee_ok (fee_genesis w).
Proof. split; cbn; [by intros ? ?|done| |]; intros *; by rewrite lookup_empty, is_Some_alt. Qed.
Definition fee_reachable (w : W) s : Prop := rtc (fun s1 s2 => exists v l, fee_step v l s1 s2) (fee_genesis w) s.
Lemma fee_reachable_ok w s : fee_reachable w s -> fee_ok s.
Proof.
  unfold fee_reachable. generalize (genesis_fee_ok w). generalize (fee_genesis w).
  intros s0 Hok Hr. induction Hr as [|? ? ? (v & l & Hstep) _ IH]; [done|]. eauto using step_fee_ok.
Qed.
End Storage.
