(* ===== verification/FeeTheorems.v ===== *)
(** * Theorems on the payment of fees

    A transaction is charged once, in the token or in the native currency,
    and settled exactly; the price conversion is a floor within one unit; the
    storage is consistent; what the pool admits can be charged, what the
    runner lets through for free runs, and at most once per cooldown. The last
    part is on BFC utility: numbered proposals and blocked accounts. *)

From S2P Require Import Prelude Errors Primitives Cccp OracleRegistry FeePayment FeePrecompile FeeInv BfcUtility.
Local Open Scope Z_scope.
Local Open Scope frame_scope.

Section Charge.
Context {R W : Type} `{!FeeConfig, !GasCosts, !Runner W, !FeeCurrency W, !OracleRegistryManager R W}.
Context `{!FeeWorld W, !FeeWorldLaws, !RegistryLaws R W}.
Implicit Types (v : FpView R) (s : FpStorage W).

(** ** The charge before execution *)

Lemma withdraw_native_spec who fee s r s' : withdraw_native_fee who fee s = (r, s') ->
  (r = Done (LiNative (Some (into_u128 fee))) /\
   withdraws (World s) (World s') (into_account_id who) (into_u128 fee)) \/
  (r = Fail EvmBalanceLow /\ World s' = World s).
Proof.
  unfold withdraw_native_fee. cbv [bind gets id ok_or fp_put modify].
  destruct (fee_withdraw _ _ _) as [[i w]|] eqn:E; cbn; intros [= <- <-]; [left|by right].
  apply fee_withdraw_spec in E as [-> E]. done.
Qed.

(** The native currency is charged, after nothing of value changed hands. *)
Definition native_charge (who : H160) (fee : U256) s r s' : Prop :=
  (r = Done (LiNative (Some (into_u128 fee))) /\
   withdraws (World s) (World s') (into_account_id who) (into_u128 fee)) \/
  (r = Fail EvmBalanceLow /\ same_money (World s) (World s')).

Lemma native_charged who fee s s1 r s' : same_money (World s) (World s1) ->
  withdraw_native_fee who fee s1 = (r, s') -> native_charge who fee s r s'.
Proof.
  intros Hs Hrun. apply withdraw_native_spec in Hrun as [[-> Hw]|[-> Hw]]; [left|right].
  - split; [done|]. by eapply same_then_withdraws.
  - by rewrite Hw.
Qed.
Lemma fallback_charged who fee t reason s s1 r s' : same_money (World s) (World s1) ->
  fallback_to_native who fee t reason s1 = (r, s') -> native_charge who fee s r s'.
Proof. intros Hs Hrun. eapply native_charged, Hrun. done. Qed.

(** The price of a token is the one thing that can panic. *)
Definition bad_aggregator v (t : H160) : Prop :=
  exists ag, get_aggregator_info (W:=W) (fv_registry v) t = Some ag /\ ~ (0 <= ag_decimal ag < 96).

Lemma u256_pow10_fits e : 0 <= e < 78 -> u256_pow10 e = Some (10 ^ e).
Proof.
  intros He. unfold u256_pow10. rewrite (proj2 (Z.ltb_lt _ _)); [done|].
  eapply Z.le_lt_trans; [apply (Z.pow_le_mono_r 10 e 77); lia|done].
Qed.

Lemma ensure_fresh_trap v max time s s' : ensure_fresh v max time s <> (Trap, s').
Proof. unfold ensure_fresh. intros Hrun. case_match; trapped. Qed.
Lemma oracle_price_no_trap v oracle max s s' : get_oracle_price_from_registry v oracle max s <> (Trap, s').
Proof.
  unfold get_oracle_price_from_registry. intros Hrun. trapped. by apply ensure_fresh_trap in Hrun.
Qed.
Lemma token_price_trap v t max s s' :
  get_token_price_via_registry v t max s = (Trap, s') -> bad_aggregator v t.
Proof.
  unfold get_token_price_via_registry, get_aggregator_price_from_registry. intros Hrun. trapped.
  case_match; [|by apply oracle_price_no_trap in Hrun]. trapped; [|by apply ensure_fresh_trap in Hrun].
  mrun. eexists. split; [done|]. intros Hd.
  case_match; trapped; by rewrite u256_pow10_fits in Hrun by lia.
Qed.
Lemma convert_trap v fee t s s' :
  convert_native_to_token_with_prices v fee t s = (Trap, s') -> bad_aggregator v t.
Proof.
  unfold convert_native_to_token_with_prices, get_bfc_usd_price. intros Hrun. trapped.
  - by apply oracle_price_no_trap in Hrun.
  - by apply token_price_trap in Hrun.
Qed.

(** ** Charged once *)

(** How a charge in the token [t] ends *)
Lemma erc20_charged v who fee t i s r s' : decimals_ok s -> 0 <= fee -> standard t ->
  withdraw_erc20_fee v who fee t i s = (r, s') ->
  native_charge who fee s r s' \/
  (r = Trap /\ bad_aggregator v t) \/
  (exists x tp np, r = Done (LiERC20Withdrawn t x fee i tp np) /\
   exists config, converted v fee t s config x tp np /\
     transfers (World s) (World s') t who FeeCollectorAddress x /\
     PendingFeePayments s' !! (who, i) = Some (mkFeePaymentInfo t x fee tp np)).
Proof.
  intros Hd Hfee Hst. unfold withdraw_erc20_fee. cbv [bind gets]. cbn [id].
  destruct (AcceptedFeeTokens s !! t) as [config|]; [|intros Hrun; left; by eapply fallback_charged].
  destruct (enabled config); cbn [negb]; [|intros Hrun; left; by eapply fallback_charged].
  unfold result_of at 1.
  pose proof (convert_reads_only v fee t s) as Hs.
  destruct (convert_native_to_token_with_prices v fee t s) as [[[[x tp] np]|e|] s1] eqn:Hc;
    cbv in Hs; subst s1.
  - destruct (convert_done _ _ _ _ _ _ _ _ Hd Hfee Hc) as [_ [c Hv]].
    unfold result_of, execute_fee_transfer, map_err, transfer_from_user.
    destruct (run_transfer_spec who t FeeCollectorAddress x s Hst collector_address (cv_range _ _ _ _ _ _ _ _ Hv))
      as (w' & [(_ & -> & Htr)|(_ & -> & Hsm)]).
    + intros [= <- <-]. right; right. exists x, tp, np. split; [done|]. exists c. split_and!; [done..|].
      cbn. by rewrite lookup_insert_eq.
    + intros Hrun. left. by eapply fallback_charged, Hrun.
  - intros Hrun. left. by eapply fallback_charged, Hrun.
  - intros [= <- <-]. right; left. split; [done|]. by eapply convert_trap.
Qed.

(** C4: [withdraw_fee] charges a transaction exactly once. Its result tells
    what changed hands: nothing for no fee; the fee in native currency and no
    token; or the converted amount of the token the user prefers, from the user
    to the collector, no native currency, with the payment recorded under the
    number of the transaction. A [BalanceLow] means that nothing of value
    moved, whatever the attempts before it, and a panic only comes from an
    aggregator of 96 decimals or more. *)
Theorem charged_exactly_once v who fee s r s' : fee_ok s -> 0 <= fee ->
  (forall t, UserFeeToken s !! who = Some t -> standard t) ->
  withdraw_fee v who fee s = (r, s') ->
  match r with
  | Done LiNone => fee = 0 /\ World s' = World s
  | Done (LiNative x) =>
      0 < fee /\ x = Some (into_u128 fee) /\
      withdraws (World s) (World s') (into_account_id who) (into_u128 fee)
  | Done (LiERC20Withdrawn t x n i tp np) =>
      0 < fee /\ n = fee /\ i = CurrentTxIndex s /\ UserFeeToken s !! who = Some t /\
      (exists config, AcceptedFeeTokens s !! t = Some config /\ enabled config = true /\ 0 < np /\ 0 < tp /\
        x = fee * np * 10 ^ decimals config / (tp * 10 ^ 18)) /\
      transfers (World s) (World s') t who FeeCollectorAddress x /\
      PendingFeePayments s' !! (who, i) = Some (mkFeePaymentInfo t x fee tp np)
  | Done (LiERC20Tip _ _) => False
  | Fail e => e = EvmBalanceLow /\ same_money (World s) (World s')
  | Trap => exists t, UserFeeToken s !! who = Some t /\ bad_aggregator v t
  end.
Proof.
  intros Hok Hfee Hst Hrun. unfold withdraw_fee in Hrun. cbv [bind gets fp_put modify] in Hrun. cbn [id] in Hrun.
  set (s1 := s <| CurrentTxIndex := _ |>) in Hrun.
  destruct (Z.eqb_spec fee 0) as [->|Hn]; [by injection Hrun as <- <-|].
  assert (0 < fee) by lia.
  destruct (is_erc20_fee_enabled v); cbn [negb] in Hrun.
  2: { by apply (native_charged who fee s) in Hrun as [[-> ?]|[-> ?]]. }
  destruct (UserFeeToken s !! who) as [t|] eqn:Ht.
  2: { by apply (native_charged who fee s) in Hrun as [[-> ?]|[-> ?]]. }
  apply (erc20_charged v who fee t (CurrentTxIndex s) s1) in Hrun; [|by apply Hok|done|by apply Hst].
  destruct Hrun as [[[-> ?]|[-> ?]]|[[-> Hbad]|(x & tp & np & -> & config & [] & Htr & Hp)]]; [done..|by eauto|].
  split_and!; [done..| |done|done]. exists config. destruct cv_positive. by split_and!.
Qed.

(** ** The settlement after execution *)

(** What the runner does with the fee it withdrew. *)
Definition settle v (who : H160) (corrected_fee base_fee : U256) (withdrawn : LiquidityInfo)
    : M (FpStorage W) DispatchError unit :=
  let* tip := correct_and_deposit_fee who corrected_fee base_fee withdrawn in
  pay_priority_fee v tip.

(** The share of [x] that pays [part] of [whole]: a floor, all of it when the
    product does not fit. *)
Definition share (x part whole : U256) : U256 := if x * part <? 2 ^ 256 then x * part / whole else x.

Lemma mul_div_share x part whole : whole <> 0 -> default x (mul_div x part whole) = share x part whole.
Proof.
  intros Hw. unfold mul_div, u256_checked_mul, u256_checked_div, share.
  rewrite (proj2 (Z.eqb_neq whole 0)) by done. by case_match.
Qed.
Lemma share_range x part whole : 0 <= x -> 0 <= part <= whole -> 0 < whole -> 0 <= share x part whole <= x.
Proof.
  intros Hx Hp Hw. unfold share. case_match; [|lia].
  split; [apply Z.div_pos; nia|]. apply Z.div_le_upper_bound; nia.
Qed.
Lemma tip_portion_spec actual corrected base : 0 <= actual -> 0 <= base <= corrected ->
  tip_portion actual corrected base = if base <? corrected then actual - share actual base corrected else 0.
Proof.
  intros Ha Hb. unfold tip_portion. destruct (Z.ltb_spec base corrected); cbn [andb]; [|done].
  rewrite (proj2 (Z.eqb_neq corrected 0)) by lia. cbn [negb].
  rewrite mul_div_share by lia. apply sat_sub_small.
  by apply share_range; lia.
Qed.

(** A payment out of the collector that does not fail *)
Lemma payout_spec t to x s :
  standard t -> is_h160 to -> x < 2 ^ 256 -> 0 <= x <= token_balance (World s) t FeeCollectorAddress ->
  exists w', transfers (World s) w' t FeeCollectorAddress to x /\
    (run_transfer FeeCollectorAddress t to x s = (Done tt, (s <| World := w' |>))).
Proof.
  intros Hst Hto Hm Hx.
  destruct (run_transfer_spec FeeCollectorAddress t to x s Hst Hto) as (w' & [(_ & Hr & Ht)|(? & _)]); [lia| |lia].
  by exists w'.
Qed.

Lemma refund_runs who t x s : standard t -> is_h160 who -> x < 2 ^ 256 -> 0 <= x <= token_balance (World s) t FeeCollectorAddress ->
  exists w' l, transfers (World s) w' t FeeCollectorAddress who x /\
    (if x =? 0 then ret (E:=DispatchError) tt
      else
        let* refunded := result_of (refund_token who t x) in
        match refunded with
        | inr _ => fp_deposit (EvFeeRefundInToken who t x)
        | inl _ => ret tt
        end) s = (Done tt, (s <| World := w' |> <| FpEvents := l |>)).
Proof.
  intros Hst Hto Hm Hx. destruct (payout_spec t who x s Hst Hto Hm Hx) as (w' & Ht & Hr).
  unfold refund_token. destruct (Z.eqb_spec x 0) as [->|Hn].
  - exists (World s), (FpEvents s). split; [apply transfers_0|]. by destruct s.
  - exists w', (FpEvents s ++ [EvFeeRefundInToken who t x]). split; [done|].
    unfold result_of, map_err, transfer_to_user. cbv [bind]. by rewrite Hr.
Qed.

Lemma tip_runs v t x s : standard t -> is_h160 (fv_author v) -> x < 2 ^ 256 -> 0 <= x <= token_balance (World s) t FeeCollectorAddress ->
  exists w' l, transfers (World s) w' t FeeCollectorAddress (fv_author v) x /\
    pay_priority_fee v (LiERC20Tip t x) s = (Done tt, (s <| World := w' |> <| FpEvents := l |>)).
Proof.
  intros Hst Hto Hm Hx. destruct (payout_spec t (fv_author v) x s Hst Hto Hm Hx) as (w' & Ht & Hr).
  unfold pay_priority_fee. destruct (Z.eqb_spec x 0) as [->|Hn].
  - exists (World s), (FpEvents s). split; [apply transfers_0|]. by destruct s.
  - exists w', (FpEvents s ++ [EvTipPaymentInToken (fv_author v) t x]). split; [done|].
    unfold result_of, transfer_to_user. cbv [bind]. by rewrite Hr.
Qed.


(** ** The conversion *)

(** C37: a converted fee is exact to one unit of the token: its value at the
    prices read is at most the value of the fee, and one unit more would be
    above it. The conversion changes nothing. *)
Theorem conversion_within_one_unit v fee t s x tp np s' : fee_ok s -> 0 <= fee ->
  convert_native_to_token_with_prices v fee t s = (Done (x, tp, np), s') ->
  s' = s /\ exists config, AcceptedFeeTokens s !! t = Some config /\ enabled config = true /\
    x * (tp * 10 ^ 18) <= fee * np * 10 ^ decimals config < (x + 1) * (tp * 10 ^ 18).
Proof.
  intros Hok Hfee Hrun. apply convert_done in Hrun as [-> [config []]]; [|apply Hok|done].
  split; [done|]. exists config. split_and!; [done..| |]; subst x;
    set (a := fee * np * _); set (b := tp * _) in *.
  - pose proof (Z.mul_div_le a b). lia.
  - pose proof (Z.mul_succ_div_gt a b). lia.
Qed.

(** ** The pool *)

(** The conversion reads neither the counter nor the payments. *)
Lemma convert_index v fee t k :
  blind (fun s => s <| CurrentTxIndex := k |>) (convert_native_to_token_with_prices (W:=W) v fee t).
Proof.
  repeat first
    [ apply blind_ret | apply blind_ensure | apply blind_ok_or | apply blind_expect | apply blind_map_err
    | apply blind_state; [intros ?; reflexivity|intros ?] | apply blind_bind; [|intros ?]
    | progress unfold ensure_fresh
    | match goal with |- blind _ (if ?b then _ else _) => destruct b end ].
Qed.

Lemma word_of_bytes x : 0 <= x < 2 ^ 256 -> word 0 (to_be_bytes 32 x) = x.
Proof.
  intros Hx. unfold word. rewrite drop_0, take_ge by (rewrite to_be_bytes_length; lia).
  by apply from_to_be_bytes.
Qed.
Lemma token_balance_read s a t : standard t -> is_h160 a -> token_balance (World s) t a < 2 ^ 256 ->
  get_token_balance s a t = Some (token_balance (World s) t a).
Proof.
  intros Hst Ha Hm. unfold get_token_balance. rewrite balance_of_spec by done. cbn [mbind option_bind ci_succeed ci_value].
  unfold decode_u256_return. rewrite to_be_bytes_length. cbn [Nat.ltb Nat.leb].
  pose proof (token_nonneg (World s) t a Hst). by rewrite word_of_bytes.
Qed.

(** What a transaction of a user with a fee token shows to the pool *)
Lemma admitted_spec v s who t gas base : standard t -> is_h160 who -> token_balance (World s) t who < 2 ^ 256 ->
  validate_erc20_fee_user v s who t gas base = Some true ->
  is_erc20_fee_enabled v = true /\
  exists config x tp np, AcceptedFeeTokens s !! t = Some config /\ enabled config = true /\
    convert_native_to_token_with_prices v (gas * base) t s = (Done (x, tp, np), s) /\
    x <= token_balance (World s) t who.
Proof.
  intros Hst Hw Hm. unfold validate_erc20_fee_user, u256_checked_mul.
  destruct (is_erc20_fee_enabled v); cbn [negb]; [|done].
  destruct (AcceptedFeeTokens s !! t) as [config|]; [|done].
  destruct (enabled config) eqn:He; cbn [negb]; [|done]. destruct (_ <? 2 ^ 256); [|done].
  rewrite token_balance_read by done. unfold convert_native_to_token, bind at 1.
  pose proof (convert_reads_only v (gas * base) t s) as Hs.
  destruct (convert_native_to_token_with_prices v (gas * base) t s) as [[[[x tp] np]|e|] s1]; cbn; [|done..].
  cbv in Hs. subst s1. intros [= Hle%Z.leb_le]. split; [done|]. by exists config, x, tp, np.
Qed.

(** C22: a transaction that the pool admits because its sender holds enough of
    its fee token is charged in that token in the same state, at the gas limit
    and base fee the pool looked at. *)
Theorem pool_admits_payable v s who t target input gas base :
  fee_ok s -> standard t -> is_h160 who -> token_balance (World s) t who < 2 ^ 256 ->
  UserFeeToken s !! who = Some t -> 0 < gas -> 0 < base ->
  is_zero_balance_callable v s who target input gas base = Some true ->
  exists x tp np s',
    withdraw_fee v who (gas * base) s =
      (Done (LiERC20Withdrawn t x (gas * base) (CurrentTxIndex s) tp np), s') /\
    transfers (World s) (World s') t who FeeCollectorAddress x.
Proof.
  intros Hok Hst Hw Hm Hu Hg Hb. unfold is_zero_balance_callable. rewrite Hu. intros Hv.
  destruct (admitted_spec _ _ _ _ _ _ Hst Hw Hm Hv) as (Hen & config & x & tp & np & Ha & He & Hc & Hle).
  assert (0 <= gas * base) as Hfee by nia.
  destruct (convert_done _ _ _ _ _ _ _ _ (fo_decimals _ Hok) Hfee Hc) as [_ [c Hcv]].
  pose proof (convert_index v (gas * base) t (u32_sat_add (CurrentTxIndex s) 1) s) as Hi. rewrite Hc in Hi.
  cbn [fst snd] in Hi. unfold withdraw_fee. cbv [bind gets fp_put modify]. cbn [id].
  rewrite (proj2 (Z.eqb_neq (gas * base) 0)), Hen, Hu by lia. cbn [negb].
  set (s1 := s <| CurrentTxIndex := _ |>) in *. unfold withdraw_erc20_fee. cbv [bind gets]. cbn [id].
  change (AcceptedFeeTokens s1) with (AcceptedFeeTokens s). rewrite Ha, He. cbn [negb].
  unfold result_of at 1. rewrite Hi. unfold result_of, execute_fee_transfer, map_err, transfer_from_user.
  destruct (run_transfer_spec who t FeeCollectorAddress x s1 Hst collector_address (cv_range _ _ _ _ _ _ _ _ Hcv))
    as (w' & [(_ & -> & Htr)|(Hlt & _)]); [|change (World s1) with (World s) in Hlt; lia].
  by eexists x, tp, np, _.
Qed.
End Charge.

(** ** Preferences *)

Section Preferences.
Context {R W : Type} `{!FeeConfig, !GasCosts, !Runner W, !FeeCurrency W, !OracleRegistryManager R W}.
Implicit Types (v : FpView R) (s : FpStorage W).

(** The block from which a change made at [now] may be followed by another *)
Definition cooldown_end (now : BlockNumber) : BlockNumber := u32_sat_add now FeeTokenUpdateCooldown.

Lemma rate_limit_check v caller (p : PcState W) :
  check_rate_limit v caller p =
    (if is_rate_limited v (pc_storage p) caller
     then Fail (Revert "Rate limited: please wait before changing fee token") else Done tt, p).
Proof.
  unfold check_rate_limit, is_rate_limited. destruct (FeeTokenUpdateCooldown =? 0); [done|].
  cbv [bind on_storage gets]. destruct (LastFeeTokenUpdate _ !! caller) as [l|]; [|done].
  by destruct (fv_now v <? _).
Qed.
Lemma limited_until v s caller now : FeeTokenUpdateCooldown <> 0 -> LastFeeTokenUpdate s !! caller = Some now ->
  fv_now v < cooldown_end now -> is_rate_limited v s caller = true.
Proof.
  intros Hc Hl Hn. unfold is_rate_limited. rewrite (proj2 (Z.eqb_neq _ 0)), Hl by done. by apply Z.ltb_lt.
Qed.

(** The storage after the precompile set or cleared the token of [caller]. *)
Definition preference v (caller : H160) (token : option H160) s : FpStorage W :=
  s <| UserFeeToken ::= partial_alter (fun _ => token) caller |>
    <| LastFeeTokenUpdate ::= <[caller := fv_now v]> |>.
Lemma preference_token v caller token s : UserFeeToken (preference v caller token s) !! caller = token.
Proof. cbn. by rewrite lookup_partial_alter_eq. Qed.
Lemma preference_other v caller token s u : u <> caller ->
  UserFeeToken (preference v caller token s) !! u = UserFeeToken s !! u.
Proof. intros Hu. cbn. by rewrite lookup_partial_alter_ne. Qed.
Lemma preference_update v caller token s : LastFeeTokenUpdate (preference v caller token s) !! caller = Some (fv_now v).
Proof. cbn. by rewrite lookup_insert_eq. Qed.

(** The two calls of the precompile, run *)
Lemma record_cost_eq cost (p : PcState W) :
  record_cost cost p = if cost <=? pc_gas p then (Done tt, (p <| pc_gas ::= (fun g => g - cost) |>)) else (Fail OutOfGas, p).
Proof. unfold record_cost. cbv [bind gets ensure ret fail modify]. unfold id. by destruct (cost <=? pc_gas p). Qed.

Lemma set_runs v caller token config (s : FpStorage W) gas logs :
  0 <= db_write_gas_cost -> db_read_gas_cost * 2 + db_write_gas_cost * 2 <= gas ->
  is_rate_limited v s caller = false -> AcceptedFeeTokens s !! token = Some config -> enabled config = true ->
  pc_set_user_fee_token v caller token (mkPcState s gas logs) =
    (Done tt, mkPcState (preference v caller (Some token) s)
                (gas - db_read_gas_cost * 2 - db_write_gas_cost * 2) (logs ++ [(caller, token)])).
Proof.
  intros Hw Hg Hl Ha He. unfold pc_set_user_fee_token, bind.
  rewrite record_cost_eq. cbn [pc_gas]. rewrite (proj2 (Z.leb_le _ _)) by lia.
  rewrite record_cost_eq. cbn. rewrite (proj2 (Z.leb_le _ _)) by lia.
  rewrite rate_limit_check. cbn. rewrite Hl, Ha. cbn. rewrite He. done.
Qed.
Lemma clear_runs v caller (s : FpStorage W) gas logs :
  0 <= db_write_gas_cost -> db_read_gas_cost + db_write_gas_cost * 2 <= gas ->
  is_rate_limited v s caller = false ->
  pc_clear_user_fee_token v caller (mkPcState s gas logs) =
    (Done tt, mkPcState (preference v caller None s)
                (gas - db_read_gas_cost - db_write_gas_cost * 2) (logs ++ [(caller, 0%N)])).
Proof.
  intros Hw Hg Hl. unfold pc_clear_user_fee_token, bind.
  rewrite record_cost_eq. cbn [pc_gas]. rewrite (proj2 (Z.leb_le _ _)) by lia.
  rewrite record_cost_eq. cbn. rewrite (proj2 (Z.leb_le _ _)) by lia.
  rewrite rate_limit_check. cbn. rewrite Hl. done.
Qed.

(** The precompile decoded: the call an input selects *)
Definition selected (input : UnboundedBytes) : option (option H160) :=
  if bool_decide (take 4 input = SET_USER_FEE_TOKEN) then
    token ← extract_token_from_input input; Some (Some token)
  else if bool_decide (take 4 input = CLEAR_USER_FEE_TOKEN) then Some None
  else None.
Definition run_selected v (caller : H160) (token : option H160) : M (PcState W) PrecompileFailure unit :=
  match token with
  | Some t => pc_set_user_fee_token v caller t
  | None => pc_clear_user_fee_token v caller
  end.

Lemma feeless_selected v s caller target input : is_feeless v s caller target input = true ->
  target = Some TX_PAYMENT_PRECOMPILE /\ is_rate_limited v s caller = false /\
  exists token, selected input = Some token /\
    (forall t, token = Some t -> exists config, AcceptedFeeTokens s !! t = Some config /\ enabled config = true).
Proof.
  unfold is_feeless, is_feeless_internal, selected. destruct target as [a|]; [|done].
  destruct (N.eqb_spec a TX_PAYMENT_PRECOMPILE) as [->|]; cbn [andb]; [|done].
  destruct (Nat.leb 4 (length input)); [|done]. case_bool_decide.
  - destruct (is_rate_limited v s caller); [done|].
    destruct (extract_token_from_input input) as [t|]; [|done]. unfold validate_feeless_set_token.
    destruct (AcceptedFeeTokens s !! t) as [config|] eqn:Ha; [|done].
    destruct (enabled config) eqn:He; [|done]. intros _. split_and!; [done..|].
    exists (Some t). split; [done|]. intros ? [= <-]. by exists config.
  - case_bool_decide; [|done]. intros Hl%negb_true_iff. split_and!; [done..|]. by exists None.
Qed.


(** What the storage says of the preference of [caller] *)
Definition prefs (caller : H160) s := (UserFeeToken s !! caller, LastFeeTokenUpdate s !! caller).
(** The step is not the extrinsic [set_user_fee_token] of [caller]. *)
Definition quiet (caller : H160) (l : FeeLabel (W:=W)) : Prop :=
  match l with
  | LCall (SignedOrigin a) (CSetUserFeeToken _) => Z.to_N (from_be_bytes (take 20 (encode_account a))) <> caller
  | _ => True
  end.

Ltac keep_prefs := keep; apply stays_modify; intros ?; unfold same_by, prefs; cbn; by rewrite ?lookup_insert_ne, ?lookup_delete_ne.
Lemma call_prefs caller o c s : quiet caller (LCall o c) -> prefs caller (dispatch (run_fee_call o c) s).2 = prefs caller s.
Proof.
  intros Hq. destruct c as [| | |token|]; cbn [run_fee_call].
  4: { unfold dispatch. destruct (set_user_fee_token o token s) as [[[]|?|] s'] eqn:Hrun; [|done..].
    destruct o as [|a|]; cbn in Hq; [done| |done].
    unfold set_user_fee_token, account_to_h160, fp_deposit, fp_mutate, ensure_signed in Hrun. mrun.
    destruct token as [t|]; mrun; unfold prefs; cbn; by rewrite ?lookup_insert_ne, ?lookup_delete_ne. }
  all: apply (stays_dispatch (same_by (prefs caller))); keep.
Qed.
Lemma pc_set_prefs v caller u token p : u <> caller ->
  prefs caller (pc_storage (dispatch (pc_set_user_fee_token v u token) p).2) = prefs caller (pc_storage p).
Proof. intros Hu. apply (stays_dispatch (same_by (prefs caller ∘ pc_storage))). keep_prefs. Qed.
Lemma pc_clear_prefs v caller u p : u <> caller ->
  prefs caller (pc_storage (dispatch (pc_clear_user_fee_token v u) p).2) = prefs caller (pc_storage p).
Proof. intros Hu. apply (stays_dispatch (same_by (prefs caller ∘ pc_storage))). keep_prefs. Qed.

(** A rate-limited caller's calls of the precompile leave no trace. *)
Lemma cost_storage cost (p : PcState W) u p1 : record_cost cost p = (Done u, p1) -> pc_storage p1 = pc_storage p.
Proof. apply (stays_run (same_by pc_storage)). keep. Qed.
Lemma limited_check v caller (p : PcState W) (B : Type) (k : unit -> M (PcState W) PrecompileFailure B) a p' :
  is_rate_limited v (pc_storage p) caller = true -> bind (check_rate_limit v caller) k p <> (Done a, p').
Proof. intros Hl. unfold bind. rewrite rate_limit_check, Hl. done. Qed.
Lemma limited_set v caller token (p : PcState W) : is_rate_limited v (pc_storage p) caller = true ->
  (dispatch (pc_set_user_fee_token v caller token) p).2 = p.
Proof.
  intros Hl. apply dispatch_not_done. intros a p' Hrun. unfold pc_set_user_fee_token in Hrun.
  apply bind_done in Hrun as (? & p1 & H1%cost_storage & Hrun).
  apply bind_done in Hrun as (? & p2 & H2%cost_storage & Hrun).
  revert Hrun. apply limited_check. congruence.
Qed.
Lemma limited_clear v caller (p : PcState W) : is_rate_limited v (pc_storage p) caller = true ->
  (dispatch (pc_clear_user_fee_token v caller) p).2 = p.
Proof.
  intros Hl. apply dispatch_not_done. intros a p' Hrun. unfold pc_clear_user_fee_token in Hrun.
  apply bind_done in Hrun as (? & p1 & H1%cost_storage & Hrun).
  apply bind_done in Hrun as (? & p2 & H2%cost_storage & Hrun).
  revert Hrun. apply limited_check. congruence.
Qed.

Lemma step_prefs v l caller s s' : fee_step v l s s' -> quiet caller l -> is_rate_limited v s caller = true ->
  prefs caller s' = prefs caller s.
Proof.
  intros [_ ->] Hq Hl. destruct l as [n|o c|u token gas logs|u gas logs|who fee|who cf bf l|tip|w]; cbn [fee_run].
  - done.
  - by apply call_prefs.
  - destruct (decide (u = caller)) as [->|Hu]; [by rewrite limited_set|by apply pc_set_prefs].
  - destruct (decide (u = caller)) as [->|Hu]; [by rewrite limited_clear|by apply pc_clear_prefs].
  - match goal with |- prefs _ (?m _).2 = _ => enough (keeps (prefs caller) m) as Hk by apply Hk end. keep.
  - match goal with |- prefs _ (?m _).2 = _ => enough (keeps (prefs caller) m) as Hk by apply Hk end.
    unfold correct_and_deposit_fee. keep.
  - match goal with |- prefs _ (?m _).2 = _ => enough (keeps (prefs caller) m) as Hk by apply Hk end.
    unfold pay_priority_fee. keep.
  - done.
Qed.

Lemma selected_prefs v caller token (p p' : PcState W) : run_selected v caller token p = (Done tt, p') ->
  prefs caller (pc_storage p') = (token, Some (fv_now v)).
Proof.
  intros Hrun. destruct token as [t|]; cbn [run_selected] in Hrun;
    unfold pc_set_user_fee_token, pc_clear_user_fee_token, pc_mutate, pc_log, on_storage in Hrun; mrun;
    unfold prefs; cbn; by rewrite ?lookup_insert_eq, ?lookup_delete_eq.
Qed.

(** A quiet step before the end of the cooldown *)
Definition cooling (caller : H160) (until : BlockNumber) s s' : Prop :=
  exists v l, fee_step v l s s' /\ quiet caller l /\ fv_now v < until.

(** C20: a preference set or cleared through the precompile stays until the end
    of the cooldown, whatever happens in between - calls of the precompile by
    anybody, charges, blocks, extrinsics - but for the extrinsic
    [set_user_fee_token] of the user itself. *)
Theorem preference_held_for_cooldown v caller token s gas logs p s' :
  FeeTokenUpdateCooldown <> 0 ->
  dispatch (run_selected v caller token) (mkPcState s gas logs) = (Done tt, p) ->
  rtc (cooling caller (cooldown_end (fv_now v))) (pc_storage p) s' ->
  UserFeeToken s' !! caller = token.
Proof.
  intros Hc Hrun Hsteps. apply (proj1 (dispatch_done _ _ _ _)) in Hrun.
  assert (prefs caller (pc_storage p) = (token, Some (fv_now v))) as Hp.
  { by apply selected_prefs in Hrun. }
  induction Hsteps as [s1|s1 s2 s3 (v' & l & Hstep & Hq & Hn) _ IH]; [by injection Hp|].
  apply IH. rewrite (step_prefs v' l caller s1 s2); [done..|]. by eapply limited_until; [|injection Hp|].
Qed.

(** C23: the storage of the pallet is consistent in every reachable state: the
    decimals of the accepted tokens are at most 18, the payments of a block
    are numbered below the counter and a number has one payer. *)
Theorem fee_storage_consistent w s : fee_reachable w s ->
  map_Forall (fun _ c => 0 <= decimals c <= 18) (AcceptedFeeTokens s) /\
  forall u i info, PendingFeePayments s !! (u, i) = Some info ->
    0 <= i < CurrentTxIndex s /\
    forall u' info', PendingFeePayments s !! (u', i) = Some info' -> u' = u /\ info' = info.
Proof.
  intros [Hd Hi Hb Ho]%fee_reachable_ok. split; [done|]. intros u i info Hu. split; [by apply (Hb u)|].
  intros u' info' Hu'. assert (u' = u) as -> by (apply (Ho _ _ i); by eexists). split; congruence.
Qed.

(** A user whose fee token is not accepted any more is refused the calls
    the runner would let through for free: without native currency it cannot
    clear its preference. *)
Theorem stale_token_blocks_free_calls v s caller t target input gas base :
  UserFeeToken s !! caller = Some t -> is_token_accepted s t = false ->
  is_zero_balance_callable v s caller target input gas base = Some false.
Proof.
  intros Hu Hacc. unfold is_zero_balance_callable, validate_erc20_fee_user. rewrite Hu.
  unfold is_token_accepted in Hacc. destruct (is_erc20_fee_enabled v); cbn [negb]; [|done].
  destruct (AcceptedFeeTokens s !! t) as [c|]; [|done]. by rewrite Hacc.
Qed.

(** A fee worth less than one unit of the token is not paid at all. *)
Theorem small_fees_are_free v s who t config fee tp np :
  decimals_ok s -> 0 < fee -> is_erc20_fee_enabled v = true -> UserFeeToken s !! who = Some t ->
  AcceptedFeeTokens s !! t = Some config -> enabled config = true ->
  get_bfc_usd_price v s = (Done np, s) ->
  get_token_price_via_registry v t (max_staleness_seconds config) s = (Done tp, s) ->
  0 < np -> 0 < tp -> tp < 2 ^ 196 ->
  fee * np * 10 ^ decimals config < tp * 10 ^ 18 ->
  exists s', withdraw_fee v who fee s = (Done (LiERC20Withdrawn t 0 fee (CurrentTxIndex s) tp np), s') /\
    World s' = World s.
Proof.
  intros Hd Hfee Hen Hu Ha He Hnp Htp Hn Ht Htop Hsmall.
  assert (convert_native_to_token_with_prices v fee t s = (Done (0, tp, np), s)) as Hc.
  { unfold convert_native_to_token_with_prices. cbv [bind gets]. cbn [id]. rewrite Ha. cbn [ok_or ret].
    rewrite He. cbn [ensure ret]. rewrite Hnp. unfold map_err. rewrite Htp.
    specialize (Hd _ _ Ha). rewrite token_amount_spec by (done || lia).
    rewrite (proj2 (Z.ltb_lt _ (2 ^ 256))) by lia. cbn [ok_or ret]. rewrite Z.div_small; [done|].
    pose proof (Z.pow_nonneg 10 (decimals config)). nia. }
  pose proof (convert_index v fee t (u32_sat_add (CurrentTxIndex s) 1) s) as Hi. rewrite Hc in Hi.
  cbn [fst snd] in Hi. unfold withdraw_fee. cbv [bind gets fp_put modify]. cbn [id].
  rewrite (proj2 (Z.eqb_neq fee 0)), Hen, Hu by lia. cbn [negb].
  set (s1 := s <| CurrentTxIndex := _ |>) in *. unfold withdraw_erc20_fee. cbv [bind gets]. cbn [id].
  change (AcceptedFeeTokens s1) with (AcceptedFeeTokens s). rewrite Ha, He. cbn [negb].
  unfold result_of at 1. rewrite Hi. cbn. by eexists.
Qed.
End Preferences.

(** ** The oracle registry *)

Lemma set_aggregator_done o asset address decimal s s' :
  set_asset_aggregator o asset address decimal s = (Done tt, s') ->
  Aggregators s' = <[asset := mkAggregatorInfo address decimal]> (Aggregators s) /\
  forall ag, Aggregators s !! asset = Some ag -> ag_decimal ag = decimal.
Proof.
  destruct o; [|done..]. unfold set_asset_aggregator, ensure_root, or_deposit, or_mutate. intros Hrun. mrun.
  unfold id in *. destruct (Aggregators _ !! asset) as [ag|]; mrun; cbn; split; try done.
  intros ? [= <-]. by rename select ((_ =? _) = true) into He; apply Z.eqb_eq in He.
Qed.

(** The calls of the registry that concern an aggregator *)
Inductive aggregator_write (asset : H160) : OrStorage -> OrStorage -> Prop :=
| aw_set o a address decimal s s' : set_asset_aggregator o a address decimal s = (Done tt, s') ->
    aggregator_write asset s s'
| aw_remove o a s s' : a <> asset -> remove_asset_aggregator o a s = (Done tt, s') -> aggregator_write asset s s'.

(** The decimals of an aggregator never change while it is registered: an
    update must name another address and the same decimals. *)
Theorem aggregator_decimals_stuck asset s s' ag : rtc (aggregator_write asset) s s' ->
  Aggregators s !! asset = Some ag ->
  exists ag', Aggregators s' !! asset = Some ag' /\ ag_decimal ag' = ag_decimal ag.
Proof.
  intros Hr. revert ag. induction Hr as [s|s1 s2 s3 Hstep _ IH]; intros ag Ha; [by exists ag|].
  assert (exists ag', Aggregators s2 !! asset = Some ag' /\ ag_decimal ag' = ag_decimal ag) as (ag' & Ha' & <-);
    [|by apply IH]. clear IH.
  destruct Hstep as [o a address decimal s s' Hrun|o a s s' Hne Hrun].
  - apply set_aggregator_done in Hrun as [Hs Hold]. rewrite Hs.
    destruct (decide (a = asset)) as [->|Hne]; [|rewrite lookup_insert_ne by done; eauto].
    rewrite lookup_insert_eq. eexists. split; [done|]. cbn. by rewrite (Hold _ Ha).
  - destruct o; [|done..]. unfold remove_asset_aggregator, ensure_root, or_deposit, or_mutate in Hrun. mrun. cbn.
    rewrite lookup_delete_ne by done. eauto.
Qed.

(** The ABI encoding of an answer of [last_oracle_info] *)
Definition encode_oracle_info (i : OracleInfo) : UnboundedBytes :=
  to_be_bytes 32 (oi_round i) ++ to_be_bytes 32 (Z.of_N (oi_data i)) ++ to_be_bytes 32 (oi_block i) ++
  to_be_bytes 32 (oi_time i) ++ to_be_bytes 32 (oi_authority_round i) ++ to_be_bytes 32 (oi_reserved i).
Definition oracle_info_ok (i : OracleInfo) : Prop :=
  0 <= oi_round i < 2 ^ 256 /\ Z.of_N (oi_data i) < 2 ^ 256 /\ 0 <= oi_block i < u64_modulus /\
  0 <= oi_time i < u64_modulus /\ 0 <= oi_authority_round i < u64_modulus /\ 0 <= oi_reserved i < u64_modulus.

Lemma word_skip x l i : word (S i) (to_be_bytes 32 x ++ l) = word i l.
Proof.
  unfold word. rewrite Nat.mul_succ_r, Nat.add_comm, <- drop_drop.
  by rewrite drop_app_length' by (by rewrite to_be_bytes_length).
Qed.
Lemma word_head x l : 0 <= x < 2 ^ 256 -> word 0 (to_be_bytes 32 x ++ l) = x.
Proof.
  intros Hx. unfold word. rewrite drop_0, take_app_length' by (by rewrite to_be_bytes_length).
  by apply from_to_be_bytes.
Qed.

(** The answer of the oracle manager contract is read back exactly. *)
Theorem oracle_info_roundtrip i rest : oracle_info_ok i ->
  oracle_info_return (encode_oracle_info i ++ rest) = Some i.
Proof.
  intros (H1 & H2 & H3 & H4 & H5 & H6). unfold oracle_info_return, encode_oracle_info.
  rewrite (proj2 (Nat.ltb_ge _ _)) by (rewrite !length_app, !to_be_bytes_length; lia).
  rewrite <- !(assoc_L (++)), !word_skip. unfold u64_modulus in *.
  rewrite !word_head by lia. unfold low_u64, u64_modulus. rewrite !Z.mod_small, N2Z.id by done. by destruct i.
Qed.

(** ** BFC utility *)

Section Utility.
Context {C : Type} `{!BfcUtilityConfig, !MintCurrency C}.
Implicit Types s : BuStorage C.

Inductive BuCall : Type :=
| BCommunityProposal (proposal : UnboundedBytes)
| BMintNative (beneficiary : AccountId) (mint : Balance)
| BAddBlockedAccount (account : AccountId)
| BRemoveBlockedAccount (account : AccountId).
Definition run_bu_call (o : Origin) (c : BuCall) : M (BuStorage C) DispatchError unit :=
  match c with
  | BCommunityProposal proposal => community_proposal o proposal
  | BMintNative beneficiary mint => mint_native o beneficiary mint
  | BAddBlockedAccount account => add_blocked_account o account
  | BRemoveBlockedAccount account => remove_blocked_account o account
  end.
Definition bu_step s s' : Prop := exists o c, s' = (dispatch (run_bu_call o c) s).2.

Definition numbered (first : Z) s : Prop :=
  ProposalIndex s = (first + Z.of_nat (length (AcceptedProposals s))) mod u32_modulus /\
  forall k p, AcceptedProposals s !! k = Some p -> proposal_index p = (first + Z.of_nat k) mod u32_modulus.

Lemma proposal_numbered first o proposal s s' : numbered first s ->
  community_proposal o proposal s = (Done tt, s') -> numbered first s'.
Proof.
  intros [Hi Hl] Hrun. destruct o; [|done..].
  unfold community_proposal, ensure_root, bu_put, bu_deposit in Hrun. mrun. unfold id, numbered. cbn. split.
  - rewrite Hi, length_app. cbn. unfold u32_add. rewrite Zplus_mod_idemp_l. f_equal. lia.
  - intros k p. rewrite lookup_app_Some, list_lookup_singleton_Some. intros [Hk|(Hk & Hk0 & <-)]; [by apply Hl|].
    cbn. rewrite Hi. do 2 f_equal. lia.
Qed.

Lemma bu_step_numbered first s s' : bu_step s s' -> numbered first s -> numbered first s'.
Proof.
  intros (o & c & ->) Hn. unfold dispatch. destruct (run_bu_call o c s) as [[[]|?|] s'] eqn:Hrun; [|done..].
  destruct c; cbn in Hrun |- *; [by eapply proposal_numbered| | |]; destruct o;
    unfold mint_native, add_blocked_account, remove_blocked_account, ensure_root, bu_put, bu_deposit in Hrun;
    try destruct (deposit_creating _ _ _) in Hrun; mrun; try done.
  all: by repeat case_match; mrun.
Qed.

(** The accepted proposals are numbered in order from the index of genesis,
    modulo [2^32]. *)
Theorem proposals_numbered first c s : 0 <= first < u32_modulus -> rtc bu_step (bu_genesis first c) s ->
  numbered first s.
Proof.
  intros Hf Hr. assert (numbered first (bu_genesis (C:=C) first c)) as Hn.
  { split; [|by intros []]. cbn. rewrite Z.add_0_r, Z.mod_small by done. done. }
  revert Hn. induction Hr as [|s1 s2 s3 Hstep _ IH]; [done|]. intros Hn. apply IH. by eapply bu_step_numbered.
Qed.

(** An account is blocked from when root adds it until root removes it, and
    then signs no extrinsic and no Ethereum transaction, answers no call and
    counts as a precompile; nobody else is affected. *)
Theorem blocked_account_is_stopped {EthCall Call Handle Out : Type} account s s' :
  add_blocked_account RootOrigin account s = (Done tt, s') ->
  (forall a, is_blocked_account s' a = bool_decide (a = account) || is_blocked_account s a) /\
  check_blocked_origin s' (SignedOrigin account) = inl BadSigner /\
  (forall (check : EthCall -> option (InvalidTransaction + H160)) c, check c = Some (inr account) ->
    check_self_contained (Call:=Call) s' check (REthereum c) = Some (inl BadSigner)) /\
  (forall (address : Handle -> H160) (inner : Handle -> option (PrecompileOutcome Out)) h,
    address h = account ->
    precompiles_execute s' address inner h = Some (PcReverted blocked_account_revert_data)) /\
  (forall a, a <> account -> check_blocked_origin s' (SignedOrigin a) = check_blocked_origin s (SignedOrigin a)) /\
  exists s'', remove_blocked_account RootOrigin account s' = (Done tt, s'') /\
    BlockedAccounts s'' = BlockedAccounts s.
Proof.
  unfold add_blocked_account, ensure_root, bu_put. intros Hrun. mrun.
  rename select (negb _ = true) into Hnot. apply negb_true_iff in Hnot. unfold id in *.
  unfold is_blocked_account in *. apply bool_decide_eq_false in Hnot.
  set (s' := update_field _ _ _).
  assert (forall a, bool_decide (a ∈ BlockedAccounts s') =
    bool_decide (a = account) || bool_decide (a ∈ BlockedAccounts s)) as Hb.
  { intros a. apply eq_true_iff_eq. rewrite orb_true_iff, !bool_decide_eq_true. cbn. set_solver. }
  assert (bool_decide (account ∈ BlockedAccounts s') = true) as Hin by (rewrite Hb; by rewrite bool_decide_true).
  split_and!; [done|..].
  - unfold check_blocked_origin, is_blocked_account. by rewrite Hin.
  - intros check c Hc. unfold check_self_contained, is_blocked_account. by rewrite Hc, Hin.
  - intros address inner h Ha. unfold precompiles_execute, is_blocked_account. by rewrite Ha, Hin.
  - intros a Ha. unfold check_blocked_origin, is_blocked_account. by rewrite Hb, (bool_decide_false (a = account)).
  - unfold remove_blocked_account, ensure_root, bu_put, is_blocked_account. cbv [bind gets ret ensure modify].
    unfold id. rewrite Hin. eexists. split; [done|]. cbn. set_solver.
Qed.
End Utility.
