(* ===== verification/FeeRuns.v ===== *)
(** * A concrete payment of fees

    A ledger of tokens and native balances with two oracles and an
    aggregator, for which the laws of the fee theorems hold, and the runs the
    witnesses need: a charge, its settlement, a fee of nothing, the change of
    a preference. *)

From S2P Require Import Prelude Errors Primitives Cccp OracleRegistry FeePayment FeePrecompile FeeInv BfcUtility FeeTheorems.
Local Open Scope Z_scope.
Local Open Scope frame_scope.

(** ** The ledger *)

Record FeeLedger : Type := mkFeeLedger {
  fl_tokens : gmap (N * N) Z; fl_native : gmap N Z; fl_prices : gmap N OracleInfo
}.
Definition tokens_of (w : FeeLedger) (t a : H160) : Z := Z.max 0 (default 0 (fl_tokens w !! (t, a))).
Definition native_of (w : FeeLedger) (a : AccountId) : Z := default 0 (fl_native w !! a).

Definition usd_token : H160 := 77%N.
Definition oracle_manager : H160 := 50%N.
Definition collector : H160 := 9%N.

Definition move_tokens (w : FeeLedger) (t from to : H160) (x : Z) : FeeLedger :=
  let m := <[(t, from) := tokens_of w t from - x]> (fl_tokens w) in
  mkFeeLedger (<[(t, to) := Z.max 0 (default 0 (m !! (t, to))) + x]> m) (fl_native w) (fl_prices w).

Definition decode_address (b : UnboundedBytes) : N := Z.to_N (from_be_bytes b).
Definition true_word : UnboundedBytes := to_be_bytes 32 1.

#[export] Instance ledger_runner : Runner FeeLedger := {
  view_call w _ target input _ :=
    if N.eqb target oracle_manager then
      info ← fl_prices w !! decode_address (drop 4 input);
      Some (mkCallInfo true (encode_oracle_info info))
    else if Nat.eqb (length input) 4 then
      Some (mkCallInfo true (true_word ++ true_word ++ true_word ++ true_word ++ true_word))
    else Some (mkCallInfo true (to_be_bytes 32 (tokens_of w target (decode_address (drop 16 input)))));
  call_as_internal_call w from target input _ :=
    let to := decode_address (take 20 (drop 16 input)) in
    let x := from_be_bytes (drop 36 input) in
    if x <=? tokens_of w target from
    then (Some (mkCallInfo true true_word), move_tokens w target from to x)
    else (Some (mkCallInfo false []), w)
}.
#[export] Instance ledger_fee_currency : FeeCurrency FeeLedger := {
  fee_withdraw w a v :=
    if v <=? native_of w a
    then Some (v, mkFeeLedger (fl_tokens w) (<[a := native_of w a - v]> (fl_native w)) (fl_prices w))
    else None;
  fee_deposit_into_existing w a v :=
    Some (v, mkFeeLedger (fl_tokens w) (<[a := native_of w a + v]> (fl_native w)) (fl_prices w));
  drop_positive _ w := w;
  drop_negative _ w := w;
  on_unbalanced _ w := w
}.
#[export] Instance ledger_fee_config : FeeConfig := {
  fee_admin_origin o := match o with RootOrigin => true | _ => false end;
  FeeCollectorAddress := collector;
  FeeTokenUpdateCooldown := 100;
  NativeChainId := 3068;
  into_account_id a := a;
  encode_account a := to_be_bytes 20 (Z.of_N a)
}.
#[export] Instance ledger_gas : GasCosts := { db_read_gas_cost := 2; db_write_gas_cost := 5 }.
#[export] Instance ledger_world : FeeWorld FeeLedger := {
  token_balance := tokens_of;
  native := native_of;
  standard t := t = usd_token
}.

Lemma tokens_insert t a x m n p b :
  tokens_of (mkFeeLedger (<[(t, a) := x]> m) n p) t b = if decide (b = a) then Z.max 0 x else Z.max 0 (default 0 (m !! (t, b))).
Proof.
  unfold tokens_of. cbn. case_decide as E; [subst; by rewrite lookup_insert_eq|].
  rewrite lookup_insert_ne; [done|]. congruence.
Qed.
Lemma move_transfers w t from to x : 0 <= x <= tokens_of w t from -> transfers w (move_tokens w t from to x) t from to x.
Proof.
  intros Hx. split; cbn [token_balance native ledger_world].
  - intros a. unfold move_tokens. rewrite tokens_insert. unfold moved, tokens_of in *.
    destruct (decide (a = to)) as [->|Ha].
    + destruct (decide (to = from)) as [->|Hf].
      * rewrite lookup_insert_eq. cbn. lia.
      * rewrite lookup_insert_ne by congruence. lia.
    + destruct (decide (a = from)) as [->|Hf].
      * rewrite lookup_insert_eq. cbn. lia.
      * rewrite lookup_insert_ne by congruence. lia.
  - intros t' a Ht. unfold move_tokens, tokens_of. cbn. by rewrite !lookup_insert_ne by congruence.
  - done.
Qed.

Lemma decode_encode_address a : is_h160 a -> decode_address (to_be_bytes 20 (Z.of_N a)) = a.
Proof. unfold is_h160. intros Ha. unfold decode_address. rewrite from_to_be_bytes; [lia|]. change (256 ^ Z.of_nat 20) with (Z.of_N (2 ^ 160)). lia. Qed.
Lemma transfer_address to x : is_h160 to -> decode_address (take 20 (drop 16 (encode_transfer to x))) = to.
Proof.
  intros Ht. unfold encode_transfer, TRANSFER_SELECTOR, bytes4. rewrite app_assoc.
  rewrite drop_app_length' by (by rewrite length_app, to_be_bytes_length, length_replicate).
  rewrite take_app_length' by (by rewrite to_be_bytes_length). by apply decode_encode_address.
Qed.
Lemma transfer_amount to x : 0 <= x < 2 ^ 256 -> from_be_bytes (drop 36 (encode_transfer to x)) = x.
Proof.
  intros Hx. unfold encode_transfer, TRANSFER_SELECTOR, bytes4. rewrite !app_assoc.
  rewrite drop_app_length' by (by rewrite !length_app, !to_be_bytes_length, length_replicate).
  by apply from_to_be_bytes.
Qed.

#[export] Instance fee_ledger_laws : FeeWorldLaws (W:=FeeLedger).
Proof.
  split; cbn [token_balance native standard ledger_world].
  - done.
  - intros w t a _. unfold tokens_of. lia.
  - intros w t a -> Ha _. cbn [view_call ledger_runner]. change (N.eqb usd_token oracle_manager) with false.
    change (Nat.eqb (length (encode_balance_of a)) 4) with false. cbv iota. unfold encode_balance_of, BALANCE_OF_SELECTOR, bytes4. rewrite app_assoc.
    rewrite drop_app_length' by (by rewrite length_app, to_be_bytes_length, length_replicate).
    by rewrite decode_encode_address.
  - intros w t from to x -> Hto Hx Hb. exists true_word, (move_tokens w usd_token from to x).
    cbn [call_as_internal_call ledger_runner]. rewrite transfer_address, transfer_amount by (done || lia).
    rewrite (proj2 (Z.leb_le _ _)) by lia. split; [done|]. split; [done|]. apply move_transfers. lia.
  - intros w t from to x -> Hto Hx. exists (Some (mkCallInfo false [])), w.
    cbn [call_as_internal_call ledger_runner].
    assert (0 <= tokens_of w usd_token from) by (unfold tokens_of; lia).
    rewrite transfer_amount by lia. rewrite (proj2 (Z.leb_gt _ _)) by lia.
    split; [done|]. split; [|done]. by intros i [= <-].
  - intros w a x i w'. cbn. destruct (x <=? native_of w a); [|done]. intros [= <- <-]. split; [done|].
    split; [|done]. intros b. cbn [native ledger_world]. unfold native_of. cbn [fl_native].
    case_decide as E; [subst; rewrite lookup_insert_eq|rewrite lookup_insert_ne by congruence]; cbn; lia.
Qed.

(** ** A bridge user pays in dollars *)

Definition price (x : N) : OracleInfo := mkOracleInfo 1 x 990 990 1 0.
(** one BFC is three cents, the token is a dollar *)
Definition fee_prices : gmap N OracleInfo := {[1%N := price 30000000000000000; 2%N := price 1000000000000000000]}.
Definition fee_registry : OrStorage :=
  mkOrStorage {[OkNativeCurrency 3068 := 1%N; OkAsset usd_token := 2%N]} ∅ (Some oracle_manager) [].
Definition fee_view (now : Z) : FpView OrStorage := mkFpView fee_registry now 1000000 8%N 1000000000.
Definition user : H160 := 5%N.
Definition usd_config : FeeTokenConfig := mkFeeTokenConfig true 6 3600 0.
(** ten dollars, no native currency *)
Definition fee_world : FeeLedger := mkFeeLedger {[(usd_token, user) := 10000000]} ∅ fee_prices.
Definition one_bfc : Z := 1000000000000000000.

Definition f0 : FpStorage FeeLedger := fee_genesis fee_world.
Definition l1 : FeeLabel (W:=FeeLedger) := LCall RootOrigin (CAddFeeToken usd_token usd_config).
Definition f1 : FpStorage FeeLedger := Eval vm_compute in fee_run (fee_view 10) l1 f0.
Definition l2 : FeeLabel (W:=FeeLedger) := LSet user usd_token 100 [].
Definition f2 : FpStorage FeeLedger := Eval vm_compute in fee_run (fee_view 10) l2 f1.
Definition l3 : FeeLabel (W:=FeeLedger) := LWithdraw user one_bfc.
Definition f3 : FpStorage FeeLedger := Eval vm_compute in fee_run (fee_view 10) l3 f2.
(** three cents *)
Definition withdrawn : LiquidityInfo := LiERC20Withdrawn usd_token 30000 one_bfc 0 1000000000000000000 30000000000000000.

Lemma f1_step : fee_step (fee_view 10) l1 f0 f1.
Proof. split; [by vm_compute|vm_compute; reflexivity]. Qed.
Lemma f2_step : fee_step (fee_view 10) l2 f1 f2.
Proof. split; [done|vm_compute; reflexivity]. Qed.
Lemma f3_step : fee_step (fee_view 10) l3 f2 f3.
Proof. split; [by split|vm_compute; reflexivity]. Qed.
Lemma f2_reachable : fee_reachable (R:=OrStorage) fee_world f2.
Proof.
  eapply rtc_l; [by exists (fee_view 10), l1; apply f1_step|].
  apply rtc_once. by exists (fee_view 10), l2; apply f2_step.
Qed.
Lemma f3_reachable : fee_reachable (R:=OrStorage) fee_world f3.
Proof.
  eapply rtc_r; [apply f2_reachable|]. by exists (fee_view 10), l3; apply f3_step.
Qed.
Lemma f2_charge : withdraw_fee (fee_view 10) user one_bfc f2 = (Done withdrawn, f3).
Proof. vm_compute. reflexivity. Qed.
Lemma f2_token : UserFeeToken f2 !! user = Some usd_token.
Proof. vm_compute. reflexivity. Qed.
Lemma only_usd t : UserFeeToken f2 !! user = Some t -> t = usd_token.
Proof. rewrite f2_token. by intros [= <-]. Qed.

(** The charge: three cents went from the user to the collector. *)
Example charged_witness : fee_ok f2 /\ 0 < one_bfc /\
  transfers (World f2) (World f3) usd_token user collector 30000.
Proof.
  split; [exact (fee_reachable_ok (R:=OrStorage) _ _ f2_reachable)|]. split; [done|].
  pose proof (charged_exactly_once (fee_view 10) user one_bfc f2 (Done withdrawn) f3
    (fee_reachable_ok (R:=OrStorage) _ _ f2_reachable) ltac:(discriminate) only_usd f2_charge) as Hc.
  exact (proj1 (proj2 (proj2 (proj2 (proj2 (proj2 Hc)))))).
Defined.

Lemma half_used : share 30000 500000000000000000 one_bfc = 15000.
Proof. vm_compute. reflexivity. Qed.
Lemma base_share : share 15000 333333333333333333 500000000000000000 = 9999.
Proof. vm_compute. reflexivity. Qed.


Lemma f2_conversion : convert_native_to_token_with_prices (fee_view 10) one_bfc usd_token f2 =
  (Done (30000, 1000000000000000000, 30000000000000000), f2).
Proof. vm_compute. reflexivity. Qed.
Example conversion_witness :
  fee_ok f2 /\
  (f2 = f2 /\ exists config, AcceptedFeeTokens f2 !! usd_token = Some config /\ enabled config = true /\
    30000 * (1000000000000000000 * 10 ^ 18) <= one_bfc * 30000000000000000 * 10 ^ decimals config <
      (30000 + 1) * (1000000000000000000 * 10 ^ 18)).
Proof.
  split; [exact (fee_reachable_ok (R:=OrStorage) _ _ f2_reachable)|].
  apply (conversion_within_one_unit (fee_view 10) one_bfc usd_token f2 _ _ _ f2
    (fee_reachable_ok (R:=OrStorage) _ _ f2_reachable) ltac:(discriminate) f2_conversion).
Defined.

Lemma f2_admitted : is_zero_balance_callable (fee_view 10) f2 user (Some 33%N) [] 1000000 1000000000000 = Some true.
Proof. vm_compute. reflexivity. Qed.
Lemma usd_standard : standard (W:=FeeLedger) usd_token.
Proof. done. Qed.
Lemma f2_balance : token_balance (World f2) usd_token user < 2 ^ 256.
Proof. vm_compute. reflexivity. Qed.
Example admitted_witness : exists x tp np s',
  withdraw_fee (fee_view 10) user (1000000 * 1000000000000) f2 =
    (Done (LiERC20Withdrawn usd_token x (1000000 * 1000000000000) (CurrentTxIndex f2) tp np), s') /\
  transfers (World f2) (World s') usd_token user collector x.
Proof.
  exact (pool_admits_payable (fee_view 10) f2 user usd_token (Some 33%N) [] 1000000 1000000000000
    (fee_reachable_ok (R:=OrStorage) _ _ f2_reachable) usd_standard eq_refl f2_balance f2_token eq_refl eq_refl
    f2_admitted).
Defined.

Example consistent_witness : fee_reachable (R:=OrStorage) fee_world f3 /\
  map_Forall (fun _ c => 0 <= decimals c <= 18) (AcceptedFeeTokens f3).
Proof.
  split; [exact f3_reachable|]. exact (proj1 (fee_storage_consistent (R:=OrStorage) _ _ f3_reachable)).
Defined.

(** ** A fee of nothing, and the way back *)

(** The gas of a plain transfer at one gwei is worth less than a millionth of
    a dollar. *)
Definition small_fee : Z := 21000 * 1000000000.
Definition poor : H160 := 6%N.
Definition f4 : FpStorage FeeLedger := Eval vm_compute in fee_run (fee_view 10) (LSet poor usd_token 100 []) f2.
Lemma f4_decimals : decimals_ok f4.
Proof.
  intros t c. unfold f4. cbn [AcceptedFeeTokens]. intros Hc.
  apply elem_of_map_to_list in Hc. vm_compute in Hc. apply list_elem_of_singleton in Hc. by simplify_eq.
Qed.
Lemma f4_prices :
  get_bfc_usd_price (fee_view 10) f4 = (Done 30000000000000000, f4) /\
  get_token_price_via_registry (fee_view 10) usd_token 3600 f4 = (Done 1000000000000000000, f4).
Proof. split; vm_compute; reflexivity. Qed.
Lemma f4_config : AcceptedFeeTokens f4 !! usd_token = Some usd_config.
Proof. vm_compute. reflexivity. Qed.
Lemma f4_token : UserFeeToken f4 !! poor = Some usd_token.
Proof. vm_compute. reflexivity. Qed.

(** A user without a token or a native coin is not charged. *)
Example small_fee_witness : token_balance (World f4) usd_token poor = 0 /\ exists s',
  withdraw_fee (fee_view 10) poor small_fee f4 =
    (Done (LiERC20Withdrawn usd_token 0 small_fee (CurrentTxIndex f4) 1000000000000000000 30000000000000000), s') /\
  World s' = World f4.
Proof.
  split; [reflexivity|].
  exact (small_fees_are_free (fee_view 10) f4 poor usd_token usd_config small_fee _ _ f4_decimals eq_refl eq_refl
    f4_token f4_config eq_refl (proj1 f4_prices) (proj2 f4_prices) eq_refl eq_refl eq_refl eq_refl).
Defined.

(** The token is removed: the user may not even clear its preference. *)
Definition f5 : FpStorage FeeLedger := Eval vm_compute in fee_run (fee_view 10) (LCall RootOrigin (CRemoveFeeToken usd_token)) f2.
Lemma f5_token : UserFeeToken f5 !! user = Some usd_token.
Proof. vm_compute. reflexivity. Qed.
Lemma f5_feeless : is_feeless (fee_view 200) f5 user (Some TX_PAYMENT_PRECOMPILE) CLEAR_USER_FEE_TOKEN = true.
Proof. vm_compute. reflexivity. Qed.
Lemma f5_removed : is_token_accepted f5 usd_token = false.
Proof. vm_compute. reflexivity. Qed.
Example stale_token_witness :
  is_feeless (fee_view 200) f5 user (Some TX_PAYMENT_PRECOMPILE) CLEAR_USER_FEE_TOKEN = true /\
  is_zero_balance_callable (fee_view 200) f5 user (Some TX_PAYMENT_PRECOMPILE) CLEAR_USER_FEE_TOKEN 100000 1000000000
    = Some false.
Proof.
  split; [exact f5_feeless|].
  exact (stale_token_blocks_free_calls (fee_view 200) f5 user usd_token _ _ _ _ f5_token f5_removed).
Defined.

(** ** A change of preference *)

Definition set_input : UnboundedBytes := SET_USER_FEE_TOKEN ++ to_be_bytes 32 (Z.of_N usd_token).
Lemma f1_feeless : is_feeless (fee_view 10) f1 user (Some TX_PAYMENT_PRECOMPILE) set_input = true.
Proof. vm_compute. reflexivity. Qed.

Definition p2 : PcState FeeLedger := Eval vm_compute in
  (dispatch (run_selected (fee_view 10) user (Some usd_token)) (mkPcState f1 100 [])).2.
Lemma p2_run : dispatch (run_selected (fee_view 10) user (Some usd_token)) (mkPcState f1 100 []) = (Done tt, p2).
Proof. vm_compute. reflexivity. Qed.
(** A charge and an attempt to clear at block 50: the preference holds. *)
Definition f6 : FpStorage FeeLedger := fee_run (fee_view 50) l3 (pc_storage p2).
Definition f7 : FpStorage FeeLedger := fee_run (fee_view 50) (LClear user 100 []) f6.
Lemma p2_cools : rtc (cooling user (cooldown_end 10)) (pc_storage p2) f7.
Proof.
  eapply rtc_l; [exists (fee_view 50), l3; split; [split; [by split|done]|done]|].
  apply rtc_once. exists (fee_view 50), (LClear user 100 []). by split_and!.
Qed.
Lemma cooldown_set : FeeTokenUpdateCooldown <> 0.
Proof. cbn. discriminate. Qed.
Example held_witness : UserFeeToken f7 !! user = Some usd_token.
Proof.
  exact (preference_held_for_cooldown (fee_view 10) user (Some usd_token) f1 100 [] p2 f7 cooldown_set
    p2_run p2_cools).
Defined.

(** The extrinsic knows no cooldown: the same user clears its preference in
    the block it set it. *)
Example extrinsic_ignores_cooldown :
  UserFeeToken (fee_run (fee_view 10) (LCall (SignedOrigin user) (CSetUserFeeToken None)) f2) !! user = None.
Proof. vm_compute. reflexivity. Qed.

(** ** The registry and BFC utility *)

Definition ag_registry : OrStorage := mkOrStorage ∅ {[usd_token := mkAggregatorInfo 60%N 8]} None [].
Definition ag_registry' : OrStorage := (set_asset_aggregator RootOrigin usd_token 61%N 8 ag_registry).2.
Lemma ag_write : rtc (aggregator_write usd_token) ag_registry ag_registry'.
Proof. apply rtc_once. by apply (aw_set _ RootOrigin usd_token 61%N 8). Qed.
Example decimals_stuck_witness : exists ag, Aggregators ag_registry' !! usd_token = Some ag /\ ag_decimal ag = 8.
Proof. exact (aggregator_decimals_stuck usd_token _ _ (mkAggregatorInfo 60%N 8) ag_write eq_refl). Defined.

(** An aggregator of 96 decimals makes the price, and so the charge, panic. *)
Definition wide_registry : OrStorage :=
  mkOrStorage {[OkAsset usd_token := 0%N]} {[usd_token := mkAggregatorInfo 60%N 96]} None [].
Example oversized_decimals_panic :
  (get_token_price_via_registry (mkFpView wide_registry 10 1000000 8%N 1) usd_token 0 f2).1 = Trap.
Proof. vm_compute. reflexivity. Qed.

Example oracle_roundtrip_witness : oracle_info_ok (price 7) /\
  oracle_info_return (encode_oracle_info (price 7) ++ [x00]) = Some (price 7).
Proof.
  split; [by vm_compute|]. apply (oracle_info_roundtrip (price 7) [x00]). by vm_compute.
Defined.

#[export] Instance utility_config : BfcUtilityConfig := {
  mintable_origin o := match o with RootOrigin => true | _ => false end;
  to_hex b _ := String.string_of_list_byte b
}.
#[export] Instance utility_currency : MintCurrency Z := { deposit_creating c _ v := (v, c + v); drop_minted _ c := c }.
Definition b0 : BuStorage Z := bu_genesis 5 0.
Definition b1 : BuStorage Z := (dispatch (run_bu_call RootOrigin (BCommunityProposal [x01])) b0).2.
Lemma bu1_steps : rtc (bu_step (C:=Z)) (bu_genesis 5 0) b1.
Proof. apply rtc_once. by exists RootOrigin, (BCommunityProposal [x01]). Qed.
Example numbered_witness : 0 <= 5 < u32_modulus /\ numbered 5 b1.
Proof. split; [done|]. exact (proposals_numbered 5 0 b1 ltac:(done) bu1_steps). Defined.

Definition b2 : BuStorage Z := (add_blocked_account RootOrigin 12%N b0).2.
Example blocked_witness : check_blocked_origin b2 (SignedOrigin 12%N) = inl BadSigner.
Proof.
  exact (proj1 (proj2 (blocked_account_is_stopped (EthCall:=unit) (Call:=unit) (Handle:=N) (Out:=unit)
    12%N b0 b2 eq_refl))).
Defined.
